(* ===== verification/_CoqProject ===== *)
-Q . S2P
Prelude.v
PyStr.v
PyVal.v
PyNet.v
JsonText.v
Config.v
Logging.v
Crypto.v
Database.v
DatabaseSpec.v
World.v
LogSafe.v
Discovery.v
Auth.v
UrlValidation.v
Fuzz.v
Preflight.v
Mapper.v
Pusher.v
Outbox.v
OutboxSpec.v
OutboxDrain.v
OutboxRecovery.v
Lifespan.v
Webhook.v
EndToEnd.v
StreamsApi.v
StreamsType.v
AppleScim.v
AppleWalk.v
AppleScimLogic.v
AppleScimSpec.v
AppleUpdate.v
AppleDirectory.v
AppleConverge.v
AppleLog.v
Coordination.v
StreamLock.v
Alerts.v
ScimToken.v
Authentik.v
AppleOAuth.v
AppleSync.v
Service.v
ServiceSteps.v
Startup.v
Deployment.v
PyText.v
PyRe.v
SyncWiki.v
ReleaseDocs.v
ReleaseNotes.v
