(* ===== verification/Prelude.v ===== *)
(** * SSF transmitter: verification development

    The program is a service that receives events from an Authentik identity
    provider and forwards them, as signed Security Event Tokens, to one
    receiver (Shared Signals Framework); independently it synchronises
    Authentik users to Apple Business Manager over SCIM.  This library
    translates the Python code of [src/app], and of the release scripts, to
    executable functions and proves what each part promises.

    ** How the code is represented

    - This file: exceptions as the type [exn], results as [result A], the
      state-and-exception monad [M S A] (changes made before an exception are
      kept, as in Python), lenses between states, tactics and list lemmas.
    - [PyStr], [PyVal], [PyNet], [JsonText]: the parts of Python the code uses -
      strings, dynamic JSON values, [urllib.parse] and [ipaddress], [json].
      Strings are sequences of code points below 256; the recursion limit of
      the interpreter is not modelled.
    - [PyText], [PyRe]: for the release scripts, texts of Unicode code points,
      paths and files, and the regular expressions the scripts use, with a
      backtracking matcher that is proved sound and complete for their
      language.
    - [World]: clock, randomness, DNS and HTTP are oracles indexed by a tick,
      so every theorem holds for every behaviour of the network, failures and
      lies included; requests and lookups are recorded in a trace.  The
      [emits] lemmas compute what a function may send.
    - Third-party code is an interface: [Crypto.CryptoLib] with the laws
      [CryptoLaws] (Fernet, HMAC, JWT, RSA), [ScimToken.Sqlite] (the text of a
      float), [Discovery.Headers] with [HeadersLaws] (Starlette's headers),
      [Outbox.Tasks] with [TasksLaws] and [AppleOAuth.Schedule] (what
      the other tasks of the event loop do), and [ReleaseDocs.Toml] and
      [PyText.UnicodeData] ([tomllib], the table of decimal digits).  Witnesses instantiate all of them.

    ** The parts, their source, and what is shown

    - [Service] ([app/main.py] and the routers): the state of the process, the
      endpoints with the dependencies they declare, and a request's way
      through middlewares, access control, handler and exception handler.
      Without the token a management request is refused with nothing done;
      without any credential no request changes anything.  [ServiceSteps]:
      whatever an entry point of the process does, the database goes through
      steps of its layer with well-typed arguments.
    - [Deployment] composes the parts: over any history of starts, requests,
      deliveries, synchronisations, exits and reconfigurations, the process
      refines [Startup.running] and keeps settings, keys, database rows and
      stored streams as they should be.
    - [Config] ([app/config.py]): the module is imported with settings that
      satisfy the rules the other parts rely on, or the process exits; what is logged of them does not depend on a secret.
      [Logging]: the loggers [configure_logging] leaves, and the access log.
    - [Crypto] ([app/crypto.py]): encryption round trips, a rotated key fails
      closed, [ensure_keys] leaves usable signing material.
    - [Database], [DatabaseSpec] ([app/database.py]): tables as lists of rows,
      one function per operation; the row invariant [db_ok] over all reachable
      databases, atomic enqueueing within the capacity, FIFO delivery order,
      no stale delivery survives an update.
    - [UrlValidation] ([app/security/url_validation.py]): a receiver URL that
      passes resolves to public addresses only; the blocked ranges are the
      declared networks after unwrapping embedded IPv4 addresses.
    - [Mapper], [Pusher] ([app/events/mapper.py], [app/events/pusher.py]): which
      events are produced; a push goes to the stream's endpoint, revalidated,
      with its credential, and to nothing else.
    - [Outbox], [OutboxSpec] ([app/events/outbox.py]): [verdict] is the
      abstract outcome table of one delivery, with the requests, dates and
      ticks it depends on, and [_deliver_item] refines it; [pass_run] is a pass
      as the sequence of its visits, and every request is justified by the
      database of the visit that sent it; no delivery is lost, whatever other
      tasks commit in between.  [OutboxDrain] is the
      worker's progress: with a working receiver the queue drains, in order;
      [OutboxRecovery]: with one that works from some moment on, it drains too.
    - [Webhook] ([app/routes/webhook.py]): nothing happens without
      authentication; the answer tells the truth about what was queued.
      [EndToEnd] composes webhook and worker: an accepted event is sent to the
      receiver, as the SETs the answer counted, however long the receiver was
      down.
    - [Auth] ([app/auth.py]): the bearer decision, and the failure limit equal
      to a sliding window over the whole history.
    - [StreamsApi] ([app/models.py], [app/routes/streams.py],
      [app/routes/verification.py]): registration confirms the receiver first, and stores
      the stream the body asked for.
      [StreamsType] types the stored streams and shows that every call of the
      interface preserves the typing, whatever its outcome.
    - [Discovery] ([app/routes/root.py], [wellknown.py], [jwks.py] and the
      middlewares of [app/main.py]): the pages escape what they echo; every
      response is framed with the security headers and its request's identifier.
    - [LogSafe] ([app/security/pii.py], [log_sanitize.py], [http_logging.py]):
      the e-mail pattern as a matcher proved against its language; redacted
      text holds no address; the preview of a body that parses as JSON within
      the limit holds no secret, while a longer one may.  [Fuzz]
      ([fuzz/]): the two fuzz targets fail on no text.
    - [AppleScim], [AppleScimLogic], [AppleScimSpec] ([app/scim/apple.py]): the
      records Apple returns are shared dictionaries, kept in a heap; a program
      logic of triples shows that the listing only reads and that every write
      goes to an account that belongs to the source user and carries what the
      source user asks for; pagination
      terminates, a full listing is complete, everyone is counted, and a
      directory in step with the source is left alone.  [AppleWalk] is the
      calculus behind the frame lemmas: which relations between states every
      function of the client respects.  [AppleUpdate]: updates stay in scope,
      and applied as SCIM says they leave nothing to update.  [AppleDirectory]
      is a model of Apple's directory as the SCIM specification has it, and
      [AppleConverge] composes all of them: against such a directory one
      synchronisation leaves everyone in step and the next one only reads.
      [AppleLog]: the helpers that decide what the client logs of a person.
    - [Coordination] ([app/scim/coordination.py]): the coordinator as a
      transition system, and the registry that hands it out; mutual exclusion
      without lost wake-ups, and every waiting task is served.  [StreamLock]
      does the same for [stream_operation_lock] of [app/database.py], down to
      the futures of [asyncio.Lock].
    - [Alerts] ([app/alerts.py]): over the whole history of calls, an event is
      reported at most once an hour, and whenever it may be.
    - [ScimToken] ([app/scim/token.py]), [Authentik]
      ([app/scim/authentik.py]), [AppleOAuth] ([app/routes/apple_scim.py] and
      the scheduled sync of [app/main.py]): the token life cycle, with
      the row each answer of Apple is stored as; what is synchronised;
      single-use OAuth states and the callback.  [AppleSync] composes them: in
      one synchronisation, requests go to Apple's token endpoint, to Authentik
      and to Apple's directory in that order; the directory is contacted only
      with the token obtained and after Authentik served its complete listing,
      and writes are only for the users of that listing.
    - [Preflight], [Startup] ([app/startup.py], [lifespan] of [app/main.py]): what
      the checks log and when they refuse a start; the quarantine of streams
      whose token cannot be decrypted; and the sequences of starts, stops,
      changes of settings and steps of the database layer.
      [Lifespan] is the other half: the background tasks, and a shutdown that
      waits for the worker, which starts no delivery once asked to stop.
    - [SyncWiki], [ReleaseDocs], [ReleaseNotes] ([scripts/]): the tools of a
      release.  A changelog is parsed back to its entries; updating the
      documentation is what [--check] announces, document by document; a page
      published to the wiki keeps its text, its links lead somewhere, and no
      other page is touched.

    ** Fuel

    [AppleScim.list_pages] runs with the announced number of users, which
    [AppleScimSpec.list_pages_terminates] shows to be enough.  The Authentik
    paging loop follows links the server chooses and need not end; its fuel
    is an argument and running out is a value of its own.  The delivery loop
    takes the number of rounds as its argument.

    ** Not modelled

    Log lines, except those of the preflight and the helpers that format the
    Apple client's (that the client calls them is not); slowapi's request
    limits, FastAPI's routing and parsing and pydantic's; SQLite's connections
    and failures; what the release scripts print.  Within one handler other tasks are taken into account where
    they can interfere with it: the outbox worker's database accesses, and the
    wait for the Apple connection.  The token lock of [app/scim/coordination.py]
    is only taken inside an operation, which [Coordination] shows exclusive.

    ** Plan

    The parts of the source that carry its logic are modelled.  What is left
    are the log lines the handlers and the Apple client write on their way,
    the kinds of answer FastAPI and pydantic give to malformed requests, and
    the interleaving of a handler's own accesses with handlers other than
    those named above. *)
From Stdlib Require Import ZArith Lia Sorting.Sorted.
From stdpp Require Import base option list strings gmap.

(** ** Exceptions

    The exception classes the program raises or catches.  [JSONDecodeError]
    is a subclass of [ValueError] and [OtherException] stands for any class
    the code catches only with [except Exception].  [SystemExit] is raised by
    the release scripts only. *)
Inductive exn : Type :=
| ValueError (msg : string)
| JSONDecodeError
| UnicodeDecodeError
| TypeError
| KeyError
| IndexError
| AttributeError
| OverflowError
| RuntimeError (msg : string)
| OSError
| TimeoutError
| HTTPError
| OtherException
| HTTPException (status_code : Z) (detail : string)
| StreamChangedError (msg : string)
| OutboxFullError (msg : string)
| TokenDecryptionError
| EncryptedDataError (msg : string)
| AppleUserListError (msg : string)
| AppleFilteredLookupRequired (by_external_id by_username : list (string * nat))
| AppleScimBusy
| SystemExit.

#[export] Instance exn_eq_dec : EqDecision exn.
Proof. solve_decision. Defined.

(** [isinstance(e, ValueError)] *)
Definition is_ValueError (e : exn) : bool :=
  match e with
  | ValueError _ | JSONDecodeError | UnicodeDecodeError => true
  | _ => false
  end.

(** [isinstance(e, AppleUserListError)] *)
Definition is_AppleUserListError (e : exn) : bool :=
  match e with
  | AppleUserListError _ | AppleFilteredLookupRequired _ _ => true
  | _ => false
  end.

(** ** Results: a value or a raised exception *)
Inductive result (A : Type) : Type :=
| Ok (a : A)
| Err (e : exn).
Arguments Ok {A} a.
Arguments Err {A} e.

#[export] Instance result_ret : MRet result := fun A a => Ok a.
#[export] Instance result_bind : MBind result := fun A B k m =>
  match m with Ok a => k a | Err e => Err e end.
#[export] Instance result_map : FMap result := fun A B f m =>
  match m with Ok a => Ok (f a) | Err e => Err e end.
#[export] Instance result_eq_dec {A} `{EqDecision A} : EqDecision (result A).
Proof. solve_decision. Defined.

Definition is_ok {A} (r : result A) : bool :=
  match r with Ok _ => true | Err _ => false end.

(** [try m except <handler>]: the handler answers [None] for an exception it
    does not catch. *)
Definition catch {A} (m : result A) (h : exn -> option (result A)) : result A :=
  match m with
  | Ok a => Ok a
  | Err e => default (Err e) (h e)
  end.

(** [if b: raise e] *)
Definition raise_when (b : bool) (e : exn) : result unit :=
  if b then Err e else Ok tt.

(** A comprehension whose body can raise: left to right, first error wins. *)
Fixpoint mapR {A B} (f : A -> result B) (l : list A) : result (list B) :=
  match l with
  | [] => Ok []
  | x :: t => y ← f x; ys ← mapR f t; Ok (y :: ys)
  end.

(** A [for] loop that threads an accumulator and can raise. *)
Fixpoint foldR {A B} (f : B -> A -> result B) (l : list A) (acc : B) : result B :=
  match l with
  | [] => Ok acc
  | x :: t => acc' ← f acc x; foldR f t acc'
  end.

(** ** State and exceptions

    [M S A] is a computation on a mutable state [S] that returns a value or
    raises.  As in Python, the changes made before an exception is raised
    are kept. *)
Definition M (S A : Type) : Type := S -> result A * S.

#[export] Instance M_ret {S} : MRet (M S) := fun A a s => (Ok a, s).
#[export] Instance M_bind {S} : MBind (M S) := fun A B k m s =>
  match m s with
  | (Ok a, s') => k a s'
  | (Err e, s') => (Err e, s')
  end.

Definition raiseM {S A} (e : exn) : M S A := fun s => (Err e, s).
Definition liftR {S A} (r : result A) : M S A := fun s => (r, s).
Definition getM {S} : M S S := fun s => (Ok s, s).
Definition modifyM {S} (f : S -> S) : M S unit := fun s => (Ok tt, f s).
Definition catchM {S A} (m : M S A) (h : exn -> option (M S A)) : M S A := fun s =>
  match m s with
  | (Ok a, s') => (Ok a, s')
  | (Err e, s') => match h e with Some k => k s' | None => (Err e, s') end
  end.

Fixpoint forM {S A} (f : A -> M S unit) (l : list A) : M S unit :=
  match l with
  | [] => mret tt
  | x :: t => _ ← f x; forM f t
  end.

(** A lens: how a component's state is stored inside a larger one. *)
Class Lens (S T : Type) := {
  lget : S -> T;
  lset : T -> S -> S;
}.

Class LensLaws (S T : Type) `{Lens S T} := {
  lget_lset t s : lget (lset t s) = t;
  lset_lget s : lset (lget s) s = s;
  lset_lset t t' s : lset t (lset t' s) = lset t s;
}.

Definition zoom {S T A} `{Lens S T} (m : M T A) : M S A := fun s =>
  let '(r, t) := m (lget s) in (r, lset t s).

#[export] Instance lens_id S : Lens S S := {| lget s := s; lset t _ := t |}.
#[export] Instance lens_id_laws S : LensLaws S S.
Proof. by split. Qed.

(** ** Tactics *)

(** Split a successful bind in a hypothesis. *)
Ltac inv_ok :=
  repeat match goal with
  | H : Ok _ = Ok _ |- _ => injection H as H; try subst
  | H : Err _ = Err _ |- _ => injection H as H; try subst
  | H : Ok _ = Err _ |- _ => discriminate H
  | H : Err _ = Ok _ |- _ => discriminate H
  | H : (_, _) = (_, _) |- _ => injection H as ? H; try subst
  end.

(** Case analysis on every [if] and [match] scrutinee of a hypothesis. *)
Ltac case_in H :=
  repeat (match type of H with
  | context [match ?x with _ => _ end] => destruct x eqn:?
  end; simplify_eq/=; try done).

(** Turn boolean hypotheses into propositions. *)
Ltac bool_hyps :=
  repeat match goal with
  | H : andb _ _ = true |- _ => apply andb_prop in H as [? ?]
  | H : orb _ _ = false |- _ => apply orb_false_elim in H as [? ?]
  | H : negb _ = true |- _ => apply negb_true_iff in H
  | H : negb _ = false |- _ => apply negb_false_iff in H
  | H : Z.leb _ _ = true |- _ => apply Z.leb_le in H
  | H : Z.leb _ _ = false |- _ => apply Z.leb_gt in H
  | H : Z.ltb _ _ = true |- _ => apply Z.ltb_lt in H
  | H : Z.ltb _ _ = false |- _ => apply Z.ltb_ge in H
  | H : Z.eqb _ _ = true |- _ => apply Z.eqb_eq in H
  | H : Z.eqb _ _ = false |- _ => apply Z.eqb_neq in H
  | H : String.eqb _ _ = true |- _ => apply String.eqb_eq in H
  | H : String.eqb _ _ = false |- _ => apply String.eqb_neq in H
  | H : bool_decide _ = true |- _ => apply bool_decide_eq_true in H
  | H : bool_decide _ = false |- _ => apply bool_decide_eq_false in H
  end.

(** ** Lemmas on results *)

Lemma bind_ok {A B} (m : result A) (k : A -> result B) b :
  (m ≫= k) = Ok b <-> exists a, m = Ok a /\ k a = Ok b.
Proof.
  destruct m as [a|e]; simpl; split; intros H.
  - by exists a.
  - by destruct H as (? & [= ->] & ?).
  - done.
  - by destruct H as (? & [=] & ?).
Qed.

Lemma bind_assoc_result {A B C} (m : result A) (f : A -> result B) (g : B -> result C) :
  ((m ≫= f) ≫= g) = (m ≫= fun a => f a ≫= g).
Proof. by destruct m. Qed.

Lemma raise_when_ok b e u : raise_when b e = Ok u <-> b = false.
Proof. destruct b, u; simpl; split; congruence. Qed.

Lemma mapR_ok {A B} (f : A -> result B) l ys :
  mapR f l = Ok ys <-> Forall2 (fun x y => f x = Ok y) l ys.
Proof.
  revert ys; induction l as [|x l IH]; intros ys; simpl.
  - split; [by intros [= <-]; constructor | by inversion 1].
  - rewrite bind_ok; split.
    + intros (y & Hy & H). apply bind_ok in H as (t & Ht & [= <-]).
      constructor; [done|]. by apply IH.
    + inversion 1; subst. eexists; split; [done|].
      apply bind_ok. eexists; split; [by apply IH|done].
Qed.

Lemma mapR_total {A B} (f : A -> result B) l :
  (forall x, x ∈ l -> exists y, f x = Ok y) -> exists ys, mapR f l = Ok ys.
Proof.
  induction l as [|x l IH]; intros H; simpl; [by eexists|].
  destruct (H x) as [y ->]; [set_solver|].
  destruct IH as [ys ->]; [set_solver|]. by eexists.
Qed.

Lemma foldR_app {A B} (f : B -> A -> result B) l1 l2 acc :
  foldR f (l1 ++ l2) acc = foldR f l1 acc ≫= foldR f l2.
Proof.
  revert acc; induction l1 as [|x l1 IH]; intros acc; simpl; [done|].
  destruct (f acc x); simpl; [apply IH|done].
Qed.

(** An invariant of the accumulator holds at the end of the loop. *)
Lemma foldR_ind {A B} (f : B -> A -> result B) (P : list A -> B -> Prop) l acc acc' :
  P [] acc ->
  (forall done x a a', P done a -> f a x = Ok a' -> P (done ++ [x]) a') ->
  foldR f l acc = Ok acc' -> P l acc'.
Proof.
  intros H0 Hstep.
  assert (forall l done acc, P done acc -> foldR f l acc = Ok acc' -> P (done ++ l) acc') as Hgen.
  { clear -Hstep. induction l as [|x l IH]; intros d a Ha H; simpl in H.
    - inv_ok. by rewrite app_nil_r.
    - apply bind_ok in H as (a' & Ha' & H).
      apply (IH (d ++ [x]) a') in H; [by rewrite <- app_assoc in H|eauto]. }
  intros H. by apply (Hgen l [] acc).
Qed.

(** ** Lemmas on stateful computations *)

Lemma M_bind_run {S A B} (m : M S A) (k : A -> M S B) s r s' :
  m s = (r, s') ->
  (m ≫= k) s = match r with Ok a => k a s' | Err e => (Err e, s') end.
Proof. unfold mbind, M_bind. intros ->. by destruct r. Qed.

Lemma M_bind_ok {S A B} (m : M S A) (k : A -> M S B) s b s' :
  (m ≫= k) s = (Ok b, s') <->
  exists a s1, m s = (Ok a, s1) /\ k a s1 = (Ok b, s').
Proof.
  unfold mbind, M_bind; destruct (m s) as [[a|e] s1]; split.
  - intros H. by exists a, s1.
  - by intros (? & ? & [= -> ->] & ?).
  - done.
  - by intros (? & ? & [=] & ?).
Qed.

Lemma M_ret_bind {S A B} (a : A) (k : A -> M S B) s : (mret a ≫= k) s = k a s.
Proof. done. Qed.

Lemma liftR_bind {S A B} (r : result A) (k : A -> M S B) s :
  (liftR r ≫= k) s = match r with Ok a => k a s | Err e => (Err e, s) end.
Proof. by destruct r. Qed.

(** Run the next pure step of a computation, by cases on its result. *)
Ltac liftR_step E :=
  rewrite liftR_bind;
  match goal with |- context [match ?r with Ok _ => _ | Err e => (Err e, _) end] =>
    destruct r eqn:E
  end.

Lemma M_bind_assoc {S A B C} (m : M S A) (f : A -> M S B) (g : B -> M S C) s :
  ((m ≫= f) ≫= g) s = (m ≫= fun a => f a ≫= g) s.
Proof. unfold mbind, M_bind. by destruct (m s) as [[]]. Qed.

(** A property of the final state, whatever the outcome. *)
Definition preserves {S A} (P : S -> Prop) (m : M S A) : Prop :=
  forall s r s', m s = (r, s') -> P s -> P s'.

Lemma preserves_ret {S A} (P : S -> Prop) (a : A) : preserves P (mret a : M S A).
Proof. intros s r s' [= <- <-]. done. Qed.
Lemma preserves_raise {S A} (P : S -> Prop) e : preserves P (raiseM e : M S A).
Proof. intros s r s' [= <- <-]. done. Qed.
Lemma preserves_liftR {S A} (P : S -> Prop) (r : result A) : preserves P (liftR r : M S A).
Proof. intros s r' s' [= <- <-]. done. Qed.
Lemma preserves_get {S} (P : S -> Prop) : preserves P (getM : M S S).
Proof. intros s r s' [= <- <-]. done. Qed.
Lemma preserves_bind {S A B} (P : S -> Prop) (m : M S A) (k : A -> M S B) :
  preserves P m -> (forall a, preserves P (k a)) -> preserves P (m ≫= k).
Proof.
  intros Hm Hk s r s'. unfold mbind, M_bind.
  destruct (m s) as [[a|e] s1] eqn:E; intros H HP.
  - eapply Hk; eauto.
  - injection H as <- <-. eauto.
Qed.
(** With what the first step establishes. *)
Lemma preserves_bind_post {S A B} (P : S -> Prop) (Q : A -> Prop) (m : M S A) (k : A -> M S B) :
  preserves P m -> (forall s a s', P s -> m s = (Ok a, s') -> Q a) -> (forall a, Q a -> preserves P (k a)) ->
  preserves P (m ≫= k).
Proof.
  intros Hm HQ Hk s r s'. unfold mbind, M_bind. destruct (m s) as [[a|e] s1] eqn:E; intros H HP.
  - eapply (Hk a); eauto.
  - injection H as <- <-. eauto.
Qed.
Lemma preserves_catch {S A} (P : S -> Prop) (m : M S A) h :
  preserves P m -> (forall e k, h e = Some k -> preserves P k) -> preserves P (catchM m h).
Proof.
  intros Hm Hh s r s'. unfold catchM.
  destruct (m s) as [[a|e] s1] eqn:E; [intros [= <- <-]; eauto|].
  destruct (h e) eqn:He; [|intros [= <- <-]; eauto].
  intros H HP. eapply Hh; eauto.
Qed.
Lemma preserves_modify {S} (P : S -> Prop) f :
  (forall s, P s -> P (f s)) -> preserves P (modifyM f : M S unit).
Proof. intros Hf s r s' [= <- <-]. auto. Qed.
Lemma preserves_forM {S A} (P : S -> Prop) (f : A -> M S unit) l :
  (forall x, x ∈ l -> preserves P (f x)) -> preserves P (forM f l).
Proof.
  induction l as [|x l IH]; intros H; simpl; [apply preserves_ret|].
  apply preserves_bind; [apply H; set_solver|].
  intros _. apply IH. intros y Hy. apply H. set_solver.
Qed.

Create HintDb preserves.
#[export] Hint Resolve preserves_ret preserves_raise preserves_liftR preserves_get
  preserves_bind preserves_catch preserves_modify : preserves.

(** ** Lemmas on lists *)

Lemma length_filter_le {A} (P : A -> Prop) `{!forall x, Decision (P x)} (l : list A) :
  length (filter P l) <= length l.
Proof.
  induction l as [|x l IH]; [done|].
  rewrite filter_cons; case_decide; simpl; lia.
Qed.

Lemma filter_all {A} (P : A -> Prop) `{!forall x, Decision (P x)} (l : list A) :
  (forall x, x ∈ l -> P x) -> filter P l = l.
Proof.
  induction l as [|x l IH]; intros HP; [done|].
  rewrite filter_cons_True by (apply HP; set_solver).
  f_equal. apply IH. set_solver.
Qed.

Lemma filter_none {A} (P : A -> Prop) `{!forall x, Decision (P x)} (l : list A) :
  (forall x, x ∈ l -> ~ P x) -> filter P l = [].
Proof.
  induction l as [|x l IH]; intros HP; [done|].
  rewrite filter_cons_False by (apply HP; set_solver).
  apply IH. set_solver.
Qed.

(** ** Sorted times *)

Lemma sorted_le_app (l1 l2 : list Z) : StronglySorted Z.le (l1 ++ l2) ->
  StronglySorted Z.le l1 /\ StronglySorted Z.le l2 /\ forall x y, x ∈ l1 -> y ∈ l2 -> (x <= y)%Z.
Proof.
  induction l1 as [|z l1 IH]; simpl; intros Hs.
  - split_and!; [constructor|done|]. by intros x y ?%elem_of_nil.
  - inversion Hs as [|? ? Hs' Hz]; subst. destruct (IH Hs') as (H1 & H2 & H3).
    rewrite Forall_app in Hz. destruct Hz as [Hz1 Hz2]. split_and!; [by constructor|done|].
    intros x y [->|Hx]%elem_of_cons Hy; [|by apply H3]. rewrite Forall_forall in Hz2. by apply Hz2.
Qed.

