(* ===== verification/PyStr.v ===== *)
(** * Python strings

    The [str] operations the program uses.  A Python string is modelled as a
    [string] whose characters are code points below 256 (the Latin-1 range),
    so [strip], [lower] and the UTF-8 codec are exact on that range; [bytes]
    values use the same type, one character per byte. *)
From Stdlib Require Import ZArith Lia Ascii String DecimalString DecimalN DecimalFacts.
From stdpp Require Import base option list strings.
From S2P Require Import Prelude.

Open Scope string_scope.

Definition code (c : ascii) : N := N_of_ascii c.

(** [c.isspace()] on the Latin-1 range. *)
Definition is_space (c : ascii) : bool :=
  let n := code c in
  (((9 <=? n) && (n <=? 13)) || ((28 <=? n) && (n <=? 32)) || (n =? 133) || (n =? 160))%N.

Definition is_digit (c : ascii) : bool :=
  let n := code c in ((48 <=? n) && (n <=? 57))%N.

Definition is_upper (c : ascii) : bool :=
  let n := code c in
  (((65 <=? n) && (n <=? 90)) || ((192 <=? n) && (n <=? 222) && negb (n =? 215)))%N.

Definition lower_char (c : ascii) : ascii :=
  if is_upper c then ascii_of_N (code c + 32) else c.

Fixpoint str_map (f : ascii -> ascii) (s : string) : string :=
  match s with
  | "" => ""
  | String c t => String (f c) (str_map f t)
  end.

Fixpoint str_filter (p : ascii -> bool) (s : string) : string :=
  match s with
  | "" => ""
  | String c t => if p c then String c (str_filter p t) else str_filter p t
  end.

Fixpoint str_forallb (p : ascii -> bool) (s : string) : bool :=
  match s with
  | "" => true
  | String c t => p c && str_forallb p t
  end.

Definition str_existsb (p : ascii -> bool) (s : string) : bool :=
  negb (str_forallb (fun c => negb (p c)) s).

(** [s.lower()] *)
Definition lower (s : string) : string := str_map lower_char s.

(** [s.upper()], on the characters whose upper case is again in range. *)
Definition upper_char (c : ascii) : ascii :=
  let n := code c in
  if (((97 <=? n) && (n <=? 122)) || ((224 <=? n) && (n <=? 254) && negb (n =? 247)))%N
  then ascii_of_N (n - 32) else c.
Definition upper (s : string) : string := str_map upper_char s.

(** Strip the characters that satisfy [p] from the left, from the right. *)
Fixpoint lstrip_p (p : ascii -> bool) (s : string) : string :=
  match s with
  | "" => ""
  | String c t => if p c then lstrip_p p t else s
  end.

Fixpoint rstrip_p (p : ascii -> bool) (s : string) : string :=
  match s with
  | "" => ""
  | String c t =>
      let t' := rstrip_p p t in
      if p c && String.eqb t' "" then "" else String c t'
  end.

(** [s.strip()] *)
Definition strip (s : string) : string := rstrip_p is_space (lstrip_p is_space s).

(** [s.rstrip("/")] *)
Definition rstrip_slash (s : string) : string := rstrip_p (Ascii.eqb "/") s.

(** [bool(s)] *)
Definition str_true (s : string) : bool := negb (String.eqb s "").

(** [len(s)] *)
Definition str_len (s : string) : Z := Z.of_nat (String.length s).

Lemma str_true_length a b : String.length a = String.length b -> str_true a = str_true b.
Proof. by destruct a, b. Qed.

(** [s.startswith(p)] *)
Definition startswith (p s : string) : bool := String.prefix p s.

(** [s[n:]] for a non-negative [n] *)
Fixpoint str_drop (n : nat) (s : string) : string :=
  match n, s with
  | O, _ => s
  | S _, "" => ""
  | S n', String _ t => str_drop n' t
  end.

(** [s[:n]] for a non-negative [n] *)
Fixpoint str_take (n : nat) (s : string) : string :=
  match n, s with
  | O, _ => ""
  | S _, "" => ""
  | S n', String c t => String c (str_take n' t)
  end.

(** [s.removeprefix(p)] *)
Definition removeprefix (p s : string) : string :=
  if startswith p s then str_drop (String.length p) s else s.

(** [s.partition(c)] for a one-character separator: the head, whether the
    separator occurs, and the tail. *)
Fixpoint partition (c : ascii) (s : string) : string * bool * string :=
  match s with
  | "" => ("", false, "")
  | String d t =>
      if Ascii.eqb c d then ("", true, t)
      else let '(h, b, r) := partition c t in (String d h, b, r)
  end.

(** [s.split(c, 1)]: the head and, when the separator occurs, the tail. *)
Definition split_once (c : ascii) (s : string) : string * option string :=
  let '(h, b, r) := partition c s in (h, if b : bool then Some r else None).

(** [s.split(c)] for a one-character separator. *)
Fixpoint split_char (c : ascii) (s : string) : list string :=
  match s with
  | "" => [""]
  | String d t =>
      if Ascii.eqb c d then "" :: split_char c t
      else match split_char c t with
           | h :: r => String d h :: r
           | [] => [String d ""]
           end
  end.

(** [c in s] for a one-character string, and [sub in s]. *)
Definition char_in (c : ascii) (s : string) : bool := str_existsb (Ascii.eqb c) s.

Fixpoint str_in (sub s : string) : bool :=
  startswith sub s ||
  match s with
  | "" => false
  | String _ t => str_in sub t
  end.

(** ** UTF-8 on the Latin-1 range *)

(** [s.encode("utf-8")] *)
Fixpoint utf8_encode (s : string) : string :=
  match s with
  | "" => ""
  | String c t =>
      let n := code c in
      if (n <? 128)%N then String c (utf8_encode t)
      else String (ascii_of_N (192 + n / 64)) (String (ascii_of_N (128 + n mod 64)) (utf8_encode t))
  end.

(** [b.decode("utf-8")]; [None] stands for [UnicodeDecodeError]. *)
Fixpoint utf8_decode (s : string) : option string :=
  match s with
  | "" => Some ""
  | String c t =>
      let n := code c in
      if (n <? 128)%N then String c <$> utf8_decode t
      else match t with
           | String d t' =>
               let m := code d in
               if (((n =? 194) || (n =? 195)) && (128 <=? m) && (m <? 192))%N
               then String (ascii_of_N ((n - 192) * 64 + (m - 128))) <$> utf8_decode t'
               else None
           | "" => None
           end
  end.

(** ** [int(s)] *)

Definition is_c_space (c : ascii) : bool :=
  let n := code c in (((9 <=? n) && (n <=? 13)) || (n =? 32))%N.

(** The white space [int] skips: the C locale's, and any non-ASCII space. *)
Definition is_int_space (c : ascii) : bool :=
  is_c_space c || ((code c =? 133) || (code c =? 160))%N.

Definition is_ascii_str (s : string) : bool := str_forallb (fun c => (code c <? 128)%N) s.

Definition digit_val (c : ascii) : Z := Z.of_N (code c) - 48.

(** Digits with single underscores between them; [prev] tells whether the
    previous character was a digit, [k] counts digits. *)
Fixpoint parse_digits (s : string) (prev : bool) (acc : Z) (k : nat) : option (Z * nat) :=
  match s with
  | "" => if prev then Some (acc, k) else None
  | String c t =>
      if is_digit c then parse_digits t true (10 * acc + digit_val c)%Z (S k)
      else if Ascii.eqb c "_" && prev then parse_digits t false acc k
      else None
  end.

(** CPython refuses to convert more than 4300 digits. *)
Definition max_str_digits : nat := Z.to_nat 4300.

Definition parse_unsigned (s : string) : option Z :=
  match parse_digits s false 0 0 with
  | Some (z, k) => if (k <=? max_str_digits)%nat then Some z else None
  | None => None
  end.

(** [int(s)]; [None] stands for [ValueError]. *)
Definition int_of_str (s : string) : option Z :=
  match rstrip_p is_int_space (lstrip_p is_int_space s) with
  | "" => None
  | String c t =>
      if Ascii.eqb c "-" then Z.opp <$> parse_unsigned t
      else if Ascii.eqb c "+" then parse_unsigned t
      else parse_unsigned (String c t)
  end.

(** [str(n)] for an [int] *)
Definition dec_of_N (n : N) : string := NilEmpty.string_of_uint (N.to_uint n).
Definition str_of_int (z : Z) : string :=
  match z with
  | Zneg p => "-" +:+ dec_of_N (Npos p)
  | _ => dec_of_N (Z.to_N z)
  end.

(** ** Lemmas *)

Lemma str_app_length s1 s2 : String.length (s1 +:+ s2) = (String.length s1 + String.length s2)%nat.
Proof. induction s1 as [|c s1 IH]; simpl; [done|by rewrite IH]. Qed.

Lemma str_app_cons c s t : String c s +:+ t = String c (s +:+ t).
Proof. reflexivity. Qed.

Lemma str_app_nil_l s : "" +:+ s = s.
Proof. reflexivity. Qed.

Lemma str_app_assoc s t u : (s +:+ t) +:+ u = s +:+ (t +:+ u).
Proof. induction s as [|c s IH]; [done|]. by rewrite !str_app_cons, IH. Qed.

Lemma str_map_length f s : String.length (str_map f s) = String.length s.
Proof. induction s as [|c s IH]; simpl; [done|by rewrite IH]. Qed.

Lemma str_map_map f g s : str_map f (str_map g s) = str_map (fun c => f (g c)) s.
Proof. induction s as [|c s IH]; simpl; [done|by rewrite IH]. Qed.

Lemma str_map_ext f g s : (forall c, f c = g c) -> str_map f s = str_map g s.
Proof. intros H. induction s as [|c s IH]; simpl; [done|by rewrite H, IH]. Qed.

(** Exhaustive checks over the 256 characters. *)
Definition all_ascii (p : ascii -> bool) : bool :=
  forallb (fun n => p (ascii_of_nat n)) (seq 0 256).

Lemma all_asciiP p : all_ascii p = true -> forall c, p c = true.
Proof.
  unfold all_ascii. rewrite forallb_forall. intros H c.
  rewrite <- (ascii_nat_embedding c). apply H.
  apply in_seq. pose proof (nat_ascii_bounded c). lia.
Qed.

Ltac by_all_ascii p c :=
  let H := fresh in
  assert (H : all_ascii p = true) by (vm_compute; reflexivity);
  exact (all_asciiP p H c).

Lemma lower_char_idem c : lower_char (lower_char c) = lower_char c.
Proof.
  apply Ascii.eqb_eq.
  by_all_ascii (fun c => Ascii.eqb (lower_char (lower_char c)) (lower_char c)) c.
Qed.

Lemma is_space_lower c : is_space (lower_char c) = is_space c.
Proof.
  apply eqb_prop.
  by_all_ascii (fun c => eqb (is_space (lower_char c)) (is_space c)) c.
Qed.

Lemma lower_idem s : lower (lower s) = lower s.
Proof. unfold lower. rewrite str_map_map. apply str_map_ext, lower_char_idem. Qed.

Lemma lower_length s : String.length (lower s) = String.length s.
Proof. apply str_map_length. Qed.

Lemma lstrip_map p f s : (forall c, p (f c) = p c) -> lstrip_p p (str_map f s) = str_map f (lstrip_p p s).
Proof.
  intros H. induction s as [|c s IH]; simpl; [done|].
  rewrite H. by destruct (p c).
Qed.

Lemma str_map_empty f s : String.eqb (str_map f s) "" = String.eqb s "".
Proof. by destruct s. Qed.

Lemma rstrip_map p f s : (forall c, p (f c) = p c) -> rstrip_p p (str_map f s) = str_map f (rstrip_p p s).
Proof.
  intros H. induction s as [|c s IH]; simpl; [done|].
  rewrite H, IH, str_map_empty.
  by destruct (p c && String.eqb (rstrip_p p s) "").
Qed.

Lemma strip_lower s : strip (lower s) = lower (strip s).
Proof.
  unfold strip, lower. by rewrite lstrip_map, rstrip_map by apply is_space_lower.
Qed.

Lemma rstrip_idem p s : rstrip_p p (rstrip_p p s) = rstrip_p p s.
Proof.
  induction s as [|c s IH]; simpl; [done|].
  destruct (p c) eqn:Hc, (String.eqb (rstrip_p p s) "") eqn:He; simpl; rewrite ?Hc, ?IH, ?He; done.
Qed.

Lemma lstrip_idem p s : lstrip_p p (lstrip_p p s) = lstrip_p p s.
Proof.
  induction s as [|c s IH]; simpl; [done|].
  destruct (p c) eqn:Hc; [done|]. simpl. by rewrite Hc.
Qed.

Lemma lstrip_rstrip_fix p s : lstrip_p p s = s -> lstrip_p p (rstrip_p p s) = rstrip_p p s.
Proof.
  destruct s as [|c s]; simpl; [done|].
  destruct (p c) eqn:Hc; simpl; [|by rewrite Hc].
  intros H. exfalso.
  assert (forall t, String.length (lstrip_p p t) <= String.length t)%nat as Hle.
  { intros t. induction t as [|d t IHt]; simpl; [lia|]. destruct (p d); simpl; lia. }
  specialize (Hle s). rewrite H in Hle. simpl in Hle. lia.
Qed.

Lemma strip_idem s : strip (strip s) = strip s.
Proof.
  unfold strip. rewrite lstrip_rstrip_fix by apply lstrip_idem. apply rstrip_idem.
Qed.

(** A stripped string neither starts nor ends with white space. *)
Lemma strip_head c s t : strip s = String c t -> is_space c = false.
Proof.
  intros H. pose proof (lstrip_rstrip_fix is_space (lstrip_p is_space s) (lstrip_idem _ _)) as Hl.
  unfold strip in H. rewrite H in Hl. simpl in Hl.
  destruct (is_space c) eqn:E; [|done]. exfalso.
  assert (forall t, String.length (lstrip_p is_space t) <= String.length t)%nat as Hle.
  { intros u. induction u as [|d u IHu]; simpl; [lia|]. destruct (is_space d); simpl; lia. }
  specialize (Hle t). rewrite Hl in Hle. simpl in Hle. lia.
Qed.

Lemma strip_empty : strip "" = "".
Proof. done. Qed.

Lemma prefix_app p s : startswith p (p +:+ s) = true.
Proof.
  unfold startswith. induction p as [|c p IH]; simpl; [by destruct s|].
  by destruct (ascii_dec c c).
Qed.

Lemma str_drop_app p s : str_drop (String.length p) (p +:+ s) = s.
Proof. induction p as [|c p IH]; simpl; [by destruct s|done]. Qed.

Lemma removeprefix_app p s : removeprefix p (p +:+ s) = s.
Proof. unfold removeprefix. by rewrite prefix_app, str_drop_app. Qed.

Lemma startswith_app p s : startswith p s = true -> s = p +:+ str_drop (String.length p) s.
Proof.
  unfold startswith. revert s; induction p as [|c p IH]; intros s H; simpl in *; [done|].
  destruct s as [|d s]; [done|]. simpl in H. destruct (ascii_dec c d) as [->|]; [|done].
  change (String d s = String d (p +:+ str_drop (String.length p) s)). f_equal. by apply IH.
Qed.

Lemma str_take_length n s : (String.length (str_take n s) <= n)%nat.
Proof. revert s; induction n as [|n IH]; intros [|c s]; simpl; try lia. specialize (IH s). lia. Qed.

Lemma str_filter_forallb p s : str_forallb p (str_filter p s) = true.
Proof. induction s as [|c s IH]; simpl; [done|]. destruct (p c) eqn:E; simpl; by rewrite ?E. Qed.

Lemma str_take_forallb p n s : str_forallb p s = true -> str_forallb p (str_take n s) = true.
Proof.
  revert s; induction n as [|n IH]; intros [|c s]; simpl; try done.
  intros [-> H]%andb_prop. by rewrite IH.
Qed.

Lemma str_forallb_filter p q s : str_forallb p s = true -> str_forallb p (str_filter q s) = true.
Proof.
  induction s as [|c s IH]; simpl; [done|]. intros [Hc Hs]%andb_prop.
  destruct (q c); simpl; rewrite ?Hc; auto.
Qed.

Lemma str_forallb_lstrip p q s : str_forallb p s = true -> str_forallb p (lstrip_p q s) = true.
Proof.
  induction s as [|c s IH]; simpl; [done|]. intros [Hc Hs]%andb_prop.
  destruct (q c); simpl; rewrite ?Hc, ?Hs; auto.
Qed.

Lemma rstrip_p_empty p s : rstrip_p p s = "" -> str_forallb p s = true.
Proof.
  induction s as [|c s IH]; simpl; [done|].
  destruct (p c); simpl; [|done]. destruct (String.eqb_spec (rstrip_p p s) ""); [auto|done].
Qed.

Lemma str_forallb_app p s t : str_forallb p (s +:+ t) = str_forallb p s && str_forallb p t.
Proof. induction s as [|c s IH]; simpl; [done|]. by rewrite IH, andb_assoc. Qed.

Lemma code_bound c : (code c < 256)%N.
Proof. apply N_ascii_bounded. Qed.

Lemma utf8_roundtrip s : utf8_decode (utf8_encode s) = Some s.
Proof.
  induction s as [|c s IH]; [done|]. simpl utf8_encode.
  destruct (code c <? 128)%N eqn:E; cbn -[N.div N.modulo N.mul N.add N.sub].
  - by rewrite E, IH.
  - assert (Hhi := all_asciiP (fun c => (code c <? 128)%N ||
      let a := ascii_of_N (192 + code c / 64) in
      let b := ascii_of_N (128 + code c mod 64) in
      negb (code a <? 128)%N &&
      (((code a =? 194) || (code a =? 195)) && (128 <=? code b) && (code b <? 192))%N &&
      Ascii.eqb (ascii_of_N ((code a - 192) * 64 + (code b - 128))) c) ltac:(vm_compute; reflexivity) c).
    cbv beta zeta in Hhi. rewrite E, orb_false_l in Hhi.
    apply andb_prop in Hhi as [[Ha Hr]%andb_prop Hc%Ascii.eqb_eq].
    apply negb_true_iff in Ha. rewrite Ha, Hr, IH, Hc. done.
Qed.

Lemma utf8_encode_inj s t : utf8_encode s = utf8_encode t -> s = t.
Proof.
  intros H. assert (utf8_decode (utf8_encode s) = utf8_decode (utf8_encode t)) as E by by rewrite H.
  rewrite !utf8_roundtrip in E. by injection E.
Qed.
