(* ===== verification/PyVal.v ===== *)
(** * Python values that come from JSON

    [json] is the type of the values [json.loads] (and [response.json()])
    produce and the program inspects dynamically: [isinstance] tests,
    truthiness, [==], [in], [str()], [int()] and dictionary access.  A
    dictionary is an association list in insertion order; a float carries its
    IEEE value and the text [repr] prints for it. *)
From Stdlib Require Import ZArith Lia Ascii String SpecFloat.
From stdpp Require Import base option list strings gmap.
From S2P Require Import Prelude PyStr.

Open Scope string_scope.

#[warnings="-register-all"]
Inductive json : Type :=
| JNull
| JBool (b : bool)
| JInt (z : Z)
| JFloat (f : spec_float) (repr : string)
| JStr (s : string)
| JArr (l : list json)
| JObj (d : list (string * json)).

Abbreviation dict := (list (string * json)).

(** Induction that also visits the elements of arrays and objects. *)
Section json_ind.
Variable P : json -> Prop.
Hypothesis Hnull : P JNull.
Hypothesis Hbool : forall b, P (JBool b).
Hypothesis Hint : forall z, P (JInt z).
Hypothesis Hfloat : forall f r, P (JFloat f r).
Hypothesis Hstr : forall s, P (JStr s).
Hypothesis Harr : forall l, Forall P l -> P (JArr l).
Hypothesis Hobj : forall d, Forall (fun kv => P kv.2) d -> P (JObj d).

Fixpoint json_ind' (v : json) : P v :=
  match v with
  | JNull => Hnull
  | JBool b => Hbool b
  | JInt z => Hint z
  | JFloat f r => Hfloat f r
  | JStr s => Hstr s
  | JArr l => Harr l ((fix go l : Forall P l :=
      match l with [] => Forall_nil_2 _ | x :: t => Forall_cons_2 _ _ _ (json_ind' x) (go t) end) l)
  | JObj d => Hobj d ((fix go d : Forall (fun kv => P kv.2) d :=
      match d with [] => Forall_nil_2 _ | kv :: t => Forall_cons_2 _ kv _ (json_ind' kv.2) (go t) end) d)
  end.
End json_ind.

#[export] Instance spec_float_eq_dec : EqDecision spec_float.
Proof. solve_decision. Defined.

Fixpoint json_dec (a b : json) {struct a} : {a = b} + {a <> b}.
Proof.
  refine (match a, b with
          | JNull, JNull => left eq_refl
          | JBool x, JBool y => if decide (x = y) then left _ else right _
          | JInt x, JInt y => if decide (x = y) then left _ else right _
          | JFloat f r, JFloat f' r' => if decide (f = f' /\ r = r') then left _ else right _
          | JStr x, JStr y => if decide (x = y) then left _ else right _
          | JArr l, JArr l' => if List.list_eq_dec json_dec l l' then left _ else right _
          | JObj d, JObj d' =>
              if List.list_eq_dec (fun x y : string * json =>
                   match x, y with (k, v), (k', v') =>
                     match decide (k = k'), json_dec v v' with
                     | left _, left _ => left _
                     | _, _ => right _
                     end
                   end) d d' then left _ else right _
          | _, _ => right _
          end); try clear json_dec; try intuition congruence.
  intros [= -> ->]. auto.
Defined.

#[export] Instance json_eq_dec : EqDecision json := json_dec.

(** ** Dictionaries *)

(** [d[k]] when present *)
Fixpoint dlookup (k : string) (d : dict) : option json :=
  match d with
  | [] => None
  | (k', v) :: t => if String.eqb k k' then Some v else dlookup k t
  end.

(** [d.get(k)] and [d.get(k, default)] *)
Definition dget_default (k : string) (dflt : json) (d : dict) : json := default dflt (dlookup k d).
Definition dget (k : string) (d : dict) : json := dget_default k JNull d.

(** [d[k] = v]: replaces in place, appends a new key. *)
Fixpoint dset (k : string) (v : json) (d : dict) : dict :=
  match d with
  | [] => [(k, v)]
  | (k', v') :: t => if String.eqb k k' then (k', v) :: t else (k', v') :: dset k v t
  end.

(** [{k: v for k, v in d.items() if k != key}] *)
Definition dremove (key : string) (d : dict) : dict :=
  List.filter (fun kv => negb (String.eqb key kv.1)) d.

Definition dkeys (d : dict) : list string := map fst d.

(** ** Type tests and truth value *)

Definition is_str (v : json) : bool := match v with JStr _ => true | _ => false end.
Definition is_list (v : json) : bool := match v with JArr _ => true | _ => false end.
Definition is_dict (v : json) : bool := match v with JObj _ => true | _ => false end.
Definition is_none (v : json) : bool := match v with JNull => true | _ => false end.
Definition is_bool (v : json) : bool := match v with JBool _ => true | _ => false end.

(** [isinstance(v, int)]: a [bool] is an [int]. *)
Definition is_int (v : json) : bool := match v with JInt _ | JBool _ => true | _ => false end.

(** [type(v) is int] *)
Definition type_is_int (v : json) : bool := match v with JInt _ => true | _ => false end.

(** [type(v).__name__] *)
Definition type_name (v : json) : string :=
  match v with
  | JNull => "NoneType" | JBool _ => "bool" | JInt _ => "int" | JFloat _ _ => "float"
  | JStr _ => "str" | JArr _ => "list" | JObj _ => "dict"
  end.

Definition as_str (v : json) : option string := match v with JStr s => Some s | _ => None end.
Definition as_list (v : json) : option (list json) := match v with JArr l => Some l | _ => None end.
Definition as_dict (v : json) : option dict := match v with JObj d => Some d | _ => None end.

(** [bool(v)] *)
Definition truthy (v : json) : bool :=
  match v with
  | JNull => false
  | JBool b => b
  | JInt z => negb (z =? 0)%Z
  | JFloat (S754_zero _) _ => false
  | JFloat _ _ => true
  | JStr s => str_true s
  | JArr l => match l with [] => false | _ => true end
  | JObj d => match d with [] => false | _ => true end
  end.

(** [a or b] *)
Definition py_or (a b : json) : json := if truthy a then a else b.

(** [v.get(k)] on a value that may not be a dictionary *)
Definition py_get (k : string) (v : json) : result json :=
  match v with
  | JObj d => Ok (dget k d)
  | _ => Err AttributeError
  end.

(** ** Equality *)

Definition float_eq_int (f : spec_float) (z : Z) : bool :=
  match f with
  | S754_zero _ => (z =? 0)%Z
  | S754_finite s m e =>
      let v := (if s : bool then Z.neg m else Z.pos m) in
      if (0 <=? e)%Z then (z =? v * 2 ^ e)%Z else (z * 2 ^ (- e) =? v)%Z
  | _ => false
  end.

Definition int_of_bool (b : bool) : Z := if b then 1%Z else 0%Z.

(** The numeric value of [bool], [int] and [float]. *)
Definition as_num (v : json) : option (Z + spec_float) :=
  match v with
  | JBool b => Some (inl (int_of_bool b))
  | JInt z => Some (inl z)
  | JFloat f _ => Some (inr f)
  | _ => None
  end.

Definition num_eq (a b : Z + spec_float) : bool :=
  match a, b with
  | inl x, inl y => (x =? y)%Z
  | inl x, inr g => float_eq_int g x
  | inr f, inl y => float_eq_int f y
  | inr f, inr g => SFeqb f g
  end.

(** [a == b]: numbers compare by value across [bool], [int] and [float],
    dictionaries compare without regard to order. *)
Fixpoint py_eq (a b : json) {struct a} : bool :=
  match a, b with
  | JNull, JNull => true
  | JStr s, JStr t => String.eqb s t
  | JArr l, JArr l' =>
      (fix go (l l' : list json) : bool :=
         match l, l' with
         | [], [] => true
         | x :: t, y :: t' => py_eq x y && go t t'
         | _, _ => false
         end) l l'
  | JObj d, JObj d' =>
      (length d =? length d')%nat &&
      (fix go (d : dict) : bool :=
         match d with
         | [] => true
         | (k, v) :: t =>
             match dlookup k d' with
             | Some v' => py_eq v v'
             | None => false
             end && go t
         end) d
  | _, _ =>
      match as_num a, as_num b with
      | Some x, Some y => num_eq x y
      | _, _ => false
      end
  end.

(** [v in l] for a list *)
Definition in_list (v : json) (l : list json) : bool := existsb (py_eq v) l.

(** [s in v] for a string [s] and an arbitrary container [v] *)
Definition py_in (s : string) (v : json) : result bool :=
  match v with
  | JArr l => Ok (in_list (JStr s) l)
  | JObj d => Ok (existsb (String.eqb s) (dkeys d))
  | JStr t => Ok (str_in s t)
  | _ => Err TypeError
  end.

(** ** [str()] *)

Definition hex_digit (n : N) : ascii :=
  ascii_of_N (if (n <? 10)%N then 48 + n else 87 + n).

(** [c.isprintable()] on the Latin-1 range *)
Definition printable (c : ascii) : bool :=
  let n := code c in
  (((32 <=? n) && (n <=? 126)) || ((161 <=? n) && negb (n =? 173)))%N.

Fixpoint repr_chars (q : ascii) (s : string) : string :=
  match s with
  | "" => ""
  | String c t =>
      let r := repr_chars q t in
      let n := code c in
      if Ascii.eqb c q || Ascii.eqb c "\" then String "\" (String c r)
      else if (n =? 9)%N then String "\" (String "t" r)
      else if (n =? 10)%N then String "\" (String "n" r)
      else if (n =? 13)%N then String "\" (String "r" r)
      else if printable c then String c r
      else String "\" (String "x" (String (hex_digit (n / 16)) (String (hex_digit (n mod 16)) r)))
  end.

Definition dquote : ascii := ascii_of_N 34.
Definition squote : ascii := ascii_of_N 39.

Definition repr_str (s : string) : string :=
  let q := if char_in squote s && negb (char_in dquote s) then dquote else squote in
  String q (repr_chars q s +:+ String q "").

(** [sep.join(l)] *)
Fixpoint join (sep : string) (l : list string) : string :=
  match l with
  | [] => ""
  | [x] => x
  | x :: t => x +:+ sep +:+ join sep t
  end.

Fixpoint py_repr (v : json) : string :=
  match v with
  | JNull => "None"
  | JBool true => "True"
  | JBool false => "False"
  | JInt z => str_of_int z
  | JFloat _ r => r
  | JStr s => repr_str s
  | JArr l => "[" +:+ join ", " (map py_repr l) +:+ "]"
  | JObj d => "{" +:+ join ", " (map (fun kv => repr_str kv.1 +:+ ": " +:+ py_repr kv.2) d) +:+ "}"
  end.

(** [str(v)] *)
Definition py_str (v : json) : string :=
  match v with
  | JStr s => s
  | _ => py_repr v
  end.

(** [str(v or "")] *)
Definition str_or_empty (v : json) : string := py_str (py_or v (JStr "")).

(** ** [int()] *)

Definition py_int (v : json) : result Z :=
  match v with
  | JBool b => Ok (int_of_bool b)
  | JInt z => Ok z
  | JFloat f _ =>
      match f with
      | S754_zero _ => Ok 0%Z
      | S754_finite s m e =>
          let t := if (0 <=? e)%Z then (Z.pos m * 2 ^ e)%Z else (Z.pos m / 2 ^ (- e))%Z in
          Ok (if s : bool then (- t)%Z else t)
      | S754_infinity _ => Err OverflowError
      | S754_nan => Err (ValueError "cannot convert float NaN to integer")
      end
  | JStr s =>
      match int_of_str s with
      | Some z => Ok z
      | None => Err (ValueError "invalid literal for int() with base 10")
      end
  | _ => Err TypeError
  end.

(** ** Lemmas *)

Lemma dlookup_dset_eq k v d : dlookup k (dset k v d) = Some v.
Proof.
  induction d as [|[k' v'] d IH]; simpl; [by rewrite String.eqb_refl|].
  destruct (String.eqb k k') eqn:E; simpl; by rewrite E.
Qed.

Lemma dlookup_dset_ne k k' v d : k <> k' -> dlookup k' (dset k v d) = dlookup k' d.
Proof.
  intros Hne. induction d as [|[j w] d IH]; simpl.
  - destruct (String.eqb_spec k' k); congruence.
  - destruct (String.eqb_spec k j); simpl; subst.
    + by destruct (String.eqb_spec k' j); [congruence|].
    + by destruct (String.eqb k' j).
Qed.

Lemma dlookup_dremove_eq k d : dlookup k (dremove k d) = None.
Proof.
  induction d as [|[j w] d IH]; simpl; [done|].
  destruct (String.eqb k j) eqn:E; simpl; [done|by rewrite E].
Qed.

Lemma dlookup_dremove_ne k k' d : k <> k' -> dlookup k' (dremove k d) = dlookup k' d.
Proof.
  intros Hne. induction d as [|[j w] d IH]; simpl; [done|].
  destruct (String.eqb_spec k j); simpl; subst.
  - rewrite IH. by destruct (String.eqb_spec k' j); [congruence|].
  - by rewrite IH.
Qed.

Lemma dlookup_elem k d v : dlookup k d = Some v -> (k, v) ∈ d.
Proof.
  induction d as [|[j w] d IH]; simpl; [done|].
  destruct (String.eqb_spec k j); intros H; [|set_solver].
  injection H as ->. subst. left.
Qed.

Lemma py_eq_str s t : py_eq (JStr s) (JStr t) = String.eqb s t.
Proof. done. Qed.

Lemma py_eq_JStr_l s v : py_eq (JStr s) v = true <-> v = JStr s.
Proof.
  destruct v; simpl; split; try done.
  - by intros ->%String.eqb_eq.
  - intros [= ->]. apply String.eqb_refl.
Qed.

Lemma py_eq_JStr_r s v : py_eq v (JStr s) = true <-> v = JStr s.
Proof.
  destruct v; simpl; split; try done.
  - by intros ->%String.eqb_eq.
  - intros [= ->]. apply String.eqb_refl.
Qed.

(** Lists of strings compare as they do in the logic. *)
Lemma py_eq_strings l l' : py_eq (JArr (map JStr l)) (JArr l') = true <-> l' = map JStr l.
Proof.
  revert l'; induction l as [|s l IH]; intros [|v l'];
    [done | by split | by split |].
  change (py_eq (JStr s) v && py_eq (JArr (map JStr l)) (JArr l') = true <-> v :: l' = JStr s :: map JStr l).
  rewrite andb_true_iff, IH, py_eq_JStr_l. split; [by intros [-> ->]|by intros [= -> ->]].
Qed.

Lemma in_list_str s l : in_list (JStr s) (map JStr l) = existsb (String.eqb s) l.
Proof. induction l as [|t l IH]; [done|]. cbn -[py_eq]. by rewrite py_eq_str; f_equal. Qed.

Lemma existsb_str_elem s l : existsb (String.eqb s) l = true <-> s ∈ l.
Proof.
  rewrite existsb_exists, list_elem_of_In. split.
  - by intros (x & ? & ->%String.eqb_eq).
  - intros H. exists s. split; [done|apply String.eqb_refl].
Qed.

Lemma truthy_py_or a b : truthy (py_or a b) = truthy a || truthy b.
Proof. unfold py_or. destruct (truthy a) eqn:E; by rewrite ?E. Qed.

(** [int()] of an integer JSON number is the number itself. *)
Lemma py_int_int z : py_int (JInt z) = Ok z.
Proof. done. Qed.

Example py_str_list : py_str (JArr [JInt 1; JStr "a'b"; JNull]) = "[1, " +:+ String dquote ("a'b" +:+ String dquote ", None]").
Proof. vm_compute. reflexivity. Qed.
Example py_int_str : py_int (JStr " 3_600 ") = Ok 3600%Z.
Proof. vm_compute. reflexivity. Qed.
Example py_eq_dict_unordered :
  py_eq (JObj [("a", JInt 1); ("b", JBool true)]) (JObj [("b", JInt 1); ("a", JBool true)]) = true.
Proof. vm_compute. reflexivity. Qed.
