(* ===== verification/PyNet.v ===== *)
(** * Python's [urllib.parse] and [ipaddress], as far as the program uses them

    [urlparse] with the [scheme], [netloc], [fragment], [username],
    [password] and [hostname] views, and [ip_address] with the IPv4/IPv6
    grammars, the embedded-IPv4 views of an IPv6 address and the
    membership test of a network. *)
From Stdlib Require Import ZArith Lia Ascii String.
From stdpp Require Import base option list strings gmap.
From S2P Require Import Prelude PyStr PyVal.

Open Scope string_scope.

(** ** URLs *)

Record ParseResult := {
  pr_scheme : string;
  pr_netloc : string;
  pr_rest : string;       (* path, parameters and query *)
  pr_fragment : string;
}.

Definition is_alpha_ascii (c : ascii) : bool :=
  let n := code c in
  (((65 <=? n) && (n <=? 90)) || ((97 <=? n) && (n <=? 122)))%N.

Definition is_scheme_char (c : ascii) : bool :=
  is_alpha_ascii c || is_digit c || char_in c "+-.".

(** Leading C0 controls and spaces are dropped, tabs and line breaks removed. *)
Definition url_clean (url : string) : string :=
  str_filter (fun c => negb ((code c =? 9) || (code c =? 10) || (code c =? 13))%N)
    (lstrip_p (fun c => (code c <=? 32)%N) url).

Definition split_scheme (url : string) : string * string :=
  match partition ":" url with
  | (String c h, true, rest) =>
      if is_alpha_ascii c && str_forallb is_scheme_char (String c h)
      then (lower (String c h), rest) else ("", url)
  | _ => ("", url)
  end.

(** The longest prefix without ['/'], ['?'] or ['#'], and the rest. *)
Fixpoint split_netloc (s : string) : string * string :=
  match s with
  | "" => ("", "")
  | String c t =>
      if char_in c "/?#" then ("", s)
      else let '(h, r) := split_netloc t in (String c h, r)
  end.

(** [s.rpartition('@')]: what follows the last separator, and what precedes
    it when there is one. *)
Fixpoint rpartition (c : ascii) (s : string) : option string * string :=
  match s with
  | "" => (None, "")
  | String d t =>
      match rpartition c t with
      | (Some h, r) => (Some (String d h), r)
      | (None, r) => if Ascii.eqb c d then (Some "", r) else (None, String d r)
      end
  end.

(** ** IP addresses *)

Inductive ip_addr :=
| IPv4 (n : Z)
| IPv6 (n : Z) (scope_id : option string).

#[export] Instance ip_addr_eq_dec : EqDecision ip_addr.
Proof. solve_decision. Defined.

Definition parse_octet (s : string) : option Z :=
  if str_true s && str_forallb is_digit s && (String.length s <=? 3)%nat
     && (String.eqb s "0" || negb (startswith "0" s))
  then match int_of_str s with
       | Some z => if (z <=? 255)%Z then Some z else None
       | None => None
       end
  else None.

Definition parse_ipv4 (s : string) : option Z :=
  match map parse_octet (split_char "." s) with
  | [Some a; Some b; Some c; Some d] => Some (((a * 256 + b) * 256 + c) * 256 + d)%Z
  | _ => None
  end.

Definition hex_val (c : ascii) : option Z :=
  let n := code c in
  (if (48 <=? n) && (n <=? 57) then Some (Z.of_N n - 48)%Z
   else if (65 <=? n) && (n <=? 70) then Some (Z.of_N n - 55)%Z
   else if (97 <=? n) && (n <=? 102) then Some (Z.of_N n - 87)%Z
   else None)%N.

Fixpoint parse_hex (s : string) (acc : Z) : option Z :=
  match s with
  | "" => Some acc
  | String c t => match hex_val c with Some v => parse_hex t (16 * acc + v)%Z | None => None end
  end.

Definition parse_hextet (s : string) : option Z :=
  if str_true s && (String.length s <=? 4)%nat then parse_hex s 0 else None.

Definition parse_hextets (parts : list string) (acc : Z) : option Z :=
  fold_left (fun a p => match a, parse_hextet p with
                        | Some a, Some v => Some (a * 65536 + v)%Z
                        | _, _ => None
                        end) parts (Some acc).

(** The positions strictly inside the list that hold an empty part. *)
Definition inner_empty (parts : list string) : list nat :=
  List.filter (fun i => match nth_error parts i with Some "" => true | _ => false end)
    (seq 1 (length parts - 2)).

Definition hex4 (n : Z) : string :=
  let d k := hex_digit (Z.to_N (Z.land (Z.shiftr n (4 * k)) 15)) in
  let s := String (d 3%Z) (String (d 2%Z) (String (d 1%Z) (String (d 0%Z) ""))) in
  match lstrip_p (Ascii.eqb "0") s with "" => "0" | t => t end.

Definition parse_ipv6_int (s : string) : option Z :=
  let parts := split_char ":" s in
  if String.eqb s "" || (length parts <? 3)%nat then None else
  match (if char_in "." (List.last parts "")
         then match parse_ipv4 (List.last parts "") with
              | Some v => Some (List.removelast parts ++
                                [hex4 (Z.land (Z.shiftr v 16) 65535); hex4 (Z.land v 65535)])%list
              | None => None
              end
         else Some parts) with
  | None => None
  | Some parts =>
      if (9 <? length parts)%nat then None else
      let first_empty := String.eqb (List.hd "" parts) "" in
      let last_empty := String.eqb (List.last parts "") "" in
      match inner_empty parts with
      | [] =>
          if (length parts =? 8)%nat && negb first_empty && negb last_empty
          then parse_hextets parts 0 else None
      | [skip] =>
          let hi := (if first_empty then skip - 1 else skip)%nat in
          let lo := (length parts - skip - 1 - (if last_empty then 1 else 0))%nat in
          if (first_empty && negb (hi =? 0)%nat) || (last_empty && negb (lo =? 0)%nat)
             || (8 <=? hi + lo)%nat
          then None
          else match parse_hextets (take hi parts) 0 with
               | Some a =>
                   parse_hextets (drop (length parts - lo) parts)
                     (a * 65536 ^ (8 - Z.of_nat hi - Z.of_nat lo))%Z
               | None => None
               end
      | _ => None
      end
  end.

Definition parse_ipv6 (s : string) : option ip_addr :=
  match partition "%" s with
  | (a, false, _) => (fun n => IPv6 n None) <$> parse_ipv6_int a
  | (a, true, scope) =>
      if String.eqb scope "" || char_in "%" scope then None
      else (fun n => IPv6 n (Some scope)) <$> parse_ipv6_int a
  end.

(** [ipaddress.ip_address(s)]; [None] stands for [ValueError]. *)
Definition ip_address (s : string) : option ip_addr :=
  if char_in "/" s then None
  else match parse_ipv4 s with
       | Some n => Some (IPv4 n)
       | None => parse_ipv6 s
       end.

Definition ipv4_str (n : Z) : string :=
  let o k := str_of_int (Z.land (Z.shiftr n (8 * k)) 255) in
  o 3%Z +:+ "." +:+ o 2%Z +:+ "." +:+ o 1%Z +:+ "." +:+ o 0%Z.

(** The longest run of at least two zero groups, leftmost first, as
    [(start, length)]. *)
Fixpoint zero_run (l : list Z) : nat :=
  match l with
  | 0%Z :: t => S (zero_run t)
  | _ => 0
  end.

Fixpoint best_run (i : nat) (l : list Z) : nat * nat :=
  match l with
  | [] => (0, 0)%nat
  | _ :: t =>
      let k := zero_run l in
      let '(j, m) := best_run (S i) t in
      if (m <=? k)%nat then (i, k) else (j, m)
  end.

Definition ipv6_groups (n : Z) : list Z :=
  map (fun k => Z.land (Z.shiftr n (16 * k)) 65535) [7; 6; 5; 4; 3; 2; 1; 0]%Z.

Definition ipv6_str (n : Z) : string :=
  let gs := ipv6_groups n in
  let '(i, k) := best_run 0 gs in
  if (2 <=? k)%nat
  then join ":" (map hex4 (take i gs)) +:+ "::" +:+ join ":" (map hex4 (drop (i + k) gs))
  else join ":" (map hex4 gs).

(** [str(addr)] *)
Definition ip_str (a : ip_addr) : string :=
  match a with
  | IPv4 n => ipv4_str n
  | IPv6 n sc =>
      (if Z.shiftr n 32 =? 65535 then "::ffff:" +:+ ipv4_str (Z.land n 4294967295) else ipv6_str n)%Z
      +:+ match sc with Some s => "%" +:+ s | None => "" end
  end.

Inductive ip_network :=
| Net4 (network : Z) (prefixlen : Z)
| Net6 (network : Z) (prefixlen : Z).

(** [addr in net]: [False] when the versions differ. *)
Definition in_network (a : ip_addr) (net : ip_network) : bool :=
  match a, net with
  | IPv4 n, Net4 base p => (Z.shiftr n (32 - p) =? Z.shiftr base (32 - p))%Z
  | IPv6 n _, Net6 base p => (Z.shiftr n (128 - p) =? Z.shiftr base (128 - p))%Z
  | _, _ => false
  end.

(** [addr.ipv4_mapped], [addr.sixtofour], [addr.teredo[1]] *)
Definition ipv4_mapped (n : Z) : option Z :=
  if (Z.shiftr n 32 =? 65535)%Z then Some (Z.land n 4294967295) else None.
Definition sixtofour (n : Z) : option Z :=
  if (Z.shiftr n 112 =? 8194)%Z then Some (Z.land (Z.shiftr n 80) 4294967295) else None.
Definition teredo_client (n : Z) : option Z :=
  if (Z.shiftr n 96 =? 536936448)%Z then Some (Z.land (Z.lnot n) 4294967295) else None.

(** ** [urlparse] *)

(** [_check_bracketed_netloc] *)
Definition check_bracketed_host (h : string) : bool :=
  if startswith "v" h then
    match partition "." (str_drop 1 h) with
    | (v, true, r) => str_true v && str_forallb (fun c => match hex_val c with Some _ => true | None => false end) v
                      && str_true r
    | _ => false
    end
  else match ip_address h with
       | Some (IPv6 _ _) => true
       | _ => false
       end.

Definition check_bracketed_netloc (netloc : string) : bool :=
  let hp := snd (rpartition "@" netloc) in
  match partition "[" hp with
  | (before, true, bracketed) =>
      let '(h, _, port) := partition "]" bracketed in
      String.eqb before "" && (String.eqb port "" || startswith ":" port) && check_bracketed_host h
  | (_, false, _) =>
      let '(h, _, _) := partition ":" hp in check_bracketed_host h
  end.

Definition urlparse (url : string) : result ParseResult :=
  let url := url_clean url in
  let '(scheme, url) := split_scheme url in
  let '(netloc, url) :=
    if startswith "//" url then split_netloc (str_drop 2 url) else ("", url) in
  let op := char_in "[" netloc in
  let cl := char_in "]" netloc in
  if negb (eqb op cl) || (op && cl && negb (check_bracketed_netloc netloc))
  then Err (ValueError "Invalid IPv6 URL")
  else let '(rest, frag) := split_once "#" url in
       Ok {| pr_scheme := scheme; pr_netloc := netloc; pr_rest := rest;
             pr_fragment := default "" frag |}.

Lemma urlparse_ValueError s e : urlparse s = Err e -> is_ValueError e = true.
Proof.
  unfold urlparse. destruct (split_scheme _) as [scheme url].
  destruct (if startswith "//" url then _ else _) as [netloc rest].
  destruct (_ || _); [by intros [= <-]|]. by destruct (split_once "#" rest).
Qed.

(** A URL with a scheme is not made of slashes only. *)
Lemma urlparse_slashes url p :
  rstrip_slash url = "" -> urlparse url = Ok p -> pr_scheme p = "".
Proof.
  intros Hs. unfold urlparse, split_scheme.
  assert (str_forallb (Ascii.eqb "/") (url_clean url) = true) as Hall
    by (by apply str_forallb_filter, str_forallb_lstrip, rstrip_p_empty).
  assert (forall s, str_forallb (Ascii.eqb "/") s = true -> partition ":" s = (s, false, "")) as Hpart.
  { induction s as [|c s IH]; [done|]. cbn -[Ascii.eqb]. intros [<-%Ascii.eqb_eq ->%IH]%andb_prop. done. }
  rewrite (Hpart _ Hall).
  destruct (url_clean url); cbv iota beta;
    (destruct (if startswith "//" _ then _ else _) as [netloc rest]);
    (destruct (_ || _); [done|]); destruct (split_once "#" rest); by intros [= <-].
Qed.

(** [parsed.username] and [parsed.password] *)
Definition pr_username (p : ParseResult) : option string :=
  match rpartition "@" (pr_netloc p) with
  | (Some ui, _) => Some (fst (split_once ":" ui))
  | (None, _) => None
  end.
Definition pr_password (p : ParseResult) : option string :=
  match rpartition "@" (pr_netloc p) with
  | (Some ui, _) => snd (split_once ":" ui)
  | (None, _) => None
  end.

(** [parsed.hostname] *)
Definition pr_hostname (p : ParseResult) : option string :=
  let hi := snd (rpartition "@" (pr_netloc p)) in
  let h := match partition "[" hi with
           | (_, true, bracketed) => fst (split_once "]" bracketed)
           | (_, false, _) => fst (split_once ":" hi)
           end in
  if String.eqb h "" then None
  else let '(a, b, z) := partition "%" h in
       Some (lower a +:+ (if b : bool then "%" else "") +:+ z).

Example ip4_ok : ip_address "192.168.0.1" = Some (IPv4 3232235521).
Proof. vm_compute. reflexivity. Qed.
Example ip4_leading_zero : ip_address "192.168.00.1" = None.
Proof. vm_compute. reflexivity. Qed.
Example ip6_mapped : ip_address "::ffff:169.254.169.254" = Some (IPv6 281473533782526 None).
Proof. vm_compute. reflexivity. Qed.
Example ip6_full : ip_address "2001:db8::1" = Some (IPv6 42540766411282592856903984951653826561 None).
Proof. vm_compute. reflexivity. Qed.
Example ip6_two_gaps : ip_address "1::2::3" = None.
Proof. vm_compute. reflexivity. Qed.
Example ip6_eight : ip_address "::2:3:4:5:6:7:8" = Some (IPv6 158459951879775902770104041480 None).
Proof. vm_compute. reflexivity. Qed.
Example ip6_too_many : ip_address "1:2:3:4:5:6:7::8" = None.
Proof. vm_compute. reflexivity. Qed.
Example ip6_print : ip_str (IPv6 42540766411282592856903984951653826561 None) = "2001:db8::1".
Proof. vm_compute. reflexivity. Qed.
Example url_host : pr_hostname <$> urlparse "https://User:pw@Example.COM:8443/x?y#z" = Ok (Some "example.com").
Proof. vm_compute. reflexivity. Qed.
Example url_frag : pr_fragment <$> urlparse "https://a/b#c#d" = Ok "c#d".
Proof. vm_compute. reflexivity. Qed.
Example url_v6 : pr_hostname <$> urlparse "https://[::1]:443/" = Ok (Some "::1").
Proof. vm_compute. reflexivity. Qed.
Example url_bad : is_ok (urlparse "https://[::1/") = false.
Proof. vm_compute. reflexivity. Qed.
