(* ===== verification/JsonText.v ===== *)
(** * The JSON text format ([json.dumps], [json.loads])

    Encoder with [ensure_ascii=True] and both separator styles the program
    uses, and the decoder of CPython's [json] module (whitespace, escapes,
    duplicate keys, [NaN]/[Infinity], leading zeros, the 4300-digit limit).
    Code points above 255 are outside the string model: an escape that
    denotes one is answered with [OtherException]. *)
From Stdlib Require Import ZArith Lia Ascii String SpecFloat DecimalString DecimalN DecimalFacts DecimalPos.
From stdpp Require Import base option list strings gmap.
From S2P Require Import Prelude PyStr PyVal.

Open Scope string_scope.

(** ** Encoder *)

Inductive style := Compact | Spaced.
Definition item_sep (st : style) : string := match st with Compact => "," | Spaced => ", " end.
Definition key_sep (st : style) : string := match st with Compact => ":" | Spaced => ": " end.

Definition esc_char (c : ascii) : string :=
  let n := code c in
  if Ascii.eqb c dquote then String "\" (String dquote "")
  else if Ascii.eqb c "\" then "\\"
  else if (n =? 8)%N then "\b" else if (n =? 9)%N then "\t" else if (n =? 10)%N then "\n"
  else if (n =? 12)%N then "\f" else if (n =? 13)%N then "\r"
  else if ((32 <=? n) && (n <=? 126))%N then String c ""
  else "\u00" +:+ String (hex_digit (n / 16)) (String (hex_digit (n mod 16)) "").

Fixpoint esc (s : string) : string :=
  match s with
  | "" => ""
  | String c t => esc_char c +:+ esc t
  end.

Definition quoted (s : string) : string := String dquote (esc s +:+ String dquote "").

Definition float_json (f : spec_float) (repr : string) : string :=
  match f with
  | S754_nan => "NaN"
  | S754_infinity false => "Infinity"
  | S754_infinity true => "-Infinity"
  | _ => repr
  end.

Fixpoint dumps (st : style) (v : json) : string :=
  match v with
  | JNull => "null"
  | JBool true => "true"
  | JBool false => "false"
  | JInt z => str_of_int z
  | JFloat f r => float_json f r
  | JStr s => quoted s
  | JArr l => "[" +:+ join (item_sep st) (map (dumps st) l) +:+ "]"
  | JObj d => "{" +:+ join (item_sep st)
                (map (fun kv => quoted kv.1 +:+ key_sep st +:+ dumps st kv.2) d) +:+ "}"
  end.

(** ** Numbers *)

Fixpoint span_digits (s : string) : string * string :=
  match s with
  | String c t => if is_digit c then let '(d, r) := span_digits t in (String c d, r) else ("", s)
  | "" => ("", "")
  end.

Fixpoint digits_val (s : string) (acc : Z) : Z :=
  match s with
  | "" => acc
  | String c t => digits_val t (10 * acc + digit_val c)%Z
  end.

(** Round [± m * 10^e] to the nearest binary64 value. *)
Definition float_of_decimal (neg : bool) (m e : Z) : spec_float :=
  match m with
  | Zpos p =>
      let mag := (e + Z.log2 m * 30103 / 100000)%Z in
      if (400 <? mag)%Z then S754_infinity neg
      else if (mag <? -400)%Z then S754_zero neg
      else if (0 <=? e)%Z
      then binary_normalize 53 1024 (if neg then Zneg (p * Z.to_pos (10 ^ e)) else Zpos (p * Z.to_pos (10 ^ e))) 0 neg
      else SFdiv 53 1024 (S754_finite neg p 0) (S754_finite false (Z.to_pos (10 ^ (- e))) 0)
  | _ => S754_zero neg
  end.

(** [m / 10^k] rounded half to even. *)
Definition div_round (a b : Z) : Z :=
  let q := (a / b)%Z in
  let r := (a mod b)%Z in
  if (2 * r <? b)%Z then q else if (b <? 2 * r)%Z then (q + 1)%Z
  else if Z.even q then q else (q + 1)%Z.

(** The [n] leading digits of [m * 2^e] and their exponent: [d * 10^k]. *)
Definition leading_digits (m e : Z) (n : Z) : Z * Z :=
  let num := if (0 <=? e)%Z then (m * 2 ^ e)%Z else m in
  let den := if (0 <=? e)%Z then 1%Z else (2 ^ (- e))%Z in
  let est := ((Z.log2 num - Z.log2 den) * 30103 / 100000)%Z in
  let k := if (if (0 <=? est)%Z then (den * 10 ^ est <=? num)%Z else (den <=? num * 10 ^ (- est))%Z)
           then (if (if (0 <=? est + 1)%Z then (den * 10 ^ (est + 1) <=? num)%Z
                     else (den <=? num * 10 ^ (- (est + 1)))%Z) then est + 1 else est)%Z
           else (est - 1)%Z in
  let s := (n - 1 - k)%Z in
  ((if (0 <=? s)%Z then div_round (num * 10 ^ s) den else div_round num (den * 10 ^ (- s))), (- s)%Z).

Fixpoint strip_zeros (fuel : nat) (d k : Z) : Z * Z :=
  match fuel with
  | O => (d, k)
  | S f => if ((d mod 10 =? 0) && negb (d =? 0))%Z then strip_zeros f (d / 10)%Z (k + 1)%Z else (d, k)
  end.

(** The fewest digits that read back as [m * 2^e]; next to a power of two
    the neighbour of the closest decimal may be the one in range. *)
Fixpoint shortest (tries : nat) (n m e : Z) : Z * Z :=
  let '(d, k) := leading_digits m e n in
  let ok d := SFeqb (float_of_decimal false d k) (binary_normalize 53 1024 m e false) in
  match tries with
  | O => (d, k)
  | S t => if ok d then (d, k) else if ok (d + 1)%Z then (d + 1, k)%Z
           else if ok (d - 1)%Z then (d - 1, k)%Z else shortest t (n + 1)%Z m e
  end.

(** [repr(x)] *)
Definition float_repr (f : spec_float) : string :=
  match f with
  | S754_nan => "nan"
  | S754_infinity s => if s : bool then "-inf" else "inf"
  | S754_zero s => if s : bool then "-0.0" else "0.0"
  | S754_finite s m e =>
      let '(d, k) := shortest 17 1 (Zpos m) e in
      let '(d, k) := strip_zeros 20 d k in
      let ds := str_of_int d in
      let nd := Z.of_nat (String.length ds) in
      let pt := (nd + k)%Z in
      let sign := if s : bool then "-" else "" in
      let zeros n := Nat.iter (Z.to_nat n) (String "0") "" in
      sign +:+
      (if ((-4 <? pt) && (pt <=? 16))%Z then
         if (pt <=? 0)%Z then "0." +:+ zeros (- pt)%Z +:+ ds
         else if (nd <=? pt)%Z then ds +:+ zeros (pt - nd)%Z +:+ ".0"
         else str_take (Z.to_nat pt) ds +:+ "." +:+ str_drop (Z.to_nat pt) ds
       else
         let ex := (pt - 1)%Z in
         let mant := if (nd =? 1)%Z then ds else str_take 1 ds +:+ "." +:+ str_drop 1 ds in
         let a := str_of_int (Z.abs ex) in
         mant +:+ "e" +:+ (if (ex <? 0)%Z then "-" else "+") +:+
         (if (Z.abs ex <? 10)%Z then "0" +:+ a else a))
  end.

Definition mk_float (f : spec_float) : json := JFloat f (float_repr f).

(** The fraction and exponent parts, when present. *)
Definition scan_frac (s : string) : option (string * string) :=
  match s with
  | String "." t => match span_digits t with ("", _) => None | (d, r) => Some (d, r) end
  | _ => None
  end.

Definition scan_exp (s : string) : option (Z * string) :=
  match s with
  | String c t =>
      if Ascii.eqb c "e" || Ascii.eqb c "E" then
        let '(neg, u) := match t with
                         | String "-" u => (true, u)
                         | String "+" u => (false, u)
                         | _ => (false, t)
                         end in
        match span_digits u with
        | ("", _) => None
        | (d, r) => Some ((if neg : bool then - digits_val d 0 else digits_val d 0)%Z, r)
        end
      else None
  | "" => None
  end.

Definition scan_int (s : string) : option (string * string) :=
  match s with
  | String c t =>
      if Ascii.eqb c "0" then Some ("0", t)
      else if is_digit c then Some (span_digits s) else None
  | "" => None
  end.

Definition parse_magnitude (neg : bool) (u : string) : result (json * string) :=
  match scan_int u with
  | None => Err JSONDecodeError
  | Some (ds, r) =>
      let frac := scan_frac r in
      let r1 := match frac with Some (_, r1) => r1 | None => r end in
      let ex := scan_exp r1 in
      match frac, ex with
      | None, None =>
          if (String.length ds <=? max_str_digits)%nat
          then Ok (JInt (if neg : bool then - digits_val ds 0 else digits_val ds 0)%Z, r)
          else Err (ValueError "Exceeds the limit (4300 digits) for integer string conversion")
      | _, _ =>
          let fs := match frac with Some (f, _) => f | None => "" end in
          let '(x, r2) := match ex with Some (x, r2) => (x, r2) | None => (0%Z, r1) end in
          Ok (mk_float (float_of_decimal neg (digits_val (ds +:+ fs) 0)
                          (x - Z.of_nat (String.length fs))), r2)
      end
  end.

Definition parse_number (s : string) : result (json * string) :=
  match s with
  | String "-" u => parse_magnitude true u
  | _ => parse_magnitude false s
  end.

(** ** Decoder *)

Definition is_json_ws (c : ascii) : bool :=
  let n := code c in ((n =? 32) || (n =? 9) || (n =? 10) || (n =? 13))%N.
Definition skip_ws (s : string) : string := lstrip_p is_json_ws s.

Definition unescape (c : ascii) : option ascii :=
  if Ascii.eqb c dquote then Some dquote
  else if Ascii.eqb c "\" then Some c
  else if Ascii.eqb c "/" then Some c
  else if Ascii.eqb c "b" then Some (ascii_of_N 8)
  else if Ascii.eqb c "f" then Some (ascii_of_N 12)
  else if Ascii.eqb c "n" then Some (ascii_of_N 10)
  else if Ascii.eqb c "r" then Some (ascii_of_N 13)
  else if Ascii.eqb c "t" then Some (ascii_of_N 9)
  else None.

Definition hex_nibble (c : ascii) : option N :=
  let n := code c in
  (if (48 <=? n) && (n <=? 57) then Some (n - 48)
   else if (65 <=? n) && (n <=? 70) then Some (n - 55)
   else if (97 <=? n) && (n <=? 102) then Some (n - 87)
   else None)%N.

Definition cons_char (c : ascii) (r : result (string * string)) : result (string * string) :=
  match r with Ok (s, t) => Ok (String c s, t) | Err e => Err e end.

(** The characters after an opening quote. *)
Fixpoint parse_str (s : string) : result (string * string) :=
  match s with
  | "" => Err JSONDecodeError
  | String c t =>
      if Ascii.eqb c dquote then Ok ("", t)
      else if Ascii.eqb c "\" then
        match t with
        | "" => Err JSONDecodeError
        | String e t' =>
            if Ascii.eqb e "u" then
              match t' with
              | String h1 (String h2 (String h3 (String h4 r))) =>
                  match hex_nibble h1, hex_nibble h2, hex_nibble h3, hex_nibble h4 with
                  | Some a, Some b, Some c, Some d =>
                      if (a =? 0)%N && (b =? 0)%N then cons_char (ascii_of_N (c * 16 + d)) (parse_str r)
                      else Err OtherException
                  | _, _, _, _ => Err JSONDecodeError
                  end
              | _ => Err JSONDecodeError
              end
            else match unescape e with
                 | Some d => cons_char d (parse_str t')
                 | None => Err JSONDecodeError
                 end
        end
      else if (code c <? 32)%N then Err JSONDecodeError
      else cons_char c (parse_str t)
  end.

Definition lit (w : string) (v : json) (s : string) : option (json * string) :=
  if startswith w s then Some (v, str_drop (String.length w) s) else None.

Definition literal (s : string) : option (json * string) :=
  match lit "null" JNull s, lit "true" (JBool true) s, lit "false" (JBool false) s,
        lit "NaN" (mk_float S754_nan) s, lit "Infinity" (mk_float (S754_infinity false)) s,
        lit "-Infinity" (mk_float (S754_infinity true)) s with
  | Some r, _, _, _, _, _ | _, Some r, _, _, _, _ | _, _, Some r, _, _, _
  | _, _, _, Some r, _, _ | _, _, _, _, Some r, _ | _, _, _, _, _, Some r => Some r
  | _, _, _, _, _, _ => None
  end.

(** Every call consumes fuel; [loads] starts with twice the text's length,
    which [dumps] output never exhausts. *)
Fixpoint parse_value (fuel : nat) (s : string) : result (json * string) :=
  match fuel with
  | O => Err JSONDecodeError
  | S n =>
      match s with
      | "" => Err JSONDecodeError
      | String c t =>
          if Ascii.eqb c dquote then '(k, r) ← parse_str t; Ok (JStr k, r)
          else if Ascii.eqb c "{" then
            match skip_ws t with
            | String "}" r => Ok (JObj [], r)
            | u => parse_members n u []
            end
          else if Ascii.eqb c "[" then
            match skip_ws t with
            | String "]" r => Ok (JArr [], r)
            | u => parse_elems n u []
            end
          else match literal s with
               | Some r => Ok r
               | None => parse_number s
               end
      end
  end
with parse_elems (fuel : nat) (s : string) (acc : list json) : result (json * string) :=
  match fuel with
  | O => Err JSONDecodeError
  | S n =>
      '(v, r) ← parse_value n s;
      match skip_ws r with
      | String "," r' => parse_elems n (skip_ws r') (acc ++ [v])%list
      | String "]" r' => Ok (JArr (acc ++ [v])%list, r')
      | _ => Err JSONDecodeError
      end
  end
with parse_members (fuel : nat) (s : string) (acc : dict) : result (json * string) :=
  match fuel with
  | O => Err JSONDecodeError
  | S n =>
      match s with
      | String c t =>
          if Ascii.eqb c dquote then
            '(k, r) ← parse_str t;
            match skip_ws r with
            | String ":" r1 =>
                '(v, r2) ← parse_value n (skip_ws r1);
                match skip_ws r2 with
                | String "," r3 => parse_members n (skip_ws r3) (dset k v acc)
                | String "}" r3 => Ok (JObj (dset k v acc), r3)
                | _ => Err JSONDecodeError
                end
            | _ => Err JSONDecodeError
            end
          else Err JSONDecodeError
      | "" => Err JSONDecodeError
      end
  end.

Definition loads (s : string) : result json :=
  '(v, r) ← parse_value (2 * String.length s + 2) (skip_ws s);
  match skip_ws r with
  | "" => Ok v
  | _ => Err JSONDecodeError
  end.

(** [json.detect_encoding] and the decoding of [json.loads] on bytes. *)
Fixpoint utf16_decode (big : bool) (s : string) : option string :=
  match s with
  | "" => Some ""
  | String a (String b t) =>
      let n := (if big then code a * 256 + code b else code b * 256 + code a)%N in
      if (n <? 256)%N then String (ascii_of_N n) <$> utf16_decode big t else None
  | _ => None
  end.

Fixpoint utf32_decode (big : bool) (s : string) : option string :=
  match s with
  | "" => Some ""
  | String a (String b (String c (String d t))) =>
      let n := (if big then ((code a * 256 + code b) * 256 + code c) * 256 + code d
                else ((code d * 256 + code c) * 256 + code b) * 256 + code a)%N in
      if (n <? 256)%N then String (ascii_of_N n) <$> utf32_decode big t else None
  | _ => None
  end.

Definition decode_json_bytes (s : string) : option string :=
  let nul := Ascii.eqb "000" in
  match s with
  | String "000" (String "000" (String "254" (String "255" t))) => utf32_decode true t
  | String "255" (String "254" (String "000" (String "000" t))) => utf32_decode false t
  | String "254" (String "255" t) => utf16_decode true t
  | String "255" (String "254" t) => utf16_decode false t
  | String "239" (String "187" (String "191" t)) => utf8_decode t
  | String a (String b (String c (String d _))) =>
      if nul a then (if nul b then utf32_decode true s else utf16_decode true s)
      else if nul b then (if nul c && nul d then utf32_decode false s else utf16_decode false s)
      else utf8_decode s
  | String a (String b "") =>
      if nul a then utf16_decode true s else if nul b then utf16_decode false s else utf8_decode s
  | _ => utf8_decode s
  end.

Definition loads_bytes (s : string) : result json :=
  match decode_json_bytes s with Some t => loads t | None => Err UnicodeDecodeError end.

Example loads_nested :
  loads " {" = Err JSONDecodeError /\
  loads (dumps Spaced (JObj [("a", JArr [JInt (-12); JStr ("x" +:+ String dquote "\")]); ("b", JObj [])]))
  = Ok (JObj [("a", JArr [JInt (-12); JStr ("x" +:+ String dquote "\")]); ("b", JObj [])]).
Proof. vm_compute. split; reflexivity. Qed.
Example loads_floats : map (fun s => py_str <$> loads s) ["1.50"; "-0.0001e-3"; "1e23"; "123456789012345678.0"; "0.1"; "5e-324"; "1e400"]
  = map Ok ["1.5"; "-1e-07"; "1e+23"; "1.2345678901234568e+17"; "0.1"; "5e-324"; "inf"].
Proof. vm_compute. reflexivity. Qed.
Example loads_dup : loads "{" = Err JSONDecodeError /\ loads "[01]" = Err JSONDecodeError /\ loads "[1,]" = Err JSONDecodeError.
Proof. vm_compute. auto. Qed.

(** ** Round trip *)

(** The values whose text reads back as themselves: no floats, integers
    within the digit limit, distinct keys. *)
Fixpoint plain (v : json) : bool :=
  match v with
  | JInt z => (String.length (dec_of_N (Z.abs_N z)) <=? max_str_digits)%nat
  | JFloat _ _ => false
  | JArr l => forallb plain l
  | JObj d => bool_decide (NoDup (map fst d)) && forallb (fun kv => plain kv.2) d
  | _ => true
  end.

(** The fuel [parse_value] needs for a value. *)
Fixpoint need (v : json) : nat :=
  match v with
  | JArr l => S (fold_right (fun x n => S (max (need x) n)) 0 l)
  | JObj d => S (fold_right (fun kv n => S (max (need kv.2) n)) 0 d)
  | _ => 1
  end.

(** A text that cannot extend a number. *)
Definition ends_number (r : string) : bool :=
  match r with
  | "" => true
  | String c _ => negb (is_digit c || Ascii.eqb c "." || Ascii.eqb c "e" || Ascii.eqb c "E")
  end.

Lemma cons_char_ok c s t : cons_char c (Ok (s, t)) = Ok (String c s, t).
Proof. done. Qed.

Lemma parse_str_esc_char c t : parse_str (esc_char c +:+ t) = cons_char c (parse_str t).
Proof. destruct c as [[] [] [] [] [] [] [] []]; reflexivity. Qed.

Lemma parse_str_esc s r : parse_str (esc s +:+ String dquote r) = Ok (s, r).
Proof.
  induction s as [|c s IH]; [done|].
  cbn [esc]. by rewrite str_app_assoc, parse_str_esc_char, IH.
Qed.

Lemma quoted_app s r : quoted s +:+ r = String dquote (esc s +:+ String dquote r).
Proof. unfold quoted. by rewrite str_app_cons, str_app_assoc. Qed.

Lemma span_digits_app d r :
  ends_number r = true ->
  span_digits (NilEmpty.string_of_uint d +:+ r) = (NilEmpty.string_of_uint d, r).
Proof.
  intros Hr.
  assert (span_digits r = ("", r)) as H0.
  { destruct r as [|c r]; [done|]. simpl in *. apply negb_true_iff in Hr.
    apply orb_false_elim in Hr as [[[-> _]%orb_false_elim _]%orb_false_elim _]. done. }
  induction d; cbn [NilEmpty.string_of_uint]; [done|..];
    rewrite str_app_cons; cbn -[NilEmpty.string_of_uint]; by rewrite IHd.
Qed.

Ltac eval_digit :=
  match goal with
  | |- context [digit_val ?c] =>
      let v := eval vm_compute in (digit_val c) in change (digit_val c) with v
  end.

Lemma digits_val_pos d p : digits_val (NilEmpty.string_of_uint d) (Zpos p) = Zpos (Pos.of_uint_acc d p).
Proof.
  revert p; induction d; intros p; [done|..];
    cbn [NilEmpty.string_of_uint digits_val Pos.of_uint_acc]; eval_digit;
    rewrite <- IHd; f_equal; lia.
Qed.

Lemma digits_val_uint d : digits_val (NilEmpty.string_of_uint d) 0 = Z.of_N (N.of_uint d).
Proof.
  unfold N.of_uint. induction d; [done|exact IHd|..];
    cbn [NilEmpty.string_of_uint digits_val Pos.of_uint]; eval_digit; rewrite Z.mul_0_r, Z.add_0_l;
    by rewrite digits_val_pos.
Qed.

Lemma dec_of_N_val n : digits_val (dec_of_N n) 0 = Z.of_N n.
Proof. unfold dec_of_N. by rewrite digits_val_uint, DecimalN.Unsigned.of_to. Qed.

(** A decimal is "0" or starts with another digit. *)
Lemma to_uint_head n :
  N.to_uint n = Decimal.D0 Decimal.Nil \/
  (forall d, N.to_uint n <> Decimal.D0 d) /\ N.to_uint n <> Decimal.Nil.
Proof.
  pose proof (DecimalN.Unsigned.to_of (N.to_uint n)) as Hn. rewrite DecimalN.Unsigned.of_to in Hn.
  unfold Decimal.unorm in Hn.
  destruct (Decimal.nzhead (N.to_uint n)) as [|d| | | | | | | | |] eqn:E; rewrite Hn; [by left| |by right..].
  by destruct (nzhead_nonzero (N.to_uint n) d).
Qed.

(** The number scanner reads back a printed decimal. *)
Lemma scan_int_dec n r : ends_number r = true -> scan_int (dec_of_N n +:+ r) = Some (dec_of_N n, r).
Proof.
  intros Hr. unfold dec_of_N.
  pose proof (span_digits_app (N.to_uint n) r Hr) as Hs.
  destruct (to_uint_head n) as [E|[H0 H1]]; [by rewrite E|].
  destruct (N.to_uint n) as [|d|d|d|d|d|d|d|d|d|d]; [done|by destruct (H0 d)|..];
    unfold scan_int; cbn [NilEmpty.string_of_uint] in *; rewrite str_app_cons in *;
    rewrite Hs; done.
Qed.

Lemma scan_frac_end r : ends_number r = true -> scan_frac r = None.
Proof.
  destruct r as [|c r]; [done|]. intros H. simpl.
  destruct (Ascii.eqb_spec c ".") as [->|Hne]; [done|].
  destruct c as [[] [] [] [] [] [] [] []]; done.
Qed.

Lemma scan_exp_end r : ends_number r = true -> scan_exp r = None.
Proof.
  destruct r as [|c r]; [done|]. cbn [ends_number scan_exp].
  intros [H ->]%negb_true_iff%orb_false_elim.
  apply orb_false_elim in H as [_ ->]. done.
Qed.

Lemma dec_of_N_head n : exists c t, dec_of_N n = String c t /\ is_digit c = true.
Proof.
  unfold dec_of_N. pose proof (to_uint_head n) as H.
  destruct (N.to_uint n); [by destruct H as [|[_ []]]|..]; cbn [NilEmpty.string_of_uint]; eauto.
Qed.

Lemma digit_not_minus c : is_digit c = true -> Ascii.eqb c "-" = false.
Proof.
  intros H. assert (E := all_asciiP (fun c => negb (is_digit c) || negb (Ascii.eqb c "-")) ltac:(vm_compute; reflexivity) c).
  cbv beta in E. rewrite H in E. by apply negb_true_iff in E.
Qed.

Lemma parse_number_unsigned c t :
  Ascii.eqb c "-" = false -> parse_number (String c t) = parse_magnitude false (String c t).
Proof. destruct c as [[] [] [] [] [] [] [] []]; done. Qed.

Lemma parse_magnitude_dec neg n r :
  (String.length (dec_of_N n) <=? max_str_digits)%nat = true ->
  ends_number r = true ->
  parse_magnitude neg (dec_of_N n +:+ r) = Ok (JInt (if neg then - Z.of_N n else Z.of_N n)%Z, r).
Proof.
  intros Hlen Hr. unfold parse_magnitude. rewrite scan_int_dec by done. cbv zeta.
  by rewrite scan_frac_end, scan_exp_end, Hlen, dec_of_N_val by done.
Qed.

Lemma parse_number_dec n r :
  (String.length (dec_of_N n) <=? max_str_digits)%nat = true ->
  ends_number r = true ->
  parse_number (dec_of_N n +:+ r) = Ok (JInt (Z.of_N n), r).
Proof.
  intros Hlen Hr. rewrite <- (parse_magnitude_dec false) by done.
  destruct (dec_of_N_head n) as (c & t & -> & Hc%digit_not_minus).
  by rewrite str_app_cons, parse_number_unsigned.
Qed.

Lemma parse_number_int z r :
  (String.length (dec_of_N (Z.abs_N z)) <=? max_str_digits)%nat = true ->
  ends_number r = true ->
  parse_number (str_of_int z +:+ r) = Ok (JInt z, r).
Proof.
  intros Hlen Hr. unfold str_of_int. destruct z as [|p|p].
  - by apply (parse_number_dec 0).
  - by apply (parse_number_dec (Npos p)).
  - rewrite str_app_cons. by apply (parse_magnitude_dec true).
Qed.

(** The first character of an encoded value. *)
Definition value_head (c : ascii) : bool :=
  negb (is_json_ws c) && negb (Ascii.eqb c "]") && negb (Ascii.eqb c "}").

Lemma digit_head c : is_digit c = true ->
  value_head c = true /\ Ascii.eqb c dquote = false /\ Ascii.eqb c "{" = false /\ Ascii.eqb c "[" = false
  /\ forall t, literal (String c t) = None.
Proof. destruct c as [[] [] [] [] [] [] [] []]; done. Qed.

Lemma int_head z : exists c t, str_of_int z = String c t /\
  value_head c = true /\ Ascii.eqb c dquote = false /\ Ascii.eqb c "{" = false /\ Ascii.eqb c "[" = false
  /\ forall r, literal (str_of_int z +:+ r) = None.
Proof.
  unfold str_of_int. destruct z as [|p|p].
  - exists "0"%char, ""; done.
  - destruct (dec_of_N_head (Z.to_N (Zpos p))) as (c & t & -> & Hc).
    exists c, t. pose proof (digit_head c Hc) as (? & ? & ? & ? & Hl). repeat split; auto.
    intros r. rewrite str_app_cons. apply Hl.
  - exists "-"%char, (dec_of_N (Npos p)). repeat split.
    intros r. destruct (dec_of_N_head (Npos p)) as (c & t & -> & Hc).
    rewrite !str_app_cons. destruct c as [[] [] [] [] [] [] [] []]; done.
Qed.

Lemma dumps_head st v : plain v = true -> exists c t, dumps st v = String c t /\ value_head c = true.
Proof.
  destruct v as [|[]|z|f r|s|l|d]; intros H; [| | | |discriminate H|..]; cbn [dumps];
    try (eexists _, _; split; [reflexivity|reflexivity]).
  destruct (int_head z) as (c & t & -> & ? & _). eauto.
Qed.

Lemma skip_ws_head c t : value_head c = true -> skip_ws (String c t) = String c t.
Proof.
  unfold value_head, skip_ws. simpl. by destruct (is_json_ws c).
Qed.

Lemma skip_ws_sep st c t : value_head c = true ->
  skip_ws (item_sep st +:+ String c t) = String "," (match st with Compact => "" | Spaced => " " end +:+ String c t)
  /\ skip_ws (match st with Compact => "" | Spaced => " " end +:+ String c t) = String c t.
Proof.
  intros H. split; [by destruct st|]. destruct st; simpl; [by apply skip_ws_head|].
  by rewrite str_app_cons, str_app_nil_l; unfold skip_ws; simpl; apply skip_ws_head.
Qed.

Section roundtrip.
Variable st : style.

(** What the induction proves about a value. *)
Definition parses (v : json) : Prop := forall n r,
  plain v = true -> (need v <= n)%nat -> ends_number r = true ->
  parse_value n (dumps st v +:+ r) = Ok (v, r).

Lemma join_cons2 sep x y l : join sep (x :: y :: l) = x +:+ sep +:+ join sep (y :: l).
Proof. done. Qed.

Lemma parse_elems_dumps l : Forall parses l -> l <> [] -> forallb plain l = true ->
  forall n acc r, (fold_right (fun x n => S (max (need x) n)) 0 l <= n)%nat ->
  parse_elems n (join (item_sep st) (map (dumps st) l) +:+ String "]" r) acc
  = Ok (JArr (acc ++ l), r)%list.
Proof.
  induction 1 as [|v l Hv Hl IH]; [done|]. intros _ Hp n acc r Hn.
  apply andb_prop in Hp as [Hpv Hpl]. destruct n as [|n]; [simpl in Hn; lia|].
  cbn [fold_right] in Hn. destruct l as [|w l].
  - cbn [map join parse_elems]. rewrite Hv by (done || lia). done.
  - cbn [map]. rewrite join_cons2, !str_app_assoc.
    cbn [parse_elems]. destruct (dumps_head st w) as (c & t & Hw & Hc); [by apply andb_prop in Hpl as []|].
    assert (exists u, join (item_sep st) (dumps st w :: map (dumps st) l) +:+ String "]" r = String c u) as [u Hu].
    { rewrite Hw. destruct (map (dumps st) l); cbn [join]; eexists; rewrite ?str_app_cons; done. }
    rewrite Hu. destruct (skip_ws_sep st c u Hc) as [E1 E2].
    rewrite Hv; [|done|lia|by destruct st]. cbn [mbind result_bind]. rewrite E1.
    cbv iota beta. rewrite E2, <- Hu. change (dumps st w :: map (dumps st) l) with (map (dumps st) (w :: l)).
    rewrite IH by (done || lia). by rewrite <- app_assoc.
Qed.

Definition member (kv : string * json) : string := quoted kv.1 +:+ key_sep st +:+ dumps st kv.2.

Lemma member_head kv r : exists t, member kv +:+ r = String dquote t.
Proof. unfold member, quoted. rewrite !str_app_cons. eauto. Qed.

Lemma dset_fresh k v d : k ∉ map fst d -> dset k v d = (d ++ [(k, v)])%list.
Proof.
  induction d as [|[k' v'] d IH]; simpl; [done|]. intros H.
  destruct (String.eqb_spec k k') as [->|_]; [destruct H; left|]. f_equal. apply IH. intros Hin. apply H. by right.
Qed.

(** One member: the key, the colon and the value. *)
Lemma parse_member n kv acc r :
  parses kv.2 -> plain kv.2 = true -> (need kv.2 <= n)%nat -> ends_number r = true ->
  parse_members (S n) (member kv +:+ r) acc =
  match skip_ws r with
  | String "," r3 => parse_members n (skip_ws r3) (dset kv.1 kv.2 acc)
  | String "}" r3 => Ok (JObj (dset kv.1 kv.2 acc), r3)
  | _ => Err JSONDecodeError
  end.
Proof.
  intros Hv Hp Hn Hr. unfold member. rewrite !str_app_assoc, quoted_app.
  cbn [parse_members]. cbv iota. rewrite parse_str_esc.
  destruct (dumps_head st kv.2 Hp) as (c & t & E & Hc).
  assert (Hcolon : exists u, skip_ws (key_sep st +:+ dumps st kv.2 +:+ r) = String ":" u
            /\ skip_ws u = dumps st kv.2 +:+ r).
  { rewrite E, str_app_cons. destruct st; cbn [key_sep]; rewrite ?str_app_cons, ?str_app_nil_l.
    - eexists; split; [reflexivity|]. by apply skip_ws_head.
    - eexists; split; [reflexivity|]. unfold skip_ws; simpl. by apply skip_ws_head. }
  destruct Hcolon as (u & E1 & E2). cbn [mbind result_bind]. rewrite E1. cbv iota beta.
  rewrite E2, Hv by done. done.
Qed.

Lemma parse_members_dumps d : Forall (fun kv => parses kv.2) d -> d <> [] ->
  forallb (fun kv => plain kv.2) d = true ->
  forall n acc r, (fold_right (fun kv n => S (max (need kv.2) n)) 0 d <= n)%nat ->
  NoDup (map fst (acc ++ d)%list) ->
  parse_members n (join (item_sep st) (map member d) +:+ String "}" r) acc
  = Ok (JObj (acc ++ d), r)%list.
Proof.
  induction 1 as [|kv d Hv Hl IH]; [done|]. intros _ Hp n acc r Hn Hnd.
  apply andb_prop in Hp as [Hpv Hpl]. destruct n as [|n]; [simpl in Hn; lia|].
  cbn [fold_right] in Hn.
  assert (kv.1 ∉ map fst acc) as Hfresh.
  { rewrite map_app in Hnd. apply NoDup_app in Hnd as (_ & Hd & _).
    intros Hin. apply (Hd _ Hin). left. }
  destruct d as [|kw d].
  - cbn [map join]. rewrite parse_member by (done || lia). simpl.
    rewrite dset_fresh by done. by destruct kv.
  - cbn [map]. rewrite join_cons2, !str_app_assoc.
    rewrite parse_member by (done || lia || by destruct st).
    assert (exists u, join (item_sep st) (member kw :: map member d) +:+ String "}" r = String dquote u) as [u Hu].
    { destruct (map member d); cbn [join]; [apply member_head|]. rewrite str_app_assoc. apply member_head. }
    rewrite Hu. destruct (skip_ws_sep st dquote u eq_refl) as [E1 E2]. rewrite E1. cbv iota beta.
    rewrite E2, <- Hu. change (member kw :: map member d) with (map member (kw :: d)).
    rewrite dset_fresh by done.
    replace ((acc ++ [(kv.1, kv.2)]))%list with (acc ++ [kv])%list by by destruct kv.
    rewrite IH by (done || lia || by rewrite <- app_assoc). by rewrite <- app_assoc.
Qed.

Lemma parse_dumps v : parses v.
Proof.
  induction v as [|b|z|f r|s|l IH|d IH] using json_ind'; intros n r0 Hp Hn Hr;
    (destruct n as [|n]; [cbn in Hn; lia|]).
  - by destruct r0.
  - by destruct b, r0.
  - destruct (int_head z) as (c & t & E & _ & H1 & H2 & H3 & Hlit). specialize (Hlit r0).
    cbn [dumps plain] in *. pose proof (parse_number_int z r0 Hp Hr) as Hnum.
    rewrite E, str_app_cons in *. cbn [parse_value]. by rewrite H1, H2, H3, Hlit.
  - done.
  - cbn [dumps]. rewrite quoted_app. cbn [parse_value]. by rewrite parse_str_esc.
  - cbn [dumps plain need] in *. rewrite !str_app_assoc. destruct l as [|v l]; [done|].
    destruct (dumps_head st v) as (c & t & E & Hc); [by apply andb_prop in Hp as []|].
    pose proof (parse_elems_dumps (v :: l) IH ltac:(done) Hp n [] r0 ltac:(lia)) as H.
    assert (exists u, join (item_sep st) (map (dumps st) (v :: l)) +:+ String "]" r0 = String c u) as [u Hu].
    { cbn [map]. rewrite E. destruct (map (dumps st) l); cbn [join]; eexists; rewrite ?str_app_cons; done. }
    change ("]" +:+ r0) with (String "]" r0). rewrite Hu in *.
    change ("[" +:+ String c u) with (String "[" (String c u)).
    cbn [parse_value]. cbv iota. rewrite skip_ws_head by done.
    unfold value_head in Hc. apply andb_prop in Hc as [[_ Hc]%andb_prop _].
    destruct c as [[] [] [] [] [] [] [] []]; try done; exact H.
  - cbn [dumps plain need] in *. rewrite !str_app_assoc. destruct d as [|kv d]; [done|].
    apply andb_prop in Hp as [Hnd%bool_decide_eq_true Hp].
    pose proof (parse_members_dumps (kv :: d) IH ltac:(done) Hp n [] r0 ltac:(lia) Hnd) as H.
    assert (exists u, join (item_sep st) (map member (kv :: d)) +:+ String "}" r0 = String dquote u) as [u Hu].
    { cbn [map]. destruct (map member d); cbn [join]; [apply member_head|]. rewrite str_app_assoc. apply member_head. }
    change ("}" +:+ r0) with (String "}" r0). fold member. rewrite Hu in *.
    change ("{" +:+ String dquote u) with (String "{" (String dquote u)).
    cbn [parse_value]. cbv iota. rewrite skip_ws_head by done. exact H.
Qed.

Lemma value_length v : plain v = true -> (1 <= String.length (dumps st v))%nat.
Proof. intros H. destruct (dumps_head st v H) as (c & t & -> & _). simpl. lia. Qed.

Lemma join_length_cons2 sep x y l :
  String.length (join sep (x :: y :: l)) =
  (String.length x + String.length sep + String.length (join sep (y :: l)))%nat.
Proof. rewrite join_cons2, !str_app_length. lia. Qed.

(** Twice the text's length is enough fuel. *)
Lemma need_bound v : plain v = true -> (need v <= 2 * String.length (dumps st v))%nat.
Proof.
  induction v as [|[]|z|f r|s|l IH|d IH] using json_ind'; intros Hp;
    try (pose proof (value_length _ Hp); cbn [need]; lia).
  - cbn [need dumps plain] in *. rewrite !str_app_length.
    enough (fold_right (fun x n => S (max (need x) n)) 0 l
            <= 2 * String.length (join (item_sep st) (map (dumps st) l)) + 1)%nat as H
      by (change (String.length "[") with 1%nat; change (String.length "]") with 1%nat; lia).
    induction IH as [|v l Hv _ IHl]; [simpl; lia|].
    apply andb_prop in Hp as [Hpv Hpl]. specialize (IHl Hpl). specialize (Hv Hpv).
    pose proof (value_length v Hpv).
    destruct l as [|w l]; cbn [fold_right map]; [cbn [join]; lia|].
    rewrite join_length_cons2. cbn [map] in IHl. cbn [fold_right] in IHl. lia.
  - cbn [need dumps plain] in *. apply andb_prop in Hp as [_ Hp]. rewrite !str_app_length.
    fold member.
    enough (fold_right (fun kv n => S (max (need kv.2) n)) 0 d
            <= 2 * String.length (join (item_sep st) (map member d)) + 1)%nat as H
      by (change (String.length "{") with 1%nat; change (String.length "}") with 1%nat; lia).
    induction IH as [|kv d Hv _ IHd]; [simpl; lia|].
    apply andb_prop in Hp as [Hpv Hpl]. specialize (IHd Hpl). specialize (Hv Hpv).
    pose proof (value_length kv.2 Hpv).
    assert (String.length (dumps st kv.2) <= String.length (member kv))%nat
      by (unfold member; rewrite !str_app_length; lia).
    destruct d as [|kw d]; cbn [fold_right map]; [cbn [join]; lia|].
    rewrite join_length_cons2. cbn [map] in IHd. cbn [fold_right] in IHd. lia.
Qed.
End roundtrip.

Lemma loads_dumps st v : plain v = true -> loads (dumps st v) = Ok v.
Proof.
  intros Hp. unfold loads. pose proof (need_bound st v Hp) as Hn.
  destruct (dumps_head st v Hp) as (c & t & E & Hc).
  pose proof (parse_dumps st v (2 * String.length (dumps st v) + 2) "" Hp ltac:(lia) eq_refl) as H.
  rewrite E in *. rewrite skip_ws_head by done.
  replace (String c t +:+ "") with (String c t) in H.
  - rewrite H. done.
  - clear. generalize (String c t). intros s. induction s as [|d s IH]; [done|]. by rewrite str_app_cons, <- IH.
Qed.
