(* ===== verification/Config.v ===== *)
(** * Settings ([app/config.py])

    The environment-variable parsers and [Settings.from_env].  The process
    environment is a function [getenv].  A configuration error is a raised
    [RuntimeError] or [ValueError], which the module turns into an exit. *)
From Stdlib Require Import ZArith Lia Ascii String.
From stdpp Require Import base option list strings gmap.
From S2P Require Import Prelude PyStr PyVal PyNet.

Open Scope string_scope.

Definition _WEBHOOK_AUTH_MODES : list string := ["bearer"; "hmac"; "unsigned"].
Definition _APPLE_SCIM_UPDATE_MODES : list string :=
  ["patch_all"; "external_id_only"; "emails_only"; "username_only"; "replace_all"].

Definition str_mem (s : string) (l : list string) : bool := existsb (String.eqb s) l.

(** [value or dflt] for [str | None] *)
Definition opt_or (v : option string) (dflt : string) : string :=
  match v with
  | Some s => if str_true s then s else dflt
  | None => dflt
  end.

(** [not value] for [str | None] *)
Definition opt_false (v : option string) : bool :=
  match v with Some s => negb (str_true s) | None => true end.

(** [value or None] *)
Definition or_none (v : option string) : option string :=
  if opt_false v then None else v.

Definition _strip_trailing_slash (value : string) : string := rstrip_slash value.

Definition _parse_https_url (value env_name : string) : result string :=
  parsed ← urlparse value;
  if negb (String.eqb (pr_scheme parsed) "https") || opt_false (pr_hostname parsed)
  then Err (ValueError (env_name +:+ " must be a valid HTTPS URL, got " +:+ repr_str value))
  else Ok value.

Definition _parse_sync_interval (value : string) : result Z :=
  match int_of_str value with
  | None => Err (ValueError "invalid literal for int() with base 10")
  | Some interval =>
      if (interval <? 1)%Z
      then Err (ValueError ("APPLE_SCIM_SYNC_INTERVAL must be >= 1 second, got " +:+ str_of_int interval))
      else Ok interval
  end.

Definition _parse_apple_scim_update_mode (value : option string) : result string :=
  let mode := lower (strip (opt_or value "patch_all")) in
  if negb (str_mem mode _APPLE_SCIM_UPDATE_MODES)
  then Err (ValueError "APPLE_SCIM_UPDATE_MODE must be one of: emails_only, external_id_only, patch_all, replace_all, username_only")
  else Ok mode.

Definition _parse_apple_scim_allow_username_recovery (value : option string) : result bool :=
  match value with
  | None => Ok false
  | Some v =>
      let normalized := lower (strip v) in
      if negb (str_mem normalized ["true"; "false"])
      then Err (ValueError "APPLE_SCIM_ALLOW_USERNAME_RECOVERY must be true or false")
      else Ok (String.eqb normalized "true")
  end.

Definition _parse_management_token (value : option string) : result string :=
  match value with
  | Some v =>
      if negb (str_true v)
      then Err (RuntimeError "Missing required environment variable: SSF_MANAGEMENT_TOKEN")
      else if (str_len v <? 32)%Z
      then Err (RuntimeError ("SSF_MANAGEMENT_TOKEN is too short (" +:+ str_of_int (str_len v) +:+ " chars); minimum is 32 characters"))
      else Ok v
  | None => Err (RuntimeError "Missing required environment variable: SSF_MANAGEMENT_TOKEN")
  end.

Definition _parse_webhook_auth_mode (value : option string) (allow_unsigned_legacy : bool) : result string :=
  if allow_unsigned_legacy then Ok "unsigned" else
  let mode := strip (lower (opt_or value "bearer")) in
  if negb (str_mem mode _WEBHOOK_AUTH_MODES)
  then Err (RuntimeError "SSF_WEBHOOK_AUTH_MODE must be one of: bearer, hmac, unsigned")
  else Ok mode.

Definition _parse_webhook_token (value : option string) (mode : string) : result (option string) :=
  if negb (String.eqb mode "bearer") then Ok (or_none value) else
  match value with
  | Some v =>
      if negb (str_true v)
      then Err (RuntimeError "Missing required environment variable: SSF_WEBHOOK_TOKEN (required when SSF_WEBHOOK_AUTH_MODE=bearer)")
      else if (str_len v <? 32)%Z
      then Err (RuntimeError ("SSF_WEBHOOK_TOKEN is too short (" +:+ str_of_int (str_len v) +:+ " chars); minimum is 32 characters"))
      else Ok (Some v)
  | None => Err (RuntimeError "Missing required environment variable: SSF_WEBHOOK_TOKEN (required when SSF_WEBHOOK_AUTH_MODE=bearer)")
  end.

Definition _parse_allowed_receiver_hosts (value : option string) : list string :=
  if opt_false value then []
  else map (fun h => lower (strip h))
         (List.filter (fun h => str_true (strip h)) (split_char "," (default "" value))).

Definition _LOG_LEVELS : list string := ["DEBUG"; "INFO"; "WARNING"; "ERROR"; "CRITICAL"].

Definition _parse_log_level (value : option string) : result string :=
  let level := upper (opt_or value "INFO") in
  if negb (str_mem level _LOG_LEVELS)
  then Err (ValueError ("SSF_LOG_LEVEL must be one of CRITICAL, DEBUG, ERROR, INFO, WARNING, got " +:+ repr_str level))
  else Ok level.

Definition _parse_webhook_secret (value : option string) (mode : string) : result string :=
  if String.eqb mode "hmac" && opt_false value
  then Err (RuntimeError "Missing required environment variable: SSF_WEBHOOK_SECRET (required when SSF_WEBHOOK_AUTH_MODE=hmac)")
  else Ok (opt_or value "").

Record Settings := {
  ssf_issuer : string;
  ssf_base_url : string;
  ssf_root_path : string;
  ssf_container_port : Z;
  ssf_management_token : string;
  log_level : string;
  ssf_webhook_auth_mode : string;
  ssf_webhook_token : option string;
  ssf_webhook_secret : string;
  database_path : string;
  keys_dir : string;
  log_pii : bool;
  pii_pepper : string;
  apple_scim_client_id : option string;
  apple_scim_client_secret : option string;
  authentik_url : option string;
  authentik_token : option string;
  apple_scim_group_id : option string;
  apple_scim_sync_interval : Z;
  apple_scim_alert_webhook_url : option string;
  apple_scim_authorize_url : string;
  apple_scim_token_url : string;
  apple_scim_log_error_body : bool;
  apple_scim_update_mode : string;
  apple_scim_allow_username_recovery : bool;
  ssf_allow_custom_issuer : bool;
  ssf_log_color : bool;
  ssf_log_receiver_error_body : bool;
  ssf_enable_openapi : bool;
  ssf_allowed_receiver_hosts : list string;
  ssf_token_encryption_key : option string;
}.

Definition allow_unsigned_webhook (s : Settings) : bool :=
  String.eqb (ssf_webhook_auth_mode s) "unsigned".

Definition apple_scim_enabled (s : Settings) : bool :=
  negb (opt_false (apple_scim_client_id s)) && negb (opt_false (apple_scim_client_secret s))
  && negb (opt_false (authentik_url s)) && negb (opt_false (authentik_token s)).

(** [self.public_url(path)] *)
Definition public_url (s : Settings) (path : string) : string :=
  let normalized_path := if startswith "/" path then path else "/" +:+ path in
  ssf_base_url s +:+ normalized_path.

(** [bool(v)] of an optional string, [v or ""] *)
Definition opt_true (v : option string) : json := JBool (negb (opt_false v)).

Definition safe_log_dict (s : Settings) : dict :=
  [ ("ssf_issuer", JStr (ssf_issuer s));
    ("ssf_base_url", JStr (ssf_base_url s));
    ("ssf_root_path", JStr (ssf_root_path s));
    ("ssf_container_port", JInt (ssf_container_port s));
    ("database_path", JStr (database_path s));
    ("keys_dir", JStr (keys_dir s));
    ("log_level", JStr (log_level s));
    ("ssf_webhook_auth_mode", JStr (ssf_webhook_auth_mode s));
    ("apple_scim_enabled", JBool (apple_scim_enabled s));
    ("apple_scim_group_filter_enabled", opt_true (apple_scim_group_id s));
    ("apple_scim_group_id", JStr (opt_or (apple_scim_group_id s) ""));
    ("apple_scim_update_mode", JStr (apple_scim_update_mode s));
    ("apple_scim_log_error_body", JBool (apple_scim_log_error_body s));
    ("apple_scim_allow_username_recovery", JBool (apple_scim_allow_username_recovery s));
    ("ssf_enable_openapi", JBool (ssf_enable_openapi s));
    ("ssf_allowed_receiver_hosts_count", JInt (Z.of_nat (length (ssf_allowed_receiver_hosts s))));
    ("token_encryption_key_dedicated", opt_true (ssf_token_encryption_key s)) ].

(** [try: _parse_https_url(...) except ValueError as exc: raise RuntimeError] *)
Definition require_https_url (value env_name : string) : result unit :=
  catch (_ ← _parse_https_url value env_name; Ok tt)
    (fun e => match e with
              | ValueError msg => Some (Err (RuntimeError msg))
              | _ => None
              end).

Section from_env.
Variable getenv : string -> option string.

Definition getenv_default (name dflt : string) : string := default dflt (getenv name).
Definition getenv_flag (name : string) : bool :=
  String.eqb (lower (getenv_default name "false")) "true".

Definition missing_required : list string :=
  List.filter (fun name => opt_false (getenv name)) ["SSF_ISSUER"; "SSF_BASE_URL"].

Definition from_env : result Settings :=
  _ ← raise_when (negb (bool_decide (missing_required = [])))
        (RuntimeError ("Missing required environment variables: " +:+ join ", " missing_required));
  let issuer := getenv_default "SSF_ISSUER" "" in
  let base_url := getenv_default "SSF_BASE_URL" "" in
  _ ← require_https_url issuer "SSF_ISSUER";
  _ ← require_https_url base_url "SSF_BASE_URL";
  let allow_unsigned := getenv_flag "SSF_ALLOW_UNSIGNED_WEBHOOK" in
  auth_mode ← _parse_webhook_auth_mode (getenv "SSF_WEBHOOK_AUTH_MODE") allow_unsigned;
  webhook_token ← _parse_webhook_token (getenv "SSF_WEBHOOK_TOKEN") auth_mode;
  webhook_secret ← _parse_webhook_secret (getenv "SSF_WEBHOOK_SECRET") auth_mode;
  let authentik_url_raw := getenv "AUTHENTIK_URL" in
  issuer' ← _parse_https_url issuer "SSF_ISSUER";
  base_url' ← _parse_https_url base_url "SSF_BASE_URL";
  port ← match int_of_str (getenv_default "SSF_CONTAINER_PORT" "8000") with
         | Some z => Ok z
         | None => Err (ValueError "invalid literal for int() with base 10")
         end;
  management_token ← _parse_management_token (getenv "SSF_MANAGEMENT_TOKEN");
  level ← _parse_log_level
            (Some (getenv_default "SSF_LOG_LEVEL" (getenv_default "LOG_LEVEL" "INFO")));
  interval ← _parse_sync_interval (getenv_default "APPLE_SCIM_SYNC_INTERVAL" "3600");
  alert_url ← (if opt_false (getenv "APPLE_SCIM_ALERT_WEBHOOK_URL") then Ok None
               else Some <$> _parse_https_url (getenv_default "APPLE_SCIM_ALERT_WEBHOOK_URL" "")
                               "APPLE_SCIM_ALERT_WEBHOOK_URL");
  authorize_url ← _parse_https_url
    (getenv_default "APPLE_SCIM_AUTHORIZE_URL" "https://appleid.apple.com/auth/oauth2/v2/authorize")
    "APPLE_SCIM_AUTHORIZE_URL";
  token_url ← _parse_https_url
    (getenv_default "APPLE_SCIM_TOKEN_URL" "https://appleid.apple.com/auth/oauth2/v2/token")
    "APPLE_SCIM_TOKEN_URL";
  update_mode ← _parse_apple_scim_update_mode (getenv "APPLE_SCIM_UPDATE_MODE");
  allow_recovery ← _parse_apple_scim_allow_username_recovery
                     (getenv "APPLE_SCIM_ALLOW_USERNAME_RECOVERY");
  Ok {| ssf_issuer := issuer';
        ssf_base_url := _strip_trailing_slash base_url';
        ssf_root_path := getenv_default "SSF_ROOT_PATH" "";
        ssf_container_port := port;
        ssf_management_token := management_token;
        log_level := level;
        ssf_webhook_auth_mode := auth_mode;
        ssf_webhook_token := webhook_token;
        ssf_webhook_secret := webhook_secret;
        database_path := getenv_default "SSF_DATABASE_PATH" "/app/data/ssf.db";
        keys_dir := getenv_default "SSF_KEYS_DIR" "/app/keys";
        log_pii := getenv_flag "SSF_LOG_PII";
        pii_pepper := getenv_default "SSF_PII_PEPPER" "";
        apple_scim_client_id := or_none (getenv "APPLE_SCIM_CLIENT_ID");
        apple_scim_client_secret := or_none (getenv "APPLE_SCIM_CLIENT_SECRET");
        authentik_url := _strip_trailing_slash <$> or_none authentik_url_raw;
        authentik_token := or_none (getenv "AUTHENTIK_TOKEN");
        apple_scim_group_id := or_none (getenv "APPLE_SCIM_GROUP_ID");
        apple_scim_sync_interval := interval;
        apple_scim_alert_webhook_url := alert_url;
        apple_scim_authorize_url := authorize_url;
        apple_scim_token_url := token_url;
        apple_scim_log_error_body := getenv_flag "APPLE_SCIM_LOG_ERROR_BODY";
        apple_scim_update_mode := update_mode;
        apple_scim_allow_username_recovery := allow_recovery;
        ssf_allow_custom_issuer := getenv_flag "SSF_ALLOW_CUSTOM_ISSUER";
        ssf_log_color := getenv_flag "SSF_LOG_COLOR";
        ssf_log_receiver_error_body := getenv_flag "SSF_LOG_RECEIVER_ERROR_BODY";
        ssf_enable_openapi := getenv_flag "SSF_ENABLE_OPENAPI";
        ssf_allowed_receiver_hosts := _parse_allowed_receiver_hosts (getenv "SSF_ALLOWED_RECEIVER_HOSTS");
        ssf_token_encryption_key := or_none (getenv "SSF_TOKEN_ENCRYPTION_KEY") |}.

(** The module, when it is imported: its settings, or the exit status. *)
Inductive imported :=
| Loaded (settings : Settings)
| Exits (status : Z).

(** [except (RuntimeError, ValueError)] *)
Definition config_error (e : exn) : bool :=
  match e with RuntimeError _ => true | _ => is_ValueError e end.

Definition module_settings : result imported :=
  catch (settings ← from_env; Ok (Loaded settings))
    (fun e => if config_error e then Some (Ok (Exits 0)) else None).
End from_env.

(** ** What a loaded configuration guarantees *)

Record settings_ok (s : Settings) : Prop := {
  ok_issuer : _parse_https_url (ssf_issuer s) "SSF_ISSUER" = Ok (ssf_issuer s);
  ok_base_url : ssf_base_url s <> "";
  ok_management_token : (32 <= str_len (ssf_management_token s))%Z;
  ok_auth_mode : ssf_webhook_auth_mode s ∈ _WEBHOOK_AUTH_MODES;
  ok_bearer : ssf_webhook_auth_mode s = "bearer" ->
    exists t, ssf_webhook_token s = Some t /\ (32 <= str_len t)%Z;
  ok_hmac : ssf_webhook_auth_mode s = "hmac" -> ssf_webhook_secret s <> "";
  ok_interval : (1 <= apple_scim_sync_interval s)%Z;
  ok_update_mode : apple_scim_update_mode s ∈ _APPLE_SCIM_UPDATE_MODES;
  ok_log_level : log_level s ∈ _LOG_LEVELS;
  ok_hosts : Forall (fun h => h <> "" /\ lower (strip h) = h) (ssf_allowed_receiver_hosts s);
}.

Lemma str_mem_elem s l : str_mem s l = true <-> s ∈ l.
Proof. apply existsb_str_elem. Qed.

Lemma opt_or_true v d : d <> "" -> opt_or v d <> "".
Proof.
  destruct v as [s|]; simpl; [|done]. unfold str_true.
  by destruct (String.eqb_spec s "").
Qed.

Lemma parse_https_url_same v name u : _parse_https_url v name = Ok u -> u = v.
Proof. unfold _parse_https_url. intros (p & _ & H)%bind_ok. by destruct (_ || _); inv_ok. Qed.

Lemma parse_https_url_base v name u : _parse_https_url v name = Ok u -> _strip_trailing_slash u <> "".
Proof.
  intros Hu Hs. rewrite (parse_https_url_same _ _ _ Hu) in Hs.
  unfold _parse_https_url in Hu. apply bind_ok in Hu as (p & Hp & H).
  by rewrite (urlparse_slashes _ _ Hs Hp) in H.
Qed.

Lemma parse_management_token_len v t :
  _parse_management_token v = Ok t -> v = Some t /\ (32 <= str_len t)%Z.
Proof.
  unfold _parse_management_token. destruct v as [s|]; [|done].
  destruct (str_true s); simpl; [|done].
  destruct (_ <? _)%Z eqn:E; [done|]. intros [= <-]. split; [done|].
  by apply Z.ltb_ge in E.
Qed.

Lemma parse_webhook_token_bearer v t :
  _parse_webhook_token v "bearer" = Ok t -> exists s, t = Some s /\ (32 <= str_len s)%Z.
Proof.
  unfold _parse_webhook_token. simpl. destruct v as [s|]; [|done].
  destruct (str_true s); simpl; [|done].
  destruct (_ <? _)%Z eqn:E; [done|]. intros [= <-]. apply Z.ltb_ge in E. eauto.
Qed.

Lemma parse_webhook_auth_mode_valid v b m :
  _parse_webhook_auth_mode v b = Ok m -> m ∈ _WEBHOOK_AUTH_MODES.
Proof.
  unfold _parse_webhook_auth_mode. destruct b; [intros [= <-]; set_solver|].
  destruct (str_mem _ _) eqn:E; simpl; [|done]. intros [= <-]. by apply str_mem_elem.
Qed.

Lemma parse_webhook_secret_hmac v s :
  _parse_webhook_secret v "hmac" = Ok s -> s <> "".
Proof.
  unfold _parse_webhook_secret. simpl. unfold opt_or, opt_false, str_true.
  destruct v as [t|]; simpl; [|done].
  destruct (String.eqb_spec t ""); simpl; [done|]. by intros [= <-].
Qed.

Lemma parse_update_mode_valid v m :
  _parse_apple_scim_update_mode v = Ok m -> m ∈ _APPLE_SCIM_UPDATE_MODES.
Proof.
  unfold _parse_apple_scim_update_mode. destruct (str_mem _ _) eqn:E; simpl; [|done].
  intros [= <-]. by apply str_mem_elem.
Qed.

Lemma parse_log_level_valid v l : _parse_log_level v = Ok l -> l ∈ _LOG_LEVELS.
Proof.
  unfold _parse_log_level. destruct (str_mem _ _) eqn:E; simpl; [|done].
  intros [= <-]. by apply str_mem_elem.
Qed.

Lemma parse_sync_interval_pos v i : _parse_sync_interval v = Ok i -> (1 <= i)%Z.
Proof.
  unfold _parse_sync_interval. destruct (int_of_str v); [|done].
  destruct (_ <? _)%Z eqn:E; [done|]. intros [= <-]. by apply Z.ltb_ge in E.
Qed.

Lemma parse_hosts_normalized v :
  Forall (fun h => h <> "" /\ lower (strip h) = h) (_parse_allowed_receiver_hosts v).
Proof.
  unfold _parse_allowed_receiver_hosts. destruct (opt_false v); [constructor|].
  apply Forall_forall. intros h. rewrite list_elem_of_In, in_map_iff.
  intros (x & <- & [_ Hx]%filter_In). split.
  - intros Hl. unfold str_true in Hx. destruct (strip x); [done|]. discriminate Hl.
  - by rewrite strip_lower, strip_idem, lower_idem.
Qed.

(** Every configuration [Settings.from_env] accepts has a management token
    of at least 32 characters, a known webhook mode with the credential that
    mode needs, a positive sync interval, a known update mode and log level,
    and a receiver allowlist of non-empty, trimmed, lower-case hosts. *)
Theorem from_env_settings_ok getenv s : from_env getenv = Ok s -> settings_ok s.
Proof.
  unfold from_env. intros H.
  repeat (apply bind_ok in H as (? & ? & H); cbv zeta in H).
  injection H as <-. split; simpl.
  - match goal with Hi : _parse_https_url _ "SSF_ISSUER" = Ok ?i |- _ =>
      pose proof (parse_https_url_same _ _ _ Hi); congruence end.
  - eapply parse_https_url_base; eauto.
  - eapply parse_management_token_len; eauto.
  - eapply parse_webhook_auth_mode_valid; eauto.
  - intros ->. eapply parse_webhook_token_bearer; eauto.
  - intros ->. eapply parse_webhook_secret_hmac; eauto.
  - eapply parse_sync_interval_pos; eauto.
  - eapply parse_update_mode_valid; eauto.
  - eapply parse_log_level_valid; eauto.
  - apply parse_hosts_normalized.
Qed.

(** ** What a rejected configuration raises *)

(** Every exception the computation raises satisfies [P]. *)
Definition raises {A} (P : exn -> bool) (r : result A) : Prop := forall e, r = Err e -> P e = true.

Lemma raises_ok {A} P (a : A) : raises P (Ok a).
Proof. by intros e. Qed.
Lemma raises_err {A} P e : P e = true -> raises P (Err e : result A).
Proof. by intros HP e' [= <-]. Qed.
Lemma raises_bind {A B} P (m : result A) (k : A -> result B) :
  raises P m -> (forall a, raises P (k a)) -> raises P (m ≫= k).
Proof. intros Hm Hk e. destruct m as [a|e0]; [apply Hk|]. intros [= <-]. by apply Hm. Qed.

(** By cases on the conditions of the code. *)
Ltac raises_cases := repeat first [apply raises_ok | by apply raises_err | case_match].

Lemma parse_https_url_raises v name : raises config_error (_parse_https_url v name).
Proof.
  apply raises_bind; [|intros p; raises_cases]. intros e He%urlparse_ValueError. by destruct e.
Qed.

Lemma require_https_url_raises v name : raises config_error (require_https_url v name).
Proof.
  intros e. unfold require_https_url. destruct (_parse_https_url v name) as [u|e0] eqn:E; [done|].
  apply parse_https_url_raises in E. destruct e0; simpl; try done; by intros [= <-].
Qed.

Lemma from_env_raises getenv : raises config_error (from_env getenv).
Proof.
  unfold from_env, raise_when, _parse_webhook_auth_mode, _parse_webhook_token, _parse_webhook_secret,
    _parse_management_token, _parse_log_level, _parse_sync_interval, _parse_apple_scim_update_mode,
    _parse_apple_scim_allow_username_recovery.
  cbv zeta. repeat (apply raises_bind;
    [first [apply parse_https_url_raises|apply require_https_url_raises|idtac]|intros ?]); raises_cases.
  intros e. destruct (_parse_https_url _ _) as [u|e0] eqn:E; [done|]. intros [= <-]. by eapply parse_https_url_raises.
Qed.

(** C37: the configuration is settled when the module is imported: either the
    settings satisfy what the other parts rely on - a management token of at
    least 32 characters, a known webhook mode with the credential that mode
    needs, a positive sync interval, a known update mode and log level, and a
    receiver allowlist of non-empty, trimmed, lower-case hosts - or the process
    exits with status 0; no environment makes it fail otherwise. *)
Theorem configured_or_exits getenv :
  (exists s, module_settings getenv = Ok (Loaded s) /\ from_env getenv = Ok s /\ settings_ok s) \/
  (module_settings getenv = Ok (Exits 0) /\ is_ok (from_env getenv) = false).
Proof.
  unfold module_settings. destruct (from_env getenv) as [s|e] eqn:E.
  - left. exists s. split_and!; [done|done|]. by apply (from_env_settings_ok getenv).
  - right. split; [|done]. simpl. by rewrite (from_env_raises getenv e E).
Qed.

Lemma module_settings_ok getenv s : module_settings getenv = Ok (Loaded s) -> settings_ok s.
Proof.
  unfold module_settings. destruct (from_env getenv) as [s'|e] eqn:E.
  - intros [= <-]. by apply (from_env_settings_ok getenv).
  - simpl. by destruct (config_error e).
Qed.

(** ** Logging the settings *)

(** The same secrets are set; their values may differ. *)
Definition same_presence (v v' : option string) : Prop := opt_false v = opt_false v'.

(** [s] with other secret values. *)
Definition with_secrets (s : Settings) (management webhook pepper : string)
    (webhook_token client_secret authentik encryption : option string) : Settings :=
  {| ssf_issuer := ssf_issuer s; ssf_base_url := ssf_base_url s; ssf_root_path := ssf_root_path s;
     ssf_container_port := ssf_container_port s; ssf_management_token := management; log_level := log_level s;
     ssf_webhook_auth_mode := ssf_webhook_auth_mode s; ssf_webhook_token := webhook_token;
     ssf_webhook_secret := webhook; database_path := database_path s; keys_dir := keys_dir s;
     log_pii := log_pii s; pii_pepper := pepper; apple_scim_client_id := apple_scim_client_id s;
     apple_scim_client_secret := client_secret; authentik_url := authentik_url s; authentik_token := authentik;
     apple_scim_group_id := apple_scim_group_id s; apple_scim_sync_interval := apple_scim_sync_interval s;
     apple_scim_alert_webhook_url := apple_scim_alert_webhook_url s;
     apple_scim_authorize_url := apple_scim_authorize_url s; apple_scim_token_url := apple_scim_token_url s;
     apple_scim_log_error_body := apple_scim_log_error_body s; apple_scim_update_mode := apple_scim_update_mode s;
     apple_scim_allow_username_recovery := apple_scim_allow_username_recovery s;
     ssf_allow_custom_issuer := ssf_allow_custom_issuer s; ssf_log_color := ssf_log_color s;
     ssf_log_receiver_error_body := ssf_log_receiver_error_body s; ssf_enable_openapi := ssf_enable_openapi s;
     ssf_allowed_receiver_hosts := ssf_allowed_receiver_hosts s; ssf_token_encryption_key := encryption |}.

(** What is logged of the settings does not depend on the value of a secret,
    only on which of the optional ones are set. *)
Lemma safe_log_dict_secret s management webhook pepper webhook_token client_secret authentik encryption :
  same_presence (apple_scim_client_secret s) client_secret -> same_presence (authentik_token s) authentik ->
  same_presence (ssf_token_encryption_key s) encryption ->
  safe_log_dict (with_secrets s management webhook pepper webhook_token client_secret authentik encryption) =
  safe_log_dict s.
Proof.
  intros Hc Ha He. unfold safe_log_dict, apple_scim_enabled, opt_true, same_presence in *. simpl.
  by rewrite Hc, Ha, He.
Qed.

(** ** A concrete environment *)

(** The variables set by a minimal deployment in HMAC mode. *)
Definition example_env (name : string) : option string :=
  match List.find (fun kv => String.eqb (fst kv) name)
    [("SSF_ISSUER", "https://ssf.example.com"); ("SSF_BASE_URL", "https://ssf.example.com/");
     ("SSF_MANAGEMENT_TOKEN", "0123456789abcdef0123456789abcdef");
     ("SSF_WEBHOOK_AUTH_MODE", "hmac"); ("SSF_WEBHOOK_SECRET", "shared-secret");
     ("SSF_ALLOWED_RECEIVER_HOSTS", " Receiver.Example.com ,")] with
  | Some kv => Some (snd kv)
  | None => None
  end.

Definition example_settings : Settings :=
  Eval vm_compute in
  match from_env example_env with
  | Ok s => s
  | Err _ => {| ssf_issuer := ""; ssf_base_url := ""; ssf_root_path := ""; ssf_container_port := 0;
       ssf_management_token := ""; log_level := ""; ssf_webhook_auth_mode := "";
       ssf_webhook_token := None; ssf_webhook_secret := ""; database_path := ""; keys_dir := "";
       log_pii := false; pii_pepper := ""; apple_scim_client_id := None;
       apple_scim_client_secret := None; authentik_url := None; authentik_token := None;
       apple_scim_group_id := None; apple_scim_sync_interval := 0;
       apple_scim_alert_webhook_url := None; apple_scim_authorize_url := "";
       apple_scim_token_url := ""; apple_scim_log_error_body := false;
       apple_scim_update_mode := ""; apple_scim_allow_username_recovery := false;
       ssf_allow_custom_issuer := false; ssf_log_color := false;
       ssf_log_receiver_error_body := false; ssf_enable_openapi := false;
       ssf_allowed_receiver_hosts := []; ssf_token_encryption_key := None |}
  end.

Lemma from_env_settings_ok_witness :
  from_env example_env = Ok example_settings /\ settings_ok example_settings.
Proof.
  split; [vm_compute; reflexivity|].
  apply (from_env_settings_ok example_env). vm_compute. reflexivity.
Defined.
