(* ===== verification/Logging.v ===== *)
(** * Logging ([configure_logging] of [app/config.py])

    The part of Python's [logging] the service sets up: loggers in a tree of
    dotted names with a level, handlers and filters of their own, below a root
    logger.  A handler is the formatter it has; what is shown is which
    handlers write a record. *)
From Stdlib Require Import ZArith Lia Ascii String.
From stdpp Require Import base option list strings gmap.
From S2P Require Import Prelude PyStr Config.

Open Scope string_scope.

(** ** Python's [logging] *)

Definition Formatter : Type := string.
Definition Filter : Type := string -> bool.      (* of the message of a record *)

Record Logger := { lg_level : Z; lg_handlers : list Formatter; lg_propagate : bool; lg_filters : list Filter }.

(** A logger nobody has touched: level NOTSET. *)
Definition new_logger : Logger := {| lg_level := 0; lg_handlers := []; lg_propagate := true; lg_filters := [] |}.

Record LogState := { root_level : Z; root_handlers : list Formatter; loggers : gmap string Logger }.

Definition getLogger (name : string) (st : LogState) : Logger := default new_logger (loggers st !! name).
Definition set_logger (name : string) (f : Logger -> Logger) (st : LogState) : LogState :=
  {| root_level := root_level st; root_handlers := root_handlers st;
     loggers := <[name := f (getLogger name st)]> (loggers st) |}.

(** A name and the names above it, the nearest first. *)
Definition lineage (name : string) : list string :=
  let parts := split_char "." name in
  rev (map (fun n => String.concat "." (take n parts)) (seq 1 (length parts))).

(** [getEffectiveLevel] and [callHandlers]. *)
Fixpoint effective_level (names : list string) (st : LogState) : Z :=
  match names with
  | [] => root_level st
  | n :: t => let l := lg_level (getLogger n st) in if (l =? 0)%Z then effective_level t st else l
  end.
Fixpoint handlers_of (names : list string) (st : LogState) : list Formatter :=
  match names with
  | [] => root_handlers st
  | n :: t => (lg_handlers (getLogger n st) ++ if lg_propagate (getLogger n st) then handlers_of t st else [])%list
  end.

(** The formatters a record is written with. *)
Definition emitted (st : LogState) (name : string) (level : Z) (message : string) : list Formatter :=
  if (effective_level (lineage name) st <=? level)%Z && forallb (fun f => f message) (lg_filters (getLogger name st))
  then handlers_of (lineage name) st else [].

(** [basicConfig] does nothing when the root logger has a handler. *)
Definition basicConfig (level : Z) (fmt : Formatter) (st : LogState) : LogState :=
  match root_handlers st with
  | [] => {| root_level := level; root_handlers := [fmt]; loggers := loggers st |}
  | _ => st
  end.

Definition WARNING : Z := 30.
(** [getattr(logging, name, logging.INFO)] for the names [_parse_log_level] accepts. *)
Definition level_number (name : string) : Z :=
  if String.eqb name "DEBUG" then 10 else if String.eqb name "WARNING" then 30
  else if String.eqb name "ERROR" then 40 else if String.eqb name "CRITICAL" then 50 else 20.

(** ** [config.py] *)

(** [_HealthcheckFilter.filter] *)
Definition healthcheck_filter (msg : string) : bool := negb (str_in "127.0.0.1" msg && str_in "/jwks.json" msg).

Definition plain_fmt : Formatter := "%(asctime)s %(levelname)s [%(name)s] %(message)s".

(** The body of the loop over uvicorn's loggers. *)
Definition to_root (l : Logger) : Logger :=
  {| lg_level := lg_level l; lg_handlers := []; lg_propagate := true; lg_filters := lg_filters l |}.
Definition add_filter (f : Filter) (l : Logger) : Logger :=
  {| lg_level := lg_level l; lg_handlers := lg_handlers l; lg_propagate := lg_propagate l;
     lg_filters := (lg_filters l ++ [f])%list |}.
Definition set_level (level : Z) (l : Logger) : Logger :=
  {| lg_level := level; lg_handlers := lg_handlers l; lg_propagate := lg_propagate l; lg_filters := lg_filters l |}.

Definition uvicorn_loggers : list string := ["uvicorn"; "uvicorn.error"; "uvicorn.access"].
Definition noisy_loggers : list string := ["aiosqlite"; "httpx"; "httpcore"].

(** [colorlog]: its formatter when it is installed. *)
Definition configure_logging (settings : Settings) (colorlog : option Formatter) (st : LogState) : LogState :=
  let formatter := if ssf_log_color settings then default plain_fmt colorlog else plain_fmt in
  let st := basicConfig (level_number (log_level settings)) plain_fmt st in
  let st := {| root_level := root_level st; root_handlers := map (fun _ => formatter) (root_handlers st); loggers := loggers st |} in
  let st := foldl (fun st name => set_logger name to_root st) st uvicorn_loggers in
  let st := set_logger "uvicorn.access" (add_filter healthcheck_filter) st in
  foldl (fun st name => set_logger name (set_level WARNING) st) st noisy_loggers.

(** ** What is logged *)

Lemma getLogger_set name name' f st :
  getLogger name (set_logger name' f st) = if decide (name = name') then f (getLogger name st) else getLogger name st.
Proof.
  unfold getLogger, set_logger. simpl. destruct (decide (name = name')) as [->|].
  - by rewrite lookup_insert_eq.
  - by rewrite lookup_insert_ne.
Qed.

Section configured.
Variable settings : Settings.
Variable colorlog : option Formatter.
Variable st : LogState.
Hypothesis fresh_root : root_handlers st = [].

Definition formatter : Formatter := if ssf_log_color settings then default plain_fmt colorlog else plain_fmt.
Definition configured : LogState := configure_logging settings colorlog st.

Lemma configured_root : root_level configured = level_number (log_level settings) /\ root_handlers configured = [formatter].
Proof. unfold configured, configure_logging, basicConfig. by rewrite fresh_root. Qed.

Lemma configured_logger name : getLogger name configured =
  let l := getLogger name st in
  if decide (name = "uvicorn.access") then add_filter healthcheck_filter (to_root l)
  else if decide (name ∈ uvicorn_loggers) then to_root l
  else if decide (name ∈ noisy_loggers) then set_level WARNING l else l.
Proof.
  unfold configured, configure_logging, basicConfig. rewrite fresh_root. cbn [foldl uvicorn_loggers noisy_loggers].
  rewrite !getLogger_set. change (getLogger name {| root_level := ?a; root_handlers := ?b; loggers := loggers st |}) with (getLogger name st).
  repeat (destruct (decide (name = _)) as [->|]; [done|]). by rewrite !decide_False by set_solver.
Qed.

(** Uvicorn's access log goes to the root's handler, once per record, except
    the records of the health check. *)
Lemma access_logged level msg :
  emitted configured "uvicorn.access" level msg =
  if (effective_level (lineage "uvicorn.access") configured <=? level)%Z &&
     (forallb (fun f => f msg) (lg_filters (getLogger "uvicorn.access" st)) && healthcheck_filter msg)
  then [formatter] else [].
Proof.
  unfold emitted. rewrite (configured_logger "uvicorn.access"). rewrite decide_True by done. cbn [add_filter to_root lg_filters].
  rewrite forallb_app. cbn [forallb]. rewrite andb_true_r.
  assert (handlers_of (lineage "uvicorn.access") configured = [formatter]) as ->; [|done].
  change (lineage "uvicorn.access") with ["uvicorn.access"; "uvicorn"]. cbn [handlers_of].
  rewrite !configured_logger. cbn. apply configured_root.
Qed.

(** The libraries below the service log nothing that is not a warning,
    whatever level is configured. *)
Lemma noisy_quiet name level msg : name ∈ noisy_loggers -> (level < WARNING)%Z -> emitted configured name level msg = [].
Proof.
  intros Hn Hl. unfold emitted.
  assert (effective_level (lineage name) configured = WARNING) as ->.
  { unfold noisy_loggers in Hn. repeat (apply elem_of_cons in Hn as [->|Hn]); [..|by apply elem_of_nil in Hn];
      (cbn [lineage effective_level]; unfold lineage; cbn; by rewrite configured_logger). }
  by rewrite (proj2 (Z.leb_gt _ _) Hl).
Qed.
End configured.

(** The filter looks for the two texts anywhere in the record, so whoever puts
    them into the query of a request keeps it out of the access log. *)
Module Example.
Definition message (client target : string) : string := client +:+ " - GET " +:+ target +:+ " HTTP/1.1 200".

Example healthcheck_dropped : healthcheck_filter (message "127.0.0.1:51234" "/jwks.json") = false.
Proof. vm_compute. reflexivity. Qed.
Example others_kept : healthcheck_filter (message "203.0.113.7:51234" "/jwks.json") = true.
Proof. vm_compute. reflexivity. Qed.
Example hidden_request : healthcheck_filter (message "203.0.113.7:51234" "/ssf/streams?127.0.0.1/jwks.json") = false.
Proof. vm_compute. reflexivity. Qed.
End Example.
