(* ===== verification/Crypto.v ===== *)
(** * Keys, SET claims and encryption at rest ([app/crypto.py])

    The third-party primitives (SHA-256, HMAC, Fernet, JWT signing, RSA key
    generation) are the interface [CryptoLib]; [CryptoLaws] states what the
    program relies on.  [Toy] is a concrete instance for the witnesses. *)
From Stdlib Require Import ZArith Lia Ascii String.
From stdpp Require Import base option list strings gmap.
From S2P Require Import Prelude PyStr PyVal PyNet Config.

Open Scope string_scope.

(** ** base64 ([base64.urlsafe_b64decode], [urlsafe_b64encode]) *)

Definition b64_val (c : ascii) : option N :=
  let n := code c in
  (if (65 <=? n) && (n <=? 90) then Some (n - 65)
   else if (97 <=? n) && (n <=? 122) then Some (n - 71)
   else if (48 <=? n) && (n <=? 57) then Some (n + 4)
   else if (n =? 43) || (n =? 45) then Some 62
   else if (n =? 47) || (n =? 95) then Some 63
   else None)%N.

(** The lenient decoder: characters outside the alphabet are skipped;
    [quad] is the position in the group of four, [left] the pending bits,
    [pads] the padding characters seen since the last data character. *)
Fixpoint a2b_base64 (s : string) (quad : nat) (left : N) (pads : nat) : option string :=
  match s with
  | "" => if (quad =? 0)%nat then Some "" else None
  | String c t =>
      if Ascii.eqb c "=" then
        if (2 <=? quad)%nat && (4 <=? quad + S pads)%nat then Some ""
        else a2b_base64 t quad left (if (2 <=? quad)%nat then S pads else pads)
      else match b64_val c with
           | None => a2b_base64 t quad left pads
           | Some v =>
               match quad with
               | 0%nat => a2b_base64 t 1 v 0
               | 1%nat => String (ascii_of_N (left * 4 + v / 16)) <$> a2b_base64 t 2 (v mod 16) 0
               | 2%nat => String (ascii_of_N (left * 16 + v / 4)) <$> a2b_base64 t 3 (v mod 4) 0
               | _ => String (ascii_of_N (left * 64 + v)) <$> a2b_base64 t 0 0 0
               end%N
           end
  end.

(** [None] stands for the exceptions of [urlsafe_b64decode]. *)
Definition urlsafe_b64decode (s : string) : option string :=
  if is_ascii_str s then a2b_base64 s 0 0 0 else None.

Definition b64_char (n : N) : ascii :=
  ascii_of_N (if n <? 26 then n + 65 else if n <? 52 then n + 71
              else if n <? 62 then n - 4 else if n =? 62 then 45 else 95)%N.

Fixpoint urlsafe_b64encode (s : string) : string :=
  match s with
  | String a (String b (String c t)) =>
      let x := code a in let y := code b in let z := code c in
      String (b64_char (x / 4)) (String (b64_char ((x mod 4) * 16 + y / 16))
        (String (b64_char ((y mod 16) * 4 + z / 64)) (String (b64_char (z mod 64))
          (urlsafe_b64encode t))))%N
  | String a (String b "") =>
      let x := code a in let y := code b in
      String (b64_char (x / 4)) (String (b64_char ((x mod 4) * 16 + y / 16))
        (String (b64_char ((y mod 16) * 4)) "="))%N
  | String a "" =>
      let x := code a in
      String (b64_char (x / 4)) (String (b64_char ((x mod 4) * 16)) "==")%N
  | "" => ""
  end.

Definition hexdigest (digest : string) : string :=
  (fix go (s : string) : string :=
     match s with
     | "" => ""
     | String c t => String (hex_digit (code c / 16)) (String (hex_digit (code c mod 16)) (go t))
     end) digest.

(** ** Third-party primitives *)

Class CryptoLib := {
  sha256 : string -> string;                       (* hashlib.sha256(b).digest() *)
  hmac_sha256 : string -> string -> string;        (* hmac.new(key, msg, sha256).digest() *)
  fernet_encrypt : string -> string -> string -> string;  (* key, time and IV, plaintext *)
  fernet_decrypt : string -> string -> option string;     (* None: InvalidToken *)
  jwt_encode : json -> string -> json -> result string;   (* claims, private key, headers *)
}.

Definition _FERNET_PREFIX : string := "fernet1:".
Definition _FERNET_BLOB_PREFIX : string := "gAAAA".
Definition _FERNET_VERSION_BYTE : N := 128.
Definition _FERNET_MIN_TOKEN_BYTES : nat := 57.

Definition equals_signs (n : nat) : string := Nat.iter n (String "=") "".

Definition _is_valid_fernet_token_format (value : string) : bool :=
  if negb (startswith _FERNET_BLOB_PREFIX value) then false else
  let padded := value +:+ equals_signs ((4 - String.length value mod 4) mod 4) in
  match urlsafe_b64decode padded with
  | None => false
  | Some raw =>
      (_FERNET_MIN_TOKEN_BYTES <=? String.length raw)%nat &&
      match raw with
      | String b _ => (code b =? _FERNET_VERSION_BYTE)%N
      | "" => false
      end
  end.

Class CryptoLaws `{CryptoLib} := {
  fernet_roundtrip k iv m : fernet_decrypt k (fernet_encrypt k iv m) = Some m;
  fernet_token_ascii k iv m : is_ascii_str (fernet_encrypt k iv m) = true;
  fernet_token_shape k iv m : _is_valid_fernet_token_format (fernet_encrypt k iv m) = true;
}.

(** The result of [rsa.generate_private_key] as the program reads it. *)
Record RsaKey := {
  rk_private_pem : string;
  rk_public_pem : string;
  rk_n : Z;
  rk_e : Z;
}.

(** The keys directory: the contents of [private.pem] and [jwks.json], [None]
    for a file that does not exist. *)
Record KeyStore := {
  ks_private_pem : option string;
  ks_jwks : option (result json);   (* parsed, or the exception of json.load *)
}.

Section crypto.
Context `{CryptoLib}.
Variable settings : Settings.

(** [value.to_bytes((value.bit_length() + 7) // 8, "big")] *)
Fixpoint to_bytes_be (n : nat) (value : Z) : string :=
  match n with
  | O => ""
  | S n' => String (ascii_of_N (Z.to_N (Z.land (Z.shiftr value (8 * Z.of_nat n')) 255))) (to_bytes_be n' value)
  end.

Definition bit_length (value : Z) : Z := if (value =? 0)%Z then 0 else Z.log2 value + 1.

Definition _b64url_uint (value : Z) : string :=
  let raw := to_bytes_be (Z.to_nat ((bit_length value + 7) / 8)) value in
  rstrip_p (Ascii.eqb "=") (urlsafe_b64encode raw).

Definition _public_jwk (key : RsaKey) : dict :=
  let kid := str_take 8 (hexdigest (sha256 (rk_public_pem key))) in
  [ ("kty", JStr "RSA"); ("use", JStr "sig"); ("kid", JStr kid); ("alg", JStr "RS256");
    ("n", JStr (_b64url_uint (rk_n key))); ("e", JStr (_b64url_uint (rk_e key))) ].

Definition ensure_keys (generated : RsaKey) (ks : KeyStore) : KeyStore :=
  match ks_private_pem ks, ks_jwks ks with
  | Some _, Some _ => ks
  | _, _ => {| ks_private_pem := Some (rk_private_pem generated);
               ks_jwks := Some (Ok (JObj [("keys", JArr [JObj (_public_jwk generated)])])) |}
  end.

Definition load_jwks (ks : KeyStore) : result json :=
  match ks_jwks ks with Some r => r | None => Err OtherException end.

Definition _load_signing_material (ks : KeyStore) : result (string * json) :=
  private_pem ← match ks_private_pem ks with Some p => Ok p | None => Err OtherException end;
  jwks ← load_jwks ks;
  keys ← py_get "keys" jwks;
  _ ← raise_when (negb (truthy keys)) (RuntimeError "JWKS contains no keys");
  first ← match keys with
          | JArr (k :: _) => Ok k
          | JStr (String c _) => Ok (JStr (String c ""))
          | JObj _ => Err KeyError
          | _ => Err TypeError
          end;
  kid ← py_get "kid" first;
  _ ← raise_when (negb (truthy kid)) (RuntimeError "First key in JWKS is missing 'kid'");
  Ok (private_pem, kid).

Definition set_headers (kid : json) : json := JObj [("kid", kid); ("typ", JStr "secevent+jwt")].

(** The claims of [sign_set]; [now], [jti] and [fresh_txn] are the values of
    [time.time()] and the two [uuid.uuid4()] calls. *)
Definition set_claims (now : Z) (jti fresh_txn : string) (event_uri audience email : string)
    (event_payload : option dict) (txn : option string) : json :=
  JObj [ ("iss", JStr (ssf_issuer settings));
         ("iat", JInt now);
         ("jti", JStr jti);
         ("aud", JArr [JStr audience]);
         ("txn", JStr (opt_or txn fresh_txn));
         ("sub_id", JObj [("format", JStr "email"); ("email", JStr email)]);
         ("events", JObj [(event_uri, JObj (default [] event_payload))]) ].

Definition sign_set (ks : KeyStore) (now : Z) (jti fresh_txn : string)
    (event_uri audience email : string) (event_payload : option dict) (txn : option string)
    : result string :=
  '(private_pem, kid) ← _load_signing_material ks;
  jwt_encode (set_claims now jti fresh_txn event_uri audience email event_payload txn)
    private_pem (set_headers kid).

Definition VERIFICATION_URI : string :=
  "https://schemas.openid.net/secevent/ssf/event-type/verification".

Definition verification_claims (now : Z) (jti : string) (audience stream_id : string)
    (state : option string) : json :=
  JObj [ ("iss", JStr (ssf_issuer settings));
         ("iat", JInt now);
         ("jti", JStr jti);
         ("aud", JArr [JStr audience]);
         ("sub_id", JObj [("format", JStr "opaque"); ("id", JStr stream_id)]);
         ("events", JObj [(VERIFICATION_URI,
            JObj match state with Some s => [("state", JStr s)] | None => [] end)]) ].

Definition sign_verification_set (ks : KeyStore) (now : Z) (jti : string)
    (audience stream_id : string) (state : option string) : result string :=
  '(private_pem, kid) ← _load_signing_material ks;
  jwt_encode (verification_claims now jti audience stream_id state) private_pem (set_headers kid).

Definition _get_token_encryption_key : string :=
  let raw := opt_or (ssf_token_encryption_key settings) (ssf_management_token settings) in
  urlsafe_b64encode (sha256 (utf8_encode raw)).

(** [bytes.decode("utf-8")] *)
Definition decode_utf8 (b : string) : result string :=
  match utf8_decode b with Some s => Ok s | None => Err UnicodeDecodeError end.

Definition encrypt_token (iv plaintext : string) : string :=
  if negb (str_true plaintext) then "" else
  _FERNET_PREFIX +:+ fernet_encrypt _get_token_encryption_key iv (utf8_encode plaintext).

Definition encrypt_sensitive_data (iv plaintext : string) : string :=
  _FERNET_PREFIX +:+ fernet_encrypt _get_token_encryption_key iv (utf8_encode plaintext).

Definition decrypt_sensitive_data (ciphertext : string) : result string :=
  if negb (startswith _FERNET_PREFIX ciphertext)
  then Err (EncryptedDataError "Stored sensitive data has an unsupported format")
  else match fernet_decrypt _get_token_encryption_key
               (utf8_encode (str_drop (String.length _FERNET_PREFIX) ciphertext)) with
       | None => Err (EncryptedDataError "Stored sensitive data cannot be decrypted")
       | Some b =>
           match utf8_decode b with
           | None => Err (EncryptedDataError "Stored sensitive data cannot be decrypted")
           | Some s => Ok s
           end
       end.

Definition _decrypt_fernet_blob (blob : string) : result string :=
  match fernet_decrypt _get_token_encryption_key (utf8_encode blob) with
  | None => Err TokenDecryptionError
  | Some b => decode_utf8 b
  end.

Definition decrypt_token (ciphertext : string) : result string :=
  if negb (str_true ciphertext) then Ok "" else
  if startswith _FERNET_PREFIX ciphertext then
    let blob := str_drop (String.length _FERNET_PREFIX) ciphertext in
    match _decrypt_fernet_blob blob with
    | Err TokenDecryptionError =>
        if _is_valid_fernet_token_format blob then Err TokenDecryptionError else Ok ciphertext
    | r => r
    end
  else if _is_valid_fernet_token_format ciphertext then
    match fernet_decrypt _get_token_encryption_key (utf8_encode ciphertext) with
    | None => Ok ciphertext
    | Some b => decode_utf8 b
    end
  else Ok ciphertext.
End crypto.

(** ** Lemmas *)

Lemma utf8_encode_ascii s : is_ascii_str s = true -> utf8_encode s = s.
Proof.
  unfold is_ascii_str. induction s as [|c s IH]; simpl; [done|].
  intros [-> H]%andb_prop. by rewrite IH.
Qed.

Lemma prefixed_not_empty t : str_true (_FERNET_PREFIX +:+ t) = true.
Proof. done. Qed.

Section crypto_lemmas.
Context `{CryptoLaws}.

Lemma decrypt_prefixed settings iv m :
  fernet_decrypt (_get_token_encryption_key settings)
    (utf8_encode (str_drop (String.length _FERNET_PREFIX)
      (_FERNET_PREFIX +:+ fernet_encrypt (_get_token_encryption_key settings) iv m))) = Some m.
Proof. rewrite str_drop_app, utf8_encode_ascii by apply fernet_token_ascii. apply fernet_roundtrip. Qed.

Lemma decrypt_encrypt_sensitive settings iv s :
  decrypt_sensitive_data settings (encrypt_sensitive_data settings iv s) = Ok s.
Proof.
  unfold decrypt_sensitive_data, encrypt_sensitive_data.
  rewrite prefix_app. simpl negb. cbv iota. by rewrite decrypt_prefixed, utf8_roundtrip.
Qed.

Lemma decrypt_encrypt_token settings iv t :
  decrypt_token settings (encrypt_token settings iv t) = Ok t.
Proof.
  unfold encrypt_token. destruct (str_true t) eqn:E.
  - simpl negb. cbv iota. unfold decrypt_token. rewrite prefixed_not_empty, prefix_app.
    unfold _decrypt_fernet_blob. rewrite decrypt_prefixed. unfold decode_utf8.
    by rewrite utf8_roundtrip.
  - unfold str_true in E. apply negb_false_iff, String.eqb_eq in E. by subst.
Qed.

Lemma encrypt_token_empty settings iv t : encrypt_token settings iv t = "" <-> t = "".
Proof.
  unfold encrypt_token, str_true. destruct (String.eqb_spec t ""); simpl; [done|].
  by split.
Qed.

(** C36: a receiver token and queued SET data survive storage: decrypting what
    was encrypted under the same settings gives back the plaintext, whatever
    time and IV the encryption used. *)
Theorem encryption_roundtrip settings iv s :
  decrypt_token settings (encrypt_token settings iv s) = Ok s /\
  decrypt_sensitive_data settings (encrypt_sensitive_data settings iv s) = Ok s.
Proof. split; [apply decrypt_encrypt_token|apply decrypt_encrypt_sensitive]. Qed.

(** After a key change, a stored receiver token fails closed: a token
    written under one key and rejected by Fernet under the current key raises
    [TokenDecryptionError]; it is never returned as if it were a legacy
    plaintext token. *)
Theorem rotated_key_fails_closed old new iv t :
  t <> "" ->
  fernet_decrypt (_get_token_encryption_key new)
    (fernet_encrypt (_get_token_encryption_key old) iv (utf8_encode t)) = None ->
  decrypt_token new (encrypt_token old iv t) = Err TokenDecryptionError /\
  exists msg, decrypt_sensitive_data new (encrypt_sensitive_data old iv t) = Err (EncryptedDataError msg).
Proof.
  intros Hne Hdec. unfold encrypt_token, encrypt_sensitive_data.
  assert (str_true t = true) as -> by (unfold str_true; by destruct (String.eqb_spec t "")).
  simpl negb. cbv iota. unfold decrypt_token, decrypt_sensitive_data, _decrypt_fernet_blob.
  rewrite prefixed_not_empty, prefix_app, str_drop_app,
    (utf8_encode_ascii (fernet_encrypt _ _ _)) by apply fernet_token_ascii.
  simpl negb. cbv iota zeta. rewrite Hdec, fernet_token_shape. eauto.
Qed.

(** Queued SET data is never read without authentication: whatever the
    stored text, [decrypt_sensitive_data] either returns the UTF-8 text Fernet
    authenticated after the version prefix or raises [EncryptedDataError]. *)
Theorem decrypt_sensitive_data_authenticated settings c :
  match decrypt_sensitive_data settings c with
  | Ok s => exists blob b, c = _FERNET_PREFIX +:+ blob /\
      fernet_decrypt (_get_token_encryption_key settings) (utf8_encode blob) = Some b /\
      utf8_decode b = Some s
  | Err e => exists msg, e = EncryptedDataError msg
  end.
Proof.
  unfold decrypt_sensitive_data.
  destruct (startswith _FERNET_PREFIX c) eqn:E; simpl negb; cbv iota; [|eauto].
  destruct (fernet_decrypt _ _) as [b|] eqn:Ed; [|eauto].
  destruct (utf8_decode b) as [s|] eqn:Eu; [|eauto].
  exists (str_drop (String.length _FERNET_PREFIX) c), b.
  split; [by apply startswith_app|done].
Qed.
End crypto_lemmas.

Lemma public_jwk_kid `{CryptoLib} key :
  sha256 (rk_public_pem key) <> "" -> truthy (dget "kid" (_public_jwk key)) = true.
Proof.
  intros Hsha. unfold _public_jwk, dget, dget_default. simpl.
  by destruct (sha256 (rk_public_pem key)).
Qed.

(** Startup key handling: once [ensure_keys] has run on a directory that
    lacked either file, signing material loads, with the private key just
    generated and the [kid] of the first published JWK; a complete directory
    is left untouched. *)
Theorem ensure_keys_signing_material `{CryptoLib} generated ks :
  sha256 (rk_public_pem generated) <> "" ->
  match ks_private_pem ks, ks_jwks ks with
  | Some _, Some _ => ensure_keys generated ks = ks
  | _, _ => exists jwk,
      load_jwks (ensure_keys generated ks) = Ok (JObj [("keys", JArr [JObj jwk])]) /\
      _load_signing_material (ensure_keys generated ks) = Ok (rk_private_pem generated, dget "kid" jwk)
  end.
Proof.
  intros Hsha%public_jwk_kid. unfold _load_signing_material, load_jwks, ensure_keys.
  destruct ks as [[p|] [j|]]; cbn [ks_private_pem ks_jwks]; [done| | |];
    (exists (_public_jwk generated); split; [done|]);
    cbn -[_public_jwk truthy]; by rewrite Hsha.
Qed.

(** Both files of one key pair are there. *)
Definition keys_complete `{CryptoLib} (ks : KeyStore) (key : RsaKey) : Prop :=
  ks_private_pem ks = Some (rk_private_pem key) /\
  ks_jwks ks = Some (Ok (JObj [("keys", JArr [JObj (_public_jwk key)])])).

(** The two files belong together: an unfinished start leaves no JWKS. *)
Definition keys_ok `{CryptoLib} (ks : KeyStore) : Prop :=
  ks_jwks ks = None \/ exists key, keys_complete ks key.

Lemma ensure_keys_complete `{CryptoLib} generated ks :
  keys_ok ks -> exists key, keys_complete (ensure_keys generated ks) key.
Proof.
  unfold ensure_keys, keys_complete. destruct ks as [p j].
  intros [Hj|(key & Hp & Hj)]; simpl in *; subst; [exists generated; by destruct p|by exists key].
Qed.

(** What is published is the public part of the key that signs. *)
Lemma keys_complete_signing `{CryptoLib} ks key :
  sha256 (rk_public_pem key) <> "" -> keys_complete ks key ->
  load_jwks ks = Ok (JObj [("keys", JArr [JObj (_public_jwk key)])]) /\
  _load_signing_material ks = Ok (rk_private_pem key, dget "kid" (_public_jwk key)).
Proof.
  intros Hsha [Hp Hj]. unfold _load_signing_material, load_jwks. rewrite Hp, Hj. split; [done|].
  cbn -[_public_jwk truthy]. by rewrite (public_jwk_kid key).
Qed.

(** ** A concrete instance for the witnesses *)
Module Toy.

(** 8 characters outside the base64 alphabet per byte. *)
Definition bit (b : bool) : ascii := if b then "~" else ".".
Fixpoint enc (s : string) : string :=
  match s with
  | "" => ""
  | String (Ascii a b c d e f g h) t =>
      String (bit a) (String (bit b) (String (bit c) (String (bit d)
        (String (bit e) (String (bit f) (String (bit g) (String (bit h) (enc t))))))))
  end.
Definition unbit (c : ascii) : bool := Ascii.eqb c "~".
Fixpoint dec (s : string) : option string :=
  match s with
  | "" => Some ""
  | String a (String b (String c (String d (String e (String f (String g (String h t))))))) =>
      String (Ascii (unbit a) (unbit b) (unbit c) (unbit d) (unbit e) (unbit f) (unbit g) (unbit h)) <$> dec t
  | _ => None
  end.
Definition header : string := "gAAAA" +:+ Nat.iter 75 (String "A") "".
Definition seal (k : string) : string := header +:+ enc k +:+ "!".

#[export] Instance toy_crypto : CryptoLib := {|
  sha256 s := "digest:" +:+ s;
  hmac_sha256 k m := k +:+ "|" +:+ m;
  fernet_encrypt k iv m := seal k +:+ enc m;
  fernet_decrypt k tok :=
    if startswith (seal k) tok then dec (str_drop (String.length (seal k)) tok) else None;
  jwt_encode claims pem headers := Ok (py_repr claims +:+ "." +:+ pem);
|}.

Lemma dec_enc s : dec (enc s) = Some s.
Proof.
  induction s as [|[a b c d e f g h] s IH]; [done|].
  cbn [enc dec]. rewrite IH. by destruct a, b, c, d, e, f, g, h.
Qed.

Definition skipped (c : ascii) : bool :=
  negb (Ascii.eqb c "=") && match b64_val c with None => true | Some _ => false end && (code c <? 128)%N.

Lemma enc_skipped s : str_forallb skipped (enc s) = true.
Proof.
  induction s as [|[a b c d e f g h] s IH]; [done|].
  cbn [enc str_forallb]. rewrite IH. by destruct a, b, c, d, e, f, g, h.
Qed.

Lemma a2b_skip s t q l p :
  str_forallb skipped s = true -> a2b_base64 (s +:+ t) q l p = a2b_base64 t q l p.
Proof.
  revert p. induction s as [|c s IH]; intros p; [done|].
  intros [Hc Hs]%andb_prop.
  apply andb_prop in Hc as [[Heq Hb]%andb_prop _]. apply negb_true_iff in Heq.
  change (a2b_base64 (String c (s +:+ t)) q l p = a2b_base64 t q l p).
  cbn [a2b_base64]. rewrite Heq. destruct (b64_val c); [done|]. by apply IH.
Qed.

Lemma a2b_equals n p : a2b_base64 (equals_signs n) 0 0 p = Some "".
Proof. revert p; induction n as [|n IH]; intros p; [done|]. apply IH. Qed.

Lemma skipped_ascii s : str_forallb skipped s = true -> is_ascii_str s = true.
Proof.
  unfold is_ascii_str. induction s as [|c s IH]; [done|]. cbn [str_forallb].
  unfold skipped. intros [[_ Hc]%andb_prop Hs]%andb_prop. by rewrite Hc, IH.
Qed.

Lemma equals_ascii n : is_ascii_str (equals_signs n) = true.
Proof. induction n as [|n IH]; done. Qed.

Lemma body_skipped k m : str_forallb skipped ((enc k +:+ "!") +:+ enc m) = true.
Proof. by rewrite !str_forallb_app, !enc_skipped. Qed.

Definition quad_A (s : string) : string := String "A" (String "A" (String "A" (String "A" s))).
Definition zeros3 (r : string) : string := String "000" (String "000" (String "000" r)).

Lemma quad_A_decodes s : a2b_base64 (quad_A s) 0 0 0 = zeros3 <$> a2b_base64 s 0 0 0.
Proof. unfold quad_A. cbn [a2b_base64 Ascii.eqb eqb b64_val]. cbn -[a2b_base64]. by destruct (a2b_base64 s 0 0 0). Qed.

Lemma quads_decode n s :
  a2b_base64 (Nat.iter n quad_A s) 0 0 0 = Nat.iter n zeros3 <$> a2b_base64 s 0 0 0.
Proof.
  induction n as [|n IH]; [simpl; by destruct (a2b_base64 s 0 0 0)|].
  change (a2b_base64 (quad_A (Nat.iter n quad_A s)) 0 0 0 = Nat.iter (S n) zeros3 <$> a2b_base64 s 0 0 0).
  rewrite quad_A_decodes, IH. by destruct (a2b_base64 s 0 0 0).
Qed.

Lemma header_app t :
  header +:+ t = String "g" (String "A" (String "A" (String "A" (Nat.iter 19 quad_A t)))).
Proof. reflexivity. Qed.

Lemma quad_g_decodes u :
  a2b_base64 (String "g" (String "A" (String "A" (String "A" u)))) 0 0 0 =
  (fun r => String "128" (String "000" (String "000" r))) <$> a2b_base64 u 0 0 0.
Proof. simpl. by destruct (a2b_base64 u 0 0 0). Qed.

Lemma header_decodes t : a2b_base64 (header +:+ t) 0 0 0 =
  (fun r => String "128" (String "000" (String "000" (Nat.iter 19 zeros3 r)))) <$> a2b_base64 t 0 0 0.
Proof.
  rewrite header_app, quad_g_decodes, quads_decode.
  by destruct (a2b_base64 t 0 0 0).
Qed.

Lemma is_ascii_app s t : is_ascii_str (s +:+ t) = is_ascii_str s && is_ascii_str t.
Proof. apply str_forallb_app. Qed.

Lemma body_ascii k m : is_ascii_str ((enc k +:+ "!") +:+ enc m) = true.
Proof. apply skipped_ascii, body_skipped. Qed.

#[export] Instance toy_crypto_laws : CryptoLaws.
Proof.
  split; intros k iv m; cbn [fernet_encrypt fernet_decrypt toy_crypto].
  - by rewrite prefix_app, str_drop_app, dec_enc.
  - unfold seal. by rewrite str_app_assoc, is_ascii_app, body_ascii.
  - unfold seal. rewrite str_app_assoc. unfold _is_valid_fernet_token_format.
    replace (startswith _FERNET_BLOB_PREFIX (header +:+ ((enc k +:+ "!") +:+ enc m))) with true by done.
    cbv beta iota zeta delta [negb].
    set (n := ((4 - _) mod 4)%nat). clearbody n.
    unfold urlsafe_b64decode. rewrite str_app_assoc, 2!is_ascii_app, body_ascii, equals_ascii.
    replace (is_ascii_str header && (true && true)) with true by done.
    by rewrite header_decodes, a2b_skip, a2b_equals by apply body_skipped.
Qed.
End Toy.

(** ** Witnesses *)
Import Toy.

Lemma encryption_roundtrip_witness :
  decrypt_token example_settings (encrypt_token example_settings "t0" "bearer-token") = Ok "bearer-token" /\
  decrypt_sensitive_data example_settings (encrypt_sensitive_data example_settings "t0" "bearer-token") = Ok "bearer-token".
Proof. apply (encryption_roundtrip example_settings "t0" "bearer-token"). Defined.

(** The same configuration after the management token was rotated. *)
Definition rotated_settings : Settings :=
  match from_env (fun name => if String.eqb name "SSF_TOKEN_ENCRYPTION_KEY" then Some "rotated"
                              else example_env name) with
  | Ok s => s
  | Err _ => example_settings
  end.

Lemma rotated_key_fails_closed_witness :
  decrypt_token rotated_settings (encrypt_token example_settings "t0" "secret") = Err TokenDecryptionError /\
  exists msg, decrypt_sensitive_data rotated_settings
                (encrypt_sensitive_data example_settings "t0" "secret") = Err (EncryptedDataError msg).
Proof. apply (rotated_key_fails_closed example_settings rotated_settings "t0" "secret"); [done|vm_compute; reflexivity]. Defined.

Lemma ensure_keys_signing_material_witness :
  let key := {| rk_private_pem := "pem"; rk_public_pem := "pub"; rk_n := 3233; rk_e := 65537 |} in
  exists jwk,
    load_jwks (ensure_keys key {| ks_private_pem := None; ks_jwks := None |})
      = Ok (JObj [("keys", JArr [JObj jwk])]) /\
    _load_signing_material (ensure_keys key {| ks_private_pem := None; ks_jwks := None |})
      = Ok ("pem", dget "kid" jwk).
Proof.
  intros key.
  apply (ensure_keys_signing_material key {| ks_private_pem := None; ks_jwks := None |}).
  vm_compute. discriminate.
Defined.
