(* ===== verification/Database.v ===== *)
(** * SQLite persistence ([app/database.py])

    A [Db] holds the rows of the tables.  Every operation is a computation on
    it; a transaction that raises leaves it unchanged.  The clock, fresh
    UUIDs and encryption entropy are arguments. *)
From Stdlib Require Import ZArith Lia Ascii String.
From stdpp Require Import base option list strings gmap.
From S2P Require Import Prelude PyStr PyVal JsonText Config Crypto.

Open Scope string_scope.

Definition MAX_OUTBOX_ITEMS : Z := 10000.

(** ** Data *)

Record Stream := {
  stream_id : string;
  aud : string;
  endpoint_url : string;
  endpoint_token : string;
  events_requested : json;
  status : string;
  created_at : Z;
}.

Record OutboxItem := {
  item_id : Z;
  item_stream_id : string;
  item_payload : string;
  item_created_at : Z;
  item_attempts : Z;
}.

(** A row of [streams]: the token is encrypted, the events are JSON text. *)
Record StreamRow := {
  r_stream_id : string;
  r_aud : string;
  r_endpoint_url : string;
  r_endpoint_token : string;
  r_events_requested : string;
  r_status : string;
  r_created_at : Z;
}.

(** A row of [set_outbox]. *)
Record OutboxRow := {
  ob_id : Z;
  ob_stream_id : string;
  ob_payload : string;
  ob_created_at : Z;
  ob_attempts : Z;
  ob_next_attempt_at : Z;
  ob_status : string;
  ob_last_error : option string;
}.

(** The row of [apple_scim_tokens]. *)
Record TokenRow := {
  tk_access_token : string;
  tk_refresh_token : option string;
  tk_expires_at : Z;
  tk_updated_at : Z;
}.

(** The database; [outbox_seq] is the AUTOINCREMENT counter. *)
Record Db := {
  streams : list StreamRow;
  set_outbox : list OutboxRow;
  outbox_seq : Z;
  apple_scim_tokens : option TokenRow;
}.

Definition empty_db : Db := {| streams := []; set_outbox := []; outbox_seq := 0; apple_scim_tokens := None |}.

(** A registration or patch payload: [None] is an absent key. *)
Record DeliveryPayload := {
  d_endpoint_url : option string;
  d_endpoint_url_token : option string;
  d_authorization_header : option string;
}.

Record StreamPayload := {
  p_aud : option string;
  p_delivery : option DeliveryPayload;
  p_endpoint_url : option string;
  p_endpoint_token : option string;
  p_events_requested : option json;
  p_status : option string;
  p_stream_id : option string;
}.

Definition no_delivery : DeliveryPayload :=
  {| d_endpoint_url := None; d_endpoint_url_token := None; d_authorization_header := None |}.

#[export] Instance OutboxItem_eq_dec : EqDecision OutboxItem.
Proof. solve_decision. Defined.
#[export] Instance OutboxRow_eq_dec : EqDecision OutboxRow.
Proof. solve_decision. Defined.
#[export] Instance StreamRow_eq_dec : EqDecision StreamRow.
Proof. solve_decision. Defined.

(** Dataclass equality: field by field, the events with Python's [==]. *)
Definition stream_eqb (a b : Stream) : bool :=
  String.eqb (stream_id a) (stream_id b) && String.eqb (aud a) (aud b)
  && String.eqb (endpoint_url a) (endpoint_url b)
  && String.eqb (endpoint_token a) (endpoint_token b)
  && py_eq (events_requested a) (events_requested b)
  && String.eqb (status a) (status b) && Z.eqb (created_at a) (created_at b).

(** ** Table primitives *)

Definition set_streams (f : list StreamRow -> list StreamRow) (db : Db) : Db :=
  {| streams := f (streams db); set_outbox := set_outbox db; outbox_seq := outbox_seq db;
     apple_scim_tokens := apple_scim_tokens db |}.
Definition upd_outbox (f : list OutboxRow -> list OutboxRow) (db : Db) : Db :=
  {| streams := streams db; set_outbox := f (set_outbox db); outbox_seq := outbox_seq db;
     apple_scim_tokens := apple_scim_tokens db |}.

Definition set_tokens (row : option TokenRow) (db : Db) : Db :=
  {| streams := streams db; set_outbox := set_outbox db; outbox_seq := outbox_seq db;
     apple_scim_tokens := row |}.

Definition pending (o : OutboxRow) : bool := String.eqb (ob_status o) "pending".
Definition blocked (o : OutboxRow) : bool := String.eqb (ob_status o) "blocked".
Definition of_stream (sid : string) (o : OutboxRow) : bool := String.eqb (ob_stream_id o) sid.
Definition has_id (i : Z) (o : OutboxRow) : bool := Z.eqb (ob_id o) i.

(** [DELETE FROM set_outbox WHERE p] and [UPDATE set_outbox SET f WHERE p] *)
Definition delete_where (p : OutboxRow -> bool) : list OutboxRow -> list OutboxRow :=
  List.filter (fun o => negb (p o)).
Definition update_where (p : OutboxRow -> bool) (f : OutboxRow -> OutboxRow) : list OutboxRow -> list OutboxRow :=
  map (fun o => if p o then f o else o).

(** Stable insertion sort, for ORDER BY. *)
Fixpoint insert_by {A} (leb : A -> A -> bool) (x : A) (l : list A) : list A :=
  match l with
  | [] => [x]
  | y :: t => if leb x y then x :: l else y :: insert_by leb x t
  end.
Definition order_by {A} (leb : A -> A -> bool) (l : list A) : list A := fold_right (insert_by leb) [] l.

(** [ORDER BY created_at DESC] on streams; [ORDER BY created_at, id] on the outbox. *)
Definition newer (a b : StreamRow) : bool := Z.leb (r_created_at b) (r_created_at a).
Definition fifo (a b : OutboxRow) : bool :=
  Z.ltb (ob_created_at a) (ob_created_at b)
  || (Z.eqb (ob_created_at a) (ob_created_at b) && Z.leb (ob_id a) (ob_id b)).

(** [BEGIN IMMEDIATE ... COMMIT]: an exception rolls back. *)
Definition transaction {A} (m : M Db A) : M Db A := fun db =>
  match m db with
  | (Ok a, db') => (Ok a, db')
  | (Err e, _) => (Err e, db)
  end.

(** ** File creation *)

Record DbFile := { file_mode : Z; file_db : Db }.

(** [O_CREAT | O_EXCL]: the new file, or the one that exists already, where
    the code raises [FileExistsError]. *)
Definition _create_file_exclusive (file : option DbFile) (mode : Z) : DbFile + DbFile :=
  match file with
  | None => inl {| file_mode := mode; file_db := empty_db |}
  | Some f => inr f
  end.

(** [init_db]: [chmod_ok] is whether the [chmod] of an existing file succeeds. *)
Definition init_db (chmod_ok : bool) (file : option DbFile) : DbFile :=
  match _create_file_exclusive file 384 (* 0o600 *) with
  | inl f => f
  | inr f => {| file_mode := if chmod_ok then 384 else file_mode f; file_db := file_db f |}
  end.

Section database.
Context `{CryptoLib}.
Variable settings : Settings.

Definition _row_to_stream (row : StreamRow) : result Stream :=
  token ← match decrypt_token settings (r_endpoint_token row) with
          | Err TokenDecryptionError => Ok ""
          | r => r
          end;
  events ← loads (r_events_requested row);
  Ok {| stream_id := r_stream_id row; aud := r_aud row; endpoint_url := r_endpoint_url row;
        endpoint_token := token; events_requested := events;
        status := r_status row; created_at := r_created_at row |}.

Definition _replacement_endpoint_token (payload : StreamPayload) : option string :=
  let delivery := default no_delivery (p_delivery payload) in
  match d_endpoint_url_token delivery with
  | Some t => Some t
  | None =>
      match p_endpoint_token payload with
      | Some t => Some t
      | None =>
          match d_authorization_header delivery with
          | Some auth_header =>
              Some (if str_true auth_header then removeprefix "Bearer " auth_header else "")
          | None => None
          end
      end
  end.

Definition _receiver_replacement_is_missing (token : option string) : bool :=
  match token with None => true | Some t => negb (str_true (strip t)) end.

Definition _stored_token_is_undecryptable (stored_token runtime_token : string) : bool :=
  str_true stored_token && negb (str_true runtime_token).

(** [a or b] for [str | None] operands *)
Definition or_opt (a b : option string) : option string := if opt_false a then b else a.

Definition prepare_stream (now : Z) (uuid : string) (payload : StreamPayload) : result Stream :=
  let delivery := default no_delivery (p_delivery payload) in
  let url := or_opt (d_endpoint_url delivery) (p_endpoint_url payload) in
  let auth_header := default "" (d_authorization_header delivery) in
  let token := or_opt (d_endpoint_url_token delivery)
                 (or_opt (p_endpoint_token payload)
                   (or_opt (if str_true auth_header then Some (removeprefix "Bearer " auth_header) else None)
                     (Some ""))) in
  let events := py_or (default JNull (p_events_requested payload)) (JArr []) in
  match url, p_aud payload with
  | None, _ => Err (ValueError "Missing delivery.endpoint_url")
  | Some u, a =>
      if negb (str_true u) then Err (ValueError "Missing delivery.endpoint_url")
      else match a with
           | None => Err (ValueError "Missing aud")
           | Some a =>
               if negb (str_true a) then Err (ValueError "Missing aud")
               else if negb (is_list events) then Err (ValueError "events_requested must be a list when provided")
               else Ok {| stream_id := opt_or (p_stream_id payload) uuid;
                          aud := a; endpoint_url := u; endpoint_token := default "" token;
                          events_requested := events;
                          status := default "enabled" (p_status payload);
                          created_at := now |}
           end
  end.

Definition row_of_stream (iv : string) (s : Stream) : StreamRow :=
  {| r_stream_id := stream_id s; r_aud := aud s; r_endpoint_url := endpoint_url s;
     r_endpoint_token := encrypt_token settings iv (endpoint_token s);
     r_events_requested := dumps Spaced (events_requested s);
     r_status := status s; r_created_at := created_at s |}.

Definition save_stream (iv : string) (s : Stream) : M Db unit :=
  transaction (
    _ ← modifyM (upd_outbox (delete_where pending));
    _ ← modifyM (set_streams (fun _ => []));
    modifyM (set_streams (fun rows => rows ++ [row_of_stream iv s])%list)).

Definition create_stream (now : Z) (uuid iv : string) (payload : StreamPayload) : M Db Stream :=
  s ← liftR (prepare_stream now uuid payload);
  _ ← save_stream iv s;
  mret s.

Definition list_streams (db : Db) : result (list Stream) :=
  mapR _row_to_stream (order_by newer (streams db)).

Definition get_first_stream (db : Db) : result (option Stream) :=
  l ← list_streams db; Ok (head l).

Definition find_row (sid : string) (db : Db) : option StreamRow :=
  List.find (fun r => String.eqb (r_stream_id r) sid) (streams db).

Definition get_stream_by_id (sid : string) (db : Db) : result (option Stream) :=
  match find_row sid db with
  | Some row => s ← _row_to_stream row; Ok (Some s)
  | None => Ok None
  end.

Definition next_attempt_now (o : OutboxRow) : OutboxRow :=
  {| ob_id := ob_id o; ob_stream_id := ob_stream_id o; ob_payload := ob_payload o;
     ob_created_at := ob_created_at o; ob_attempts := ob_attempts o;
     ob_next_attempt_at := 0; ob_status := ob_status o; ob_last_error := ob_last_error o |}.

Definition update_stream (iv : string) (payload : StreamPayload) : M Db (option Stream) :=
  transaction (
    db ← getM;
    match head (order_by newer (streams db)) with
    | None => mret None
    | Some row =>
        stream ← liftR (_row_to_stream row);
        let delivery := default no_delivery (p_delivery payload) in
        let url := default (endpoint_url stream)
                     (or_opt (d_endpoint_url delivery)
                       (or_opt (p_endpoint_url payload) (Some (endpoint_url stream)))) in
        let token := _replacement_endpoint_token payload in
        let stored_token := match token with
                            | Some t => encrypt_token settings iv t
                            | None => r_endpoint_token row
                            end in
        let runtime_token := default (endpoint_token stream) token in
        let events := default (events_requested stream) (p_events_requested payload) in
        let new_status := default (status stream) (p_status payload) in
        let new_aud := opt_or (p_aud payload) (aud stream) in
        _ ← liftR (raise_when (negb (is_list events))
              (ValueError "events_requested must be a list when provided"));
        _ ← liftR (raise_when
              (String.eqb new_status "enabled"
               && _stored_token_is_undecryptable (r_endpoint_token row) (endpoint_token stream)
               && _receiver_replacement_is_missing token)
              (ValueError "Receiver endpoint token cannot be decrypted — supply delivery.endpoint_url_token before enabling"));
        let delivery_configuration_changed :=
          negb (String.eqb new_aud (aud stream)) || negb (String.eqb url (endpoint_url stream))
          || negb (String.eqb runtime_token (endpoint_token stream))
          || negb (py_eq events (events_requested stream)) in
        _ ← (if delivery_configuration_changed
             then modifyM (upd_outbox (delete_where (fun o => of_stream (stream_id stream) o && pending o)))
             else if String.eqb new_status "enabled" && negb (String.eqb (status stream) "enabled")
             then modifyM (upd_outbox (update_where (fun o => of_stream (stream_id stream) o && pending o)
                                         next_attempt_now))
             else mret tt);
        _ ← modifyM (set_streams (map (fun r =>
              if String.eqb (r_stream_id r) (stream_id stream)
              then {| r_stream_id := r_stream_id r; r_aud := new_aud; r_endpoint_url := url;
                      r_endpoint_token := stored_token; r_events_requested := dumps Spaced events;
                      r_status := new_status; r_created_at := r_created_at r |}
              else r)));
        mret (Some {| stream_id := stream_id stream; aud := new_aud; endpoint_url := url;
                      endpoint_token := runtime_token; events_requested := events;
                      status := new_status; created_at := created_at stream |})
    end).

Definition delete_stream_by_id (sid : string) : M Db bool :=
  transaction (
    db ← getM;
    let rowcount := length (List.filter (fun r => String.eqb (r_stream_id r) sid) (streams db)) in
    _ ← modifyM (set_streams (List.filter (fun r => negb (String.eqb (r_stream_id r) sid))));
    _ ← (if (0 <? rowcount)%nat
         then modifyM (upd_outbox (delete_where (fun o => of_stream sid o && pending o)))
         else mret tt);
    mret (0 <? rowcount)%nat).

Definition delete_stream : M Db bool :=
  db ← getM;
  s ← liftR (get_first_stream db);
  match s with
  | None => mret false
  | Some s => delete_stream_by_id (stream_id s)
  end.

(** The check [enqueue_outbox] makes for one delivery. *)
Definition check_delivery (db : Db) (d : Stream * dict) : result unit :=
  match find_row (stream_id (fst d)) db with
  | None => Err (StreamChangedError "Stream no longer exists")
  | Some row =>
      current ← _row_to_stream row;
      raise_when (negb (stream_eqb current (fst d)) || negb (String.eqb (status current) "enabled"))
        (StreamChangedError "Stream changed before delivery could be queued")
  end.

Definition outbox_row (now : Z) (entropy : nat -> string) (seq : Z) (i : nat) (d : Stream * dict) : OutboxRow :=
  {| ob_id := seq + 1 + Z.of_nat i; ob_stream_id := stream_id (fst d);
     ob_payload := encrypt_sensitive_data settings (entropy i) (dumps Compact (JObj (snd d)));
     ob_created_at := now; ob_attempts := 0; ob_next_attempt_at := now;
     ob_status := "pending"; ob_last_error := None |}.

Definition insert_deliveries (now : Z) (entropy : nat -> string) (deliveries : list (Stream * dict)) (db : Db) : Db :=
  {| streams := streams db;
     set_outbox := (set_outbox db ++ imap (outbox_row now entropy (outbox_seq db)) deliveries)%list;
     outbox_seq := outbox_seq db + Z.of_nat (length deliveries);
     apple_scim_tokens := apple_scim_tokens db |}.

Definition enqueue_outbox (now : Z) (entropy : nat -> string) (deliveries : list (Stream * dict)) : M Db Z :=
  match deliveries with
  | [] => mret 0%Z
  | _ =>
      transaction (
        db ← getM;
        _ ← liftR (mapR (check_delivery db) deliveries);
        let stored_items := Z.of_nat (length (set_outbox db)) in
        _ ← liftR (raise_when (MAX_OUTBOX_ITEMS <? stored_items + Z.of_nat (length deliveries))%Z
              (OutboxFullError "Delivery queue is full"));
        _ ← modifyM (insert_deliveries now entropy deliveries);
        mret (Z.of_nat (length deliveries)))
  end.

Definition due (now : Z) (o : OutboxRow) : bool := pending o && (ob_next_attempt_at o <=? now)%Z.

Definition to_item (o : OutboxRow) : OutboxItem :=
  {| item_id := ob_id o; item_stream_id := ob_stream_id o; item_payload := ob_payload o;
     item_created_at := ob_created_at o; item_attempts := ob_attempts o |}.

Definition get_due_outbox (now : Z) (limit : nat) (db : Db) : list OutboxItem :=
  map to_item (take limit (order_by fifo (List.filter (due now) (set_outbox db)))).

Definition get_due_outbox_item (now : Z) (id : Z) (db : Db) : option OutboxItem :=
  to_item <$> List.find (fun o => has_id id o && due now o) (set_outbox db).

Definition complete_outbox_item (id : Z) (db : Db) : Db :=
  upd_outbox (delete_where (fun o => has_id id o && pending o)) db.

Definition retry_outbox_item (id attempts next_attempt_at : Z) (reason : string) (db : Db) : Db :=
  upd_outbox (update_where (fun o => has_id id o && pending o) (fun o =>
    {| ob_id := ob_id o; ob_stream_id := ob_stream_id o; ob_payload := ob_payload o;
       ob_created_at := ob_created_at o; ob_attempts := attempts;
       ob_next_attempt_at := next_attempt_at; ob_status := ob_status o;
       ob_last_error := Some reason |})) db.

Definition block_outbox_item (id : Z) (reason : string) (db : Db) : Db :=
  upd_outbox (update_where (fun o => has_id id o && pending o) (fun o =>
    {| ob_id := ob_id o; ob_stream_id := ob_stream_id o; ob_payload := ob_payload o;
       ob_created_at := ob_created_at o; ob_attempts := ob_attempts o;
       ob_next_attempt_at := ob_next_attempt_at o; ob_status := "blocked";
       ob_last_error := Some reason |})) db.

Definition cancel_outbox_item (id : Z) (db : Db) : Db :=
  upd_outbox (delete_where (fun o => has_id id o && pending o)) db.

Definition requeue_row (now : Z) (o : OutboxRow) : OutboxRow :=
  {| ob_id := ob_id o; ob_stream_id := ob_stream_id o; ob_payload := ob_payload o;
     ob_created_at := ob_created_at o; ob_attempts := 0; ob_next_attempt_at := now;
     ob_status := "pending"; ob_last_error := None |}.

Definition count_where (p : OutboxRow -> bool) (db : Db) : Z :=
  Z.of_nat (length (List.filter p (set_outbox db))).

Definition requeue_blocked_outbox (now : Z) : M Db Z := fun db =>
  (Ok (count_where blocked db), upd_outbox (update_where blocked (requeue_row now)) db).

Definition delete_blocked_outbox : M Db Z := fun db =>
  (Ok (count_where blocked db), upd_outbox (delete_where blocked) db).

Definition delete_pending_outbox : M Db Z := fun db =>
  (Ok (count_where pending db), upd_outbox (delete_where pending) db).

Record OutboxStatus := {
  os_pending : Z;
  os_blocked : Z;
  os_oldest_pending_at : option Z;
  os_stored : Z;
  os_capacity : Z;
}.

(** [MIN(created_at)], NULL on no rows *)
Definition min_created (l : list OutboxRow) : option Z :=
  fold_right (fun o m => Some (match m with Some v => Z.min (ob_created_at o) v | None => ob_created_at o end)) None l.

Definition get_outbox_status (db : Db) : OutboxStatus :=
  {| os_pending := count_where pending db;
     os_blocked := count_where blocked db;
     os_oldest_pending_at := min_created (List.filter pending (set_outbox db));
     os_stored := Z.of_nat (length (set_outbox db));
     os_capacity := MAX_OUTBOX_ITEMS |}.

Definition decrypt_outbox_payload (item : OutboxItem) : result dict :=
  let read := s ← decrypt_sensitive_data settings (item_payload item); loads s in
  match read with
  | Err (EncryptedDataError _) | Err JSONDecodeError =>
      Err (EncryptedDataError "Stored delivery payload cannot be read")
  | Err e => Err e
  | Ok (JObj d) => Ok d
  | Ok _ => Err (EncryptedDataError "Stored delivery payload has an invalid shape")
  end.
End database.
