(* ===== verification/DatabaseSpec.v ===== *)
(** * What the persistence layer guarantees

    The row invariant of the database and its preservation by every
    operation, the exact effect of enqueueing, updating and replacing, the
    FIFO order of due deliveries and the round trip of stored data. *)
From Stdlib Require Import ZArith Lia Ascii String Sorted Permutation.
From stdpp Require Import base option list strings gmap sorting.
From S2P Require Import Prelude PyStr PyVal JsonText Config Crypto Database.

Open Scope string_scope.

(** ** Row invariant *)

Record db_ok (db : Db) : Prop := {
  ok_ids : NoDup (map ob_id (set_outbox db));
  ok_seq : Forall (fun o => 0 < ob_id o <= outbox_seq db)%Z (set_outbox db);
  ok_seq_nonneg : (0 <= outbox_seq db)%Z;
  ok_statuses : Forall (fun o => ob_status o = "pending" \/ ob_status o = "blocked") (set_outbox db);
  ok_attempts : Forall (fun o => 0 <= ob_attempts o)%Z (set_outbox db);
  ok_single : (length (streams db) <= 1)%nat;
  ok_capacity : (Z.of_nat (length (set_outbox db)) <= MAX_OUTBOX_ITEMS)%Z;
}.

(** The operations of the layer, as steps; arguments the callers choose are
    unconstrained, except that attempts are never negative. *)
Inductive db_step `{CryptoLib} (settings : Settings) : Db -> Db -> Prop :=
| step_save iv s db : db_step settings db (snd (save_stream settings iv s db))
| step_update iv p db : db_step settings db (snd (update_stream settings iv p db))
| step_delete sid db : db_step settings db (snd (delete_stream_by_id sid db))
| step_enqueue now ent ds db : db_step settings db (snd (enqueue_outbox settings now ent ds db))
| step_complete i db : db_step settings db (complete_outbox_item i db)
| step_retry i a n r db : (0 <= a)%Z -> db_step settings db (retry_outbox_item i a n r db)
| step_block i r db : db_step settings db (block_outbox_item i r db)
| step_cancel i db : db_step settings db (cancel_outbox_item i db)
| step_requeue now db : db_step settings db (snd (requeue_blocked_outbox now db))
| step_delete_blocked db : db_step settings db (snd (delete_blocked_outbox db))
| step_delete_pending db : db_step settings db (snd (delete_pending_outbox db))
| step_tokens row db : db_step settings db (set_tokens row db).

(** States reachable from a freshly created database. *)
Inductive db_reachable `{CryptoLib} (settings : Settings) : Db -> Prop :=
| reach_init ok : db_reachable settings (file_db (init_db ok None))
| reach_step db db' : db_reachable settings db -> db_step settings db db' -> db_reachable settings db'.

(** ** Lemmas on the table primitives *)

Lemma delete_where_elem p l o : o ∈ delete_where p l <-> o ∈ l /\ p o = false.
Proof. unfold delete_where. rewrite !list_elem_of_In, filter_In, negb_true_iff. done. Qed.

Lemma update_where_elem p f l o : o ∈ update_where p f l <->
  exists x, x ∈ l /\ o = (if p x then f x else x).
Proof.
  unfold update_where. rewrite list_elem_of_In, in_map_iff.
  split; intros (x & H1 & H2); exists x; rewrite list_elem_of_In in *; auto.
Qed.

Lemma filter_sublist {A} (p : A -> bool) (l : list A) : List.filter p l `sublist_of` l.
Proof. induction l as [|x l IH]; simpl; [done|]. destruct (p x); by constructor. Qed.

Lemma Forall_delete_where (P : OutboxRow -> Prop) p l : Forall P l -> Forall P (delete_where p l).
Proof.
  rewrite !Forall_forall. intros Hl o Ho. apply delete_where_elem in Ho as [Ho _]. by apply Hl.
Qed.

Lemma delete_where_ok p db : db_ok db -> db_ok (upd_outbox (delete_where p) db).
Proof.
  intros []. assert (delete_where p (set_outbox db) `sublist_of` set_outbox db) as Hsub
    by apply filter_sublist.
  pose proof (sublist_length _ _ Hsub).
  split; simpl; try done.
  - by eapply sublist_NoDup, (fmap_sublist ob_id _ _ Hsub).
  - by apply Forall_delete_where.
  - by apply Forall_delete_where.
  - by apply Forall_delete_where.
  - lia.
Qed.

Lemma update_where_ids p f l :
  (forall o, ob_id (f o) = ob_id o) -> map ob_id (update_where p f l) = map ob_id l.
Proof.
  intros Hf. unfold update_where. rewrite map_map. apply map_ext.
  intros o. by destruct (p o).
Qed.

Lemma Forall_update_where (P : OutboxRow -> Prop) p f l :
  Forall P l -> (forall o, P o -> P (f o)) -> Forall P (update_where p f l).
Proof.
  intros Hl Hf. apply Forall_map. eapply Forall_impl; [exact Hl|].
  intros o Ho. simpl. destruct (p o); auto.
Qed.

Lemma update_where_ok p f db :
  (forall o, ob_id (f o) = ob_id o) ->
  (forall o, 0 <= ob_attempts o -> 0 <= ob_attempts (f o))%Z ->
  (forall o, ob_status o = "pending" \/ ob_status o = "blocked" ->
             ob_status (f o) = "pending" \/ ob_status (f o) = "blocked") ->
  db_ok db -> db_ok (upd_outbox (update_where p f) db).
Proof.
  intros Hid Hat Hst []. split; simpl; try done.
  - by rewrite update_where_ids.
  - apply Forall_update_where; [done|]. intros o. by rewrite Hid.
  - by apply Forall_update_where.
  - by apply Forall_update_where.
  - unfold update_where. by rewrite length_map.
Qed.

Lemma set_streams_ok f db :
  (length (f (streams db)) <= 1)%nat -> db_ok db -> db_ok (set_streams f db).
Proof. intros Hf []. by split. Qed.

(** The outcome of a transaction: committed, or nothing happened. *)
Lemma transaction_run {A} (m : M Db A) db r db' :
  transaction m db = (r, db') ->
  match r with Ok a => m db = (Ok a, db') | Err e => db' = db /\ exists d, m db = (Err e, d) end.
Proof.
  unfold transaction. destruct (m db) as [[a|e] d]; intros [= <- <-]; eauto.
Qed.

Lemma transaction_preserves {A} (m : M Db A) : preserves db_ok m -> preserves db_ok (transaction m).
Proof.
  intros Hm db r db' H Hok. apply transaction_run in H. destruct r; [by eapply Hm|].
  by destruct H as [-> _].
Qed.
#[export] Hint Resolve transaction_preserves delete_where_ok : preserves.

(** Enqueued rows get the identifiers after the counter. *)
Lemma imap_outbox_ids `{CryptoLib} settings now ent seq (ds : list (Stream * dict)) :
  map ob_id (imap (outbox_row settings now ent seq) ds)
  = map (fun i => seq + 1 + Z.of_nat i)%Z (List.seq 0 (length ds)).
Proof.
  change (ob_id <$> imap (outbox_row settings now ent seq) ds
    = map (fun i => seq + 1 + Z.of_nat i)%Z (List.seq 0 (length ds))).
  rewrite fmap_imap. apply list_eq. intros i.
  rewrite list_lookup_imap, list_lookup_fmap.
  destruct (decide (i < length ds)%nat) as [Hi|Hi].
  - destruct (lookup_lt_is_Some_2 ds i Hi) as [d ->].
    rewrite lookup_seq_lt by lia. simpl. f_equal.
  - rewrite !lookup_ge_None_2; [done|rewrite length_seq; lia|lia].
Qed.

Lemma imap_Forall `{CryptoLib} settings now ent seq (ds : list (Stream * dict)) (P : OutboxRow -> Prop) :
  (forall i d, (i < length ds)%nat -> P (outbox_row settings now ent seq i d)) ->
  Forall P (imap (outbox_row settings now ent seq) ds).
Proof.
  intros HP. apply Forall_lookup. intros i o. rewrite list_lookup_imap.
  destruct (ds !! i) as [d|] eqn:E; [|done]. intros [= <-].
  apply HP. by eapply lookup_lt_Some.
Qed.

Lemma inserted_ids `{CryptoLib} settings now ent ds seq : NoDup (map ob_id (imap (outbox_row settings now ent seq) ds)).
Proof.
  rewrite imap_outbox_ids. apply (NoDup_fmap_2_strong (fun i => seq + 1 + Z.of_nat i)%Z); [intros; lia|apply NoDup_seq].
Qed.

Lemma insert_deliveries_ids `{CryptoLib} settings now ent ds db : db_ok db ->
  NoDup (map ob_id (set_outbox (insert_deliveries settings now ent ds db))).
Proof.
  intros [Hids Hseq _ _ _ _ _]. simpl. rewrite map_app, imap_outbox_ids. apply NoDup_app. split_and!; [done| |].
  - intros x (o & <- & Ho)%list_elem_of_In%in_map_iff Hx.
    apply list_elem_of_In, in_map_iff in Hx as (i & Hi & _).
    rewrite <- list_elem_of_In in Ho. rewrite Forall_forall in Hseq. specialize (Hseq o Ho). lia.
  - rewrite <- (imap_outbox_ids settings now ent). apply inserted_ids.
Qed.

Lemma insert_deliveries_ok `{CryptoLib} settings now ent ds db :
  (Z.of_nat (length (set_outbox db)) + Z.of_nat (length ds) <= MAX_OUTBOX_ITEMS)%Z ->
  db_ok db -> db_ok (insert_deliveries settings now ent ds db).
Proof.
  intros Hcap Hok. pose proof Hok as [_ Hseq Hs0 Hst Hat Hsg _].
  split; simpl.
  - by apply insert_deliveries_ids.
  - apply Forall_app. split.
    + eapply Forall_impl; [exact Hseq|]. intros o Ho; simpl in *; lia.
    + apply imap_Forall. intros; simpl; lia.
  - lia.
  - apply Forall_app. split; [done|]. apply imap_Forall. simpl. auto.
  - apply Forall_app. split; [done|]. apply imap_Forall. intros; simpl; lia.
  - done.
  - rewrite length_app, length_imap. lia.
Qed.

(** ** Preservation by the stream operations *)

Lemma modify_outbox_preserves f :
  (forall db, db_ok db -> db_ok (upd_outbox f db)) -> preserves db_ok (modifyM (upd_outbox f)).
Proof. intros Hf. by apply preserves_modify. Qed.

Lemma save_stream_ok `{CryptoLib} settings iv s : preserves db_ok (save_stream settings iv s).
Proof.
  apply transaction_preserves. intros db r db' [= <- <-] Hok.
  apply (set_streams_ok (fun rows => rows ++ _)%list); [simpl; lia|].
  apply set_streams_ok; [simpl; lia|]. by apply delete_where_ok.
Qed.

Lemma update_stream_ok `{CryptoLib} settings iv p : preserves db_ok (update_stream settings iv p).
Proof.
  apply transaction_preserves.
  apply preserves_bind; [apply preserves_get|]. intros db.
  destruct (head _) as [row|]; [|apply preserves_ret].
  apply preserves_bind; [apply preserves_liftR|]. intros s.
  do 2 (apply preserves_bind; [apply preserves_liftR|intros _]).
  apply preserves_bind.
  - destruct (_ || _); [|destruct (_ && _); [|apply preserves_ret]];
      apply preserves_modify; intros; [by apply delete_where_ok|].
    apply update_where_ok; auto.
  - intros _. apply preserves_bind; [|intros; apply preserves_ret].
    apply preserves_modify. intros db1 Hok. apply set_streams_ok; [|done].
    rewrite length_map. apply Hok.
Qed.

Lemma delete_stream_by_id_ok sid : preserves db_ok (delete_stream_by_id sid).
Proof.
  apply transaction_preserves.
  apply preserves_bind; [apply preserves_get|]. intros db.
  apply preserves_bind.
  - apply preserves_modify. intros db1 Hok. apply set_streams_ok; [|done].
    pose proof (filter_length_le (fun r => negb (String.eqb (r_stream_id r) sid)) (streams db1)).
    pose proof (ok_single _ Hok). lia.
  - intros _. apply preserves_bind; [|intros; apply preserves_ret].
    destruct (_ <? _)%nat; [|apply preserves_ret].
    apply preserves_modify. intros. by apply delete_where_ok.
Qed.

Lemma enqueue_outbox_ok `{CryptoLib} settings now ent ds : preserves db_ok (enqueue_outbox settings now ent ds).
Proof.
  destruct ds as [|d ds]; [apply preserves_ret|].
  apply transaction_preserves. intros db r db' Hrun Hok.
  unfold enqueue_outbox, mbind, M_bind, getM, liftR, modifyM in Hrun. simpl in Hrun.
  destruct (check_delivery settings db d ≫= _) as [x|e]; simpl in Hrun; [|by injection Hrun as <- <-].
  unfold raise_when in Hrun. destruct (_ <? _)%Z eqn:Hcap; [by injection Hrun as <- <-|].
  injection Hrun as <- <-. apply Z.ltb_ge in Hcap. apply (insert_deliveries_ok settings now ent (d :: ds)); [|done].
  simpl length. lia.
Qed.

Lemma db_step_ok `{CryptoLib} settings db db' : db_step settings db db' -> db_ok db -> db_ok db'.
Proof.
  intros Hstep Hok. destruct Hstep.
  - eapply save_stream_ok; [apply surjective_pairing|done].
  - eapply update_stream_ok; [apply surjective_pairing|done].
  - eapply delete_stream_by_id_ok; [apply surjective_pairing|done].
  - eapply enqueue_outbox_ok; [apply surjective_pairing|done].
  - by apply delete_where_ok.
  - apply update_where_ok; simpl; auto.
  - apply update_where_ok; simpl; auto.
  - by apply delete_where_ok.
  - apply update_where_ok; simpl; auto. lia.
  - by apply delete_where_ok.
  - by apply delete_where_ok.
  - by destruct Hok.
Qed.

Lemma reachable_db_ok `{CryptoLib} settings db : db_reachable settings db -> db_ok db.
Proof.
  induction 1 as [ok|db db' _ IH Hstep]; [|by eapply db_step_ok].
  split; simpl; try constructor; try done; lia.
Qed.

(** Every database the program can reach keeps the outbox sound: unique
    row ids below the AUTOINCREMENT counter, only [pending] or [blocked]
    rows, non-negative attempt counts, at most one stream and never more than
    [MAX_OUTBOX_ITEMS] deliveries. *)
Theorem reachable_database_ok `{CryptoLib} settings db : db_reachable settings db -> db_ok db.
Proof. apply reachable_db_ok. Qed.

(** ** Enqueueing *)

(** [check_delivery] accepts exactly the deliveries whose stream row still
    decodes to an equal, enabled stream. *)
Lemma check_delivery_ok `{CryptoLib} settings db d u :
  check_delivery settings db d = Ok u <->
  exists row current, find_row (stream_id (fst d)) db = Some row /\
    _row_to_stream settings row = Ok current /\
    stream_eqb current (fst d) = true /\ status current = "enabled".
Proof.
  unfold check_delivery. destruct (find_row _ _) as [row|]; [|naive_solver].
  destruct u. rewrite bind_ok. setoid_rewrite raise_when_ok.
  setoid_rewrite orb_false_iff. setoid_rewrite negb_false_iff. setoid_rewrite String.eqb_eq.
  naive_solver.
Qed.

Definition deliverable `{CryptoLib} (settings : Settings) (db : Db) (d : Stream * dict) : Prop :=
  exists row current, find_row (stream_id (fst d)) db = Some row /\
    _row_to_stream settings row = Ok current /\
    stream_eqb current (fst d) = true /\ status current = "enabled".

Lemma check_deliveries_ok `{CryptoLib} settings db ds :
  is_ok (mapR (check_delivery settings db) ds) = true <-> Forall (deliverable settings db) ds.
Proof.
  induction ds as [|d ds IH]; simpl; [by split|].
  rewrite Forall_cons, <- IH. unfold deliverable.
  rewrite <- (check_delivery_ok settings db d tt).
  destruct (check_delivery settings db d) as [[]|e]; simpl.
  - destruct (mapR _ ds); simpl; naive_solver.
  - naive_solver.
Qed.

(** Reading the transaction of [enqueue_outbox]. *)
Lemma enqueue_outbox_run `{CryptoLib} settings now ent d ds db :
  enqueue_outbox settings now ent (d :: ds) db =
  match mapR (check_delivery settings db) (d :: ds) with
  | Err e => (Err e, db)
  | Ok _ =>
      if (MAX_OUTBOX_ITEMS <? Z.of_nat (length (set_outbox db)) + Z.of_nat (length (d :: ds)))%Z
      then (Err (OutboxFullError "Delivery queue is full"), db)
      else (Ok (Z.of_nat (length (d :: ds))), insert_deliveries settings now ent (d :: ds) db)
  end.
Proof.
  unfold enqueue_outbox, transaction, mbind, M_bind, getM, liftR, modifyM.
  destruct (mapR _ (d :: ds)); [|done].
  unfold raise_when. destruct (_ <? _)%Z; done.
Qed.

(** [enqueue_outbox] queues either every delivery of the call or none.  It
    succeeds exactly when each target stream row still equals the stream the
    caller routed to and is enabled, and the rows fit under
    [MAX_OUTBOX_ITEMS]; then the rows are appended in order with fresh ids,
    pending, due at once, carrying the encrypted payload.  Otherwise it
    raises and the database is unchanged. *)
Theorem enqueue_outbox_atomic `{CryptoLib} settings now ent ds db :
  ds <> [] ->
  let fits := (Z.of_nat (length (set_outbox db)) + Z.of_nat (length ds) <= MAX_OUTBOX_ITEMS)%Z in
  match enqueue_outbox settings now ent ds db with
  | (Ok n, db') => Forall (deliverable settings db) ds /\ fits /\ n = Z.of_nat (length ds) /\
      streams db' = streams db /\
      set_outbox db' = (set_outbox db ++ imap (outbox_row settings now ent (outbox_seq db)) ds)%list
  | (Err e, db') => db' = db /\
      ((e = OutboxFullError "Delivery queue is full" /\ ~ fits) \/ ~ Forall (deliverable settings db) ds)
  end.
Proof.
  intros Hne fits. destruct ds as [|d ds]; [done|].
  rewrite enqueue_outbox_run. pose proof (check_deliveries_ok settings db (d :: ds)) as Hc.
  destruct (mapR _ _) as [us|e].
  - destruct (_ <? _)%Z eqn:E; bool_hyps.
    + split; [done|]. left. split; [done|]. unfold fits. lia.
    + split_and!; [by apply Hc|unfold fits; lia|done..].
  - split; [done|]. right. intros Hf. by apply Hc in Hf.
Qed.

(** ** Due deliveries *)

Lemma insert_by_perm {A} (leb : A -> A -> bool) x l : insert_by leb x l ≡ₚ x :: l.
Proof.
  induction l as [|y l IH]; simpl; [done|]. destruct (leb x y); [done|].
  rewrite IH. constructor.
Qed.

Lemma order_by_perm {A} (leb : A -> A -> bool) l : order_by leb l ≡ₚ l.
Proof. induction l as [|x l IH]; simpl; [done|]. by rewrite insert_by_perm, IH. Qed.

Section order_by.
Context {A : Type} (leb : A -> A -> bool).
Hypothesis leb_total : forall x y, leb x y = true \/ leb y x = true.
Hypothesis leb_trans : forall x y z, leb x y = true -> leb y z = true -> leb x z = true.

Lemma insert_by_sorted x l :
  StronglySorted (fun a b => leb a b = true) l ->
  StronglySorted (fun a b => leb a b = true) (insert_by leb x l).
Proof using leb_total leb_trans.
  induction 1 as [|y l Hs IH Hy]; simpl; [by repeat constructor|].
  destruct (leb x y) eqn:E.
  - constructor; [by constructor|]. constructor; [done|].
    eapply Forall_impl; [exact Hy|]. intros z Hz. by eapply leb_trans.
  - constructor; [done|]. destruct (leb_total x y) as [|Hyx]; [congruence|].
    rewrite (insert_by_perm leb x l). by constructor.
Qed.

Lemma order_by_sorted l : StronglySorted (fun a b => leb a b = true) (order_by leb l).
Proof using leb_total leb_trans.
  induction l as [|x l IH]; simpl; [constructor|]. by apply insert_by_sorted.
Qed.
End order_by.

Lemma StronglySorted_take {A} (R : A -> A -> Prop) n l : StronglySorted R l -> StronglySorted R (take n l).
Proof.
  intros Hs. revert n. induction Hs as [|x l Hs IH Hx]; intros [|n]; simpl; try constructor; [done|].
  by apply Forall_take.
Qed.

(** What is before the limit comes before what is after it. *)
Lemma StronglySorted_take_drop {A} (R : A -> A -> Prop) n l x y :
  StronglySorted R l -> x ∈ take n l -> y ∈ drop n l -> R x y.
Proof.
  intros Hs. revert n. induction Hs as [|z l Hs IH Hz]; intros [|n]; simpl; intros Hx Hy;
    try (by apply elem_of_nil in Hx).
  apply elem_of_cons in Hx as [->|Hx]; [|by eapply IH].
  rewrite Forall_forall in Hz. apply Hz.
  rewrite <- (take_drop n l). apply elem_of_app. by right.
Qed.

Lemma fifo_total a b : fifo a b = true \/ fifo b a = true.
Proof. unfold fifo. lia. Qed.

Lemma fifo_trans a b c : fifo a b = true -> fifo b c = true -> fifo a c = true.
Proof. unfold fifo. lia. Qed.

(** [get_due_outbox] is a fair queue: with the same clock it returns
    pending rows whose retry time has come and only those, at most [limit] of
    them, in order of creation time and then id; a due row is left out only
    when [limit] rows that precede it are returned. *)
Theorem get_due_outbox_fifo now limit db :
  exists rows rest,
    get_due_outbox now limit db = map to_item rows /\
    StronglySorted (fun a b => fifo a b = true) rows /\
    (forall o, o ∈ rows \/ o ∈ rest <-> o ∈ set_outbox db /\ ob_status o = "pending" /\ (ob_next_attempt_at o <= now)%Z) /\
    (length rows <= limit)%nat /\
    (rest <> [] -> length rows = limit) /\
    (forall o o', o ∈ rows -> o' ∈ rest -> fifo o o' = true).
Proof.
  set (sorted := order_by fifo (List.filter (due now) (set_outbox db))).
  assert (StronglySorted (fun a b => fifo a b = true) sorted) as Hs
    by (apply order_by_sorted; [apply fifo_total|apply fifo_trans]).
  exists (take limit sorted), (drop limit sorted). split_and!.
  - done.
  - by apply StronglySorted_take.
  - intros o. rewrite <- elem_of_app, take_drop. unfold sorted. rewrite order_by_perm.
    rewrite !list_elem_of_In, filter_In. unfold due, pending.
    rewrite andb_true_iff, String.eqb_eq, Z.leb_le. done.
  - rewrite length_take. lia.
  - intros Hrest. rewrite length_take. destruct (decide (limit <= length sorted)%nat); [lia|].
    by rewrite drop_ge in Hrest by lia.
  - intros o o' Ho Ho'. by eapply (StronglySorted_take_drop (fun a b => fifo a b = true)).
Qed.

(** ** Reading back what was written *)

Section roundtrips.
Context `{CryptoLaws}.
Variable settings : Settings.

Lemma row_to_stream_of_stream iv s :
  plain (events_requested s) = true -> _row_to_stream settings (row_of_stream settings iv s) = Ok s.
Proof.
  intros Hp. unfold _row_to_stream, row_of_stream. simpl.
  rewrite decrypt_encrypt_token. simpl. rewrite loads_dumps by done. simpl. by destruct s.
Qed.

(** Saving replaces the stored stream. *)
Lemma save_stream_run iv s db :
  plain (events_requested s) = true ->
  exists db', save_stream settings iv s db = (Ok tt, db') /\
    get_first_stream settings db' = Ok (Some s) /\
    (forall sid, get_stream_by_id settings sid db'
                 = Ok (if String.eqb (stream_id s) sid then Some s else None)) /\
    set_outbox db' = delete_where pending (set_outbox db).
Proof.
  intros Hp. eexists. split; [done|].
  unfold get_first_stream, list_streams, get_stream_by_id, find_row. cbn [streams set_streams upd_outbox app order_by fold_right insert_by mapR List.find r_stream_id row_of_stream].
  rewrite row_to_stream_of_stream by done. split_and!; [done| |done].
  intros sid. destruct (String.eqb _ _); [|done]. by rewrite row_to_stream_of_stream.
Qed.

(** Saving a stream replaces whatever was stored: the store then holds
    that stream alone and reads it back unchanged, token and events included;
    pending deliveries are dropped and blocked ones kept. *)
Theorem save_stream_replaces iv s db :
  plain (events_requested s) = true ->
  exists db', save_stream settings iv s db = (Ok tt, db') /\
    get_first_stream settings db' = Ok (Some s) /\
    (forall sid, get_stream_by_id settings sid db'
                 = Ok (if String.eqb (stream_id s) sid then Some s else None)) /\
    set_outbox db' = delete_where pending (set_outbox db).
Proof. apply save_stream_run. Qed.

Lemma decrypt_outbox_row now ent seq i s payload :
  plain (JObj payload) = true ->
  decrypt_outbox_payload settings (to_item (outbox_row settings now ent seq i (s, payload))) = Ok payload.
Proof.
  intros Hp. pose proof (loads_dumps Compact _ Hp) as Hl.
  unfold decrypt_outbox_payload, outbox_row, to_item. cbn [item_payload ob_payload snd].
  revert Hl. generalize (dumps Compact (JObj payload)). intros text Hl.
  rewrite decrypt_encrypt_sensitive. simpl. by rewrite Hl.
Qed.
End roundtrips.

(** ** Updating the stream *)

(** The receiver configuration [update_stream] compares. *)
Definition same_receiver (s s' : Stream) : bool :=
  String.eqb (aud s') (aud s) && String.eqb (endpoint_url s') (endpoint_url s)
  && String.eqb (endpoint_token s') (endpoint_token s)
  && py_eq (events_requested s') (events_requested s).

Definition pending_of (sid : string) (o : OutboxRow) : bool := of_stream sid o && pending o.

(** The guard on activation: it passes only with a usable token. *)
Lemma token_guard stored runtime new_status replacement :
  String.eqb new_status "enabled" && _stored_token_is_undecryptable stored runtime
    && _receiver_replacement_is_missing replacement = false ->
  new_status = "enabled" -> stored <> "" -> runtime = "" -> strip (default runtime replacement) <> "".
Proof.
  unfold _stored_token_is_undecryptable, _receiver_replacement_is_missing, str_true.
  intros H -> Hst ->. destruct (String.eqb_spec stored ""); [done|].
  destruct replacement as [t|]; [|done]. simpl in *. by intros Ht; rewrite Ht in H.
Qed.

(** The stream a patch yields. *)
Definition updated_stream (p : StreamPayload) (s : Stream) : Stream :=
  let delivery := default no_delivery (p_delivery p) in
  {| stream_id := stream_id s; aud := opt_or (p_aud p) (aud s);
     endpoint_url := default (endpoint_url s)
       (or_opt (d_endpoint_url delivery) (or_opt (p_endpoint_url p) (Some (endpoint_url s))));
     endpoint_token := default (endpoint_token s) (_replacement_endpoint_token p);
     events_requested := default (events_requested s) (p_events_requested p);
     status := default (status s) (p_status p); created_at := created_at s |}.

(** The row an update writes. *)
Definition updated_row (sid : string) (s : Stream) (token : string) (r : StreamRow) : StreamRow :=
  if String.eqb (r_stream_id r) sid
  then {| r_stream_id := r_stream_id r; r_aud := aud s; r_endpoint_url := endpoint_url s;
          r_endpoint_token := token; r_events_requested := dumps Spaced (events_requested s);
          r_status := status s; r_created_at := r_created_at r |}
  else r.

(** The outcomes of an update. *)
Lemma update_stream_cases `{CryptoLib} settings iv p db :
  match update_stream settings iv p db with
  | (Err _, db') => db' = db
  | (Ok None, db') => db' = db /\ order_by newer (streams db) = []
  | (Ok (Some s'), db') => exists row s,
      head (order_by newer (streams db)) = Some row /\ _row_to_stream settings row = Ok s /\
      s' = updated_stream p s /\ is_list (events_requested s') = true /\
      set_outbox db' =
        (if same_receiver s s' then
           if String.eqb (status s') "enabled" && negb (String.eqb (status s) "enabled")
           then update_where (pending_of (stream_id s)) next_attempt_now (set_outbox db)
           else set_outbox db
         else delete_where (pending_of (stream_id s)) (set_outbox db)) /\
      (status s' = "enabled" -> r_endpoint_token row <> "" -> endpoint_token s = "" ->
       strip (endpoint_token s') <> "") /\
      exists token, streams db' = map (updated_row (stream_id s) (updated_stream p s) token) (streams db)
  end.
Proof.
  unfold update_stream, transaction.
  unfold mbind at 1, M_bind at 1, getM.
  destruct (head (order_by newer (streams db))) as [row|] eqn:Hrow.
  2:{ simpl. split; [done|]. by destruct (order_by newer (streams db)). }
  unfold mbind at 1, M_bind at 1, liftR at 1.
  destruct (_row_to_stream settings row) as [s|e] eqn:Hs; [|done].
  cbv zeta. set (s' := {| stream_id := stream_id s |}).
  unfold mbind at 1 2 3 4, M_bind at 1 2 3 4, liftR, raise_when.
  destruct (is_list _) eqn:Hlist; cbn [negb]; [|done].
  destruct (_ && _ && _) eqn:Htok; [done|].
  match goal with |- context [if ?c then modifyM _ else _] => set (changed := c) end.
  assert (changed = negb (same_receiver s s')) as ->
    by (unfold changed, same_receiver; by rewrite !negb_andb).
  assert (status s' = "enabled" -> r_endpoint_token row <> "" -> endpoint_token s = "" ->
       strip (endpoint_token s') <> "") as Hsafe.
  { apply token_guard, Htok. }
  assert (s' = updated_stream p s) as Hupd by done.
  change (is_list (events_requested s') = true) in Hlist.
  assert (status s' = default (status s) (p_status p)) as <- by done.
  clearbody s'. clear Htok.
  destruct (same_receiver s s') eqn:Hsame; [destruct (_ && _) eqn:Hen|]; simpl;
    exists row, s; rewrite Hsame, ?Hen; split_and!; try done; rewrite Hupd; by eexists.
Qed.

(** C33: [update_stream] never lets a queued delivery reach a receiver it was
    not routed to, and never silently activates a stream whose stored token
    cannot be decrypted.  When audience, URL, token or events change, the
    pending deliveries of that stream are dropped; when only the status
    becomes [enabled] they become due at once; otherwise the queue is
    untouched.  Blocked deliveries are never touched, and a failing update
    changes nothing. *)
Theorem update_stream_queue_safe `{CryptoLib} settings iv p db :
  match update_stream settings iv p db with
  | (Err _, db') => db' = db
  | (Ok None, db') => db' = db /\ order_by newer (streams db) = []
  | (Ok (Some s'), db') => exists row s,
      head (order_by newer (streams db)) = Some row /\ _row_to_stream settings row = Ok s /\
      stream_id s' = stream_id s /\ created_at s' = created_at s /\
      set_outbox db' =
        (if same_receiver s s' then
           if String.eqb (status s') "enabled" && negb (String.eqb (status s) "enabled")
           then update_where (pending_of (stream_id s)) next_attempt_now (set_outbox db)
           else set_outbox db
         else delete_where (pending_of (stream_id s)) (set_outbox db)) /\
      (status s' = "enabled" -> r_endpoint_token row <> "" -> endpoint_token s = "" ->
       strip (endpoint_token s') <> "")
  end.
Proof.
  pose proof (update_stream_cases settings iv p db) as Hu.
  destruct (update_stream settings iv p db) as [[[s'|]|e] db']; [|done|done].
  destruct Hu as (row & s & ? & ? & -> & _ & Hq & Ht & _). exists row, s. by split_and!.
Qed.

(** ** Queue counts *)

Lemma count_split l : Forall (fun o => ob_status o = "pending" \/ ob_status o = "blocked") l ->
  (length (List.filter pending l) + length (List.filter blocked l))%nat = length l.
Proof.
  unfold pending, blocked. induction 1 as [|o l [Ho|Ho] _ IH]; simpl; [done|..]; rewrite Ho; simpl; lia.
Qed.

Lemma min_created_spec l :
  match min_created l with
  | None => l = []
  | Some m => (exists o, o ∈ l /\ ob_created_at o = m) /\ Forall (fun o => m <= ob_created_at o)%Z l
  end.
Proof.
  induction l as [|o l IH]; simpl; [done|]. destruct (min_created l) as [m|].
  - destruct IH as [(o' & Ho' & Hm) Hall]. split.
    + destruct (Z.min_spec (ob_created_at o) m) as [[_ ->]|[_ ->]]; [exists o|exists o']; split; try done;
        [left|by right].
    + constructor; [lia|]. eapply Forall_impl; [exact Hall|]. simpl. lia.
  - subst l. split; [exists o; split; [left|done]|]. repeat constructor. lia.
Qed.

(** The delivery status reported to operators is consistent with the
    queue: pending and blocked deliveries add up to the stored ones, which
    never exceed the capacity, and the oldest pending date is absent exactly
    when nothing is pending and otherwise is the earliest creation date of a
    pending delivery. *)
Theorem outbox_status_consistent db :
  db_ok db ->
  let st := get_outbox_status db in
  (os_pending st + os_blocked st = os_stored st)%Z /\ (os_stored st <= os_capacity st)%Z /\
  match os_oldest_pending_at st with
  | None => os_pending st = 0%Z
  | Some m => (exists o, o ∈ set_outbox db /\ ob_status o = "pending" /\ ob_created_at o = m) /\
      forall o, o ∈ set_outbox db -> ob_status o = "pending" -> (m <= ob_created_at o)%Z
  end.
Proof.
  intros Hok. unfold get_outbox_status, count_where. cbn [os_pending os_blocked os_stored os_capacity os_oldest_pending_at].
  pose proof (count_split _ (ok_statuses _ Hok)). pose proof (ok_capacity _ Hok). split; [lia|]. split; [lia|].
  pose proof (min_created_spec (List.filter pending (set_outbox db))) as Hm.
  destruct (min_created _) as [m|]; [|by rewrite Hm].
  destruct Hm as [(o & Ho & Hmin) Hall]. split.
  - exists o. apply list_elem_of_In, filter_In in Ho as [Ho Hp]. apply list_elem_of_In in Ho.
    unfold pending in Hp. by bool_hyps.
  - intros o' Ho' Hp. rewrite Forall_forall in Hall. apply Hall. apply list_elem_of_In, filter_In.
    split; [by apply list_elem_of_In|]. unfold pending. by rewrite Hp.
Qed.

(** ** Witnesses *)
Import Toy.

Definition example_stream : Stream :=
  {| stream_id := "s-1"; aud := "https://federation.apple.com/feeds/business/caep/0000";
     endpoint_url := "https://receiver.example.com/set"; endpoint_token := "receiver-token";
     events_requested := JArr [JStr "https://schemas.openid.net/secevent/caep/event-type/session-revoked"];
     status := "enabled"; created_at := 1700000000 |}.

Definition example_db : Db := snd (save_stream example_settings "iv" example_stream empty_db).

Definition example_payload : dict := [("event_uri", JStr "urn:x"); ("issued_at", JInt 1700000001)].

Lemma reachable_database_ok_witness : db_ok (complete_outbox_item 1 (file_db (init_db true None))).
Proof. apply (reachable_database_ok example_settings). eapply reach_step; [constructor|]. apply step_complete. Defined.

Lemma enqueue_outbox_atomic_witness :
  exists db', enqueue_outbox example_settings 1700000002 (fun _ => "iv") [(example_stream, example_payload)] example_db
              = (Ok 1%Z, db') /\
    set_outbox db' = [outbox_row example_settings 1700000002 (fun _ => "iv") 0 0 (example_stream, example_payload)].
Proof.
  pose proof (enqueue_outbox_atomic example_settings 1700000002 (fun _ => "iv")
                [(example_stream, example_payload)] example_db ltac:(done)) as H.
  cbv zeta in H. destruct (enqueue_outbox _ _ _ _ _) as [[n|e] db'] eqn:E.
  - destruct H as (_ & _ & -> & _ & H). exists db'. by split.
  - vm_compute in E. discriminate E.
Defined.

Lemma save_stream_replaces_witness :
  exists db', save_stream example_settings "iv2" example_stream example_db = (Ok tt, db') /\
    get_first_stream example_settings db' = Ok (Some example_stream) /\
    (forall sid, get_stream_by_id example_settings sid db'
                 = Ok (if String.eqb (stream_id example_stream) sid then Some example_stream else None)) /\
    set_outbox db' = [].
Proof. apply (save_stream_replaces example_settings "iv2" example_stream example_db). reflexivity. Defined.

Lemma outbox_status_consistent_witness :
  let st := get_outbox_status (file_db (init_db true None)) in
  (os_pending st + os_blocked st = os_stored st)%Z.
Proof. apply (outbox_status_consistent (file_db (init_db true None))). apply (reachable_db_ok example_settings). constructor. Defined.
