(* ===== verification/World.v ===== *)
(** * The outside world

    Clock, randomness, DNS and HTTP are environment oracles: total functions
    of a tick that every interaction advances, so that a theorem quantified
    over them covers every behaviour the environment can show, failures
    included.  Interactions with other hosts are recorded in a trace. *)
From Stdlib Require Import ZArith Lia Ascii String.
From stdpp Require Import base option list strings.
From S2P Require Import Prelude PyStr PyVal.

Open Scope string_scope.

(** ** HTTP *)

Inductive Body :=
| NoBody
| Content (text : string)
| JsonBody (v : json)
| FormBody (fields : list (string * string)).

Record Request := {
  rq_method : string;
  rq_url : string;
  rq_params : list (string * json);
  rq_headers : list (string * string);
  rq_body : Body;
}.

(** What the program reads of a response; [rs_json] is the outcome of
    [response.json()]. *)
Record Response := {
  rs_status : Z;
  rs_content : string;
  rs_text : string;
  rs_json : result json;
  rs_headers : list (string * string);
}.

(** [response.is_success] *)
Definition is_success (r : Response) : bool := ((200 <=? rs_status r) && (rs_status r <? 300))%Z.

Inductive event :=
| Resolved (host : string)
| Sent (rq : Request).

(** ** Oracles *)

Class Env := {
  env_now : nat -> Z;                                   (* int(time.time()) *)
  env_monotonic : nat -> Z;                             (* time.monotonic(), in ns *)
  env_uuid : nat -> string;                             (* str(uuid.uuid4()) *)
  env_entropy : nat -> string;                          (* Fernet time and IV, secrets *)
  env_http : nat -> Request -> result Response;
  env_getaddrinfo : nat -> string -> result (list string);
  env_deadline : nat -> option nat;                     (* wait_for: None when in time *)
}.

Record World := { w_tick : nat; w_trace : list event }.

Definition start : World := {| w_tick := 0; w_trace := [] |}.

Section world.
Context `{Env}.

(** Read an oracle at the current tick. *)
Definition ask {A} (f : nat -> A) : M World A := fun w =>
  (Ok (f (w_tick w)), {| w_tick := S (w_tick w); w_trace := w_trace w |}).

Definition nowM : M World Z := ask env_now.
Definition monotonicM : M World Z := ask env_monotonic.
Definition uuidM : M World string := ask env_uuid.
Definition entropyM : M World string := ask env_entropy.

Definition emit (e : event) : M World unit := fun w =>
  (Ok tt, {| w_tick := w_tick w; w_trace := (w_trace w ++ [e])%list |}).

Definition http (rq : Request) : M World Response :=
  _ ← emit (Sent rq);
  r ← ask (fun t => env_http t rq);
  liftR r.

Definition getaddrinfo (host : string) : M World (list string) :=
  _ ← emit (Resolved host);
  r ← ask (fun t => env_getaddrinfo t host);
  liftR r.

(** [asyncio.wait_for(m, timeout)]: when the deadline expires, [m] has gone
    as far as some number of interactions and its outcome is lost. *)
Definition wait_for {A} (m : M World A) : M World A := fun w =>
  let '(r, w') := m w in
  match env_deadline (w_tick w') with
  | None => (r, {| w_tick := S (w_tick w'); w_trace := w_trace w' |})
  | Some k =>
      (Err TimeoutError,
       {| w_tick := S (w_tick w');
          w_trace := (w_trace w ++ take k (drop (length (w_trace w)) (w_trace w')))%list |})
  end.
End world.

(** ** What a computation adds to the trace *)

(** Every event [m] adds satisfies [P], whatever the outcome. *)
Definition emits {A} (P : event -> Prop) (m : M World A) : Prop :=
  forall w r w', m w = (r, w') -> exists tr, w_trace w' = (w_trace w ++ tr)%list /\ Forall P tr.

Lemma emits_ret {A} P (a : A) : emits P (mret a : M World A).
Proof. intros w r w' [= <- <-]. exists []. by rewrite app_nil_r. Qed.
Lemma emits_liftR {A} P (r : result A) : emits P (liftR r : M World A).
Proof. intros w r' w' [= <- <-]. exists []. by rewrite app_nil_r. Qed.
Lemma emits_ask {A} P (f : nat -> A) : emits P (ask f).
Proof. intros w r w' [= <- <-]. exists []. by rewrite app_nil_r. Qed.
Lemma emits_emit P e : P e -> emits P (emit e).
Proof. intros He w r w' [= <- <-]. exists [e]. by rewrite Forall_singleton. Qed.

Lemma emits_bind {A B} P (m : M World A) (k : A -> M World B) :
  emits P m -> (forall a, emits P (k a)) -> emits P (m ≫= k).
Proof.
  intros Hm Hk w r w'. unfold mbind, M_bind.
  destruct (m w) as [[a|e] w1] eqn:E; apply Hm in E as (t1 & E1 & H1).
  - intros E2. apply Hk in E2 as (t2 & E2 & H2). exists (t1 ++ t2)%list.
    rewrite E2, E1, app_assoc. by rewrite Forall_app.
  - intros [= <- <-]. eauto.
Qed.

Lemma emits_catch {A} P (m : M World A) h :
  emits P m -> (forall e k, h e = Some k -> emits P k) -> emits P (catchM m h).
Proof.
  intros Hm Hh w r w'. unfold catchM.
  destruct (m w) as [[a|e] w1] eqn:E; apply Hm in E as (t1 & E1 & H1).
  - intros [= <- <-]. eauto.
  - destruct (h e) as [k|] eqn:He; [|intros [= <- <-]; eauto].
    intros E2. eapply Hh in E2 as (t2 & E2 & H2); [|done]. exists (t1 ++ t2)%list.
    rewrite E2, E1, app_assoc. by rewrite Forall_app.
Qed.

Lemma emits_if {A} P (b : bool) (m n : M World A) :
  emits P m -> emits P n -> emits P (if b then m else n).
Proof. by destruct b. Qed.

Lemma emits_http `{Env} P rq : P (Sent rq) -> emits P (http rq).
Proof.
  intros HP. apply emits_bind; [by apply emits_emit|]. intros _.
  apply emits_bind; [apply emits_ask|]. intros. apply emits_liftR.
Qed.

Lemma emits_getaddrinfo `{Env} P h : P (Resolved h) -> emits P (getaddrinfo h).
Proof.
  intros HP. apply emits_bind; [by apply emits_emit|]. intros _.
  apply emits_bind; [apply emits_ask|]. intros. apply emits_liftR.
Qed.

Lemma emits_wait_for `{Env} {A} P (m : M World A) : emits P m -> emits P (wait_for m).
Proof.
  intros Hm w r w'. unfold wait_for. destruct (m w) as [r1 w1] eqn:E.
  apply Hm in E as (tr & E & Htr). destruct (env_deadline _) as [k|]; intros [= <- <-]; cbn [w_trace].
  - exists (take k tr). rewrite E, drop_app_length. split; [done|]. by apply Forall_take.
  - eauto.
Qed.

Lemma emits_weaken {A} (P Q : event -> Prop) (m : M World A) :
  (forall e, P e -> Q e) -> emits P m -> emits Q m.
Proof.
  intros HPQ Hm w r w' E. apply Hm in E as (tr & ? & ?). exists tr. split; [done|].
  by eapply Forall_impl.
Qed.

Create HintDb emits.
#[export] Hint Resolve emits_ret emits_liftR emits_ask emits_emit emits_bind emits_catch
  emits_if emits_http emits_getaddrinfo emits_wait_for : emits.

(** ** Trace languages

    [traces T m Q]: on a state that contains the world, what [m] adds to the
    trace belongs to [T], whatever the outcome, and a value it returns
    satisfies [Q]. *)
Section traces.
Context {S : Type} `{Lens S World}.

Definition traces {A} (T : list event -> Prop) (m : M S A) (Q : A -> Prop) : Prop :=
  forall s r s', m s = (r, s') ->
    (exists tr, w_trace (lget s') = (w_trace (lget s) ++ tr)%list /\ T tr) /\ forall a, r = Ok a -> Q a.

(** A trace of [T1] followed by one of [T2]. *)
Definition followed (T1 T2 : list event -> Prop) (tr : list event) : Prop :=
  exists t1 t2, tr = (t1 ++ t2)%list /\ T1 t1 /\ T2 t2.

Definition anything {A} : A -> Prop := fun _ => True.

Lemma traces_silent {A} (T : list event -> Prop) (m : M S A) (Q : A -> Prop) :
  T [] -> (forall s r s', m s = (r, s') -> w_trace (lget s') = w_trace (lget s) /\ forall a, r = Ok a -> Q a) ->
  traces T m Q.
Proof.
  intros HT Hm s r s' E. apply Hm in E as [E HQ]. split; [|done]. exists []. by rewrite app_nil_r.
Qed.

Lemma traces_ret {A} (T : list event -> Prop) (a : A) (Q : A -> Prop) : T [] -> Q a -> traces T (mret a) Q.
Proof. intros HT Ha. apply traces_silent; [done|]. intros s r s' [= <- <-]. split; [done|]. by intros ? [= <-]. Qed.

Lemma traces_raise {A} (T : list event -> Prop) e (Q : A -> Prop) : T [] -> traces T (raiseM e) Q.
Proof. intros HT. apply traces_silent; [done|]. by intros s r s' [= <- <-]. Qed.

Lemma traces_lift {A} (T : list event -> Prop) (r : result A) (Q : A -> Prop) :
  T [] -> (forall a, r = Ok a -> Q a) -> traces T (liftR r) Q.
Proof. intros HT Hr. apply traces_silent; [done|]. by intros s r' s' [= <- <-]. Qed.

Lemma traces_bind {A B} (T1 T2 : list event -> Prop) (m : M S A) (k : A -> M S B) Q R :
  T2 [] -> traces T1 m Q -> (forall a, Q a -> traces T2 (k a) R) -> traces (followed T1 T2) (m ≫= k) R.
Proof.
  intros H2 Hm Hk s r s'. unfold mbind, M_bind.
  destruct (m s) as [[a|e] s1] eqn:E; apply Hm in E as [(t1 & E1 & H1) HQ].
  - intros E2. apply (Hk a (HQ a eq_refl)) in E2 as [(t2 & E2 & Ht2) HR]. split; [|done].
    exists (t1 ++ t2)%list. rewrite E2, E1, app_assoc. split; [done|]. by exists t1, t2.
  - intros [= <- <-]. split; [|done]. exists t1. split; [done|]. exists t1, []. by rewrite app_nil_r.
Qed.

(** Several steps with the same events. *)
Lemma traces_all_bind {A B} (P : event -> Prop) (m : M S A) (k : A -> M S B) Q R :
  traces (Forall P) m Q -> (forall a, Q a -> traces (Forall P) (k a) R) -> traces (Forall P) (m ≫= k) R.
Proof.
  intros Hm Hk s r s' E. apply (traces_bind _ _ _ _ _ _ (Forall_nil_2 P) Hm Hk) in E as [(tr & E & Htr) HR].
  split; [|done]. exists tr. split; [done|]. destruct Htr as (t1 & t2 & -> & ? & ?). by apply Forall_app.
Qed.

Lemma traces_catch {A} (P : event -> Prop) (m : M S A) h Q :
  traces (Forall P) m Q -> (forall e k, h e = Some k -> traces (Forall P) k Q) -> traces (Forall P) (catchM m h) Q.
Proof.
  intros Hm Hh s r s'. unfold catchM. destruct (m s) as [[a|e] s1] eqn:E; apply Hm in E as [(t1 & E1 & H1) HQ].
  - intros [= <- <-]. eauto.
  - destruct (h e) as [k|] eqn:He; [|intros [= <- <-]; eauto].
    intros E2. apply (Hh e k He) in E2 as [(t2 & E2 & H2) HR]. split; [|done].
    exists (t1 ++ t2)%list. rewrite E2, E1, app_assoc. split; [done|]. by apply Forall_app.
Qed.

(** A handler that sends nothing keeps the trace in the language. *)
Lemma traces_catch_silent {A} (T : list event -> Prop) (m : M S A) h Q :
  traces T m Q -> (forall e k, h e = Some k -> traces (fun tr => tr = []) k Q) -> traces T (catchM m h) Q.
Proof.
  intros Hm Hh s r s'. unfold catchM. destruct (m s) as [[a|e] s1] eqn:E; apply Hm in E as [(t1 & E1 & H1) HQ].
  - intros [= <- <-]. eauto.
  - destruct (h e) as [k|] eqn:He; [|intros [= <- <-]; eauto].
    intros E2. apply (Hh e k He) in E2 as [(t2 & E2 & ->) HR]. split; [|done].
    exists t1. by rewrite E2, app_nil_r.
Qed.

Lemma traces_weaken {A} (T T' : list event -> Prop) (m : M S A) (Q Q' : A -> Prop) :
  traces T m Q -> (forall tr, T tr -> T' tr) -> (forall a, Q a -> Q' a) -> traces T' m Q'.
Proof. intros Hm HT HQ s r s' E. apply Hm in E as [(tr & E & Htr) Hr]. split; eauto. Qed.

Context `{!LensLaws S World}.

Lemma traces_zoom {A} (T : list event -> Prop) (m : M World A) (Q : A -> Prop) :
  (forall w r w', m w = (r, w') -> (exists tr, w_trace w' = (w_trace w ++ tr)%list /\ T tr) /\ forall a, r = Ok a -> Q a) ->
  traces T (zoom m : M S A) Q.
Proof.
  intros Hm s r s'. unfold zoom. destruct (m (lget s)) as [r0 w'] eqn:E. intros [= <- <-].
  rewrite lget_lset. by apply Hm.
Qed.
End traces.

(** A step that sends nothing. *)
Ltac traces_quiet :=
  first [ apply traces_ret; [constructor|try done; try exact I]
        | apply traces_raise; constructor
        | apply traces_lift; [constructor|try done; try (intros ? ?; exact I)] ].

Lemma traces_emits {S A} `{LensLaws S World} P (m : M World A) :
  emits P m -> traces (Forall P) (zoom m : M S A) anything.
Proof. intros Hm. apply traces_zoom. intros w r w' E. split; [by eapply Hm|done]. Qed.

(** The same judgement on the world itself. *)
Lemma traces_world {S A} `{LensLaws S World} (T : list event -> Prop) (m : M World A) (Q : A -> Prop) :
  traces T m Q -> traces T (zoom m : M S A) Q.
Proof. intros Hm. apply traces_zoom. intros w r w' E. by apply (Hm w r w'). Qed.

Lemma traces_http `{Env} (P : event -> Prop) rq :
  P (Sent rq) -> traces (Forall P) (http rq) (fun resp => exists t, env_http t rq = Ok resp).
Proof.
  intros HP w r w' E. split; [by eapply emits_http|]. intros a ->.
  unfold http, emit, ask, liftR, mbind, M_bind in E. injection E as E _. eauto.
Qed.
