(* ===== verification/LogSafe.v ===== *)
(** * Safe logging ([app/security/pii.py], [log_sanitize.py], [http_logging.py])

    Pseudonyms for e-mail addresses, removal of control characters, and the
    redacted preview of a response body.  The address pattern is a matcher
    with the priorities of a backtracking engine, proved sound and complete
    for the language the pattern denotes. *)
From Stdlib Require Import ZArith Lia Ascii String.
From stdpp Require Import base option list strings.
From S2P Require Import Prelude PyStr PyVal JsonText Config Crypto World.

Open Scope string_scope.

(** ** [pii.py] *)

Section pii.
Context `{CryptoLib}.

Definition mask_email (email : option string) (log_pii : bool) (pii_key : string) : string :=
  match email with
  | None => "[pii:none]"
  | Some email =>
      if log_pii then email
      else "[pii:" +:+ str_take 8 (hexdigest (hmac_sha256 (utf8_encode pii_key) (utf8_encode email))) +:+ "]"
  end.
End pii.

(** ** [log_sanitize.py] *)

(** [[\x00-\x1f\x7f]] *)
Definition control_char (c : ascii) : bool := ((code c <? 32) || (code c =? 127))%N.

Definition sanitize_for_log (value : json) (max_len : nat) : string :=
  match value with
  | JNull => "None"
  | _ =>
      let stripped := str_filter (fun c => negb (control_char c)) (py_str value) in
      if (max_len <? String.length stripped)%nat then str_take max_len stripped +:+ "...[truncated]" else stripped
  end.

(** ** The address pattern of [http_logging.py]

    [[A-Z0-9._%+\-]{1,512}@(?:[A-Z0-9\-]{1,512}\.){1,256}[A-Z]{2,512}],
    ignoring case. *)

Definition is_alpha (c : ascii) : bool := is_upper (upper_char c) && (code c <? 128)%N.
Definition is_label (c : ascii) : bool := is_alpha c || is_digit c || Ascii.eqb c "-".
Definition is_local (c : ascii) : bool :=
  is_label c || Ascii.eqb c "." || Ascii.eqb c "_" || Ascii.eqb c "%" || Ascii.eqb c "+".

(** Greedy [p{0,n}]: how many, and what is left. *)
Fixpoint take_run (p : ascii -> bool) (n : nat) (s : string) : nat * string :=
  match n, s with
  | S n', String c t => if p c then let '(k, r) := take_run p n' t in (S k, r) else (O, s)
  | _, _ => (O, s)
  end.

(** [[A-Z0-9\-]{1,512}\.]: a shorter run is never followed by a dot. *)
Definition label_dot (s : string) : option string :=
  match take_run is_label 512 s with
  | (S _, String c t) => if Ascii.eqb c "." then Some t else None
  | _ => None
  end.

(** [[A-Z]{2,512}] *)
Definition top_level (s : string) : option string :=
  match take_run is_alpha 512 s with
  | (S (S _), r) => Some r
  | _ => None
  end.

(** Up to [n] more labels, as many as lead to a match, then the last part. *)
Fixpoint domain_rest (n : nat) (s : string) : option string :=
  match n with
  | O => top_level s
  | S n' =>
      match (t ← label_dot s; domain_rest n' t) with
      | Some r => Some r
      | None => top_level s
      end
  end.

(** The match at the start of [s]: what follows it. *)
Definition email_at (s : string) : option string :=
  match take_run is_local 512 s with
  | (S _, String c t) => if Ascii.eqb c "@" then t ← label_dot t; domain_rest 255 t else None
  | _ => None
  end.

Section http_logging.
Context `{CryptoLib}.

(** [_EMAIL_RE.sub(_replace, text)]: leftmost matches; [skip] characters
    belong to a match already replaced. *)
Fixpoint redact_from (skip : nat) (log_pii : bool) (pii_key : string) (s : string) : string :=
  match s with
  | "" => ""
  | String c t =>
      match skip with
      | S skip' => redact_from skip' log_pii pii_key t
      | O =>
          match email_at s with
          | Some r =>
              let n := String.length s - String.length r in
              mask_email (Some (str_take n s)) log_pii pii_key +:+ redact_from (pred n) log_pii pii_key t
          | None => String c (redact_from O log_pii pii_key t)
          end
      end
  end.

Definition redact_text (text : string) (log_pii : bool) (pii_key : string) : string :=
  redact_from O log_pii pii_key text.

Record metadata := {
  md_status_code : Z;
  md_content_type : option string;
  md_body_len : nat;
  md_body_sha256_8 : string;
}.

(** [response.headers.get(name)], names in lower case *)
Definition header_get (name : string) (headers : list (string * string)) : option string :=
  snd <$> List.find (fun kv => String.eqb (lower (fst kv)) name) headers.

Definition response_metadata (response : Response) : metadata :=
  {| md_status_code := rs_status response;
     md_content_type := header_get "content-type" (rs_headers response);
     md_body_len := String.length (rs_content response);
     md_body_sha256_8 := str_take 8 (hexdigest (sha256 (rs_content response))) |}.

(** [sorted(d.items())]: the keys of a dictionary are distinct. *)
Fixpoint insert_item (kv : string * json) (d : dict) : dict :=
  match d with
  | [] => [kv]
  | kv' :: t => if String.leb (fst kv) (fst kv') then kv :: d else kv' :: insert_item kv t
  end.
Definition sort_items (d : dict) : dict := foldr insert_item [] d.

Fixpoint insert_str (s : string) (l : list string) : list string :=
  match l with [] => [s] | x :: t => if String.leb s x then s :: l else x :: insert_str s t end.

Definition json_key_summary (value : json) : string :=
  match value with
  | JObj d => "object_keys=" +:+ py_repr (JArr (map JStr (foldr insert_str [] (dkeys d))))
  | JArr l => "list_len=" +:+ str_of_int (Z.of_nat (length l))
  | _ => "type=" +:+ type_name value
  end.

Definition _SENSITIVE_KEYS : list string :=
  ["access_token"; "refresh_token"; "token"; "client_secret"; "authorization"; "secret"; "id_token"].

Definition sensitive (key : string) : bool := str_mem (lower key) _SENSITIVE_KEYS.

(** [_sanitize] *)
Fixpoint _sanitize (log_pii : bool) (pii_key : string) (value : json) : json :=
  match value with
  | JObj d => JObj (map (fun kv => (kv.1, if sensitive kv.1 then JStr "[redacted]"
                                          else _sanitize log_pii pii_key kv.2)) d)
  | JArr l => JArr (map (_sanitize log_pii pii_key) l)
  | JStr s => JStr (redact_text s log_pii pii_key)
  | _ => value
  end.

(** [sort_keys=True], at every level *)
Fixpoint sorted_json (v : json) : json :=
  match v with
  | JObj d => JObj (sort_items (map (fun kv => (kv.1, sorted_json kv.2)) d))
  | JArr l => JArr (map sorted_json l)
  | _ => v
  end.

Definition safe_response_body_text (response : Response) (log_pii : bool) (pii_key : string) (limit : nat) : result string :=
  let raw_text := str_take limit (rs_text response) in
  match loads raw_text with
  | Err JSONDecodeError => Ok (redact_text raw_text log_pii pii_key)
  | Err e => Err e
  | Ok parsed => Ok (str_take limit (dumps Spaced (sorted_json (_sanitize log_pii pii_key parsed))))
  end.
End http_logging.

(** ** The language of the address pattern *)

(** [p{lo,hi}] *)
Definition is_run (p : ascii -> bool) (lo hi : nat) (s : string) : bool :=
  str_forallb p s && (lo <=? String.length s)%nat && (String.length s <=? hi)%nat.

(** [(label\.)*] *)
Fixpoint labels_text (gs : list string) : string :=
  match gs with
  | [] => ""
  | g :: gs' => g +:+ String "." (labels_text gs')
  end.

Definition is_domain (n : nat) (gs : list string) (t : string) : Prop :=
  (length gs <= n)%nat /\ Forall (fun g => is_run is_label 1 512 g = true) gs /\ is_run is_alpha 2 512 t = true.

(** [w] is a word of the pattern. *)
Definition is_email (w : string) : Prop :=
  exists l g gs t,
    w = l +:+ String "@" (g +:+ String "." (labels_text gs +:+ t)) /\
    is_run is_local 1 512 l = true /\ is_run is_label 1 512 g = true /\ is_domain 255 gs t.

Lemma is_runP p lo hi s :
  is_run p lo hi s = true <-> str_forallb p s = true /\ (lo <= String.length s)%nat /\ (String.length s <= hi)%nat.
Proof. unfold is_run. rewrite !andb_true_iff, !Nat.leb_le. tauto. Qed.

(** The greedy run takes all of [w] and possibly more. *)
Lemma take_run_app p n w y :
  str_forallb p w = true -> (String.length w <= n)%nat ->
  take_run p n (w +:+ y) =
  (let '(k, r) := take_run p (n - String.length w) y in (String.length w + k, r)%nat).
Proof.
  revert n; induction w as [|c w IH]; intros n Hp Hn; simpl in *.
  - rewrite str_app_nil_l, Nat.sub_0_r. by destruct (take_run p n y).
  - apply andb_prop in Hp as [Hc Hw]. destruct n as [|n]; [lia|].
    rewrite str_app_cons. simpl. rewrite Hc, IH by (done || lia).
    by destruct (take_run p (n - String.length w) y).
Qed.

Lemma take_run_stop p n c y : p c = false -> take_run p n (String c y) = (O, String c y).
Proof. intros Hc. destruct n; simpl; [done|by rewrite Hc]. Qed.

(** What the greedy run took. *)
Lemma take_run_sound p n s k r :
  take_run p n s = (k, r) -> exists w, s = w +:+ r /\ String.length w = k /\ (k <= n)%nat /\ str_forallb p w = true.
Proof.
  revert s k r; induction n as [|n IH]; intros s k r; simpl.
  - intros [= <- <-]. by exists "".
  - destruct s as [|c t]; [intros [= <- <-]; exists ""; repeat split; simpl; lia|].
    destruct (p c) eqn:Hc.
    + destruct (take_run p n t) as [k' r'] eqn:E. intros [= <- <-].
      destruct (IH _ _ _ E) as (w & -> & <- & Hn & Hw).
      exists (String c w). rewrite str_app_cons. simpl. rewrite Hc. repeat split; [lia|done].
    + intros [= <- <-]. exists "". repeat split; simpl; lia.
Qed.

Lemma take_run_exact p hi w c y :
  is_run p 1 hi w = true -> p c = false ->
  exists k, take_run p hi (w +:+ String c y) = (S k, String c y).
Proof.
  intros (Hw & Hlo & Hhi)%is_runP Hc. rewrite take_run_app, take_run_stop by done.
  exists (pred (String.length w)). f_equal. lia.
Qed.

Lemma label_dot_complete g y : is_run is_label 1 512 g = true -> label_dot (g +:+ String "." y) = Some y.
Proof. intros H. unfold label_dot. by destruct (take_run_exact _ _ _ "."%char y H) as [k ->]. Qed.

Lemma top_level_complete t y : is_run is_alpha 2 512 t = true -> is_Some (top_level (t +:+ y)).
Proof.
  intros (Ht & Hlo & Hhi)%is_runP. unfold top_level. rewrite take_run_app by done.
  destruct (take_run is_alpha _ y) as [k r].
  destruct (String.length t) as [|[|j]]; [lia|lia|]. by eexists.
Qed.

Lemma domain_rest_complete n gs t y :
  is_domain n gs t -> is_Some (domain_rest n (labels_text gs +:+ t +:+ y)).
Proof.
  intros (Hn & Hgs & Ht). revert n Hn; induction Hgs as [|g gs Hg Hgs IH]; intros n Hn; simpl in *.
  - rewrite str_app_nil_l. destruct (top_level_complete t y Ht) as [r E]. destruct n; simpl; [by rewrite E|].
    destruct (label_dot (t +:+ y) ≫= domain_rest n); by rewrite ?E.
  - destruct n as [|n]; [lia|]. rewrite str_app_assoc, str_app_cons. simpl. rewrite label_dot_complete by done.
    simpl. destruct (IH n) as [r ->]; [lia|]. by eexists.
Qed.

(** A word of the pattern is matched, whatever follows it. *)
Lemma email_at_complete w y : is_email w -> is_Some (email_at (w +:+ y)).
Proof.
  intros (l & g & gs & t & -> & Hl & Hg & Hd). unfold email_at.
  rewrite str_app_assoc, str_app_cons.
  destruct (take_run_exact _ _ _ "@"%char ((g +:+ String "." (labels_text gs +:+ t)) +:+ y) Hl) as [k ->]; [done|].
  cbn -[domain_rest label_dot labels_text]. rewrite str_app_assoc, str_app_cons, label_dot_complete by done.
  cbn -[domain_rest label_dot labels_text]. rewrite str_app_assoc. by apply domain_rest_complete.
Qed.

Lemma label_dot_sound s r :
  label_dot s = Some r -> exists g, s = g +:+ String "." r /\ is_run is_label 1 512 g = true.
Proof.
  unfold label_dot. destruct (take_run is_label 512 s) as [[|k] [|c t]] eqn:E; try done.
  destruct (Ascii.eqb_spec c ".") as [->|]; [|done]. intros [= <-].
  apply take_run_sound in E as (w & -> & Hk & Hn & Hw). exists w. split; [done|]. apply is_runP. repeat split; [done|lia..].
Qed.

Lemma top_level_sound s r :
  top_level s = Some r -> exists t, s = t +:+ r /\ is_run is_alpha 2 512 t = true.
Proof.
  unfold top_level. destruct (take_run is_alpha 512 s) as [[|[|k]] r'] eqn:E; try done. intros [= <-].
  apply take_run_sound in E as (w & -> & Hk & Hn & Hw). exists w. split; [done|]. apply is_runP. repeat split; [done|lia..].
Qed.

Lemma domain_rest_sound n s r :
  domain_rest n s = Some r -> exists gs t, s = labels_text gs +:+ t +:+ r /\ is_domain n gs t.
Proof.
  revert s; induction n as [|n IH]; intros s.
  - intros (t & -> & Ht)%top_level_sound. exists [], t. split; [done|]. by repeat split.
  - simpl. destruct (label_dot s ≫= domain_rest n) as [r'|] eqn:E.
    + intros [= ->]. apply bind_Some in E as (u & (g & -> & Hg)%label_dot_sound & Hu).
      apply IH in Hu as (gs & t & -> & Hn & Hgs & Ht). exists (g :: gs), t.
      simpl. rewrite str_app_assoc, str_app_cons. repeat split; simpl; [lia|by constructor|done].
    + intros (t & -> & Ht)%top_level_sound. exists [], t. split; [done|]. repeat split; simpl; [lia|done..].
Qed.

(** What is matched is a word of the pattern. *)
Lemma email_at_sound s r : email_at s = Some r -> exists w, s = w +:+ r /\ is_email w.
Proof.
  unfold email_at. destruct (take_run is_local 512 s) as [[|k] [|c t]] eqn:E; try done.
  destruct (Ascii.eqb_spec c "@") as [->|]; [|done].
  intros (u & (g & -> & Hg)%label_dot_sound & (gs & e & -> & Hd)%domain_rest_sound)%bind_Some.
  apply take_run_sound in E as (l & -> & Hk & Hn & Hl).
  exists (l +:+ String "@" (g +:+ String "." (labels_text gs +:+ e))). split.
  - by rewrite !str_app_assoc, !str_app_cons, !str_app_assoc, !str_app_cons, !str_app_assoc.
  - exists l, g, gs, e. split; [done|]. split; [|done]. apply is_runP. repeat split; [done|lia..].
Qed.

(** ** Redaction *)

(** [w] occurs in [s]. *)
Definition occurs (w s : string) : Prop := exists a b, s = a +:+ w +:+ b.

Definition not_in (c : ascii) (w : string) : Prop := str_forallb (fun d => negb (Ascii.eqb c d)) w = true.

Lemma not_in_weaken (p : ascii -> bool) c w : p c = false -> str_forallb p w = true -> not_in c w.
Proof.
  intros Hc. unfold not_in. induction w as [|d w IH]; simpl; [done|]. intros [Hd Hw]%andb_prop.
  rewrite IH by done. destruct (Ascii.eqb_spec c d); [congruence|done].
Qed.

(** An occurrence that avoids [c] is on one side of every [c]. *)
Lemma occurs_around c w x z :
  not_in c w -> occurs w (x +:+ String c z) -> occurs w x \/ occurs w z.
Proof.
  intros Hw (a & b & E). revert a E; induction x as [|d x IH]; intros a E.
  - rewrite str_app_nil_l in E. destruct a as [|e a].
    + left. rewrite str_app_nil_l in E. destruct w as [|e w]; [by exists "", ""|].
      unfold not_in in Hw. injection E as -> ->. simpl in Hw. by rewrite Ascii.eqb_refl in Hw.
    + right. injection E as -> ->. by exists a, b.
  - rewrite str_app_cons in E. destruct a as [|e a].
    + rewrite str_app_nil_l in E. destruct w as [|e w]; [left; by exists "", (String d x)|].
      injection E as -> E. unfold not_in in Hw. simpl in Hw. apply andb_prop in Hw as [_ Hw].
      assert (exists b', x = w +:+ b') as [b' ->]; [|left; by exists "", b'].
      clear -Hw E. revert x E; induction w as [|f w IH]; intros x E; [by exists x|].
      destruct x as [|g x]; injection E as -> E; simpl in Hw; apply andb_prop in Hw as [Hf Hw].
      * by rewrite Ascii.eqb_refl in Hf.
      * destruct (IH Hw _ E) as [b' ->]. by exists b'.
    + injection E as -> E. destruct (IH _ E) as [(u & v & ->)|]; [|by right]. left. by exists (String e u), v.
Qed.

Definition email_char (c : ascii) : bool := is_local c || Ascii.eqb c "@".

Lemma is_run_forallb p q lo hi w :
  (forall c, p c = true -> q c = true) -> is_run p lo hi w = true -> str_forallb q w = true.
Proof.
  intros Hpq (Hw & _)%is_runP. clear -Hpq Hw. induction w as [|c w IH]; simpl in *; [done|].
  apply andb_prop in Hw as [Hc Hw]. by rewrite Hpq, IH.
Qed.

Lemma label_email_char c : is_label c = true -> email_char c = true.
Proof. unfold email_char, is_local. by intros ->. Qed.

Lemma alpha_email_char c : is_alpha c = true -> email_char c = true.
Proof. intros H. apply label_email_char. unfold is_label. by rewrite H. Qed.

Lemma local_email_char c : is_local c = true -> email_char c = true.
Proof. unfold email_char. by intros ->. Qed.

Lemma email_chars w : is_email w -> str_forallb email_char w = true.
Proof.
  intros (l & g & gs & t & -> & Hl & Hg & _ & Hgs & Ht).
  rewrite !str_forallb_app. simpl. rewrite str_forallb_app. simpl. rewrite str_forallb_app.
  rewrite (is_run_forallb _ _ _ _ _ local_email_char Hl), (is_run_forallb _ _ _ _ _ label_email_char Hg),
    (is_run_forallb _ _ _ _ _ alpha_email_char Ht), andb_true_r. simpl.
  induction Hgs as [|g' gs Hg' Hgs IH]; simpl; [done|].
  rewrite str_forallb_app. simpl. by rewrite (is_run_forallb _ _ _ _ _ label_email_char Hg'), IH.
Qed.

Lemma email_not_in c w : email_char c = false -> is_email w -> not_in c w.
Proof. intros Hc Hw. by eapply not_in_weaken; [|apply email_chars]. Qed.

(** An address has an at sign. *)
Lemma email_at_sign w s : is_email w -> occurs w s -> ~ not_in "@" s.
Proof.
  unfold not_in. intros (l & g & gs & t & -> & _) (a & b & ->). rewrite !str_forallb_app. simpl.
  by rewrite !andb_false_r.
Qed.

Section redaction.
Context `{CryptoLib}.

Lemma redact_skip log_pii key w y :
  redact_from (String.length w) log_pii key (w +:+ y) = redact_from O log_pii key y.
Proof.
  induction w as [|c w IH]; [done|]. rewrite str_app_cons. simpl. apply IH.
Qed.

(** The text up to the first address is kept, the address is replaced. *)
Lemma redact_text_cases log_pii key s :
  (redact_text s log_pii key = s /\ (forall w, is_email w -> ~ occurs w s)) \/
  (exists gap w r, s = gap +:+ w +:+ r /\ is_email w /\
     redact_text s log_pii key = gap +:+ mask_email (Some w) log_pii key +:+ redact_text r log_pii key /\
     (forall w, is_email w -> ~ occurs w gap)).
Proof.
  assert (forall w c t, email_at (String c t) = None -> is_email w -> forall a b, String c t = a +:+ w +:+ b ->
    exists a', t = a' +:+ w +:+ b) as Hlater.
  { intros w c t Hn Hw [|d a] b E.
    - rewrite str_app_nil_l in E. rewrite E in Hn.
      by destruct (email_at_complete w b Hw) as [r Hr]; rewrite Hr in Hn.
    - injection E as -> ->. by exists a. }
  unfold redact_text. induction s as [|c t IH].
  { left. split; [done|]. intros w (l & g & gs & t & -> & _) (a & b & E). by destruct a, l. }
  cbn [redact_from]. destruct (email_at (String c t)) as [r|] eqn:E.
  - destruct (email_at_sound _ _ E) as (w & Hs & Hw). right. exists "", w, r.
    split; [done|]. split; [done|].
    assert (String.length (String c t) - String.length r = String.length w)%nat as ->
      by (rewrite Hs, str_app_length; lia).
    assert (str_take (String.length w) (String c t) = w) as ->.
    { rewrite Hs. clear. induction w as [|d w IH]; [by destruct r|]. rewrite str_app_cons. simpl. by rewrite IH. }
    split.
    + rewrite str_app_nil_l. f_equal. destruct w as [|d w]; [by destruct Hw as ([] & ? & ? & ? & ? & _)|].
      injection Hs as -> ->. simpl pred. apply redact_skip.
    + intros w' (l & g & gs & u & -> & _) (a & b & E'). by destruct a, l.
  - destruct IH as [[IH Hno]|(gap & w & r & -> & Hw & IH & Hno)].
    + left. rewrite IH. split; [done|]. intros w Hw (a & b & Es).
      destruct (Hlater w c t E Hw a b Es) as [a' ->]. apply (Hno w Hw). by exists a', b.
    + right. exists (String c gap), w, r. rewrite IH. do 3 (split; [done|]).
      intros w' Hw' (a & b & Es).
      destruct (Hlater w' c _ E Hw' a (b +:+ w +:+ r)) as [a' Ea].
      { rewrite <- (str_app_cons c gap), Es. by rewrite !str_app_assoc. }
      destruct a as [|d a].
      * rewrite str_app_nil_l in Es.
        destruct (email_at_complete w' (b +:+ w +:+ r) Hw') as [u Hu].
        rewrite <- str_app_assoc, <- Es, str_app_cons, E in Hu. done.
      * injection Es as -> ->. apply (Hno w' Hw'). by exists a, b.
Qed.

(** The digest of a mask consists of hexadecimal digits. *)
Lemma hexdigest_no_at d n : not_in "@" (str_take n (hexdigest d)).
Proof.
  apply str_take_forallb. induction d as [|c d IH]; [done|].
  assert (forall m, (m < 16)%N -> negb (Ascii.eqb "@" (hex_digit m)) = true) as Hhex.
  { intros m Hm. assert (m ∈ (N.of_nat <$> seq 0 16)) as Hin.
    { apply list_elem_of_fmap. exists (N.to_nat m). split; [lia|]. apply elem_of_seq. lia. }
    assert (forallb (fun m => negb (Ascii.eqb "@" (hex_digit m))) (N.of_nat <$> seq 0 16) = true) as Hall by done.
    rewrite forallb_forall in Hall. apply Hall. by apply list_elem_of_In. }
  pose proof (code_bound c).
  unfold not_in in IH.
  change (negb (Ascii.eqb "@" (hex_digit (code c / 16))) && (negb (Ascii.eqb "@" (hex_digit (code c mod 16))) &&
    str_forallb (fun d => negb (Ascii.eqb "@" d)) (hexdigest d)) = true).
  rewrite !Hhex, IH; [done|apply N.mod_lt; lia|apply N.Div0.div_lt_upper_bound; lia].
Qed.

Lemma mask_shape w key :
  exists h, mask_email (Some w) false key = String "[" ("pii" +:+ String ":" (h +:+ String "]" "")) /\
    not_in "@" h /\ (String.length h <= 8)%nat.
Proof. eexists. split; [reflexivity|]. split; [apply hexdigest_no_at|apply str_take_length]. Qed.

Lemma redacted_no_email key s w : is_email w -> ~ occurs w (redact_text s false key).
Proof.
  intros Hw. remember (String.length s) as n eqn:Hn. revert s Hn.
  induction (lt_wf n) as [n _ IH]; intros s -> Ho.
  destruct (redact_text_cases false key s) as [[E Hno]|(gap & u & r & Hs & Hu & E & Hno)]; rewrite E in Ho.
  { by apply (Hno w). }
  destruct (mask_shape u key) as (h & Em & Hh & _). rewrite Em, (str_app_cons "["), str_app_assoc, (str_app_cons ":"), str_app_assoc, (str_app_cons "]") in Ho.
  apply occurs_around in Ho as [Ho|Ho]; [by apply (Hno w)| |by apply (email_not_in "[")].
  apply occurs_around in Ho as [Ho|Ho]; [by apply (email_at_sign w _ Hw Ho)| |by apply (email_not_in ":")].
  apply occurs_around in Ho as [Ho|Ho]; [by apply (email_at_sign w _ Hw Ho)| |by apply (email_not_in "]")].
  rewrite str_app_nil_l in Ho.
  apply (IH (String.length r)) in Ho; [done| |done].
  rewrite Hs, !str_app_length. destruct u; [by destruct Hu as ([] & ? & ? & ? & ? & _)|simpl; lia].
Qed.

Lemma redact_text_id log_pii key s :
  log_pii = true \/ (forall w, is_email w -> ~ occurs w s) -> redact_text s log_pii key = s.
Proof.
  intros Hs. remember (String.length s) as n eqn:Hn. revert s Hs Hn.
  induction (lt_wf n) as [n _ IH]; intros s Hs ->.
  destruct (redact_text_cases log_pii key s) as [[E _]|(gap & u & r & -> & Hu & E & _)]; [done|].
  destruct Hs as [->|Hno]; [|destruct (Hno u Hu); by exists gap, r].
  rewrite E. change (mask_email (Some u) true key) with u. do 2 f_equal.
  apply (IH (String.length r)); [|by left|done].
  rewrite !str_app_length. destruct u; [by destruct Hu as ([] & ? & ? & ? & ? & _)|simpl; lia].
Qed.

Lemma email_length w : is_email w -> (6 <= String.length w)%nat.
Proof.
  intros (l & g & gs & t & -> & (_ & Hl & _)%is_runP & (_ & Hg & _)%is_runP & _ & _ & (_ & Ht & _)%is_runP).
  rewrite !str_app_length. simpl. rewrite str_app_length. simpl. rewrite str_app_length. lia.
Qed.

(** A pseudonym is at most 14 characters, an address at least 6. *)
Lemma redact_text_length log_pii key s :
  (6 * String.length (redact_text s log_pii key) <= 14 * String.length s)%nat.
Proof.
  remember (String.length s) as n eqn:Hn. revert s Hn.
  induction (lt_wf n) as [n _ IH]; intros s ->.
  destruct (redact_text_cases log_pii key s) as [[-> _]|(gap & u & r & -> & Hu & -> & _)]; [lia|].
  pose proof (email_length u Hu). rewrite !str_app_length.
  assert (String.length r < String.length (gap +:+ u +:+ r))%nat as Hr by (rewrite !str_app_length; lia).
  specialize (IH _ Hr r eq_refl).
  assert (6 * String.length (mask_email (Some u) log_pii key) <= 14 * String.length u)%nat; [|lia].
  destruct log_pii; [simpl; lia|]. destruct (mask_shape u key) as (h & -> & _ & Hh).
  rewrite str_app_cons. simpl. rewrite !str_app_length. simpl. lia.
Qed.

(** C31: with [SSF_LOG_PII] off, [redact_text] leaves no address of the declared
    pattern in the text it returns - neither one of the original nor one
    formed across a pseudonym - and it changes nothing but addresses: a text
    without one, and any text with [SSF_LOG_PII] on, is returned as it is. *)
Theorem redact_text_hides_emails key s :
  (forall w, is_email w -> ~ occurs w (redact_text s false key)) /\
  ((forall w, is_email w -> ~ occurs w s) -> redact_text s false key = s) /\
  redact_text s true key = s.
Proof.
  split; [intros w; apply redacted_no_email|]. split; [intros Hno|]; apply redact_text_id; auto.
Qed.

(** ** Log previews *)

(** The names of fields that hold credentials, in any letter case. *)
Definition secret_name (k : string) : Prop :=
  lower k ∈ ["access_token"; "refresh_token"; "token"; "client_secret"; "authorization"; "secret"; "id_token"].

Lemma secret_name_sensitive k : secret_name k -> sensitive k = true.
Proof. unfold secret_name, sensitive, _SENSITIVE_KEYS. by rewrite str_mem_elem. Qed.

(** Two documents that differ only in values under such names. *)
Inductive low_eq : json -> json -> Prop :=
| low_eq_refl v : low_eq v v
| low_eq_arr l l' : Forall2 low_eq l l' -> low_eq (JArr l) (JArr l')
| low_eq_obj d d' :
    Forall2 (fun kv kv' => kv.1 = kv'.1 /\ (secret_name kv.1 \/ low_eq kv.2 kv'.2)) d d' ->
    low_eq (JObj d) (JObj d').

Lemma sanitize_low_eq log_pii key v : forall v', low_eq v v' -> _sanitize log_pii key v = _sanitize log_pii key v'.
Proof.
  induction v as [| | | | |l IH|d IH] using json_ind'; intros v' Hv; inversion Hv as [|? ? Hl|? ? Hl]; subst; try done.
  - simpl. f_equal. clear Hv. induction Hl as [|x x' l l' Hx Hl IHl]; [done|].
    apply Forall_cons in IH as [Hi IH]. simpl. by rewrite (Hi x'), IHl.
  - simpl. f_equal. clear Hv. induction Hl as [|[k x] [k' x'] l l' [Hk Hx] Hl IHl]; [done|].
    apply Forall_cons in IH as [Hi IH]. simpl in *. rewrite IHl by done. subst k'. f_equal.
    destruct Hx as [->%secret_name_sensitive|Hx]; [done|]. by rewrite (Hi x').
Qed.

(** C30: for error bodies whose text, cut to the first [limit] characters (512
    by default), still parses as JSON, the preview does not depend on the
    secrets: two such responses whose cut documents differ only in values
    under [access_token], [refresh_token], [client_secret] and the other
    sensitive keys (in any letter case, at any depth, whatever the values) are
    logged alike.  A body that is longer than [limit] is cut before it is
    parsed and as a rule no longer parses: it is then treated as free text, in
    which only addresses are replaced, and for it the claim does not hold
    ([Example.preview_of_long_body_shows_secret]). *)
Theorem preview_hides_secrets r r' log_pii key limit v v' :
  loads (str_take limit (rs_text r)) = Ok v -> loads (str_take limit (rs_text r')) = Ok v' -> low_eq v v' ->
  safe_response_body_text r log_pii key limit = safe_response_body_text r' log_pii key limit.
Proof.
  intros Hv Hv' Hlow. unfold safe_response_body_text. by rewrite Hv, Hv', (sanitize_low_eq _ _ v v').
Qed.

(** The preview is bounded, and a body that is not JSON shows no address. *)
Theorem preview_bounded r log_pii key limit t :
  safe_response_body_text r log_pii key limit = Ok t ->
  (6 * String.length t <= 14 * limit)%nat /\
  (log_pii = false -> loads (str_take limit (rs_text r)) = Err JSONDecodeError ->
   forall w, is_email w -> ~ occurs w t).
Proof.
  unfold safe_response_body_text. pose proof (str_take_length limit (rs_text r)) as Hlen.
  destruct (loads (str_take limit (rs_text r))) as [v|[]]; intros E; inv_ok; split; try done.
  - pose proof (str_take_length limit (dumps Spaced (sorted_json (_sanitize log_pii key v)))). lia.
  - pose proof (redact_text_length log_pii key (str_take limit (rs_text r))). lia.
  - intros -> _ w. apply redacted_no_email.
Qed.
End redaction.

(** ** Log lines cannot be forged *)

(** A value interpolated into a log line after [sanitize_for_log] holds no
    control character - no line break can be smuggled in - and is bounded;
    a short string without control characters is logged as it is. *)
Theorem sanitize_for_log_safe (value : json) max_len :
  (4 <= max_len)%nat ->
  str_forallb (fun c => negb (control_char c)) (sanitize_for_log value max_len) = true /\
  (String.length (sanitize_for_log value max_len) <= max_len + 14)%nat /\
  (forall s, value = JStr s -> str_forallb (fun c => negb (control_char c)) s = true ->
     (String.length s <= max_len)%nat -> sanitize_for_log value max_len = s).
Proof.
  intros Hmax. set (clean := fun c => negb (control_char c)).
  assert (forall s, let t := str_filter clean s in
    let out := if (max_len <? String.length t)%nat then str_take max_len t +:+ "...[truncated]" else t in
    str_forallb clean out = true /\ (String.length out <= max_len + 14)%nat) as Hcap.
  { intros s t out. pose proof (str_filter_forallb clean s) as Hf. pose proof (str_take_length max_len t) as Hl.
    unfold out. destruct (Nat.ltb_spec max_len (String.length t)); [|split; [done|lia]].
    rewrite str_forallb_app, str_app_length, str_take_forallb by done. split; [done|].
    change (String.length "...[truncated]") with 14%nat. lia. }
  split; [|split].
  - destruct value; [done|apply (proj1 (Hcap _))..].
  - destruct value; [simpl; lia|apply (proj2 (Hcap _))..].
  - intros s -> Hs Hlen. unfold sanitize_for_log. simpl py_str.
    assert (str_filter clean s = s) as E.
    { clear Hlen. induction s as [|c s IH]; simpl in *; [done|]. apply andb_prop in Hs as [-> Hs]. by rewrite IH. }
    fold clean. rewrite E. destruct (Nat.ltb_spec max_len (String.length s)); [lia|done].
Qed.

Lemma sanitize_for_log_safe_witness :
  str_forallb (fun c => negb (control_char c)) (sanitize_for_log (JStr "aud") 200) = true /\
  (String.length (sanitize_for_log (JStr "aud") 200) <= 200 + 14)%nat /\
  (forall s, JStr "aud" = JStr s -> str_forallb (fun c => negb (control_char c)) s = true ->
     (String.length s <= 200)%nat -> sanitize_for_log (JStr "aud") 200 = s).
Proof. apply (sanitize_for_log_safe (JStr "aud") 200). lia. Defined.

(** ** Examples *)

Module Example.
Import Crypto.Toy.

Definition response_of (v : json) : Response :=
  let body := dumps Compact v in
  {| rs_status := 401; rs_content := body; rs_text := body; rs_json := Ok v; rs_headers := [] |}.

Definition token_error (secret : string) (pad : nat) : json :=
  JObj [("detail", JStr ("user a.b@example.com unknown" +:+ Nat.iter pad (String "x") ""));
        ("Access_Token", JStr secret)].

Lemma preview_hides_secrets_witness :
  safe_response_body_text (response_of (token_error "s1" 0)) false "key" 512 =
  safe_response_body_text (response_of (token_error "s2" 0)) false "key" 512.
Proof.
  apply (preview_hides_secrets _ _ false "key" 512 (token_error "s1" 0) (token_error "s2" 0)); [vm_compute; reflexivity..|].
  apply low_eq_obj. constructor; [|constructor; [|constructor]]; (split; [reflexivity|]).
  - right. apply low_eq_refl.
  - left. vm_compute. apply str_mem_elem; reflexivity.
Defined.

(** The body is cut before it is parsed: when the secret lies within the first
    512 characters of a longer document, the cut text is not JSON and is
    shown, with nothing but addresses replaced. *)
Example preview_of_long_body_shows_secret :
  let early := JObj [("access_token", JStr "s3cr3t"); ("detail", JStr (Nat.iter 600 (String "x") ""))] in
  loads (dumps Compact early) = Ok early /\
  (str_in "s3cr3t" <$> safe_response_body_text (response_of early) false "key" 512) = Ok true.
Proof. split; vm_compute; reflexivity. Qed.

(** Only values are redacted: an address that is a key is shown. *)
Example preview_shows_address_in_key :
  safe_response_body_text (response_of (JObj [("a.b@example.com", JStr "a.b@example.com")])) false "key" 512 =
  Ok ("{" +:+ String dquote "a.b@example.com" +:+ String dquote (": " +:+ String dquote
      (mask_email (Some "a.b@example.com") false "key" +:+ String dquote "}"))).
Proof. vm_compute. reflexivity. Qed.
End Example.
