(* ===== verification/Discovery.v ===== *)
(** * Discovery and the HTTP frame ([app/routes/root.py], [wellknown.py], [jwks.py], [app/main.py])

    The public documents, the answer to unmatched routes, and the two
    middlewares of the program.  Starlette's header mapping is the interface
    [Headers]. *)
From Stdlib Require Import ZArith Lia Ascii String.
From stdpp Require Import base option list strings sets.
From S2P Require Import Prelude PyStr PyVal Config Crypto World.

Open Scope string_scope.

(** ** [html.escape(s)] of the Standard Library *)

Definition escape_char (c : ascii) : string :=
  if Ascii.eqb c "&" then "&amp;"
  else if Ascii.eqb c "<" then "&lt;"
  else if Ascii.eqb c ">" then "&gt;"
  else if Ascii.eqb c dquote then "&quot;"
  else if Ascii.eqb c squote then "&#x27;"
  else String c "".

Fixpoint escape (s : string) : string :=
  match s with "" => "" | String c t => escape_char c +:+ escape t end.

(** ** [root.py] *)

Definition SERVICE_NAME : string := "SSF Transmitter".
Definition DISCOVERY_PATH : string := "/.well-known/ssf-configuration".

(** The [Accept] header, empty when absent *)
Definition wants_html (accept : option string) : bool :=
  let accept := default "" accept in
  if str_in "application/json" accept && negb (str_in "text/html" accept) then false
  else str_in "text/html" accept.

(** [os.getenv("APP_VERSION", "dev")] *)
Definition app_version (app_version_env : option string) : string := default "dev" app_version_env.

Definition discovery_payload (version_env : option string) : json :=
  JObj [("service", JStr SERVICE_NAME); ("version", JStr (app_version version_env)); ("discovery", JStr DISCOVERY_PATH)].

Definition not_found_payload (path : string) : json :=
  JObj [("error", JStr "not_found"); ("path", JStr path); ("hint", JStr DISCOVERY_PATH)].

(** Starlette's exception; a detail need not be a string. *)
Record StarletteHTTPException := {
  exc_status_code : Z;
  exc_detail : json;
  exc_headers : option (list (string * string));
}.

Definition is_unmatched_route (exc : StarletteHTTPException) : bool :=
  (exc_status_code exc =? 404)%Z && py_eq (exc_detail exc) (JStr "Not Found").

Definition exception_headers (exc : StarletteHTTPException) : option (list (string * string)) := exc_headers exc.

Definition nl : string := String (ascii_of_N 10) "".
Fixpoint lines (l : list string) : string :=
  match l with [] => "" | x :: t => x +:+ nl +:+ lines t end.

(** An attribute value in double quotes *)
Definition attr (v : string) : string := String dquote (v +:+ String dquote "").

Definition page_head (title : string) : string :=
  lines ["<!DOCTYPE html>"; "<html lang=" +:+ attr "en" +:+ ">"; "<head>";
         "  <meta charset=" +:+ attr "utf-8" +:+ ">"; "  <title>" +:+ title +:+ "</title>";
         "</head>"; "<body>"].

Definition discovery_line : string :=
  let discovery := escape DISCOVERY_PATH in
  "  <p>SSF discovery: <a href=" +:+ attr discovery +:+ ">" +:+ discovery +:+ "</a></p>".

Definition page_end : string := lines [discovery_line; "</body>"; "</html>"].

(** A page is the UTF-8 bytes that are sent: the dash of the second title has
    no code point below 256. *)
Definition _discovery_html (version_env : option string) : string :=
  page_head SERVICE_NAME +:+
  "  <h1>" +:+ SERVICE_NAME +:+ "</h1>" +:+ nl +:+
  "  <p>Version " +:+ utf8_encode (escape (app_version version_env)) +:+ "</p>" +:+ nl +:+ page_end.

Definition em_dash : string :=
  String (ascii_of_N 226) (String (ascii_of_N 128) (String (ascii_of_N 148) "")).

Definition not_found_before : string :=
  page_head ("Not Found " +:+ em_dash +:+ " " +:+ SERVICE_NAME) +:+
  "  <h1>Not Found</h1>" +:+ nl +:+ "  <p>No route for <code>".
Definition not_found_after : string := "</code>.</p>" +:+ nl +:+ page_end.

Definition _not_found_html (path : string) : string :=
  not_found_before +:+ utf8_encode (escape path) +:+ not_found_after.

Inductive PageContent :=
| HTMLContent (bytes : string)
| JSONContent (v : json).

Record Reply := {
  rp_status : Z;
  rp_content : PageContent;
  rp_headers : option (list (string * string));
}.

(** What a route handler gives FastAPI to send. *)
Inductive answer :=
| Page (r : Reply)
| Empty (status_code : Z)          (* [Response(status_code=...)] *)
| Redirect (url : string).         (* [RedirectResponse], 307 *)

Definition json_answer (status_code : Z) (v : json) : answer :=
  Page {| rp_status := status_code; rp_content := JSONContent v; rp_headers := None |}.

Definition answer_status (a : answer) : Z :=
  match a with Page r => rp_status r | Empty code => code | Redirect _ => 307 end.

Definition service_root (accept version_env : option string) : Reply :=
  {| rp_status := 200;
     rp_content := if wants_html accept then HTMLContent (_discovery_html version_env)
                   else JSONContent (discovery_payload version_env);
     rp_headers := None |}.

(** [path] is [request.url.path]. *)
Definition http_exception_handler (accept : option string) (path : string) (exc : StarletteHTTPException) : Reply :=
  let headers := exception_headers exc in
  if is_unmatched_route exc then
    if wants_html accept
    then {| rp_status := 404; rp_content := HTMLContent (_not_found_html path); rp_headers := headers |}
    else {| rp_status := 404; rp_content := JSONContent (not_found_payload path); rp_headers := headers |}
  else
    {| rp_status := exc_status_code exc;
       rp_content := JSONContent (JObj [("detail", exc_detail exc)]);
       rp_headers := headers |}.

(** ** [wellknown.py] and [jwks.py] *)

Definition ssf_configuration (settings : Settings) : json :=
  let url p := JStr (public_url settings p) in
  JObj [ ("issuer", JStr (ssf_issuer settings));
         ("jwks_uri", url "/jwks.json");
         ("delivery_methods_supported", JArr [JStr "urn:ietf:rfc:8935"]);
         ("configuration_endpoint", url "/ssf/streams");
         ("add_subject_endpoint", url "/ssf/streams/subjects:add");
         ("remove_subject_endpoint", url "/ssf/streams/subjects:remove");
         ("status_endpoint", url "/ssf/status");
         ("verification_endpoint", url "/ssf/verification");
         ("authorization_schemes", JArr [JObj [("spec_urn", JStr "urn:ietf:rfc:6750")]]);
         ("critical_subject_members", JArr []);
         ("spec_version", JStr "1_0") ].

Definition jwks (ks : KeyStore) : result json := load_jwks ks.

(** ** What the pages show *)

(** The entities an HTML parser replaces in text and in attribute values. *)
Definition entities : list (string * ascii) :=
  [("amp;", "&"%char); ("lt;", "<"%char); ("gt;", ">"%char); ("quot;", dquote); ("#x27;", squote)].

Definition entity (s : string) : option (string * ascii) := List.find (fun e => startswith (fst e) s) entities.

(** Reference: the text a browser displays for [s]; [skip] characters belong
    to an entity already replaced. *)
Fixpoint displayed (skip : nat) (s : string) : string :=
  match s with
  | "" => ""
  | String c t =>
      match skip with
      | S skip' => displayed skip' t
      | O => match (if Ascii.eqb c "&" then entity t else None) with
             | Some (e, d) => String d (displayed (String.length e) t)
             | None => String c (displayed O t)
             end
      end
  end.

(** No tag, attribute or comment can start or end in [s]. *)
Definition inert (s : string) : bool :=
  str_forallb (fun c => negb (existsb (Ascii.eqb c) ["<"; ">"; dquote; squote]%char)) s.

Lemma escape_char_inert c : inert (escape_char c) = true.
Proof. by_all_ascii (fun c => inert (escape_char c)) c. Qed.

Lemma inert_app s t : inert (s +:+ t) = inert s && inert t.
Proof. apply str_forallb_app. Qed.

Lemma escape_inert s : inert (escape s) = true.
Proof. induction s as [|c s IH]; [done|]. simpl. by rewrite inert_app, escape_char_inert. Qed.

Lemma utf8_inert s : inert s = true -> inert (utf8_encode s) = true.
Proof.
  induction s as [|c s IH]; [done|]. change (inert (String c s)) with (inert (String c "" +:+ s)).
  rewrite inert_app. intros [Hc Hs]%andb_prop. specialize (IH Hs).
  change (utf8_encode (String c s)) with
    (if (code c <? 128)%N then String c (utf8_encode s)
     else String (ascii_of_N (192 + code c / 64)) (String (ascii_of_N (128 + code c mod 64)) (utf8_encode s))).
  destruct (code c <? 128)%N.
  - change (inert (String c "" +:+ utf8_encode s) = true). by rewrite inert_app, Hc.
  - change (inert (String (ascii_of_N (192 + code c / 64)) (String (ascii_of_N (128 + code c mod 64)) "") +:+ utf8_encode s) = true).
    rewrite inert_app, IH, andb_true_r.
    by_all_ascii (fun c => inert (String (ascii_of_N (192 + code c / 64)) (String (ascii_of_N (128 + code c mod 64)) ""))) c.
Qed.

Lemma displayed_skip e s : displayed (String.length e) (e +:+ s) = displayed O s.
Proof. induction e as [|c e IH]; [done|]. rewrite str_app_cons. apply IH. Qed.

Lemma displayed_entity e d s : (e, d) ∈ entities -> displayed O (String "&" (e +:+ s)) = String d (displayed O s).
Proof.
  intros Hin.
  assert (entity (e +:+ s) = Some (e, d)) as He.
  { unfold entity. repeat (apply elem_of_cons in Hin as [[= -> ->]|Hin]; [destruct s; reflexivity|]). by apply elem_of_nil in Hin. }
  cbn [displayed]. rewrite Ascii.eqb_refl, He. by rewrite displayed_skip.
Qed.

Lemma displayed_escape_char c s : displayed O (escape_char c +:+ s) = String c (displayed O s).
Proof.
  unfold escape_char.
  destruct (Ascii.eqb_spec c "&") as [->|Hc]; [apply (displayed_entity "amp;"); set_solver|].
  destruct (Ascii.eqb_spec c "<") as [->|?]; [apply (displayed_entity "lt;"); set_solver|].
  destruct (Ascii.eqb_spec c ">") as [->|?]; [apply (displayed_entity "gt;"); set_solver|].
  destruct (Ascii.eqb_spec c dquote) as [->|?]; [apply (displayed_entity "quot;"); set_solver|].
  destruct (Ascii.eqb_spec c squote) as [->|?]; [apply (displayed_entity "#x27;"); set_solver|].
  change (displayed O (String c s) = String c (displayed O s)). cbn [displayed].
  by destruct (Ascii.eqb_spec c "&").
Qed.

Lemma displayed_escape s : displayed O (escape s) = s.
Proof. induction s as [|c s IH]; [done|]. cbn [escape]. by rewrite displayed_escape_char, IH. Qed.

(** The 404 page reflects the requested path without letting it change the
    page: whatever the path, the page is the same text before and after an
    inert piece - no angle bracket, no quote - which a browser that decodes
    UTF-8 and entities shows as exactly that path. *)
Theorem not_found_page_safe accept path exc :
  is_unmatched_route exc = true -> wants_html accept = true ->
  exists shown text,
    http_exception_handler accept path exc =
      {| rp_status := 404;
         rp_content := HTMLContent (not_found_before +:+ shown +:+ not_found_after);
         rp_headers := exc_headers exc |} /\
    inert shown = true /\ utf8_decode shown = Some text /\ displayed O text = path.
Proof.
  intros Hexc Hhtml. exists (utf8_encode (escape path)), (escape path).
  unfold http_exception_handler. rewrite Hexc, Hhtml. split; [done|].
  split; [apply utf8_inert, escape_inert|]. split; [apply utf8_roundtrip|apply displayed_escape].
Qed.

Lemma not_found_page_safe_witness :
  let exc := {| exc_status_code := 404; exc_detail := JStr "Not Found"; exc_headers := None |} in
  exists shown text,
    http_exception_handler (Some "text/html,*/*") "/<script>" exc =
      {| rp_status := 404;
         rp_content := HTMLContent (not_found_before +:+ shown +:+ not_found_after);
         rp_headers := None |} /\
    inert shown = true /\ utf8_decode shown = Some text /\ displayed O text = "/<script>".
Proof.
  apply (not_found_page_safe (Some "text/html,*/*") "/<script>"
    {| exc_status_code := 404; exc_detail := JStr "Not Found"; exc_headers := None |}); vm_compute; reflexivity.
Defined.

(** ** Middlewares of [main.py] *)

(** [response.headers]: a mapping whose names ignore case. *)
Class Headers := {
  headers : Type;
  hget : string -> headers -> option string;
  hset : string -> string -> headers -> headers;
}.

Class HeadersLaws `{Headers} := {
  hget_hset k v h k' : hget k' (hset k v h) = if String.eqb (lower k) (lower k') then Some v else hget k' h;
}.

(** The context variable and the rest of the application's state. *)
Record Ctx (S : Type) := { request_id_var : string; ctx_state : S }.
Arguments request_id_var {S} c.
Arguments ctx_state {S} c.

Definition put_request_id {S} (v : string) (c : Ctx S) : Ctx S := {| request_id_var := v; ctx_state := ctx_state c |}.

#[export] Instance ctx_lens S : Lens (Ctx S) S :=
  {| lget := ctx_state; lset s c := {| request_id_var := request_id_var c; ctx_state := s |} |}.
#[export] Instance ctx_lens_laws S : LensLaws (Ctx S) S.
Proof. split; [done|by intros []|done]. Qed.

Section middleware.
Context `{Headers}.

Record HttpResponse := { hr_status : Z; hr_headers : headers; hr_body : string }.

Definition set_header (k v : string) (r : HttpResponse) : HttpResponse :=
  {| hr_status := hr_status r; hr_headers := hset k v (hr_headers r); hr_body := hr_body r |}.

Context {S : Type} `{Env} `{Lens S World}.

(** [m] with a [finally] block [f] *)
Definition finallyM {T A} (m : M T A) (f : T -> T) : M T A := fun s => let '(r, s') := m s in (r, f s').

(** [RequestIDMiddleware.dispatch]; [request_id] is the request's header. *)
Definition request_id_dispatch (request_id : option string) (call_next : M (Ctx S) HttpResponse) : M (Ctx S) HttpResponse :=
  request_id ← (if opt_false request_id
                then uuid ← (zoom (zoom uuidM : M S string) : M (Ctx S) string); mret (str_take 8 uuid)
                else mret (default "" request_id));
  token ← (fun c => (Ok (request_id_var c), c) : result string * Ctx S);
  _ ← modifyM (put_request_id request_id);
  response ← finallyM call_next (put_request_id token);
  mret (set_header "X-Request-ID" request_id response).

Definition docs_html_paths : list string := ["/docs"; "/redoc"; "/docs/oauth2-redirect"].

Definition csp : string := "default-src 'none'; style-src 'unsafe-inline'; frame-ancestors 'none'".

(** [SecurityHeadersMiddleware.dispatch] *)
Definition security_headers_dispatch (path : string) (call_next : M (Ctx S) HttpResponse) : M (Ctx S) HttpResponse :=
  response ← call_next;
  let response := set_header "X-Content-Type-Options" "nosniff" response in
  let response := set_header "X-Frame-Options" "DENY" response in
  let response := set_header "Referrer-Policy" "no-referrer" response in
  let response := set_header "Cache-Control" "no-store" response in
  let content_type := default "" (hget "content-type" (hr_headers response)) in
  if str_in "text/html" content_type && negb (str_mem path docs_html_paths)
  then mret (set_header "Content-Security-Policy" csp response)
  else mret response.

(** The order of [create_app]: [inner] is the rate limiter and the routes. *)
Definition app_stack (path : string) (request_id : option string) (inner : M (Ctx S) HttpResponse) : M (Ctx S) HttpResponse :=
  security_headers_dispatch path (request_id_dispatch request_id inner).

Context `{!HeadersLaws}.

(** The identifier a request runs under. *)
Definition request_id_of (request_id : option string) (s : S) : string :=
  if opt_false request_id then str_take 8 (env_uuid (w_tick (lget s))) else default "" request_id.

(** The state the routes start from. *)
Definition entered (request_id : option string) (c : Ctx S) : Ctx S :=
  {| request_id_var := request_id_of request_id (ctx_state c);
     ctx_state := if opt_false request_id then snd ((zoom uuidM : M S string) (ctx_state c)) else ctx_state c |}.

Lemma request_id_dispatch_run request_id inner c :
  request_id_dispatch request_id inner c =
  let '(r, c') := inner (entered request_id c) in
  (set_header "X-Request-ID" (request_id_of request_id (ctx_state c)) <$> r, put_request_id (request_id_var c) c').
Proof.
  unfold request_id_dispatch, entered, request_id_of, finallyM.
  destruct (opt_false request_id) eqn:E; unfold mbind, M_bind, modifyM; cbn.
  - unfold zoom. cbn. destruct (inner _) as [[r|e] c']; done.
  - destruct c as [v s]. unfold put_request_id. cbn. destruct (inner _) as [[r|e] c']; done.
Qed.

Definition security_headers : list (string * string) :=
  [("X-Content-Type-Options", "nosniff"); ("X-Frame-Options", "DENY");
   ("Referrer-Policy", "no-referrer"); ("Cache-Control", "no-store")].

Definition is_html (r : HttpResponse) : bool := str_in "text/html" (default "" (hget "content-type" (hr_headers r))).

Definition set_all (l : list (string * string)) (r : HttpResponse) : HttpResponse :=
  foldr (fun kv r => set_header kv.1 kv.2 r) r l.

(** The last one set wins; setting others changes nothing. *)
Lemma hget_set_all k l r :
  hget k (hr_headers (set_all l r)) =
  match List.find (fun kv => String.eqb (lower kv.1) (lower k)) l with
  | Some kv => Some kv.2
  | None => hget k (hr_headers r)
  end.
Proof.
  induction l as [|[k' v] l IH]; [done|]. simpl. rewrite hget_hset. by destruct (String.eqb (lower k') (lower k)).
Qed.

Lemma set_all_same l r : hr_status (set_all l r) = hr_status r /\ hr_body (set_all l r) = hr_body r.
Proof. induction l as [|kv l IH]; [done|]. exact IH. Qed.

(** What the two middlewares add to a response. *)
Definition framed (path id : string) (r : HttpResponse) : list (string * string) :=
  ((if is_html r && negb (str_mem path docs_html_paths) then [("Content-Security-Policy", csp)] else [])
   ++ rev security_headers ++ [("X-Request-ID", id)])%list.

Lemma app_stack_run path request_id inner c :
  app_stack path request_id inner c =
  let id := request_id_of request_id (ctx_state c) in
  let '(r, c') := inner (entered request_id c) in
  ((fun r => set_all (framed path id r) r) <$> r, put_request_id (request_id_var c) c').
Proof.
  unfold app_stack, security_headers_dispatch, mbind at 1, M_bind. rewrite request_id_dispatch_run. cbv zeta.
  destruct (inner (entered request_id c)) as [[r|e] c']; [|done].
  cbn [fmap result_map]. set (id := request_id_of request_id (ctx_state c)).
  unfold framed, is_html.
  assert (hget "content-type" (hr_headers
    (set_header "Cache-Control" "no-store" (set_header "Referrer-Policy" "no-referrer"
      (set_header "X-Frame-Options" "DENY" (set_header "X-Content-Type-Options" "nosniff"
        (set_header "X-Request-ID" id r)))))) = hget "content-type" (hr_headers r)) as ->
    by (exact (hget_set_all "content-type" (rev security_headers ++ [("X-Request-ID", id)])%list r)).
  by destruct (str_in "text/html" _ && _).
Qed.

Lemma framed_headers path id r :
  Forall (fun kv => hget kv.1 (hr_headers (set_all (framed path id r) r)) = Some kv.2) (("X-Request-ID", id) :: security_headers).
Proof. unfold framed. repeat constructor; rewrite hget_set_all; by destruct (is_html r && _). Qed.

(** Every answer of the application - of a route, of the rate limiter, or to
    an unmatched path - leaves with the security headers, the identifier the
    request ran under and, when it is an HTML page other than the API
    documentation, the content security policy; status, body and the other
    headers are the ones the routes gave.  An exception passes through, and in
    both cases the context variable has its previous value again. *)
Theorem app_stack_frames_response path request_id inner c :
  let id := request_id_of request_id (ctx_state c) in
  request_id_var (entered request_id c) = id /\
  match inner (entered request_id c) with
  | (Ok resp, c1) => exists r,
      app_stack path request_id inner c = (Ok r, put_request_id (request_id_var c) c1) /\
      hr_status r = hr_status resp /\ hr_body r = hr_body resp /\
      Forall (fun kv => hget kv.1 (hr_headers r) = Some kv.2) (("X-Request-ID", id) :: security_headers) /\
      (is_html resp = true -> str_mem path docs_html_paths = false ->
       hget "Content-Security-Policy" (hr_headers r) = Some csp) /\
      (forall k, str_mem (lower k) (map (fun kv => lower kv.1)
                   (("Content-Security-Policy", csp) :: ("X-Request-ID", id) :: security_headers)) = false ->
       hget k (hr_headers r) = hget k (hr_headers resp))
  | (Err e, c1) => app_stack path request_id inner c = (Err e, put_request_id (request_id_var c) c1)
  end.
Proof.
  intros id. split; [done|]. rewrite app_stack_run. fold id.
  destruct (inner (entered request_id c)) as [[resp|e] c1]; [|done].
  exists (set_all (framed path id resp) resp). split; [done|].
  destruct (set_all_same (framed path id resp) resp) as [-> ->]. do 2 (split; [done|]).
  split; [apply framed_headers|]. unfold framed. split.
  - intros -> ->. rewrite hget_set_all. done.
  - intros k Hk. rewrite hget_set_all.
    match goal with |- context [List.find ?p ?l] => destruct (List.find p l) as [kv|] eqn:E; [exfalso|done] end.
    apply List.find_some in E as [Hin Heq%String.eqb_eq].
    apply not_true_iff_false in Hk. apply Hk. rewrite <- Heq. apply str_mem_elem, list_elem_of_fmap.
    exists kv. split; [done|]. apply list_elem_of_In.
    destruct (is_html resp && _); simpl in *; tauto.
Qed.
End middleware.

(** Headers as an association list, and a route that answers a page. *)
Module Example.

#[local] Instance toy_headers : Headers := {|
  headers := list (string * string);
  hget k h := snd <$> List.find (fun kv => String.eqb (lower (fst kv)) (lower k)) h;
  hset k v h := (k, v) :: h;
|}.
#[local] Instance toy_headers_laws : HeadersLaws.
Proof. split. intros k v h k'. simpl. by destruct (String.eqb (lower k) (lower k')). Qed.
#[local] Instance world_itself : Lens World World := {| lget w := w; lset w _ := w |}.
#[local] Instance silent : Env := {|
  env_now t := 0%Z; env_monotonic t := 0%Z; env_uuid t := "12345678-abcd"; env_entropy t := "";
  env_http t rq := Err HTTPError; env_getaddrinfo t host := Err OSError; env_deadline t := None;
|}.

Definition page : M (Ctx World) HttpResponse :=
  mret {| hr_status := 200; hr_headers := [("Content-Type", "text/html; charset=utf-8")]; hr_body := "<p>hello</p>" |}.
Definition idle_context : Ctx World := {| request_id_var := "-"; ctx_state := start |}.

Lemma app_stack_frames_response_witness :
  exists r c', app_stack "/" None page idle_context = (Ok r, c') /\ request_id_var c' = "-" /\
    hget "x-request-id" (hr_headers r) = Some "12345678" /\ hget "Content-Security-Policy" (hr_headers r) = Some csp.
Proof.
  destruct (app_stack_frames_response "/" None page idle_context) as (_ & r & E & _ & _ & Hid & Hcsp & _).
  exists r, {| request_id_var := "-"; ctx_state := {| w_tick := 1; w_trace := [] |} |}.
  split; [exact E|]. split; [reflexivity|]. split; [exact (Forall_inv Hid)|apply Hcsp; reflexivity].
Defined.
End Example.
