(* ===== verification/Auth.v ===== *)
(** * Management API authentication ([app/auth.py])

    The bearer check of the management endpoints and its sliding-window limit
    on failed attempts.  The limit is compared with a reference that keeps the
    whole history of failures. *)
From Stdlib Require Import ZArith Lia Ascii String Sorting.Sorted.
From stdpp Require Import base option list strings gmap.
From S2P Require Import Prelude PyStr PyVal Config World.

Open Scope string_scope.

Definition _MANAGEMENT_AUTH_FAILURE_LIMIT : Z := 10.
(** 60.0 seconds, in the nanoseconds of the monotonic clock. *)
Definition _MANAGEMENT_AUTH_FAILURE_WINDOW_SECONDS : Z := 60 * 10 ^ 9.

(** [deque(maxlen=_MANAGEMENT_AUTH_FAILURE_LIMIT + 1)], oldest first. *)
Definition maxlen : nat := Z.to_nat (_MANAGEMENT_AUTH_FAILURE_LIMIT + 1).
Definition deque_append (x : Z) (d : list Z) : list Z :=
  let d := (d ++ [x])%list in drop (length d - maxlen) d.

Abbreviation failures := (gmap string (list Z)).

Record Auth := { au_world : World; _management_auth_failures : failures }.

#[export] Instance auth_world_lens : Lens Auth World :=
  {| lget := au_world;
     lset w s := {| au_world := w; _management_auth_failures := _management_auth_failures s |} |}.
#[export] Instance auth_world_laws : LensLaws Auth World.
Proof. split; [done|by intros []|done]. Qed.

(** [request.client.host], when there is one *)
Definition _client_key (client : option string) : string :=
  match client with
  | Some host => if str_true host then host else "unknown-client"
  | None => "unknown-client"
  end.

(** [while attempts and now - attempts[0] >= WINDOW: attempts.popleft()] *)
Fixpoint drop_expired (now : Z) (attempts : list Z) : list Z :=
  match attempts with
  | [] => []
  | t :: rest =>
      if (_MANAGEMENT_AUTH_FAILURE_WINDOW_SECONDS <=? now - t)%Z then drop_expired now rest else attempts
  end.

(** The body of the locked section: the new table, and whether the limit is
    exceeded.  The [defaultdict] access creates a missing entry; popping and
    re-creating an emptied one leaves it empty. *)
Definition record_failure (now : Z) (client_key : string) (table : failures) : bool * failures :=
  let attempts := drop_expired now (default [] (table !! client_key)) in
  let attempts := deque_append now attempts in
  ((_MANAGEMENT_AUTH_FAILURE_LIMIT <? Z.of_nat (length attempts))%Z, <[client_key := attempts]> table).

Definition recordM (now : Z) (client_key : string) : M Auth bool := fun s =>
  let '(exceeded, table) := record_failure now client_key (_management_auth_failures s) in
  (Ok exceeded, {| au_world := au_world s; _management_auth_failures := table |}).

Section auth.
Context `{Env}.
Variable settings : Settings.
(** slowapi's [limiter.enabled] *)
Variable limiter_enabled : bool.

Definition _record_management_auth_failure (client : option string) : M Auth unit :=
  if negb limiter_enabled then mret tt
  else
    now ← (zoom monotonicM : M Auth Z);
    exceeded ← recordM now (_client_key client);
    if exceeded : bool then raiseM (HTTPException 429 "Rate limit exceeded") else mret tt.

Definition require_management_auth (client authorization : option string) : M Auth unit :=
  let header := default "" authorization in
  if negb (str_true header) || negb (startswith "Bearer " header) then
    _ ← _record_management_auth_failure client;
    raiseM (HTTPException 401 "Authorization required")
  else
    let token := removeprefix "Bearer " header in
    if negb (String.eqb (utf8_encode token) (utf8_encode (ssf_management_token settings))) then
      _ ← _record_management_auth_failure client;
      raiseM (HTTPException 403 "Forbidden")
    else mret tt.

(** ** The decision *)

Definition right_header (authorization : option string) : Prop :=
  authorization = Some ("Bearer " +:+ ssf_management_token settings).

Lemma record_outcome client s :
  (fst (_record_management_auth_failure client s) = Ok tt \/
   limiter_enabled = true /\
   fst (_record_management_auth_failure client s) = Err (HTTPException 429 "Rate limit exceeded")).
Proof.
  unfold _record_management_auth_failure. destruct limiter_enabled; cbn [negb]; [|by left].
  unfold mbind, M_bind, zoom, monotonicM, ask, recordM. cbn -[record_failure].
  destruct (record_failure _ (_client_key client) _) as [[|] table]; [right|left]; done.
Qed.

(** A management request is let in exactly when its Authorization header is
    "Bearer " followed by the configured token, and then nothing is recorded;
    any other request is refused with 401 (no bearer header), 403 (wrong token)
    or - only when rate limiting is on - 429. *)
Theorem management_auth_decision client authorization s :
  (right_header authorization -> require_management_auth client authorization s = (Ok tt, s)) /\
  (~ right_header authorization -> exists e, fst (require_management_auth client authorization s) = Err e /\
    (e = HTTPException (if startswith "Bearer " (default "" authorization) then 403 else 401)
           (if startswith "Bearer " (default "" authorization) then "Forbidden" else "Authorization required") \/
     limiter_enabled = true /\ e = HTTPException 429 "Rate limit exceeded")).
Proof.
  unfold right_header, require_management_auth. cbv zeta. split.
  - intros ->. change (default "" (Some ?h)) with h.
    rewrite prefix_app, removeprefix_app, String.eqb_refl. done.
  - intros Hw.
    assert (forall e, exists e', fst ((_ ← _record_management_auth_failure client; raiseM e : M Auth unit) s) = Err e' /\
              (e' = e \/ limiter_enabled = true /\ e' = HTTPException 429 "Rate limit exceeded")) as Hfail.
    { intros e. pose proof (record_outcome client s) as Ho. unfold mbind, M_bind.
      destruct (_record_management_auth_failure client s) as [[[]|e1] s1]; simpl in *; [eauto|].
      destruct Ho as [|[? [= ->]]]; [done|]. eauto. }
    destruct (startswith "Bearer " _) eqn:Hb.
    2:{ rewrite orb_true_r. apply Hfail. }
    assert (str_true (default "" authorization) = true) as ->.
    { by destruct authorization as [[]|]. }
    cbn [negb orb]. destruct (String.eqb_spec (utf8_encode (removeprefix "Bearer " (default "" authorization)))
      (utf8_encode (ssf_management_token settings))) as [He|]; cbn [negb]; [|apply Hfail].
    exfalso. apply Hw. apply utf8_encode_inj in He. apply startswith_app in Hb as Happ.
    destruct authorization as [a|]; [|done]. change (default "" (Some a)) with a in *. rewrite <- He.
    rewrite Happ at 1. f_equal. f_equal. unfold removeprefix. by rewrite Hb.
Qed.

(** A refusal changes nothing but the table of failures. *)
Lemma require_management_auth_trace client authorization s :
  w_trace (au_world (snd (require_management_auth client authorization s))) = w_trace (au_world s).
Proof.
  assert (forall e, w_trace (au_world (snd ((_ ← _record_management_auth_failure client; raiseM e : M Auth unit) s))) =
                    w_trace (au_world s)) as Hfail.
  { intros e. unfold _record_management_auth_failure. destruct limiter_enabled; cbn [negb]; [|done].
    unfold mbind, M_bind, zoom, monotonicM, ask, recordM. cbn -[record_failure].
    by destruct (record_failure _ (_client_key client) _) as [[|] table]. }
  unfold require_management_auth. cbv zeta. destruct (_ || _); [apply Hfail|]. destruct (negb _); [apply Hfail|done].
Qed.

Definition refusals : list exn :=
  [HTTPException 401 "Authorization required"; HTTPException 403 "Forbidden"; HTTPException 429 "Rate limit exceeded"].

Lemma management_auth_refused client authorization s : ~ right_header authorization ->
  exists e s', require_management_auth client authorization s = (Err e, s') /\ e ∈ refusals /\
    w_trace (au_world s') = w_trace (au_world s).
Proof.
  intros Hw. destruct (proj2 (management_auth_decision client authorization s) Hw) as (e & He & Hcase).
  pose proof (require_management_auth_trace client authorization s) as Ht.
  destruct (require_management_auth client authorization s) as [r s']. simpl in He, Ht. subst r.
  exists e, s'. split; [done|]. split; [|done]. unfold refusals.
  destruct Hcase as [->|[_ ->]]; [|set_solver]. destruct (startswith _ _); set_solver.
Qed.
End auth.

(** ** The sliding window *)

Open Scope list_scope.

Definition expired (now t : Z) : Prop := (_MANAGEMENT_AUTH_FAILURE_WINDOW_SECONDS <= now - t)%Z.
#[export] Instance expired_dec now t : Decision (expired now t).
Proof. unfold expired. apply _. Defined.

(** The failures of [key] in the last minute, in a full history. *)
Definition recent (now : Z) (ts : list Z) : list Z := filter (fun t => ~ expired now t) ts.
Definition times (key : string) (hist : list (string * Z)) : list Z :=
  map snd (filter (fun kt => fst kt = key) hist).

(** The table after a history of failures, oldest first. *)
Definition run (hist : list (string * Z)) : failures :=
  fold_left (fun table '(key, t) => snd (record_failure t key table)) hist ∅.

Lemma drop_expired_split now d : StronglySorted Z.le d ->
  exists e, d = (e ++ drop_expired now d)%list /\ Forall (expired now) e /\
    Forall (fun t => ~ expired now t) (drop_expired now d).
Proof.
  induction d as [|t d IH]; intros Hs; simpl; [by exists []|].
  inversion Hs as [|? ? Hd Ht]; subst. destruct (_ <=? _)%Z eqn:E; bool_hyps.
  - destruct (IH Hd) as (e & Hde & He & Hr). exists (t :: e).
    split_and!; [by rewrite Hde at 1|by constructor|done].
  - exists []. split; [done|]. split; [done|]. unfold expired in *. constructor; [lia|].
    eapply Forall_impl; [exact Ht|]. simpl. lia.
Qed.

Lemma recent_app now ts1 ts2 : recent now (ts1 ++ ts2) = (recent now ts1 ++ recent now ts2)%list.
Proof. apply filter_app. Qed.

Lemma recent_none now e : Forall (expired now) e -> recent now e = [].
Proof. intros He. apply filter_none. intros t Ht Hn. rewrite Forall_forall in He. by apply Hn, He. Qed.

Lemma recent_all now d : Forall (fun t => ~ expired now t) d -> recent now d = d.
Proof. intros Hd. apply filter_all. intros t Ht. rewrite Forall_forall in Hd. by apply Hd. Qed.

(** The deque holds the end of the history, and what it has lost is expired
    unless the deque is full. *)
Definition deque_ok (ts d : list Z) : Prop :=
  exists old, ts = (old ++ d)%list /\ (length d <= maxlen)%nat /\
    (length d = maxlen \/ forall now, Forall (fun t => (t <= now)%Z) ts -> Forall (expired now) old).

Lemma expired_earlier now x y : (x <= y)%Z -> expired now y -> expired now x.
Proof. unfold expired. lia. Qed.

Lemma expired_later now now' x : (now <= now')%Z -> expired now x -> expired now' x.
Proof. unfold expired. lia. Qed.

(** What pruning leaves: all the recent failures, or a full deque of them. *)
Lemma drop_expired_ok ts d now : deque_ok ts d -> StronglySorted Z.le ts -> Forall (fun t => (t <= now)%Z) ts ->
  let d' := drop_expired now d in
  exists old, ts = (old ++ d')%list /\ (length d' <= maxlen)%nat /\ recent now d' = d' /\
    (length d' = maxlen \/ Forall (expired now) old).
Proof.
  intros (old & -> & Hl & Hold) Hs Hle. cbv zeta.
  destruct (sorted_le_app _ _ Hs) as (_ & Hd & Hod).
  destruct (drop_expired_split now d Hd) as (e & Hde & He & Hr).
  exists (old ++ e)%list. split_and!.
  - rewrite Hde at 1. by rewrite app_assoc.
  - rewrite Hde, length_app in Hl. lia.
  - by apply recent_all.
  - destruct e as [|x e].
    + simpl in Hde. rewrite <- Hde, app_nil_r. destruct Hold as [|Hold]; [by left|right; by apply Hold].
    + right. apply Forall_app. split; [|done]. apply Forall_forall. intros y Hy.
      apply (expired_earlier now y x); [|by apply Forall_cons in He as [? _]].
      apply Hod; [done|]. rewrite Hde. by left.
Qed.

Lemma deque_append_ok d now : (length d <= maxlen)%nat ->
  length (deque_append now d) = Nat.min maxlen (S (length d)) /\
  deque_append now d = (if decide (length d = maxlen) then drop 1 d else d) ++ [now].
Proof.
  intros Hl. unfold deque_append. cbv zeta. rewrite length_drop, length_app. cbn [length].
  split; [lia|]. destruct (decide _) as [Hfull|Hne].
  - rewrite Hfull. replace (maxlen + 1 - maxlen)%nat with 1%nat by lia. by destruct d.
  - by replace (length d + 1 - maxlen)%nat with 0%nat by lia.
Qed.

Lemma deque_step_ok ts d now : deque_ok ts d -> StronglySorted Z.le ts -> Forall (fun t => (t <= now)%Z) ts ->
  deque_ok (ts ++ [now]) (deque_append now (drop_expired now d)).
Proof.
  intros Hok Hs Hle. destruct (drop_expired_ok ts d now Hok Hs Hle) as (old & Hts & Hl & _ & Hold).
  destruct (deque_append_ok (drop_expired now d) now Hl) as [Hlen ->].
  destruct (decide _) as [Hfull|Hne].
  - destruct (drop_expired now d) as [|x d'] eqn:E; [discriminate Hfull|]. exists (old ++ [x])%list.
    change (drop 1 (x :: d')) with d'. cbn [length] in *. rewrite Hts, <- !app_assoc, length_app. cbn [length].
    split; [done|]. split; [lia|]. left. lia.
  - exists old. rewrite Hts, <- app_assoc. split; [done|]. rewrite length_app. simpl. split; [lia|].
    right. intros now' Hle'. destruct Hold as [|Hold]; [done|]. eapply Forall_impl; [exact Hold|].
    intros x. apply expired_later. rewrite !Forall_app, Forall_singleton in Hle'. apply Hle'.
Qed.

(** The limit is hit exactly when ten recent failures precede. *)
Lemma deque_exceeded ts d now : deque_ok ts d -> StronglySorted Z.le ts -> Forall (fun t => (t <= now)%Z) ts ->
  (_MANAGEMENT_AUTH_FAILURE_LIMIT < Z.of_nat (length (deque_append now (drop_expired now d))))%Z <->
  (10 <= length (recent now ts))%nat.
Proof.
  intros Hok Hs Hle. destruct (drop_expired_ok ts d now Hok Hs Hle) as (old & -> & Hl & Hr & Hold).
  destruct (deque_append_ok (drop_expired now d) now Hl) as [-> _].
  rewrite recent_app, Hr, length_app. unfold _MANAGEMENT_AUTH_FAILURE_LIMIT.
  change maxlen with 11%nat in *. destruct Hold as [Hfull|Hold].
  - rewrite Hfull. simpl. lia.
  - rewrite (recent_none now old Hold). simpl length. lia.
Qed.

Lemma run_app hist k t : run (hist ++ [(k, t)]) = snd (record_failure t k (run hist)).
Proof. unfold run. by rewrite fold_left_app. Qed.

Lemma times_app k hist k' t : times k (hist ++ [(k', t)]) =
  if decide (k' = k) then (times k hist ++ [t])%list else times k hist.
Proof.
  unfold times. rewrite filter_app, map_app, filter_cons, filter_nil. simpl.
  destruct (decide (k' = k)); [done|]. by rewrite app_nil_r.
Qed.

Lemma times_sublist k hist : times k hist `sublist_of` map snd hist.
Proof.
  unfold times. induction hist as [|[k' t] hist IH]; [done|].
  rewrite filter_cons. simpl. destruct (decide (k' = k)); simpl; by constructor.
Qed.

Lemma sorted_sublist (l1 l2 : list Z) : l1 `sublist_of` l2 -> StronglySorted Z.le l2 -> StronglySorted Z.le l1.
Proof.
  induction 1 as [|x l1 l2 Hsub IH|x l1 l2 Hsub IH]; intros Hs; [constructor|..];
    inversion Hs as [|? ? Hs' Hx]; subst; [|by auto].
  constructor; [by auto|]. rewrite Forall_forall in *. intros y Hy. apply Hx.
  by eapply elem_of_sublist.
Qed.

Lemma run_deque_ok hist key : StronglySorted Z.le (map snd hist) ->
  deque_ok (times key hist) (default [] (run hist !! key)).
Proof.
  induction hist as [|[k t] hist IH] using rev_ind; intros Hs.
  - unfold run. cbn [fold_left]. rewrite lookup_empty. exists []. split; [done|]. split; [simpl; lia|]. by right.
  - rewrite map_app in Hs. destruct (sorted_le_app _ _ Hs) as (Hh & _ & Hlast).
    rewrite run_app, times_app. unfold record_failure. simpl. destruct (decide (k = key)) as [<-|Hne].
    + rewrite lookup_insert_eq. apply deque_step_ok; [by apply IH|by eapply sorted_sublist; [apply times_sublist|]|].
      apply Forall_forall. intros x Hx. apply Hlast; [|by left]. eapply elem_of_sublist; [exact Hx|apply times_sublist].
    + rewrite lookup_insert_ne by done. by apply IH.
Qed.

(** C24: the limit on failed management requests is a sliding window: after any
    history of failures, of any clients, a further failed attempt is answered
    429 exactly when the same client made at least ten failed attempts in the
    last 60 seconds - although the table keeps at most eleven per client. *)
Theorem failure_window hist now key :
  StronglySorted Z.le (map snd hist ++ [now])%list ->
  fst (record_failure now key (run hist)) = true <->
  (10 <= length (filter (fun t => (now - t < 60 * 10 ^ 9)%Z) (times key hist)))%nat.
Proof.
  intros Hs. destruct (sorted_le_app _ _ Hs) as (Hh & _ & Hlast).
  unfold record_failure. cbn [fst]. rewrite Z.ltb_lt, deque_exceeded; [|by apply run_deque_ok|..].
  - unfold recent. rewrite (list_filter_iff (fun t => ~ expired now t) (fun t => (now - t < 60 * 10 ^ 9)%Z)); [done|].
    intros t. unfold expired, _MANAGEMENT_AUTH_FAILURE_WINDOW_SECONDS. lia.
  - by eapply sorted_sublist; [apply times_sublist|].
  - apply Forall_forall. intros x Hx. apply Hlast; [|by left]. eapply elem_of_sublist; [exact Hx|apply times_sublist].
Qed.

Module Example.
(** Ten failures in ten seconds, then an eleventh; a minute later the first
    ones no longer count. *)
Definition burst : list (string * Z) :=
  map (fun n => ("10.0.0.9", (Z.of_nat n * 10 ^ 9)%Z)) (seq 0 10).

Example eleventh : fst (record_failure (10 * 10 ^ 9) "10.0.0.9" (run burst)) = true.
Proof. vm_compute. reflexivity. Qed.
Example other_client : fst (record_failure (10 * 10 ^ 9) "10.0.0.8" (run burst)) = false.
Proof. vm_compute. reflexivity. Qed.
Example a_minute_later : fst (record_failure (60 * 10 ^ 9) "10.0.0.9" (run burst)) = false.
Proof. vm_compute. reflexivity. Qed.

Lemma failure_window_witness :
  fst (record_failure (10 * 10 ^ 9) "10.0.0.9" (run burst)) = true <->
  (10 <= length (filter (fun t => (10 * 10 ^ 9 - t < 60 * 10 ^ 9)%Z) (times "10.0.0.9" burst)))%nat.
Proof. apply failure_window. simpl. repeat constructor; lia. Defined.
End Example.
