(* ===== verification/UrlValidation.v ===== *)
(** * SSRF protection ([app/security/url_validation.py])

    Blocked address ranges, unwrapping of IPv6 forms that embed an IPv4
    address, and the validation of receiver URLs. *)
From Stdlib Require Import ZArith Lia Ascii String.
From stdpp Require Import base option list strings.
From S2P Require Import Prelude PyStr PyVal PyNet Config World.

Open Scope string_scope.

Definition _BLOCKED_HOSTNAMES : list string :=
  ["localhost"; "metadata.google.internal"; "169.254.169.254"].

(** [ipaddress.ip_network("a.b.c.d/p")], and an IPv6 network by its first two
    16-bit groups and its low 32 bits. *)
Definition net4 (a b c d p : Z) : ip_network := Net4 (((a * 256 + b) * 256 + c) * 256 + d) p.
Definition net6 (g0 g1 low p : Z) : ip_network := Net6 (Z.shiftl g0 112 + Z.shiftl g1 96 + low) p.

Definition _BLOCKED_NETWORKS : list ip_network :=
  [ net4 0 0 0 0 8; net4 10 0 0 0 8; net4 100 64 0 0 10; net4 127 0 0 0 8;
    net4 169 254 0 0 16; net4 172 16 0 0 12; net4 192 0 0 0 24; net4 192 0 2 0 24;
    net4 192 168 0 0 16; net4 198 18 0 0 15; net4 198 51 100 0 24; net4 203 0 113 0 24;
    net4 224 0 0 0 4; net4 240 0 0 0 4; net4 255 255 255 255 32;
    net6 0 0 1 128; net6 64512 0 0 7; net6 65152 0 0 10; net6 65280 0 0 8 ]%Z.

Definition _IPV4_EMBEDDING_NETWORKS : list ip_network := [ net6 0 0 0 96; net6 100 65435 0 96 ]%Z.

Definition or_else {A} (a b : option A) : option A := match a with Some _ => a | None => b end.

Definition _is_blocked_ip (ip_str : string) : bool :=
  match ip_address ip_str with
  | None => true
  | Some addr =>
      let addr' :=
        match addr with
        | IPv6 n _ =>
            let embedded := or_else (ipv4_mapped n) (or_else (sixtofour n) (teredo_client n)) in
            let embedded :=
              match embedded with
              | None => if existsb (in_network addr) _IPV4_EMBEDDING_NETWORKS
                        then Some (Z.land n 4294967295) else None
              | Some v => Some v
              end in
            match embedded with Some v => IPv4 v | None => addr end
        | IPv4 _ => addr
        end in
      existsb (in_network addr') _BLOCKED_NETWORKS
  end.

Definition safe_hostname (url : string) : string :=
  match urlparse url with
  | Ok p => lower (default "" (pr_hostname p))
  | Err _ => ""
  end.

Definition receiver_host_allowed (url : string) (allowed_hosts : list string) : bool :=
  match allowed_hosts with
  | [] => true
  | _ => str_mem (safe_hostname url) allowed_hosts
  end.

Definition _reject_unsafe_scheme_or_parts (parsed : ParseResult) : result unit :=
  _ ← raise_when (negb (String.eqb (pr_scheme parsed) "https"))
        (ValueError ("endpoint_url scheme must be 'https', got '" +:+ pr_scheme parsed +:+ "'"));
  _ ← raise_when (negb (opt_false (pr_username parsed)) || negb (opt_false (pr_password parsed)))
        (ValueError "endpoint_url must not contain credentials (user:pass@host)");
  raise_when (str_true (pr_fragment parsed)) (ValueError "endpoint_url must not contain a fragment (#)").

Definition _reject_blocked_host_literal (host : string) : result unit :=
  _ ← raise_when (str_mem (lower host) _BLOCKED_HOSTNAMES)
        (ValueError ("endpoint_url host " +:+ repr_str host +:+ " is not allowed"));
  match ip_address host with
  | None => Ok tt
  | Some ip_literal =>
      raise_when (_is_blocked_ip (ip_str ip_literal))
        (ValueError ("endpoint_url host " +:+ repr_str host +:+ " resolves to a blocked IP address"))
  end.

(** The loop over the resolved addresses. *)
Fixpoint check_resolved (host : string) (ips : list string) : result unit :=
  match ips with
  | [] => Ok tt
  | ip :: t =>
      if _is_blocked_ip ip
      then Err (ValueError ("endpoint_url host " +:+ repr_str host +:+ " resolves to blocked IP " +:+ repr_str ip))
      else check_resolved host t
  end.

(** [isinstance(e, OSError)] *)
Definition is_OSError (e : exn) : bool :=
  match e with OSError | TimeoutError => true | _ => false end.

Section url_validation.
Context `{Env}.

Definition _resolve_host (host : string) : M World (list string) :=
  catchM (getaddrinfo host) (fun e => if is_OSError e then Some (mret []) else None).

Definition _reject_blocked_resolved_ips (host : string) : M World (list string) :=
  resolved_ips ← _resolve_host host;
  _ ← liftR (raise_when (match resolved_ips with [] => true | _ => false end)
        (ValueError ("endpoint_url host " +:+ repr_str host +:+ " did not resolve to any IP address")));
  _ ← liftR (check_resolved host resolved_ips);
  mret resolved_ips.

Definition validate_receiver_endpoint_url (url : string) (allowed_hosts : option (list string)) : M World string :=
  _ ← liftR (raise_when (negb (str_true url)) (ValueError "endpoint_url must not be empty"));
  parsed ← liftR (catch (urlparse url) (fun e =>
             Some (Err (ValueError ("endpoint_url is not a valid URL: " +:+
                    match e with ValueError msg => msg | _ => "" end)))));
  _ ← liftR (_reject_unsafe_scheme_or_parts parsed);
  let host := default "" (pr_hostname parsed) in
  _ ← liftR (raise_when (negb (str_true host)) (ValueError "endpoint_url has no host"));
  _ ← liftR (_reject_blocked_host_literal host);
  let allowed := default [] allowed_hosts in
  _ ← liftR (raise_when (negb (receiver_host_allowed url allowed))
        (ValueError ("endpoint_url host " +:+ repr_str host +:+ " is not in SSF_ALLOWED_RECEIVER_HOSTS allowlist")));
  _ ← _reject_blocked_resolved_ips host;
  mret url.
End url_validation.

(** ** Address ranges *)

(** Membership in a prefix is membership in an interval. *)
Lemma in_net4_interval n base p :
  (0 <= p <= 32)%Z -> (base mod 2 ^ (32 - p) = 0)%Z ->
  in_network (IPv4 n) (Net4 base p) = true <-> (base <= n < base + 2 ^ (32 - p))%Z.
Proof.
  intros Hp Hb. unfold in_network. rewrite Z.eqb_eq, !Z.shiftr_div_pow2 by lia.
  assert (0 < 2 ^ (32 - p))%Z by (apply Z.pow_pos_nonneg; lia).
  generalize dependent (2 ^ (32 - p))%Z. intros m Hm Hpos.
  pose proof (Z.div_mod base m ltac:(lia)). pose proof (Z.div_mod n m ltac:(lia)).
  pose proof (Z.mod_pos_bound n m ltac:(lia)). split; intros; nia.
Qed.

(** The IPv4 ranges, as intervals of addresses. *)
Definition ipv4_blocked_range (n : Z) : Prop :=
  (0 <= n < 16777216 (* 0.0.0.0/8 *)
   \/ 167772160 <= n < 184549376 (* 10.0.0.0/8 *)
   \/ 1681915904 <= n < 1686110208 (* 100.64.0.0/10 *)
   \/ 2130706432 <= n < 2147483648 (* 127.0.0.0/8 *)
   \/ 2851995648 <= n < 2852061184 (* 169.254.0.0/16 *)
   \/ 2886729728 <= n < 2887778304 (* 172.16.0.0/12 *)
   \/ 3221225472 <= n < 3221225728 (* 192.0.0.0/24 *)
   \/ 3221225984 <= n < 3221226240 (* 192.0.2.0/24 *)
   \/ 3232235520 <= n < 3232301056 (* 192.168.0.0/16 *)
   \/ 3323068416 <= n < 3323199488 (* 198.18.0.0/15 *)
   \/ 3325256704 <= n < 3325256960 (* 198.51.100.0/24 *)
   \/ 3405803776 <= n < 3405804032 (* 203.0.113.0/24 *)
   \/ 3758096384 <= n < 4294967296 (* 224.0.0.0/4, 240.0.0.0/4 *))%Z.

Definition ipv4_blocked (n : Z) : bool := existsb (in_network (IPv4 n)) _BLOCKED_NETWORKS.

Lemma ipv4_blocked_ranges n : ipv4_blocked n = true <-> ipv4_blocked_range n.
Proof.
  unfold ipv4_blocked, _BLOCKED_NETWORKS, net4, net6. cbn [existsb].
  rewrite !orb_true_iff, !in_net4_interval by (try done; lia). cbn -[Z.add Z.mul].
  unfold ipv4_blocked_range. lia.
Qed.

(** ** Embedded IPv4 addresses *)

(** The ways an IPv6 address can carry the IPv4 address [v]. *)
Inductive embeds : Z -> Z -> Prop :=
| emb_mapped v : embeds (65535 * 2 ^ 32 + v) v
| emb_6to4 v low : (0 <= low < 2 ^ 80)%Z -> embeds (8194 * 2 ^ 112 + (v * 2 ^ 80 + low)) v
| emb_teredo v hi : (0 <= hi < 2 ^ 64)%Z ->
    embeds (536936448 * 2 ^ 96 + (hi * 2 ^ 32 + (2 ^ 32 - 1 - v))) v
| emb_compatible v : embeds v v
| emb_nat64 v : embeds (6619035 * 2 ^ 96 + v) v.

Lemma shiftr_split a r k : (0 <= k -> 0 <= r < 2 ^ k -> Z.shiftr (a * 2 ^ k + r) k = a)%Z.
Proof.
  intros Hk Hr. rewrite Z.shiftr_div_pow2 by done.
  rewrite Z.div_add_l by lia. rewrite Z.div_small by lia. lia.
Qed.

Lemma mod_block a m r : (0 <= r < m -> (a * m + r) mod m = r)%Z.
Proof. intros Hr. rewrite Z.add_comm, Z.mod_add by lia. by apply Z.mod_small. Qed.

Lemma low32 a r : (0 <= r < 2 ^ 32 -> Z.land (a * 2 ^ 32 + r) 4294967295 = r)%Z.
Proof.
  intros Hr. change 4294967295%Z with (Z.ones 32). rewrite Z.land_ones by lia.
  by apply mod_block.
Qed.

Lemma low32_lnot a r : (0 <= r < 2 ^ 32 -> Z.land (Z.lnot (a * 2 ^ 32 + (2 ^ 32 - 1 - r))) 4294967295 = r)%Z.
Proof.
  intros Hr. replace (Z.lnot (a * 2 ^ 32 + (2 ^ 32 - 1 - r)))%Z with ((- a - 1) * 2 ^ 32 + r)%Z
    by (unfold Z.lnot; lia).
  by apply low32.
Qed.

(** A prefix test is an interval test. *)
Lemma shiftr_eqb n k a : (0 <= k)%Z ->
  (Z.shiftr n k =? a)%Z = ((a * 2 ^ k <=? n) && (n <? (a + 1) * 2 ^ k))%Z.
Proof.
  intros Hk. rewrite Z.shiftr_div_pow2 by done.
  assert (0 < 2 ^ k)%Z by (apply Z.pow_pos_nonneg; lia).
  generalize dependent (2 ^ k)%Z. intros m Hm.
  pose proof (Z.div_mod n m ltac:(lia)). pose proof (Z.mod_pos_bound n m ltac:(lia)).
  apply eq_true_iff_eq. rewrite Z.eqb_eq, andb_true_iff, Z.leb_le, Z.ltb_lt. split; intros; nia.
Qed.

Lemma ipv4_mapped_eq n : ipv4_mapped n =
  if (281470681743360 <=? n)%Z && (n <? 281474976710656)%Z then Some (Z.land n 4294967295) else None.
Proof. unfold ipv4_mapped. by rewrite shiftr_eqb by lia. Qed.

Lemma sixtofour_eq n : sixtofour n =
  if (8194 * 2 ^ 112 <=? n)%Z && (n <? 8195 * 2 ^ 112)%Z
  then Some (Z.land (Z.shiftr n 80) 4294967295) else None.
Proof. unfold sixtofour. by rewrite shiftr_eqb by lia. Qed.

Lemma teredo_client_eq n : teredo_client n =
  if (536936448 * 2 ^ 96 <=? n)%Z && (n <? 536936449 * 2 ^ 96)%Z
  then Some (Z.land (Z.lnot n) 4294967295) else None.
Proof. unfold teredo_client. by rewrite shiftr_eqb by lia. Qed.

Lemma embedding_networks_eq n : existsb (in_network (IPv6 n None)) _IPV4_EMBEDDING_NETWORKS =
  ((0 <=? n) && (n <? 2 ^ 32) || (6619035 * 2 ^ 96 <=? n) && (n <? 6619035 * 2 ^ 96 + 2 ^ 32))%Z.
Proof.
  unfold _IPV4_EMBEDDING_NETWORKS, in_network, net6. cbn [existsb]. rewrite !shiftr_eqb by lia.
  rewrite orb_false_r. f_equal.
Qed.

(** The IPv4 address the code unwraps. *)
Definition unwrap6 (n : Z) : option Z :=
  or_else (or_else (ipv4_mapped n) (or_else (sixtofour n) (teredo_client n)))
    (if existsb (in_network (IPv6 n None)) _IPV4_EMBEDDING_NETWORKS
     then Some (Z.land n 4294967295) else None).

Lemma is_blocked_ip6 s n sc : ip_address s = Some (IPv6 n sc) ->
  _is_blocked_ip s =
  match unwrap6 n with
  | Some v => ipv4_blocked v
  | None => existsb (in_network (IPv6 n None)) _BLOCKED_NETWORKS
  end.
Proof.
  unfold _is_blocked_ip, unwrap6. intros ->.
  destruct (or_else (ipv4_mapped n) _); [done|].
  change (existsb (in_network (IPv6 n sc)) ?l) with (existsb (in_network (IPv6 n None)) l).
  by destruct (existsb _ _IPV4_EMBEDDING_NETWORKS).
Qed.

(** Decide an interval test with [lia], on numerals. *)
Ltac interval b :=
  match goal with |- context [andb ?x ?y] => replace (andb x y) with b by lia end; cbn [or_else orb].

Lemma unwrap6_embeds n v : (0 <= v < 2 ^ 32)%Z -> embeds n v -> unwrap6 n = Some v.
Proof.
  intros Hv He. unfold unwrap6.
  rewrite ipv4_mapped_eq, sixtofour_eq, teredo_client_eq, embedding_networks_eq.
  destruct He as [v|v low Hlow|v hi Hhi|v|v].
  - interval true. by rewrite low32.
  - interval false. interval true.
    replace (8194 * 2 ^ 112 + (v * 2 ^ 80 + low))%Z with ((8194 * 2 ^ 32 + v) * 2 ^ 80 + low)%Z by lia.
    by rewrite shiftr_split, low32.
  - do 2 interval false. interval true.
    replace (536936448 * 2 ^ 96 + (hi * 2 ^ 32 + (2 ^ 32 - 1 - v)))%Z
      with ((536936448 * 2 ^ 64 + hi) * 2 ^ 32 + (2 ^ 32 - 1 - v))%Z by lia.
    by rewrite low32_lnot.
  - do 3 interval false. interval true. by apply (f_equal Some), (low32 0).
  - do 3 interval false. interval false. interval true.
    replace (6619035 * 2 ^ 96 + v)%Z with ((6619035 * 2 ^ 64) * 2 ^ 32 + v)%Z by lia.
    by rewrite low32.
Qed.

Lemma low32_mod n : Z.land n 4294967295 = (n mod 2 ^ 32)%Z.
Proof. change 4294967295%Z with (Z.ones 32). by rewrite Z.land_ones. Qed.

(** [n = a * m + n mod m] when [n] lies in the [a]-th block of [m]. *)
Lemma block_split n a m : (0 < m -> a * m <= n < (a + 1) * m -> n = a * m + n mod m)%Z.
Proof.
  intros Hm Hn. pose proof (Z.div_mod n m ltac:(lia)). pose proof (Z.mod_pos_bound n m Hm).
  assert (n / m = a)%Z as Hq by nia. rewrite Hq in *. lia.
Qed.

Lemma block_emb_6to4 n : (8194 * 2 ^ 112 <= n < 8195 * 2 ^ 112)%Z ->
  embeds n ((Z.shiftr n 80) mod 2 ^ 32).
Proof.
  intros Hn. rewrite Z.shiftr_div_pow2 by lia.
  assert (n = 8194 * 2 ^ 112 + ((n / 2 ^ 80) mod 2 ^ 32 * 2 ^ 80 + n mod 2 ^ 80))%Z as Hn'.
  { pose proof (Z.div_mod n (2 ^ 80) ltac:(lia)). pose proof (Z.mod_pos_bound n (2 ^ 80) ltac:(lia)).
    pose proof (block_split (n / 2 ^ 80) 8194 (2 ^ 32) ltac:(lia) ltac:(lia)). lia. }
  rewrite Hn' at 1. constructor. apply Z.mod_pos_bound. lia.
Qed.

Lemma block_emb_teredo n : (536936448 * 2 ^ 96 <= n < 536936449 * 2 ^ 96)%Z ->
  embeds n ((Z.lnot n) mod 2 ^ 32).
Proof.
  intros Hn.
  assert (n = 536936448 * 2 ^ 96 + ((n / 2 ^ 32 - 536936448 * 2 ^ 64) * 2 ^ 32
              + (2 ^ 32 - 1 - (Z.lnot n) mod 2 ^ 32)))%Z as Hn'.
  { pose proof (Z.div_mod n (2 ^ 32) ltac:(lia)).
    replace (Z.lnot n) with ((- (n / 2 ^ 32) - 1) * 2 ^ 32 + (2 ^ 32 - 1 - n mod 2 ^ 32))%Z by (unfold Z.lnot; lia).
    pose proof (Z.mod_pos_bound n (2 ^ 32) ltac:(lia)).
    rewrite mod_block by lia. lia. }
  rewrite Hn' at 1. constructor.
  pose proof (Z.div_mod n (2 ^ 32) ltac:(lia)). pose proof (Z.mod_pos_bound n (2 ^ 32) ltac:(lia)). lia.
Qed.

(** Whatever the code unwraps is embedded. *)
Lemma unwrap6_inv n v : unwrap6 n = Some v -> (0 <= v < 2 ^ 32)%Z /\ embeds n v.
Proof.
  unfold unwrap6.
  rewrite ipv4_mapped_eq, sixtofour_eq, teredo_client_eq, embedding_networks_eq, !low32_mod.
  intros H. split; [case_in H; apply Z.mod_pos_bound; lia|].
  destruct (_ && _) eqn:E; simpl in H; [|clear E; destruct (_ && _) eqn:E; simpl in H;
    [|clear E; destruct (_ && _) eqn:E; simpl in H; [|clear E; destruct (_ || _) eqn:E; [|done]]]];
    injection H as <-.
  - rewrite (block_split n 65535 (2 ^ 32)) at 1 by lia. constructor.
  - apply block_emb_6to4. lia.
  - apply block_emb_teredo. lia.
  - apply orb_true_iff in E as [E|E].
    + rewrite Z.mod_small by lia. constructor.
    + rewrite (block_split n (6619035 * 2 ^ 64) (2 ^ 32)) at 1 by lia.
      replace (6619035 * 2 ^ 64 * 2 ^ 32)%Z with (6619035 * 2 ^ 96)%Z by lia. constructor.
Qed.

(** fc00::/7, fe80::/10 and ff00::/8 (::1 embeds 0.0.0.1). *)
Definition ipv6_blocked_range (n : Z) : Prop :=
  (64512 * 2 ^ 112 <= n < 65024 * 2 ^ 112 \/ 65152 * 2 ^ 112 <= n < 65216 * 2 ^ 112
   \/ 65280 * 2 ^ 112 <= n < 65536 * 2 ^ 112 \/ n = 1)%Z.

Lemma ipv6_blocked_ranges n : existsb (in_network (IPv6 n None)) _BLOCKED_NETWORKS = true <-> ipv6_blocked_range n.
Proof.
  unfold _BLOCKED_NETWORKS, net6, net4. cbn [existsb].
  unfold in_network. rewrite !shiftr_eqb by lia. unfold ipv6_blocked_range.
  repeat match goal with |- context [Z.shiftr ?a ?b] =>
    let v := eval vm_compute in (Z.shiftr a b) in change (Z.shiftr a b) with v end.
  lia.
Qed.

(** C11: the SSRF address filter cannot be bypassed with an IPv6 spelling: an
    address that is not an IP literal is blocked; an IPv4 address is blocked
    exactly when it lies in a private, reserved, documentation, multicast or
    metadata range; an IPv6 address that embeds an IPv4 address - mapped,
    6to4, Teredo, IPv4-compatible or NAT64 - is blocked exactly when that
    IPv4 address is; any other IPv6 address exactly when it is unique-local,
    link-local or multicast. *)
Theorem is_blocked_ip_spec s :
  match ip_address s with
  | None => _is_blocked_ip s = true
  | Some (IPv4 v) => _is_blocked_ip s = true <-> ipv4_blocked_range v
  | Some (IPv6 n _) =>
      (forall v, (0 <= v < 2 ^ 32)%Z -> embeds n v ->
         (_is_blocked_ip s = true <-> ipv4_blocked_range v)) /\
      ((forall v, (0 <= v < 2 ^ 32)%Z -> ~ embeds n v) ->
         (_is_blocked_ip s = true <-> ipv6_blocked_range n))
  end.
Proof.
  destruct (ip_address s) as [[v|n sc]|] eqn:E.
  - rewrite <- ipv4_blocked_ranges. unfold _is_blocked_ip. by rewrite E.
  - rewrite (is_blocked_ip6 s n sc E). split.
    + intros v Hv He. rewrite (unwrap6_embeds n v Hv He). apply ipv4_blocked_ranges.
    + intros Hno. destruct (unwrap6 n) as [v|] eqn:Eu; [|apply ipv6_blocked_ranges].
      apply unwrap6_inv in Eu as [Hv He]. by destruct (Hno v).
  - unfold _is_blocked_ip. by rewrite E.
Qed.

(** ** Validation of receiver URLs *)

Lemma check_resolved_ok host ips : check_resolved host ips = Ok tt <-> Forall (fun ip => _is_blocked_ip ip = false) ips.
Proof.
  induction ips as [|ip ips IH]; simpl; [done|]. rewrite Forall_cons, <- IH.
  destruct (_is_blocked_ip ip); naive_solver.
Qed.

Lemma raise_when_err b e e' : raise_when b e = Err e' -> e' = e.
Proof. destruct b; simpl; congruence. Qed.

Lemma check_resolved_err host ips e : check_resolved host ips = Err e -> is_ValueError e = true.
Proof.
  induction ips as [|ip ips IH]; simpl; [done|]. by destruct (_is_blocked_ip ip); [intros [= <-]|].
Qed.

Lemma resolve_host_run `{Env} host w :
  _resolve_host host w =
  (match env_getaddrinfo (w_tick w) host with
   | Ok ips => Ok ips
   | Err e => if is_OSError e then Ok [] else Err e
   end,
   {| w_tick := S (w_tick w); w_trace := (w_trace w ++ [Resolved host])%list |}).
Proof.
  unfold _resolve_host, catchM, getaddrinfo, emit, ask, mbind, M_bind, liftR. simpl.
  destruct (env_getaddrinfo _ _) as [ips|e]; [done|]. by destruct (is_OSError e).
Qed.

Lemma reject_unsafe_ok p : _reject_unsafe_scheme_or_parts p = Ok tt ->
  pr_scheme p = "https" /\ opt_false (pr_username p) = true /\ opt_false (pr_password p) = true
  /\ pr_fragment p = "".
Proof.
  unfold _reject_unsafe_scheme_or_parts. rewrite bind_ok. intros (? & H1 & H).
  apply bind_ok in H as (? & H2 & H3). apply raise_when_ok in H1, H2, H3. bool_hyps.
  unfold str_true in H3. bool_hyps. done.
Qed.

Lemma reject_unsafe_err p e : _reject_unsafe_scheme_or_parts p = Err e -> is_ValueError e = true.
Proof.
  unfold _reject_unsafe_scheme_or_parts, raise_when. intros H. case_in H; by injection H as <-.
Qed.

Lemma reject_literal_ok h : _reject_blocked_host_literal h = Ok tt ->
  lower h ∉ _BLOCKED_HOSTNAMES /\ forall a, ip_address h = Some a -> _is_blocked_ip (ip_str a) = false.
Proof.
  unfold _reject_blocked_host_literal. rewrite bind_ok. intros (? & H1 & H).
  apply raise_when_ok in H1. rewrite <- str_mem_elem, H1. split; [done|].
  intros a Ha. rewrite Ha in H. by apply raise_when_ok in H.
Qed.

Lemma reject_literal_err h e : _reject_blocked_host_literal h = Err e -> is_ValueError e = true.
Proof.
  unfold _reject_blocked_host_literal, raise_when. intros H. case_in H; by injection H as <-.
Qed.

(** What a URL must satisfy to be accepted when DNS answers [ips]. *)
Record safe_receiver (url : string) (allowed ips : list string) (host : string) : Prop := {
  sr_parsed : exists p, urlparse url = Ok p /\ pr_scheme p = "https" /\
    opt_false (pr_username p) = true /\ opt_false (pr_password p) = true /\
    pr_fragment p = "" /\ pr_hostname p = Some host;
  sr_host : host <> "";
  sr_not_blocked : lower host ∉ _BLOCKED_HOSTNAMES;
  sr_literal : forall a, ip_address host = Some a -> _is_blocked_ip (ip_str a) = false;
  sr_allowed : allowed <> [] -> safe_hostname url ∈ allowed;
  sr_resolved : ips <> [];
  sr_public : Forall (fun ip => _is_blocked_ip ip = false) ips;
}.

(** The outcomes of the validation. *)
Lemma validate_url_cases `{Env} url allowed w :
  match validate_receiver_endpoint_url url allowed w with
  | (Ok u, w') => u = url /\ exists host ips,
      env_getaddrinfo (w_tick w) host = Ok ips /\
      safe_receiver url (default [] allowed) ips host /\
      w_trace w' = (w_trace w ++ [Resolved host])%list
  | (Err e, _) => is_ValueError e = true \/
      exists host, env_getaddrinfo (w_tick w) host = Err e /\ is_OSError e = false
  end.
Proof.
  unfold validate_receiver_endpoint_url, _reject_blocked_resolved_ips.
  liftR_step C0; [|apply raise_when_err in C0 as ->; by left].
  liftR_step Cp.
  2:{ unfold catch in Cp. destruct (urlparse url); [done|]. injection Cp as <-. by left. }
  assert (urlparse url = Ok a0) as Hp by (unfold catch in Cp; by destruct (urlparse url)).
  liftR_step C1; [destruct a1|left; by eapply reject_unsafe_err].
  cbv zeta. liftR_step C2; [|apply raise_when_err in C2 as ->; by left].
  liftR_step C3; [destruct a2|left; by eapply reject_literal_err].
  liftR_step C4; [|apply raise_when_err in C4 as ->; by left].
  apply raise_when_ok in C2, C4. unfold str_true in C2. bool_hyps.
  destruct (pr_hostname a0) as [host|] eqn:Eh; [|done]. simpl default in *.
  rewrite M_bind_assoc, (M_bind_run _ _ _ _ _ (resolve_host_run host w)).
  destruct (env_getaddrinfo (w_tick w) host) as [ips|e] eqn:Edns.
  2:{ destruct (is_OSError e) eqn:Eos; simpl; [by left|]. right. eauto. }
  rewrite M_bind_assoc. liftR_step C5; [|apply raise_when_err in C5 as ->; by left].
  rewrite M_bind_assoc. liftR_step C6; [|left; by eapply check_resolved_err].
  simpl. split; [done|]. exists host, ips. split; [done|]. split; [|done].
  apply reject_unsafe_ok in C1 as (? & ? & ? & ?). apply reject_literal_ok in C3 as [? ?].
  destruct a4. apply check_resolved_ok in C6. apply raise_when_ok in C5.
  split; try done; [naive_solver| |by destruct ips].
  intros Hne. unfold receiver_host_allowed in C4. apply str_mem_elem.
  by destruct (default [] allowed).
Qed.

(** C12: [validate_receiver_endpoint_url] accepts a URL only when it is HTTPS,
    without credentials or fragment, names a host that is not blocked, is on
    the allowlist when there is one, and DNS answers for that host at this
    moment with at least one address and no blocked address; it then returns
    the URL unchanged after exactly one lookup.  Every rejection is a
    [ValueError] (what the routes turn into a 400), unless name resolution
    itself raised something that is not an [OSError]. *)
Theorem validate_receiver_endpoint_url_safe `{Env} url allowed w :
  match validate_receiver_endpoint_url url allowed w with
  | (Ok u, w') => u = url /\ exists host ips,
      env_getaddrinfo (w_tick w) host = Ok ips /\
      safe_receiver url (default [] allowed) ips host /\
      w_trace w' = (w_trace w ++ [Resolved host])%list
  | (Err e, _) => is_ValueError e = true \/
      exists host, env_getaddrinfo (w_tick w) host = Err e /\ is_OSError e = false
  end.
Proof. apply validate_url_cases. Qed.
