(* ===== verification/Fuzz.v ===== *)
(** * The fuzz targets ([fuzz/])

    The two harnesses call the log sanitiser and the checks of a receiver URL
    on generated texts and fail when a documented promise is broken.  Here
    they are shown not to fail, for any text; the generator is third-party
    code, so the text is the argument.  Texts are those of [PyStr]. *)
From Stdlib Require Import ZArith Lia Ascii String.
From stdpp Require Import base option list strings.
From S2P Require Import Prelude PyStr PyVal PyNet LogSafe UrlValidation.

Open Scope string_scope.

(** [with suppress(ValueError)] *)
Definition suppress_ValueError (m : result unit) : result unit :=
  catch m (fun e => if is_ValueError e then Some (Ok tt) else None).

Module FuzzUrlValidation.
Definition TestOneInput (text : string) : result unit :=
  let _ := _is_blocked_ip text in
  let _ := receiver_host_allowed text ["example.com"] in
  let _ := receiver_host_allowed text [] in
  match urlparse text with
  | Err e => if is_ValueError e then Ok tt else Err e
  | Ok parsed =>
      _ ← suppress_ValueError (_reject_unsafe_scheme_or_parts parsed);
      match pr_hostname parsed with
      | Some host =>
          if str_true host then suppress_ValueError (_reject_blocked_host_literal host) else Ok tt
      | None => Ok tt
      end
  end.
End FuzzUrlValidation.

Module FuzzLogSanitize.
Definition _MAX_LEN : nat := 200.
Definition _SUFFIX : string := "...[truncated]".

(** [s.endswith(suffix)] *)
Definition endswith (suffix s : string) : bool :=
  (String.length suffix <=? String.length s)%nat
  && String.eqb (str_drop (String.length s - String.length suffix) s) suffix.

Definition TestOneInput (text : string) : result unit :=
  let result := sanitize_for_log (JStr text) _MAX_LEN in
  _ ← raise_when (str_existsb control_char result) OtherException;
  let body := if endswith _SUFFIX result
              then str_take (String.length result - String.length _SUFFIX) result else result in
  raise_when (_MAX_LEN <? String.length body)%nat OtherException.
End FuzzLogSanitize.

(** ** The targets do not fail *)

Lemma suppressed m : (forall e, m = Err e -> is_ValueError e = true) -> suppress_ValueError m = Ok tt.
Proof.
  unfold suppress_ValueError, catch. destruct m as [[]|e]; intros H; [done|]. by rewrite (H e).
Qed.

Lemma unsafe_parts_ValueError p e : _reject_unsafe_scheme_or_parts p = Err e -> is_ValueError e = true.
Proof.
  unfold _reject_unsafe_scheme_or_parts, raise_when. intros H. case_in H; by inv_ok.
Qed.

Lemma host_literal_ValueError h e : _reject_blocked_host_literal h = Err e -> is_ValueError e = true.
Proof.
  unfold _reject_blocked_host_literal, raise_when. intros H. case_in H; by inv_ok.
Qed.

Lemma str_take_all n s : (String.length s <= n)%nat -> str_take n s = s.
Proof.
  revert n. induction s as [|c s IH]; intros [|n] H; simpl in *; try done; [lia|]. by rewrite IH by lia.
Qed.

Lemma str_take_app_le n s t : (n <= String.length s)%nat -> str_take n (s +:+ t) = str_take n s.
Proof.
  revert s. induction n as [|n IH]; intros [|c s] H; simpl in *; try done; [lia|]. by rewrite IH by lia.
Qed.

Lemma sanitize_no_control text n : str_existsb control_char (sanitize_for_log (JStr text) n) = false.
Proof.
  unfold str_existsb. apply negb_false_iff. unfold sanitize_for_log. cbn [py_str].
  pose proof (str_filter_forallb (fun c => negb (control_char c)) text) as H.
  destruct (_ <? _)%nat; [|done]. rewrite str_forallb_app. apply andb_true_intro.
  split; [by apply str_take_forallb|reflexivity].
Qed.

Lemma str_take_exact n s : (n <= String.length s)%nat -> String.length (str_take n s) = n.
Proof.
  revert s. induction n as [|n IH]; intros [|c s] H; simpl in *; try done; [lia|]. by rewrite IH by lia.
Qed.

Lemma endswith_app suffix s : FuzzLogSanitize.endswith suffix (s +:+ suffix) = true.
Proof.
  unfold FuzzLogSanitize.endswith. rewrite str_app_length.
  rewrite (proj2 (Nat.leb_le _ _)) by lia. rewrite Nat.add_sub, str_drop_app. apply String.eqb_refl.
Qed.

(** What the harness calls the body of a sanitised text is within the limit. *)
Lemma sanitize_body_bounded text n :
  let r := sanitize_for_log (JStr text) n in
  (String.length (if FuzzLogSanitize.endswith FuzzLogSanitize._SUFFIX r
                  then str_take (String.length r - String.length FuzzLogSanitize._SUFFIX) r else r) <= n)%nat.
Proof.
  unfold sanitize_for_log. cbn [py_str]. cbv zeta. set (stripped := str_filter _ text).
  destruct (Nat.ltb_spec n (String.length stripped)) as [H|H].
  - change "...[truncated]" with FuzzLogSanitize._SUFFIX. rewrite endswith_app, str_app_length, Nat.add_sub.
    rewrite str_take_app_le by done. rewrite str_take_all; rewrite str_take_exact; lia.
  - destruct (FuzzLogSanitize.endswith _ _); [|done].
    etransitivity; [apply str_take_length|]. lia.
Qed.

(** The fuzz targets never fail: on every text the sanitiser leaves no
    control character and at most its limit of text, and the checks of a
    receiver URL raise nothing but the errors they declare. *)
Theorem fuzz_targets_pass text :
  FuzzLogSanitize.TestOneInput text = Ok tt /\ FuzzUrlValidation.TestOneInput text = Ok tt.
Proof.
  split.
  - unfold FuzzLogSanitize.TestOneInput. rewrite sanitize_no_control. cbn [raise_when mbind result_bind].
    unfold raise_when. by rewrite (proj2 (Nat.ltb_ge _ _) (sanitize_body_bounded text _)).
  - unfold FuzzUrlValidation.TestOneInput. destruct (urlparse text) as [p|e] eqn:Hp.
    2: { by rewrite (urlparse_ValueError _ _ Hp). }
    rewrite suppressed by apply unsafe_parts_ValueError. cbn [mbind result_bind].
    destruct (pr_hostname p) as [h|]; [|done]. destruct (str_true h); [|done].
    apply suppressed, host_literal_ValueError.
Qed.
