(* ===== verification/Preflight.v ===== *)
(** * Preflight checks ([app/startup.py])

    Every check returns the lines it logs and, where the code does, whether it
    failed; [run_preflight_checks] is their composition with its exit.  A line
    is what the code hands to [logging]: level, format and arguments. *)
From Stdlib Require Import ZArith Lia Ascii String.
From stdpp Require Import base option list strings.
From S2P Require Import Prelude PyStr PyVal PyNet Config World UrlValidation Discovery.

Open Scope string_scope.

(** ** [pathlib.PurePosixPath] *)
Record PurePath := { p_root : string; p_parts : list string }.

Definition Path (s : string) : PurePath :=
  {| p_root := if startswith "///" s then "/" else if startswith "//" s then "//"
               else if startswith "/" s then "/" else "";
     p_parts := List.filter (fun p => str_true p && negb (String.eqb p ".")) (split_char "/" s) |}.
Definition path_join (p : PurePath) (name : string) : PurePath :=
  {| p_root := p_root p; p_parts := (p_parts p ++ [name])%list |}.
Definition path_parent (p : PurePath) : PurePath :=
  {| p_root := p_root p; p_parts := removelast (p_parts p) |}.
Definition path_str (p : PurePath) : string :=
  let s := p_root p +:+ String.concat "/" (p_parts p) in
  if str_true s then s else ".".

(** ** Log lines *)

Inductive level := DEBUG | INFO | WARNING | ERROR | CRITICAL.
Inductive mark := _OK | _WARN | _FAIL.
Inductive arg := AMark (m : mark) | AStr (s : string) | AInt (z : Z) | AJson (v : json) | AExn (e : exn).
Record line := { lv : level; fmt : string; args : list arg }.
Definition report : Type := list line.

Definition info (f : string) (l : list arg) : line := {| lv := INFO; fmt := f; args := AMark _OK :: l |}.
Definition warning (f : string) (l : list arg) : line := {| lv := WARNING; fmt := f; args := AMark _WARN :: l |}.
Definition error (f : string) (l : list arg) : line := {| lv := ERROR; fmt := f; args := AMark _FAIL :: l |}.

(** A line that says a check failed. *)
Definition is_fail (l : line) : bool := match args l with AMark _FAIL :: _ => true | _ => false end.

(** What the checks read of the machine: the environment, the paths of the
    settings, and the two queries, [None] when they raise. [h_new_mode] is the
    mode of a file SQLite creates. *)
Record Host := {
  h_getenv : string -> option string;
  h_private_pem : bool;
  h_jwks : bool;
  h_db_dir_exists : bool;
  h_db_dir_writable : bool;
  h_db_exists : bool;
  h_db_writable : bool;
  h_streams : option (list (string * string));
  h_expires_at : option Z;
  h_new_mode : Z;
}.

Section preflight.
Variable settings : Settings.
Variable h : Host.

(** ** The environment: [true] is a failed check, as in the code *)

Definition _check_ssf_issuer : report * bool :=
  if negb (str_true (ssf_issuer settings))
  then ([error "%s SSF_ISSUER            NOT SET" []], true)
  else
    (info "%s SSF_ISSUER            %s" [AStr (ssf_issuer settings)]
     :: (if negb (ssf_allow_custom_issuer settings) then
           (if negb (String.eqb (rstrip_slash (ssf_issuer settings)) (rstrip_slash (ssf_base_url settings)))
            then [warning "%s SSF_ISSUER            differs from SSF_BASE_URL — receivers may fail to validate SETs; set SSF_ALLOW_CUSTOM_ISSUER=true to suppress this warning" []]
            else [])
           ++ (if str_in "/application/o/" (ssf_issuer settings)
               then [warning "%s SSF_ISSUER            looks like an Authentik OIDC application URL — SSF_ISSUER should be the transmitter's public base URL (usually SSF_BASE_URL)" []]
               else [])
         else [])%list, false).

Definition _check_ssf_base_url : report * bool :=
  if str_true (ssf_base_url settings)
  then ([info "%s SSF_BASE_URL           %s" [AStr (ssf_base_url settings)]], false)
  else ([error "%s SSF_BASE_URL           NOT SET" []], true).

Definition _check_management_token : report * bool :=
  let token_len := str_len (ssf_management_token settings) in
  if (32 <=? token_len)%Z
  then ([info "%s SSF_MANAGEMENT_TOKEN   configured (%d chars)" [AInt token_len]], false)
  else ([error "%s SSF_MANAGEMENT_TOKEN   too short (%d chars, min 32)" [AInt token_len]], true).

Definition _check_webhook_auth : report * bool :=
  let mode := ssf_webhook_auth_mode settings in
  if String.eqb mode "bearer" then
    let wt_len := str_len (default "" (ssf_webhook_token settings)) in
    let first := info "%s SSF_WEBHOOK_AUTH_MODE  bearer" [] in
    if (32 <=? wt_len)%Z
    then ([first; info "%s SSF_WEBHOOK_TOKEN      configured (%d chars)" [AInt wt_len]], false)
    else ([first; error "%s SSF_WEBHOOK_TOKEN      %s"
             [AStr (if (wt_len =? 0)%Z then "NOT SET" else "too short (" +:+ str_of_int wt_len +:+ " chars, min 32)")]], true)
  else if String.eqb mode "hmac" then
    let ws_len := str_len (ssf_webhook_secret settings) in
    let first := info "%s SSF_WEBHOOK_AUTH_MODE  hmac (legacy)" [] in
    if (0 <? ws_len)%Z
    then ([first; info "%s SSF_WEBHOOK_SECRET     configured (%d chars)" [AInt ws_len]], false)
    else ([first; error "%s SSF_WEBHOOK_SECRET     NOT SET" []], true)
  else if String.eqb mode "unsigned" then
    (warning "%s SSF_WEBHOOK_AUTH_MODE  unsigned — NO authentication on webhook (dev/lab only, never use in production)" []
     :: (if String.eqb (lower (default "" (h_getenv h "SSF_ALLOW_UNSIGNED_WEBHOOK"))) "true"
         then [warning "%s SSF_ALLOW_UNSIGNED_WEBHOOK  DEPRECATED — set SSF_WEBHOOK_AUTH_MODE=unsigned explicitly instead; this alias will be removed in a future release" []]
         else []), false)
  else ([error "%s SSF_WEBHOOK_AUTH_MODE  unknown value %r" [AStr mode]], true).

(** ** Local resources *)

Definition _check_signing_key : report :=
  let private_pem := AStr (path_str (path_join (Path (keys_dir settings)) "private.pem")) in
  if h_private_pem h
  then [info "%s Signing key            %s (exists)" [private_pem]]
  else [warning "%s Signing key            %s not found — will be generated on first start" [private_pem]].

Definition _check_jwks : report :=
  let jwks_path := AStr (path_str (path_join (Path (keys_dir settings)) "jwks.json")) in
  if h_jwks h
  then [info "%s JWKS                   %s (exists)" [jwks_path]]
  else [warning "%s JWKS                   %s not found — will be generated on first start" [jwks_path]].

Definition _check_database : report * bool :=
  let db_path := Path (database_path settings) in
  let db_dir := AStr (path_str (path_parent db_path)) in
  let db_name := AStr (path_str db_path) in
  if negb (h_db_dir_exists h)
  then ([warning "%s Database dir           %s does not exist yet — will be created on start" [db_dir]], false)
  else if negb (h_db_dir_writable h)
  then ([error "%s Database dir           %s is not writable — check volume permissions" [db_dir]], true)
  else if h_db_exists h && negb (h_db_writable h)
  then ([error "%s Database               %s is not writable — run: chown -R 10001:10001 %s" [db_name; db_dir]], true)
  else
    let status := if h_db_exists h then "exists" else "will be created" in
    ([info "%s Database               %s (%s)" [db_name; AStr status]], false).

Definition _check_pii_pepper : report :=
  if str_true (pii_pepper settings)
  then [info "%s SSF_PII_PEPPER         configured (%d chars)" [AInt (str_len (pii_pepper settings))]]
  else [warning "%s SSF_PII_PEPPER         not set — falling back to SSF_MANAGEMENT_TOKEN for PII pseudonymisation; set SSF_PII_PEPPER to a dedicated secret" []].

(** ** Optional features *)

(** [True] when every stored stream is within the allowlist. *)
Definition _check_stored_streams_allowlist : report * bool :=
  let allowed_hosts := ssf_allowed_receiver_hosts settings in
  match allowed_hosts, h_streams h with
  | [], _ => ([], true)
  | _, None => ([], true)
  | _, Some rows =>
      let violations :=
        map (fun row =>
               let host := if str_true (safe_hostname (snd row)) then safe_hostname (snd row) else "unknown-host" in
               fst row +:+ " -> " +:+ repr_str host)
          (List.filter (fun row => negb (receiver_host_allowed (snd row) allowed_hosts)) rows) in
      match violations with
      | [] => ([], true)
      | _ => ([error "%s Receiver allowlist     %d stored stream(s) outside SSF_ALLOWED_RECEIVER_HOSTS: %s"
                 [AInt (Z.of_nat (length violations)); AStr (String.concat "; " violations)]], false)
      end
  end.

Definition _check_receiver_allowlist : report * bool :=
  let allowed_hosts := ssf_allowed_receiver_hosts settings in
  match allowed_hosts with
  | [] => ([warning "%s Receiver allowlist     SSF_ALLOWED_RECEIVER_HOSTS not set — any public host is accepted as receiver endpoint" []], false)
  | _ =>
      let '(lines, within) := _check_stored_streams_allowlist in
      (info "%s Receiver allowlist     %d host(s): %s"
         [AInt (Z.of_nat (length allowed_hosts)); AStr (String.concat ", " allowed_hosts)] :: lines, negb within)
  end.

Definition _check_forwarded_ips : report :=
  let forwarded_ips := default "127.0.0.1" (h_getenv h "SSF_FORWARDED_ALLOW_IPS") in
  if String.eqb forwarded_ips "*"
  then [warning "%s SSF_FORWARDED_ALLOW_IPS=* — trusting all X-Forwarded-For headers; restrict to your proxy IP/CIDR in production" []]
  else [info "%s SSF_FORWARDED_ALLOW_IPS  %s" [AStr forwarded_ips]].

Definition _warn_if_apple_scim_url_uses_appleaccount (url_name url_val : string) : result report :=
  parsed ← urlparse url_val;
  let host := lower (default "" (pr_hostname parsed)) in
  Ok (if String.eqb host "appleaccount.apple.com"
      then [warning "%s %s uses appleaccount.apple.com — Apple Business UI currently shows appleid.apple.com; verify before use" [AStr url_name]]
      else []).

Section probes.
Context `{Env}.

(** [int(time.time()) < expires_at] for the float the clock gives, since
    [expires_at] is an integer. *)
Definition _check_scim_authorized : M World report :=
  match h_expires_at h with
  | Some expires_at =>
      now ← nowM;
      mret (if (now <? expires_at)%Z
            then [info "%s Apple SCIM OAuth       authorized (token valid)" []]
            else [warning "%s Apple SCIM OAuth       token expired — visit %s/apple-scim/authorize to re-authorize" [AStr (ssf_base_url settings)]])
  | None => mret [warning "%s Apple SCIM OAuth       not authorized — visit %s/apple-scim/authorize to connect" [AStr (ssf_base_url settings)]]
  end.

Definition authentik_probe : Request :=
  {| rq_method := "GET";
     rq_url := default "None" (authentik_url settings) +:+ "/api/v3/core/users/?page_size=1"; rq_params := [];
     rq_headers := [("Authorization", "Bearer " +:+ default "None" (authentik_token settings))];
     rq_body := NoBody |}.

(** [r.json().get("pagination", {}).get("count", "?")] *)
Definition pagination_count (r : Response) : result json :=
  data ← rs_json r;
  pagination ← match data with JObj d => Ok (dget_default "pagination" (JObj []) d) | _ => Err AttributeError end;
  match pagination with JObj d => Ok (dget_default "count" (JStr "?") d) | _ => Err AttributeError end.

Definition rejected_fmt : string := "%s Authentik API          %s — check AUTHENTIK_TOKEN".

Definition _check_authentik_connectivity : M World report :=
  r ← catchM (r ← http authentik_probe; mret (inl r))
    (fun e => match e with HTTPError => Some (mret (inr e)) | _ => None end);
  mret match r : Response + exn with
  | inr exc => [warning "%s Authentik API          unreachable (%s) — check AUTHENTIK_URL" [AExn exc]]
  | inl r =>
      if (rs_status r =? 200)%Z then
        let '(lines, count) := match pagination_count r with
                               | Ok v => ([], v)
                               | Err _ => ([{| lv := DEBUG; fmt := "Authentik API response is not JSON: %s";
                                               args := [AStr (str_take 200 (rs_text r))] |}], JStr "?")
                               end in
        (lines ++ [info "%s Authentik API          %s (connected, %s users)"
                     [AStr (default "None" (authentik_url settings)); AJson count]])%list
      else if (rs_status r =? 401)%Z || (rs_status r =? 403)%Z
      then [error rejected_fmt [AInt (rs_status r)]]
      else [warning "%s Authentik API          unexpected status %s" [AInt (rs_status r)]]
  end.

Definition _check_apple_scim_enabled : M World report :=
  let group := if negb (opt_false (apple_scim_group_id settings))
               then info "%s Apple SCIM group filter enabled (APPLE_SCIM_GROUP_ID=%s)" [AStr (opt_or (apple_scim_group_id settings) "")]
               else warning "%s Apple SCIM group filter disabled — all active Authentik users will be considered" [] in
  let alerts := if negb (opt_false (apple_scim_alert_webhook_url settings))
                then info "%s Apple SCIM alerts      webhook configured" []
                else warning "%s Apple SCIM alerts      APPLE_SCIM_ALERT_WEBHOOK_URL not set — set it to receive alerts when re-authorization is needed" [] in
  urls ← liftR (mapR (fun nv => _warn_if_apple_scim_url_uses_appleaccount (fst nv) (snd nv))
                  [("APPLE_SCIM_AUTHORIZE_URL", apple_scim_authorize_url settings);
                   ("APPLE_SCIM_TOKEN_URL", apple_scim_token_url settings)]);
  authorized ← _check_scim_authorized;
  connectivity ← _check_authentik_connectivity;
  mret ([info "%s Apple SCIM             enabled (sync every %ds)" [AInt (apple_scim_sync_interval settings)]; group; alerts]
        ++ List.concat urls ++ authorized ++ connectivity)%list.

Definition _check_apple_scim_disabled : report :=
  let missing := List.filter (fun nv => opt_false (snd nv))
    [("APPLE_SCIM_CLIENT_ID", apple_scim_client_id settings);
     ("APPLE_SCIM_CLIENT_SECRET", apple_scim_client_secret settings);
     ("AUTHENTIK_URL", authentik_url settings); ("AUTHENTIK_TOKEN", authentik_token settings)] in
  [warning "%s Apple SCIM             disabled — missing: %s" [AStr (String.concat ", " (map fst missing))]].

Definition _check_apple_scim : M World report :=
  if apple_scim_enabled settings then _check_apple_scim_enabled else mret _check_apple_scim_disabled.

(** ** All of them *)

Definition header_line : line :=
  {| lv := INFO; fmt := "── SSF Transmitter preflight  v%s ──"; args := [AStr (app_version (h_getenv h "APP_VERSION"))] |}.
Definition failed_line : line :=
  {| lv := CRITICAL; args := [];
     fmt := "Preflight failed — fix the errors above and restart the container. The container will NOT restart automatically." |}.
Definition ok_line : line := {| lv := INFO; fmt := "── preflight OK — starting ──"; args := [] |}.

(** The verdict: no check failed. *)
Definition preflight_ok : bool :=
  negb (snd _check_ssf_issuer || snd _check_ssf_base_url || snd _check_management_token || snd _check_webhook_auth
        || snd _check_database || snd _check_receiver_allowlist).

(** The process goes on when the answer is [true], and otherwise exits with 0. *)
Definition run_preflight_checks : M World (report * bool) :=
  let '(r1, f1) := _check_ssf_issuer in
  let '(r2, f2) := _check_ssf_base_url in
  let '(r3, f3) := _check_management_token in
  let '(r4, f4) := _check_webhook_auth in
  let '(r5, f5) := _check_database in
  let '(r6, f6) := _check_receiver_allowlist in
  apple ← _check_apple_scim;
  let failed := f1 || f2 || f3 || f4 || f5 || f6 in
  mret ([header_line] ++ r1 ++ r2 ++ r3 ++ r4 ++ _check_signing_key ++ _check_jwks ++ r5 ++ _check_pii_pepper
        ++ r6 ++ _check_forwarded_ips ++ apple ++ [if failed then failed_line else ok_line], negb failed)%list.
End probes.

(** ** What the checks ask *)

Lemma check_ssf_issuer_verdict : snd _check_ssf_issuer = negb (str_true (ssf_issuer settings)).
Proof. unfold _check_ssf_issuer. by destruct (str_true _). Qed.
Lemma check_ssf_base_url_verdict : snd _check_ssf_base_url = negb (str_true (ssf_base_url settings)).
Proof. unfold _check_ssf_base_url. by destruct (str_true _). Qed.
Lemma check_management_token_verdict :
  snd _check_management_token = negb (32 <=? str_len (ssf_management_token settings))%Z.
Proof. unfold _check_management_token. by destruct (_ <=? _)%Z. Qed.
Lemma check_webhook_auth_verdict :
  snd _check_webhook_auth =
  let mode := ssf_webhook_auth_mode settings in
  if String.eqb mode "bearer" then negb (32 <=? str_len (default "" (ssf_webhook_token settings)))%Z
  else if String.eqb mode "hmac" then negb (0 <? str_len (ssf_webhook_secret settings))%Z
  else negb (String.eqb mode "unsigned").
Proof.
  unfold _check_webhook_auth. cbv zeta. destruct (String.eqb _ "bearer"); [by destruct (_ <=? _)%Z|].
  destruct (String.eqb _ "hmac"); [by destruct (_ <? _)%Z|]. by destruct (String.eqb _ "unsigned").
Qed.

Lemma check_stored_streams_allowlist_verdict :
  snd _check_stored_streams_allowlist =
  match ssf_allowed_receiver_hosts settings, h_streams h with
  | [], _ => true
  | _, None => true
  | allowed_hosts, Some rows => forallb (fun row => receiver_host_allowed (snd row) allowed_hosts) rows
  end.
Proof.
  unfold _check_stored_streams_allowlist. destruct (ssf_allowed_receiver_hosts settings) as [|a l]; [done|].
  destruct (h_streams h) as [rows|]; [|done]. induction rows as [|row rows IH]; [done|].
  cbn [List.filter forallb]. destruct (receiver_host_allowed (snd row) (a :: l)); [exact IH|done].
Qed.

Lemma check_receiver_allowlist_verdict :
  snd _check_receiver_allowlist =
  match ssf_allowed_receiver_hosts settings with [] => false | _ => negb (snd _check_stored_streams_allowlist) end.
Proof. unfold _check_receiver_allowlist. destruct (ssf_allowed_receiver_hosts settings); [done|]. by destruct _check_stored_streams_allowlist. Qed.

(** ** Verdicts and lines *)

(** The line about a rejected Authentik token is marked as a failure but is not
    fatal. *)
Definition fatal (l : line) : bool := is_fail l && negb (String.eqb (fmt l) rejected_fmt).
Definition fails (r : report) : bool := existsb fatal r.

Lemma check_ssf_issuer_fails : fails (fst _check_ssf_issuer) = snd _check_ssf_issuer.
Proof. unfold _check_ssf_issuer. repeat case_match; done. Qed.
Lemma check_ssf_base_url_fails : fails (fst _check_ssf_base_url) = snd _check_ssf_base_url.
Proof. unfold _check_ssf_base_url. by case_match. Qed.
Lemma check_management_token_fails : fails (fst _check_management_token) = snd _check_management_token.
Proof. unfold _check_management_token. by case_match. Qed.
Lemma check_webhook_auth_fails : fails (fst _check_webhook_auth) = snd _check_webhook_auth.
Proof. unfold _check_webhook_auth. repeat case_match; done. Qed.
Lemma check_database_fails : fails (fst _check_database) = snd _check_database.
Proof. unfold _check_database. repeat case_match; done. Qed.

Lemma check_receiver_allowlist_fails : fails (fst _check_receiver_allowlist) = snd _check_receiver_allowlist.
Proof.
  unfold _check_receiver_allowlist, _check_stored_streams_allowlist.
  destruct (ssf_allowed_receiver_hosts settings) as [|a l]; [done|].
  destruct (h_streams h) as [rows|]; [|done]. by destruct (map _ _).
Qed.


Lemma fails_app r1 r2 : fails (r1 ++ r2)%list = fails r1 || fails r2.
Proof. apply existsb_app. Qed.

Lemma check_apple_scim_disabled_fails : fails _check_apple_scim_disabled = false.
Proof. done. Qed.
Lemma check_signing_key_fails : fails _check_signing_key = false.
Proof. unfold _check_signing_key. by case_match. Qed.
Lemma check_jwks_fails : fails _check_jwks = false.
Proof. unfold _check_jwks. by case_match. Qed.
Lemma check_pii_pepper_fails : fails _check_pii_pepper = false.
Proof. unfold _check_pii_pepper. by case_match. Qed.
Lemma check_forwarded_ips_fails : fails _check_forwarded_ips = false.
Proof. unfold _check_forwarded_ips. by case_match. Qed.

Section answers.
Context `{Env}.

Lemma check_scim_authorized_fails w r w' : _check_scim_authorized w = (Ok r, w') -> fails r = false.
Proof.
  unfold _check_scim_authorized. destruct (h_expires_at h).
  - intros (now & w1 & _ & [= <- _])%M_bind_ok. by case_match.
  - by intros [= <- _].
Qed.

Lemma check_authentik_connectivity_fails w r w' : _check_authentik_connectivity w = (Ok r, w') -> fails r = false.
Proof.
  unfold _check_authentik_connectivity. intros ([rsp|e] & w1 & _ & [= <- _])%M_bind_ok; [|done].
  destruct (rs_status rsp =? 200)%Z; [by destruct (pagination_count rsp)|]. by destruct (_ || _).
Qed.

Lemma check_url_fails name url r : _warn_if_apple_scim_url_uses_appleaccount name url = Ok r -> fails r = false.
Proof. unfold _warn_if_apple_scim_url_uses_appleaccount. intros (p & _ & [= <-])%bind_ok. by case_match. Qed.

Lemma check_apple_scim_fails w r w' : _check_apple_scim w = (Ok r, w') -> fails r = false.
Proof.
  unfold _check_apple_scim. destruct (apple_scim_enabled settings); [|intros [= <- _]; apply check_apple_scim_disabled_fails].
  unfold _check_apple_scim_enabled.
  intros (urls & w1 & [= Hurls _] & (auth & w2 & Hauth & (conn & w3 & Hconn & [= <- _])%M_bind_ok)%M_bind_ok)%M_bind_ok.
  simpl in Hurls. apply bind_ok in Hurls as (r1 & H1 & (l & (r2 & H2 & [= <-])%bind_ok & [= <-])%bind_ok).
  apply check_url_fails in H1, H2. apply check_scim_authorized_fails in Hauth.
  apply check_authentik_connectivity_fails in Hconn.
  assert (fails (List.concat [r1; r2] ++ auth ++ conn)%list = false) as Hrest.
  { simpl List.concat. by rewrite !fails_app, H1, H2, Hauth, Hconn. }
  by destruct (negb (opt_false (apple_scim_group_id settings))), (negb (opt_false (apple_scim_alert_webhook_url settings))).
Qed.

Lemma run_preflight_verdict w r ok w' : run_preflight_checks w = (Ok (r, ok), w') -> ok = preflight_ok.
Proof.
  unfold run_preflight_checks, preflight_ok.
  destruct _check_ssf_issuer, _check_ssf_base_url, _check_management_token, _check_webhook_auth, _check_database,
    _check_receiver_allowlist. intros (apple & w1 & _ & [= _ <- _])%M_bind_ok. done.
Qed.

(** C32: the process exits exactly when the report says why: a start is refused
    if and only if some line, other than the one about a rejected Authentik
    token, is marked as a failure; the last line announces the outcome, and
    the outcome is the conjunction of the six checks. *)
Theorem preflight_explained w r ok w' :
  run_preflight_checks w = (Ok (r, ok), w') ->
  ok = negb (existsb fatal r) /\ last r = Some (if ok then ok_line else failed_line) /\ ok = preflight_ok.
Proof.
  unfold run_preflight_checks, preflight_ok.
  pose proof check_ssf_issuer_fails as E1. pose proof check_ssf_base_url_fails as E2.
  pose proof check_management_token_fails as E3. pose proof check_webhook_auth_fails as E4.
  pose proof check_database_fails as E5. pose proof check_receiver_allowlist_fails as E6.
  destruct _check_ssf_issuer as [r1 f1], _check_ssf_base_url as [r2 f2], _check_management_token as [r3 f3],
    _check_webhook_auth as [r4 f4], _check_database as [r5 f5], _check_receiver_allowlist as [r6 f6]. simpl in *.
  intros (apple & w1 & Happle & E)%M_bind_ok. apply check_apple_scim_fails in Happle.
  injection E as <- <- _. split_and!; [|rewrite !app_comm_cons, !app_assoc, last_snoc; by destruct (_ || _)|done].
  f_equal. symmetry. match goal with |- existsb fatal (_ :: ?l) = _ => change (fails l = f1 || f2 || f3 || f4 || f5 || f6) end.
  rewrite !fails_app, E1, E2, E3, E4, E5, E6, Happle, check_signing_key_fails, check_jwks_fails, check_pii_pepper_fails,
    check_forwarded_ips_fails.
  by destruct f1, f2, f3, f4, f5, f6.
Qed.
End answers.
End preflight.

(** The log of a start gives nothing away: two configurations that differ
    only in their secrets - management and webhook tokens, webhook secret, PII
    pepper, Apple client secret, token encryption key - print the same settings
    and the same report, if the secrets have the same lengths and the same
    optional ones are set. *)
Theorem preflight_log_secret_free `{Env} s h management webhook pepper webhook_token client_secret encryption :
  String.length management = String.length (ssf_management_token s) ->
  String.length webhook = String.length (ssf_webhook_secret s) ->
  String.length pepper = String.length (pii_pepper s) ->
  String.length (default "" webhook_token) = String.length (default "" (ssf_webhook_token s)) ->
  same_presence (apple_scim_client_secret s) client_secret ->
  same_presence (ssf_token_encryption_key s) encryption ->
  let s' := with_secrets s management webhook pepper webhook_token client_secret (authentik_token s) encryption in
  safe_log_dict s' = safe_log_dict s /\ run_preflight_checks s' h = run_preflight_checks s h.
Proof.
  intros Hm Hw Hp Ht Hc He s'. split; [by apply safe_log_dict_secret|]. unfold same_presence in Hc.
  pose proof (str_true_length _ _ Hp) as Hpt.
  assert (apple_scim_enabled s' = apple_scim_enabled s) as Hen.
  { unfold s', apple_scim_enabled. simpl. by rewrite Hc. }
  assert (_check_management_token s' = _check_management_token s) as E3.
  { unfold _check_management_token, str_len. simpl. by rewrite Hm. }
  assert (_check_webhook_auth s' h = _check_webhook_auth s h) as E4.
  { unfold _check_webhook_auth, str_len. simpl. by rewrite Hw, Ht. }
  assert (_check_pii_pepper s' = _check_pii_pepper s) as E5.
  { unfold _check_pii_pepper, str_len. simpl. by rewrite Hp, Hpt. }
  assert (_check_apple_scim s' h = _check_apple_scim s h) as E6.
  { unfold _check_apple_scim. rewrite Hen. destruct (apple_scim_enabled s); [done|].
    unfold _check_apple_scim_disabled. simpl. rewrite <- Hc. by repeat destruct (opt_false _). }
  unfold run_preflight_checks. by rewrite E3, E4, E5, E6.
Qed.

Module Example.

#[local] Instance refused : Env := {|
  env_now t := 0%Z; env_monotonic t := 0%Z; env_uuid t := ""; env_entropy t := "";
  env_http t rq := Ok {| rs_status := 401; rs_content := ""; rs_text := ""; rs_json := Err JSONDecodeError; rs_headers := [] |};
  env_getaddrinfo t host := Err OSError; env_deadline t := None;
|}.

Definition fresh_host : Host :=
  {| h_getenv := example_env; h_private_pem := false; h_jwks := false; h_db_dir_exists := true;
     h_db_dir_writable := true; h_db_exists := false; h_db_writable := false; h_streams := None;
     h_expires_at := None; h_new_mode := 420 |}.

(** A stream outside the allowlist. *)
Definition foreign_host : Host :=
  {| h_getenv := example_env; h_private_pem := true; h_jwks := true; h_db_dir_exists := true;
     h_db_dir_writable := true; h_db_exists := true; h_db_writable := true;
     h_streams := Some [("s1", "https://elsewhere.example.com/set")]; h_expires_at := None; h_new_mode := 420 |}.

(** With the Apple integration configured: Authentik rejects the token, the
    report marks a failure, and the service starts. *)
Definition apple_settings : Settings :=
  with_secrets {| ssf_issuer := ssf_issuer example_settings; ssf_base_url := ssf_base_url example_settings;
       ssf_root_path := ""; ssf_container_port := 8000; ssf_management_token := ssf_management_token example_settings;
       log_level := "INFO"; ssf_webhook_auth_mode := "hmac"; ssf_webhook_token := None;
       ssf_webhook_secret := "shared-secret"; database_path := "/app/data/ssf.db"; keys_dir := "/app/keys";
       log_pii := false; pii_pepper := ""; apple_scim_client_id := Some "client"; apple_scim_client_secret := None;
       authentik_url := Some "https://auth.example.com"; authentik_token := None; apple_scim_group_id := None;
       apple_scim_sync_interval := 3600; apple_scim_alert_webhook_url := None;
       apple_scim_authorize_url := "https://appleid.apple.com/auth/oauth2/v2/authorize";
       apple_scim_token_url := "https://appleid.apple.com/auth/oauth2/v2/token"; apple_scim_log_error_body := false;
       apple_scim_update_mode := ""; apple_scim_allow_username_recovery := false; ssf_allow_custom_issuer := false;
       ssf_log_color := false; ssf_log_receiver_error_body := false; ssf_enable_openapi := false;
       ssf_allowed_receiver_hosts := []; ssf_token_encryption_key := None |}
    (ssf_management_token example_settings) "shared-secret" "" None (Some "secret") (Some "token") None.

Lemma rejected_token_is_not_fatal :
  exists r w', run_preflight_checks apple_settings fresh_host start = (Ok (r, true), w') /\ existsb is_fail r = true.
Proof. do 2 eexists. split; vm_compute; reflexivity. Qed.

Definition report_of (h : Host) : report * bool :=
  match fst (run_preflight_checks example_settings h start) with Ok rok => rok | Err _ => ([], false) end.

Lemma preflight_explained_witness :
  snd (report_of foreign_host) = negb (existsb fatal (fst (report_of foreign_host))) /\
  snd (report_of foreign_host) = false /\ snd (report_of fresh_host) = true.
Proof.
  split; [|split; vm_compute; reflexivity].
  destruct (preflight_explained example_settings foreign_host start (fst (report_of foreign_host))
              (snd (report_of foreign_host)) start) as [E _]; [vm_compute; reflexivity|exact E].
Defined.

Lemma preflight_log_secret_free_witness :
  run_preflight_checks (with_secrets example_settings "FEDCBA9876543210FEDCBA9876543210" "other--secret" "" None None None None)
    fresh_host start = run_preflight_checks example_settings fresh_host start.
Proof.
  destruct (preflight_log_secret_free example_settings fresh_host "FEDCBA9876543210FEDCBA9876543210" "other--secret" ""
              None None None) as [_ E]; [reflexivity..|exact (f_equal (fun m => m start) E)].
Defined.
End Example.
