(* ===== verification/Mapper.v ===== *)
(** * Authentik events to SSF events ([app/events/mapper.py]) *)
From Stdlib Require Import ZArith Lia Ascii String.
From stdpp Require Import base option list strings.
From S2P Require Import Prelude PyStr PyVal World.

Open Scope string_scope.

Definition SESSION_REVOKED : string := "https://schemas.openid.net/secevent/caep/event-type/session-revoked".
Definition CREDENTIAL_CHANGE : string := "https://schemas.openid.net/secevent/caep/event-type/credential-change".

Record MappedEvent := {
  uri : string;
  payload : dict;
  txn : option string;
}.

(** A webhook payload is a JSON object; the [bytes] branch of
    [extract_email] cannot be taken for one. *)
Definition _extract_body (p : dict) : dict :=
  match dget "body" p with JObj b => b | _ => p end.

Definition _nested_dict (container : dict) (key : string) : dict :=
  match dget key container with JObj d => d | _ => [] end.

Definition extract_action (p : dict) : json := dget "action" (_extract_body p).

Definition extract_email (p : dict) : option string :=
  match dget "email" (_nested_dict (_extract_body p) "user") with
  | JStr raw => let normalized := strip raw in if str_true normalized then Some normalized else None
  | _ => None
  end.

Definition extract_source_txn (p : dict) : option string :=
  let body := _extract_body p in
  (fix first (keys : list string) : option string :=
     match keys with
     | [] => None
     | key :: t =>
         match dget key body with
         | JNull => first t
         | value => Some (py_str value)
         end
     end) ["pk"; "event_uuid"; "request_id"].

Definition session_revoked_payload (event_timestamp : Z) : dict :=
  [("event_timestamp", JInt event_timestamp); ("initiating_entity", JStr "policy");
   ("reason_admin", JObj [("en", JStr "Session revoked in Authentik")])].

Definition credential_change_payload (event_timestamp : Z) : dict :=
  [("event_timestamp", JInt event_timestamp); ("initiating_entity", JStr "user");
   ("credential_type", JStr "password"); ("change_type", JStr "update");
   ("reason_admin", JObj [("en", JStr "Password changed in Authentik")])].

(** The [changed_fields] list of a [user.write] event. *)
Definition changed_fields (p : dict) : list json :=
  match dget "changed_fields" (_nested_dict (_extract_body p) "context") with
  | JArr l => l
  | _ => []
  end.

Definition map_authentik_event `{Env} (p : dict) : M World (list MappedEvent) :=
  let action := extract_action p in
  let event_txn := extract_source_txn p in
  if py_eq action (JStr "authentik.core.auth.login_failed") then mret []
  else if py_eq action (JStr "authentik.core.auth.logout") then
    ts ← nowM;
    mret [{| uri := SESSION_REVOKED; payload := session_revoked_payload ts; txn := event_txn |}]
  else if py_eq action (JStr "authentik.core.user.delete") then mret []
  else if negb (py_eq action (JStr "authentik.core.user.write")) then mret []
  else if in_list (JStr "password") (changed_fields p) then
    ts ← nowM;
    mret [{| uri := CREDENTIAL_CHANGE; payload := credential_change_payload ts; txn := event_txn |}]
  else mret [].

(** ** Lemmas *)

Lemma in_list_elem s l : in_list (JStr s) l = true <-> JStr s ∈ l.
Proof.
  unfold in_list. rewrite existsb_exists. setoid_rewrite list_elem_of_In. split.
  - by intros (v & ? & ->%py_eq_JStr_l).
  - intros Hin. exists (JStr s). split; [done|]. by apply py_eq_JStr_l.
Qed.

Lemma py_eq_bool v s : py_eq v (JStr s) = bool_decide (v = JStr s).
Proof.
  case_bool_decide as Hv; [by apply py_eq_JStr_r|].
  destruct (py_eq v (JStr s)) eqn:E; [|done]. by apply py_eq_JStr_r in E.
Qed.

Lemma in_list_bool s l : in_list (JStr s) l = bool_decide (JStr s ∈ l).
Proof.
  case_bool_decide as Hl; [by apply in_list_elem|].
  destruct (in_list (JStr s) l) eqn:E; [|done]. by apply in_list_elem in E.
Qed.

Lemma map_event_total `{Env} p w : exists evs w', map_authentik_event p w = (Ok evs, w').
Proof. unfold map_authentik_event. repeat case_match; eexists _, _; reflexivity. Qed.

Lemma map_event_emits `{Env} p P : emits P (map_authentik_event p).
Proof. unfold map_authentik_event, nowM. auto 10 with emits. Qed.

(** C35: the mapping of Authentik events is total on every JSON object, whatever
    the types of its fields, and yields at most one SET event: a
    session-revoked event exactly for a logout, a credential-change event
    exactly for a [user.write] whose [changed_fields] list names the password,
    and nothing otherwise.  The event is stamped with the current time and
    carries the source transaction of the webhook; no host is contacted. *)
Theorem map_authentik_event_spec `{Env} p w :
  let action := extract_action p in
  let expected :=
    if decide (action = JStr "authentik.core.auth.logout") then
      [{| uri := SESSION_REVOKED; payload := session_revoked_payload (env_now (w_tick w));
          txn := extract_source_txn p |}]
    else if decide (action = JStr "authentik.core.user.write" /\ JStr "password" ∈ changed_fields p) then
      [{| uri := CREDENTIAL_CHANGE; payload := credential_change_payload (env_now (w_tick w));
          txn := extract_source_txn p |}]
    else [] in
  exists w', map_authentik_event p w = (Ok expected, w') /\ w_trace w' = w_trace w.
Proof.
  intros action. unfold map_authentik_event. fold action.
  rewrite !py_eq_bool, in_list_bool. generalize (extract_source_txn p). intros t.
  clearbody action.
  destruct (decide (action = JStr "authentik.core.auth.logout")) as [->|Hlogout].
  { eexists. split; reflexivity. }
  rewrite (bool_decide_eq_false_2 _ Hlogout).
  destruct (decide (action = JStr "authentik.core.user.write")) as [->|Hwrite].
  - destruct (decide (JStr "password" ∈ changed_fields p)) as [Hpw|Hpw];
      [rewrite (bool_decide_eq_true_2 _ Hpw)|rewrite (bool_decide_eq_false_2 _ Hpw)];
      case_decide as Hd; try tauto; eexists; split; reflexivity.
  - rewrite (bool_decide_eq_false_2 _ Hwrite).
    case_decide as Hd; [tauto|].
    repeat case_bool_decide; eexists; split; reflexivity.
Qed.
