(* ===== verification/Pusher.v ===== *)
(** * Delivery of SETs to the receiver ([app/events/pusher.py])

    Log calls have no effect on the outcome and are not modelled. *)
From Stdlib Require Import ZArith Lia Ascii String.
From stdpp Require Import base option list strings.
From S2P Require Import Prelude PyStr PyVal PyNet Config Crypto Database World UrlValidation Mapper.

Open Scope string_scope.

Section pusher.
Context `{CryptoLib} `{Env}.
Variable settings : Settings.
Variable keys : KeyStore.

(** The loop over the re-resolved addresses. *)
Definition all_public (ips : list string) : bool := forallb (fun ip => negb (_is_blocked_ip ip)) ips.

Definition _revalidate_endpoint (url : string) : M World bool :=
  let allowed_hosts := ssf_allowed_receiver_hosts settings in
  if negb (receiver_host_allowed url allowed_hosts) then mret false
  else
    let host := safe_hostname url in
    if negb (str_true host) then mret false
    else
      ips ← _resolve_host host;
      mret (match ips with [] => false | _ => all_public ips end).

(** The request [push_signed_set] and [push_verification_set] send. *)
Definition receiver_headers (stream : Stream) : list (string * string) :=
  [("Content-Type", "application/secevent+jwt"); ("Accept", "application/json")] ++
  (if str_true (endpoint_token stream)
   then [("Authorization", "Bearer " +:+ endpoint_token stream)] else []).

Definition receiver_request (stream : Stream) (token : string) : Request :=
  {| rq_method := "POST"; rq_url := endpoint_url stream; rq_params := [];
     rq_headers := receiver_headers stream; rq_body := Content token |}.

(** [except httpx.HTTPError: return False], then the status check. *)
Definition post_set (stream : Stream) (token : string) : M World bool :=
  catchM (response ← http (receiver_request stream token);
          mret ((200 <=? rs_status response) && (rs_status response <? 300))%Z)
    (fun e => match e with HTTPError => Some (mret false) | _ => None end).

Definition push_signed_set (stream : Stream) (token event_uri : string) : M World bool :=
  ok ← _revalidate_endpoint (endpoint_url stream);
  if negb ok then mret false else post_set stream token.

(** [sign_set] and [sign_verification_set] with their clock and UUID reads. *)
Definition signM (event : MappedEvent) (audience email : string) : M World string :=
  now ← nowM; jti ← uuidM; fresh_txn ← uuidM;
  liftR (sign_set settings keys now jti fresh_txn (uri event) audience email
           (Some (payload event)) (txn event)).

Definition sign_verificationM (audience sid : string) (state : option string) : M World string :=
  now ← nowM; jti ← uuidM;
  liftR (sign_verification_set settings keys now jti audience sid state).

Definition push_set (stream : Stream) (event : MappedEvent) (email : string) : M World (option bool) :=
  if negb (String.eqb (status stream) "enabled") then mret None
  else
    skip ← (if truthy (events_requested stream)
            then requested ← liftR (py_in (uri event) (events_requested stream)); mret (negb requested)
            else mret false);
    if (skip : bool) then mret None
    else
      token ← catchM (t ← signM event (aud stream) email; mret (Some t)) (fun _ => Some (mret None));
      match token with
      | None => mret (Some false)
      | Some token => ok ← push_signed_set stream token (uri event); mret (Some ok)
      end.

Definition push_verification_set (stream : Stream) (state : option string) : M World bool :=
  ok ← _revalidate_endpoint (endpoint_url stream);
  if negb ok then mret false
  else
    token ← catchM (t ← sign_verificationM (aud stream) (stream_id stream) state; mret (Some t))
              (fun _ => Some (mret None));
    match token with
    | None => mret false
    | Some token => post_set stream token
    end.

(** ** Properties *)

(** The receiver URL is safe to contact when DNS answers [ips]. *)
Record safe_target (url : string) (ips : list string) : Prop := {
  st_allowed : ssf_allowed_receiver_hosts settings <> [] ->
    safe_hostname url ∈ ssf_allowed_receiver_hosts settings;
  st_host : safe_hostname url <> "";
  st_resolved : ips <> [];
  st_public : Forall (fun ip => _is_blocked_ip ip = false) ips;
}.

Lemma all_public_Forall ips : all_public ips = true <-> Forall (fun ip => _is_blocked_ip ip = false) ips.
Proof.
  induction ips as [|ip ips IH]; simpl; [done|].
  by rewrite Forall_cons, andb_true_iff, negb_true_iff, IH.
Qed.

Definition after_lookup (host : string) (w : World) : World :=
  {| w_tick := S (w_tick w); w_trace := (w_trace w ++ [Resolved host])%list |}.

(** Re-validation: refused without a lookup, or decided by one lookup. *)
Lemma revalidate_cases url w :
  (_revalidate_endpoint url w = (Ok false, w)) \/
  (exists ips, env_getaddrinfo (w_tick w) (safe_hostname url) = Ok ips /\ safe_target url ips /\
     _revalidate_endpoint url w = (Ok true, after_lookup (safe_hostname url) w)) \/
  (_revalidate_endpoint url w = (Ok false, after_lookup (safe_hostname url) w)) \/
  (exists e, env_getaddrinfo (w_tick w) (safe_hostname url) = Err e /\ is_OSError e = false /\
     _revalidate_endpoint url w = (Err e, after_lookup (safe_hostname url) w)).
Proof.
  unfold _revalidate_endpoint. cbv zeta.
  destruct (receiver_host_allowed url _) eqn:Ha; cbn [negb]; [|by left].
  unfold str_true. destruct (String.eqb_spec (safe_hostname url) "") as [|Hh]; cbn [negb]; [by left|].
  right. rewrite (M_bind_run _ _ _ _ _ (resolve_host_run _ w)).
  destruct (env_getaddrinfo _ _) as [ips|e] eqn:Ed.
  - destruct ips as [|ip ips]; [right; by left|].
    destruct (all_public (ip :: ips)) eqn:Hp; [left|right; left].
    + exists (ip :: ips). split; [done|]. split; [|done].
      split; try done; [|by apply all_public_Forall].
      unfold receiver_host_allowed in Ha. intros Hne. apply str_mem_elem.
      by destruct (ssf_allowed_receiver_hosts settings).
    + done.
  - destruct (is_OSError e) eqn:Eo; right; [by left|]. right. eauto.
Qed.

(** What the receiver's answer means. *)
Definition delivery_outcome (answer : result Response) : result bool :=
  match answer with
  | Ok response => Ok (is_success response)
  | Err HTTPError => Ok false
  | Err e => Err e
  end.

Lemma post_set_run stream token w :
  post_set stream token w =
  (delivery_outcome (env_http (w_tick w) (receiver_request stream token)),
   {| w_tick := S (w_tick w); w_trace := (w_trace w ++ [Sent (receiver_request stream token)])%list |}).
Proof.
  unfold post_set, catchM, http, emit, ask, liftR, mbind, M_bind. simpl.
  destruct (env_http _ _) as [r|e]; [done|]. by destruct e.
Qed.

(** The outcomes of a push. *)
Lemma push_signed_set_cases stream token event_uri w :
  let host := safe_hostname (endpoint_url stream) in
  let rq := receiver_request stream token in
  let '(r, w') := push_signed_set stream token event_uri w in
  (r <> Ok true /\ (w_trace w' = w_trace w \/ w_trace w' = (w_trace w ++ [Resolved host])%list)) \/
  (exists ips, env_getaddrinfo (w_tick w) host = Ok ips /\ safe_target (endpoint_url stream) ips /\
     w_trace w' = (w_trace w ++ [Resolved host; Sent rq])%list /\
     r = delivery_outcome (env_http (S (w_tick w)) rq)).
Proof.
  intros host rq. unfold push_signed_set.
  destruct (revalidate_cases (endpoint_url stream) w)
    as [Hr|[(ips & Hips & Hsafe & Hr)|[Hr|(e & _ & _ & Hr)]]];
    rewrite (M_bind_run _ _ _ _ _ Hr); cbn [negb].
  - left. split; [done|by left].
  - rewrite post_set_run. right. exists ips. split_and!; try done.
    simpl. by rewrite <- app_assoc.
  - left. split; [done|by right].
  - left. split; [done|by right].
Qed.

(** C13: a signed SET, and the receiver's bearer token with it, leaves the
    program in at most one request: to the stream's own endpoint, after one
    DNS lookup made for this push that answered only public addresses for an
    allowed host.  The push reports success exactly when that request was
    answered with a 2xx status. *)
Theorem push_signed_set_target stream token event_uri w :
  let host := safe_hostname (endpoint_url stream) in
  let rq := receiver_request stream token in
  let '(r, w') := push_signed_set stream token event_uri w in
  (r <> Ok true /\ (w_trace w' = w_trace w \/ w_trace w' = (w_trace w ++ [Resolved host])%list)) \/
  (exists ips, env_getaddrinfo (w_tick w) host = Ok ips /\ safe_target (endpoint_url stream) ips /\
     w_trace w' = (w_trace w ++ [Resolved host; Sent rq])%list /\
     r = delivery_outcome (env_http (S (w_tick w)) rq)).
Proof. apply push_signed_set_cases. Qed.

(** The outcomes of a verification push. *)
Lemma push_verification_set_cases stream state w :
  let host := safe_hostname (endpoint_url stream) in
  let '(r, w') := push_verification_set stream state w in
  (r <> Ok true /\ (w_trace w' = w_trace w \/ w_trace w' = (w_trace w ++ [Resolved host])%list)) \/
  (exists ips token, env_getaddrinfo (w_tick w) host = Ok ips /\ safe_target (endpoint_url stream) ips /\
     sign_verification_set settings keys (env_now (S (w_tick w))) (env_uuid (S (S (w_tick w))))
       (aud stream) (stream_id stream) state = Ok token /\
     w_trace w' = (w_trace w ++ [Resolved host; Sent (receiver_request stream token)])%list /\
     r = delivery_outcome (env_http (S (S (S (w_tick w)))) (receiver_request stream token))).
Proof.
  intros host. unfold push_verification_set.
  destruct (revalidate_cases (endpoint_url stream) w)
    as [Hr|[(ips & Hips & Hsafe & Hr)|[Hr|(e & _ & _ & Hr)]]];
    rewrite (M_bind_run _ _ _ _ _ Hr); cbn [negb].
  - left. split; [done|by left].
  - unfold mbind at 1, M_bind at 1, catchM, sign_verificationM, nowM, uuidM, ask, liftR, mbind, M_bind, mret, M_ret. simpl.
    destruct (sign_verification_set _ _ _ _ _ _ _) as [token|e] eqn:Es.
    + rewrite post_set_run. right. exists ips, token. split_and!; try done.
      simpl. by rewrite <- app_assoc.
    + left. split; [done|by right].
  - left. split; [done|by right].
  - left. split; [done|by right].
Qed.

(** A verification SET is pushed under the same rules as a signed SET, and
    it is signed only after the target was re-validated: the request carries
    the token signed for this stream, audience and state. *)
Theorem push_verification_set_target stream state w :
  let host := safe_hostname (endpoint_url stream) in
  let '(r, w') := push_verification_set stream state w in
  (r <> Ok true /\ (w_trace w' = w_trace w \/ w_trace w' = (w_trace w ++ [Resolved host])%list)) \/
  (exists ips token, env_getaddrinfo (w_tick w) host = Ok ips /\ safe_target (endpoint_url stream) ips /\
     sign_verification_set settings keys (env_now (S (w_tick w))) (env_uuid (S (S (w_tick w))))
       (aud stream) (stream_id stream) state = Ok token /\
     w_trace w' = (w_trace w ++ [Resolved host; Sent (receiver_request stream token)])%list /\
     r = delivery_outcome (env_http (S (S (S (w_tick w)))) (receiver_request stream token))).
Proof. apply push_verification_set_cases. Qed.
End pusher.
