(* ===== verification/Outbox.v ===== *)
(** * The durable delivery queue ([app/events/outbox.py])

    The worker runs next to the other tasks of the event loop: whatever they
    commit to the database between two of its own accesses is an oracle,
    [tasks_unlocked] while nobody holds the stream operation lock and
    [tasks_locked] while the worker does. *)
From Stdlib Require Import ZArith Lia Ascii String.
From stdpp Require Import base option list strings relations.
From S2P Require Import Prelude PyStr PyVal JsonText Config Crypto Database DatabaseSpec World UrlValidation Mapper Pusher.

Open Scope string_scope.

Definition _RETRY_BASE_SECONDS : Z := 5.
Definition _RETRY_MAX_SECONDS : Z := 60 * 60.
Definition _PAUSED_RECHECK_SECONDS : Z := 30.

(** The process: the world it talks to and its database. *)
Record App := { app_world : World; app_db : Db }.

#[export] Instance app_world_lens : Lens App World :=
  {| lget := app_world; lset w s := {| app_world := w; app_db := app_db s |} |}.
#[export] Instance app_world_laws : LensLaws App World.
Proof. split; [done|by intros []|done]. Qed.

Class Tasks := {
  tasks_unlocked : nat -> Db -> Db;
  tasks_locked : nat -> Db -> Db;
  stop_requested : nat -> bool;
}.

(** What other tasks can commit without the lock: the operations of the
    database layer that do not take [stream_operation_lock]. *)
Inductive lock_free_step `{CryptoLib} (settings : Settings) : Db -> Db -> Prop :=
| free_enqueue now ent ds db : lock_free_step settings db (snd (enqueue_outbox settings now ent ds db))
| free_requeue now db : lock_free_step settings db (snd (requeue_blocked_outbox now db))
| free_delete_blocked db : lock_free_step settings db (snd (delete_blocked_outbox db))
| free_tokens row db : lock_free_step settings db (set_tokens row db).

Class TasksLaws `{CryptoLib, Tasks} (settings : Settings) := {
  unlocked_steps t db : rtc (db_step settings) db (tasks_unlocked t db);
  locked_steps t db : rtc (lock_free_step settings) db (tasks_locked t db);
}.

Section outbox.
Context `{CryptoLib} `{Env} `{Tasks}.
Variable settings : Settings.
Variable keys : KeyStore.

Definition worldM {A} (m : M World A) : M App A := zoom m.

(** One database access, after what the other tasks did. *)
Definition dbM {A} (others : nat -> Db -> Db) (m : M Db A) : M App A := fun s =>
  let t := w_tick (app_world s) in
  let '(r, db) := m (others t (app_db s)) in
  (r, {| app_world := {| w_tick := S t; w_trace := w_trace (app_world s) |}; app_db := db |}).

Definition unlockedM {A} (m : M Db A) : M App A := dbM tasks_unlocked m.
Definition lockedM {A} (m : M Db A) : M App A := dbM tasks_locked m.

(** Reading and writing accesses. *)
Definition readD {A} (f : Db -> result A) : M Db A := fun db => (f db, db).
Definition writeD (f : Db -> Db) : M Db unit := modifyM f.

(** ** Enqueueing *)

Definition delivery_payload (stream : Stream) (event_uri token : string) : dict :=
  [("aud", JStr (aud stream)); ("endpoint_url", JStr (endpoint_url stream));
   ("endpoint_token", JStr (endpoint_token stream)); ("events_requested", events_requested stream);
   ("event_uri", JStr event_uri); ("token", JStr token)].

(** [stream.events_requested and event.uri not in stream.events_requested] *)
Definition not_requested (stream : Stream) (event : MappedEvent) : result bool :=
  if truthy (events_requested stream)
  then requested ← py_in (uri event) (events_requested stream); Ok (negb requested)
  else Ok false.

Fixpoint sign_events (stream : Stream) (events : list MappedEvent) (email : string) : M World (list (Stream * dict)) :=
  match events with
  | [] => mret []
  | event :: t =>
      skip ← liftR (not_requested stream event);
      if (skip : bool) then sign_events stream t email
      else
        token ← signM settings keys event (aud stream) email;
        rest ← sign_events stream t email;
        mret ((stream, delivery_payload stream (uri event) token) :: rest)
  end.

Fixpoint sign_deliveries (streams : list Stream) (events : list MappedEvent) (email : string) : M World (list (Stream * dict)) :=
  match streams with
  | [] => mret []
  | stream :: t =>
      if negb (String.eqb (status stream) "enabled") then sign_deliveries t events email
      else
        here ← sign_events stream events email;
        rest ← sign_deliveries t events email;
        mret (here ++ rest)%list
  end.

Definition enqueue_events (streams : list Stream) (events : list MappedEvent) (email : string) : M App Z :=
  deliveries ← worldM (sign_deliveries streams events email);
  now ← worldM nowM;
  entropy ← worldM (ask (fun t i => env_entropy (t + i)%nat));
  unlockedM (enqueue_outbox settings now entropy deliveries).

(** ** Delivering *)

Definition _payload_matches_stream (payload : dict) (stream : Stream) : bool :=
  py_eq (dget "aud" payload) (JStr (aud stream))
  && py_eq (dget "endpoint_url" payload) (JStr (endpoint_url stream))
  && py_eq (dget "endpoint_token" payload) (JStr (endpoint_token stream))
  && py_eq (dget "events_requested" payload) (events_requested stream).

Definition _valid_payload (payload : dict) : bool :=
  is_str (dget "aud" payload) && is_str (dget "endpoint_url" payload)
  && is_str (dget "endpoint_token" payload)
  && match dget "events_requested" payload with JArr l => forallb is_str l | _ => false end
  && is_str (dget "event_uri" payload) && is_str (dget "token" payload).

(** The text of a field [_valid_payload] checked to be a string. *)
Definition str_field (k : string) (payload : dict) : string :=
  match dget k payload with JStr s => s | _ => "" end.

Definition retry_delay (attempts : Z) : Z :=
  Z.min _RETRY_MAX_SECONDS (_RETRY_BASE_SECONDS * 2 ^ Z.min (attempts - 1) 10).

Definition _retry (item : OutboxItem) (reason : string) : M App unit :=
  let attempts := (item_attempts item + 1)%Z in
  now ← worldM nowM;
  lockedM (writeD (retry_outbox_item (item_id item) attempts (now + retry_delay attempts) reason)).

(** The push under its deadline: delivered or not, or the reason to retry. *)
Definition attempt (stream : Stream) (payload : dict) : M World (bool + string) :=
  catchM (delivered ← wait_for (push_signed_set settings stream (str_field "token" payload)
                                  (str_field "event_uri" payload));
          mret (inl delivered))
    (fun e => Some (mret (inr (match e with TimeoutError => "delivery_timeout" | _ => "delivery_error" end)))).

Definition _deliver_item (item : OutboxItem) : M App unit :=
  match decrypt_outbox_payload settings item with
  | Err (EncryptedDataError _) =>
      lockedM (writeD (block_outbox_item (item_id item) "payload_decryption_failed"))
  | Err e => raiseM e
  | Ok payload =>
      if negb (_valid_payload payload)
      then lockedM (writeD (block_outbox_item (item_id item) "payload_invalid"))
      else
        stream ← lockedM (readD (get_stream_by_id settings (item_stream_id item)));
        match stream with
        | None => lockedM (writeD (cancel_outbox_item (item_id item)))
        | Some stream =>
            if negb (_payload_matches_stream payload stream)
            then lockedM (writeD (cancel_outbox_item (item_id item)))
            else if negb (String.eqb (status stream) "enabled") then
              now ← worldM nowM;
              lockedM (writeD (retry_outbox_item (item_id item) (item_attempts item)
                                 (now + _PAUSED_RECHECK_SECONDS) "stream_paused"))
            else
              outcome ← worldM (attempt stream payload);
              match outcome with
              | inr reason => _retry item reason
              | inl true => lockedM (writeD (complete_outbox_item (item_id item)))
              | inl false => _retry item "delivery_failed"
              end
        end
  end.

(** [stop is not None and stop.is_set()] *)
Definition stoppedM (stop : bool) : M App bool :=
  if stop then worldM (ask stop_requested) else mret false.

(** The loop body holds the lock from the second [stop] check on. *)
Fixpoint deliver_items (stop : bool) (items : list OutboxItem) : M App Z :=
  match items with
  | [] => mret 0%Z
  | item :: rest =>
      s1 ← stoppedM stop;
      if (s1 : bool) then mret 0%Z
      else
        s2 ← stoppedM stop;
        if (s2 : bool) then mret 0%Z
        else
          now ← worldM nowM;
          current ← unlockedM (readD (fun db => Ok (get_due_outbox_item now (item_id item) db)));
          match current with
          | None => deliver_items stop rest
          | Some current =>
              _ ← _deliver_item current;
              n ← deliver_items stop rest;
              mret (1 + n)%Z
          end
  end.

Definition deliver_pending (stop : bool) : M App Z :=
  now ← worldM nowM;
  items ← unlockedM (readD (fun db => Ok (get_due_outbox now 25 db)));
  deliver_items stop items.

(** [delivery_loop], for at most [rounds] iterations; the answer is whether it
    ended because [stop] was set.  No exception ends it. *)
Fixpoint delivery_loop (rounds : nat) : M App bool :=
  match rounds with
  | O => mret false
  | S rounds' =>
      s1 ← stoppedM true;
      if (s1 : bool) then mret true
      else
        _ ← catchM (_ ← deliver_pending true; mret tt) (fun _ => Some (mret tt));
        s2 ← stoppedM true;
        if (s2 : bool) then delivery_loop rounds'
        else _ ← worldM (ask env_now); delivery_loop rounds'
  end.
End outbox.
