(* ===== verification/OutboxSpec.v ===== *)
(** * What the delivery worker guarantees

    The handler of a queued delivery refines a table of verdicts; from it
    follow that nothing is sent to a receiver the queue item was not signed
    for, that no delivery is lost silently, and how retries are spaced. *)
From Stdlib Require Import ZArith Lia Ascii String.
From stdpp Require Import base option list strings relations.
From S2P Require Import Prelude PyStr PyVal JsonText Config Crypto Database DatabaseSpec World UrlValidation Mapper Pusher Outbox.

Open Scope string_scope.

(** ** What other tasks cannot do while the worker holds the lock *)

Lemma lock_free_is_step `{CryptoLib} settings db db' : lock_free_step settings db db' -> db_step settings db db'.
Proof. intros []; constructor. Qed.

Lemma enqueue_keeps `{CryptoLib} settings now ent ds db :
  let db' := snd (enqueue_outbox settings now ent ds db) in
  streams db' = streams db /\ forall o, o ∈ set_outbox db -> o ∈ set_outbox db'.
Proof.
  destruct ds as [|d ds]; [done|]. rewrite enqueue_outbox_run.
  destruct (mapR _ _); [|done]. destruct (_ <? _)%Z; [done|]. split; [done|].
  intros o Ho. apply elem_of_app. by left.
Qed.

Lemma lock_free_keeps `{CryptoLib} settings db db' : lock_free_step settings db db' ->
  streams db' = streams db /\ forall o, o ∈ set_outbox db -> pending o = true -> o ∈ set_outbox db'.
Proof.
  intros []; simpl.
  - destruct (enqueue_keeps settings now ent ds db0) as [-> Hk]. auto.
  - split; [done|]. intros o Ho Hp. apply update_where_elem. exists o. split; [done|].
    unfold blocked. unfold pending in Hp. bool_hyps. by rewrite Hp.
  - split; [done|]. intros o Ho Hp. apply delete_where_elem. split; [done|].
    unfold blocked. unfold pending in Hp. bool_hyps. by rewrite Hp.
  - done.
Qed.

(** ** The attempt *)

Section attempt.
Context `{CryptoLib} `{Env} (settings : Settings).

Lemma wait_for_push stream token event_uri w :
  let host := safe_hostname (endpoint_url stream) in
  let rq := receiver_request stream token in
  let '(r, w') := wait_for (push_signed_set settings stream token event_uri) w in
  exists tr, w_trace w' = (w_trace w ++ tr)%list /\ tr `prefix_of` [Resolved host; Sent rq] /\
    (Sent rq ∈ tr -> exists ips, env_getaddrinfo (w_tick w) host = Ok ips /\
                       safe_target settings (endpoint_url stream) ips) /\
    (r = Ok true -> tr = [Resolved host; Sent rq] /\
       exists response, env_http (S (w_tick w)) rq = Ok response /\ is_success response = true) /\
    (Sent rq ∈ tr -> forall response, env_http (S (w_tick w)) rq = Ok response -> is_success response = true ->
       r = Ok true \/ r = Err TimeoutError).
Proof.
  intros host rq. unfold wait_for.
  pose proof (push_signed_set_cases settings stream token event_uri w) as Hp.
  fold host rq in Hp. cbv zeta in Hp. destruct (push_signed_set _ _ _ _ w) as [r w1].
  assert (exists tr, w_trace w1 = (w_trace w ++ tr)%list /\ tr `prefix_of` [Resolved host; Sent rq] /\
    (Sent rq ∈ tr -> exists ips, env_getaddrinfo (w_tick w) host = Ok ips /\
                       safe_target settings (endpoint_url stream) ips) /\
    (r = Ok true -> tr = [Resolved host; Sent rq] /\
       exists response, env_http (S (w_tick w)) rq = Ok response /\ is_success response = true) /\
    (Sent rq ∈ tr -> forall response, env_http (S (w_tick w)) rq = Ok response -> is_success response = true ->
       r = Ok true))
    as (tr & Htr & Hpre & Hsent & Hok & Hacc).
  { destruct Hp as [[Hr [->| ->]]|(ips & Hips & Hsafe & -> & ->)].
    - exists []. rewrite app_nil_r. split_and!; [done|apply prefix_nil|set_solver|done|set_solver].
    - exists [Resolved host]. split_and!; [done|by exists [Sent rq]|set_solver|done|set_solver].
    - eexists. split_and!; [done|done|eauto| |].
      + intros Ho. split; [done|]. destruct (env_http _ _) as [resp|[]]; simpl in Ho; try done.
        injection Ho as Ho. eauto.
      + intros _ resp Hresp Hs. rewrite Hresp. simpl. by rewrite Hs. }
  destruct (env_deadline _) as [k|].
  - exists (take k tr). cbn [w_trace]. rewrite Htr, drop_app_length. split_and!; [done| | |done|by right].
    + etrans; [|exact Hpre]. apply prefix_take.
    + intros Hin. apply Hsent. rewrite <- (take_drop k tr). apply elem_of_app. by left.
  - exists tr. split_and!; try done. intros Hin resp Hresp Hs. left. by apply (Hacc Hin resp).
Qed.

(** What one attempt that starts at [tick] may have sent, and to whom. *)
Definition attempted (stream : Stream) (payload : dict) (tick : nat) (tr : list event) : Prop :=
  let rq := receiver_request stream (str_field "token" payload) in
  let host := safe_hostname (endpoint_url stream) in
  tr `prefix_of` [Resolved host; Sent rq] /\
  (Sent rq ∈ tr -> exists ips, env_getaddrinfo tick host = Ok ips /\ safe_target settings (endpoint_url stream) ips).

(** The receiver confirmed the SET of this item. *)
Definition confirmed (stream : Stream) (payload : dict) (tick : nat) (tr : list event) : Prop :=
  let rq := receiver_request stream (str_field "token" payload) in
  Sent rq ∈ tr /\ exists response, env_http (S tick) rq = Ok response /\ is_success response = true.

(** A confirmation is only missed when the deadline expires. *)
Lemma attempt_spec stream payload w :
  exists outcome w' tr, attempt settings stream payload w = (Ok outcome, w') /\
    w_trace w' = (w_trace w ++ tr)%list /\ attempted stream payload (w_tick w) tr /\
    (outcome = inl true -> confirmed stream payload (w_tick w) tr) /\
    (confirmed stream payload (w_tick w) tr -> outcome = inl true \/ outcome = inr "delivery_timeout").
Proof.
  unfold attempt, catchM.
  pose proof (wait_for_push stream (str_field "token" payload) (str_field "event_uri" payload) w) as Hp.
  cbv zeta in Hp. unfold mbind, M_bind. destruct (wait_for _ w) as [r w1].
  destruct Hp as (tr & Htr & Hpre & Hsent & Hok & Hacc).
  destruct r as [b|e]; eexists _, w1, tr; (split; [reflexivity|split_and!; try done]).
  - intros [= ->]. destruct (Hok eq_refl) as [-> (resp & ? & ?)]. split; [set_solver|eauto].
  - intros (Hin & resp & Hresp & Hs). destruct (Hacc Hin resp Hresp Hs) as [[= ->]|]; [by left|done].
  - intros (Hin & resp & Hresp & Hs). destruct (Hacc Hin resp Hresp Hs) as [|[= ->]]; [done|by right].
Qed.
End attempt.

Section worker.
Context `{CryptoLib} `{Env} `{Tasks} (settings : Settings) `{!TasksLaws settings}.
Local Abbreviation attempted := (attempted settings).
Local Abbreviation ticks s := (w_tick (app_world s)).

Lemma locked_keeps_ok t db : db_ok db -> db_ok (tasks_locked t db).
Proof.
  pose proof (locked_steps t db) as Hs. induction Hs; [done|]. intros Hok. apply IHHs.
  by eapply db_step_ok, Hok; eapply lock_free_is_step.
Qed.

Lemma locked_keeps t db : streams (tasks_locked t db) = streams db /\
  forall o, o ∈ set_outbox db -> pending o = true -> o ∈ set_outbox (tasks_locked t db).
Proof.
  pose proof (locked_steps t db) as Hs. induction Hs as [|a b c Hab Hbc [IH1 IH2]]; [done|].
  apply lock_free_keeps in Hab as [H1' H2']. rewrite IH1. auto.
Qed.

Lemma get_stream_by_id_streams sid db db' : streams db = streams db' ->
  get_stream_by_id settings sid db = get_stream_by_id settings sid db'.
Proof. unfold get_stream_by_id, find_row. by intros ->. Qed.

(** ** The handler as a table *)

Definition addressed (db : Db) (item : OutboxItem) (payload : dict) (stream : Stream) : Prop :=
  decrypt_outbox_payload settings item = Ok payload /\ _valid_payload payload = true /\
  get_stream_by_id settings (item_stream_id item) db = Ok (Some stream) /\
  _payload_matches_stream payload stream = true /\ status stream = "enabled".

(** [verdict db item start stop tr op]: handled between the ticks [start] and
    [stop], the item is settled by the write [op] after the interactions [tr].
    The stream is read at [start], so an attempt begins at the tick after; a
    date is counted from the last tick before the write. *)
Inductive verdict (db : Db) (item : OutboxItem) (start : nat) : nat -> list event -> (Db -> Db) -> Prop :=
| V_unreadable msg stop :
    decrypt_outbox_payload settings item = Err (EncryptedDataError msg) ->
    verdict db item start stop [] (block_outbox_item (item_id item) "payload_decryption_failed")
| V_invalid payload stop :
    decrypt_outbox_payload settings item = Ok payload -> _valid_payload payload = false ->
    verdict db item start stop [] (block_outbox_item (item_id item) "payload_invalid")
| V_gone payload stop :
    decrypt_outbox_payload settings item = Ok payload -> _valid_payload payload = true ->
    get_stream_by_id settings (item_stream_id item) db = Ok None ->
    verdict db item start stop [] (cancel_outbox_item (item_id item))
| V_changed payload stream stop :
    decrypt_outbox_payload settings item = Ok payload -> _valid_payload payload = true ->
    get_stream_by_id settings (item_stream_id item) db = Ok (Some stream) ->
    _payload_matches_stream payload stream = false ->
    verdict db item start stop [] (cancel_outbox_item (item_id item))
| V_paused payload stream tick :
    decrypt_outbox_payload settings item = Ok payload -> _valid_payload payload = true ->
    get_stream_by_id settings (item_stream_id item) db = Ok (Some stream) ->
    _payload_matches_stream payload stream = true -> status stream <> "enabled" ->
    verdict db item start (S (S tick)) [] (retry_outbox_item (item_id item) (item_attempts item)
                          (env_now tick + _PAUSED_RECHECK_SECONDS) "stream_paused")
| V_delivered payload stream tr stop :
    addressed db item payload stream -> attempted stream payload (S start) tr -> confirmed stream payload (S start) tr ->
    verdict db item start stop tr (complete_outbox_item (item_id item))
| V_failed payload stream tr tick reason :
    addressed db item payload stream -> attempted stream payload (S start) tr ->
    reason ∈ ["delivery_failed"; "delivery_timeout"; "delivery_error"] ->
    (confirmed stream payload (S start) tr -> reason = "delivery_timeout") ->
    verdict db item start (S (S tick)) tr (retry_outbox_item (item_id item) (item_attempts item + 1)
                          (env_now tick + retry_delay (item_attempts item + 1)) reason).

(** A state the database can be in after other tasks ran under the lock. *)
Definition meanwhile (db db' : Db) : Prop := rtc (lock_free_step settings) db db'.

(** A locked write, as the last step of a handler. *)
Lemma locked_write op (s : App) :
  exists s', lockedM (writeD op) s = (Ok tt, s') /\
    w_trace (app_world s') = w_trace (app_world s) /\ ticks s' = S (ticks s) /\
    exists db1, meanwhile (app_db s) db1 /\ app_db s' = op db1.
Proof.
  eexists. split; [reflexivity|]. do 2 (split; [done|]). eexists. split; [apply locked_steps|done].
Qed.
Definition handled (s s' : App) (item : OutboxItem) : Prop :=
  exists tr op db1, verdict (app_db s) item (ticks s) (ticks s') tr op /\
    w_trace (app_world s') = (w_trace (app_world s) ++ tr)%list /\
    meanwhile (app_db s) db1 /\ app_db s' = op db1.

(** Finish a handler: from a state that extends the start by [tr]. *)
Lemma handled_write s s1 item tr op :
  verdict (app_db s) item (ticks s) (S (ticks s1)) tr op ->
  w_trace (app_world s1) = (w_trace (app_world s) ++ tr)%list ->
  meanwhile (app_db s) (app_db s1) ->
  exists s', lockedM (writeD op) s1 = (Ok tt, s') /\ handled s s' item.
Proof.
  intros Hv Htr Hm. destruct (locked_write op s1) as (s' & Hrun & Hw & Ht & db1 & Hm' & Hop).
  exists s'. split; [done|]. exists tr, op, db1. rewrite Hw, Ht. split_and!; try done.
  unfold meanwhile in *. by etrans.
Qed.

Lemma now_handled {A} (k : Z -> M App A) s1 :
  exists s2, (worldM nowM ≫= k) s1 = k (env_now (ticks s1)) s2 /\
    app_db s2 = app_db s1 /\ w_trace (app_world s2) = w_trace (app_world s1) /\ ticks s2 = S (ticks s1).
Proof. eexists. split; [reflexivity|done]. Qed.

Lemma retry_handled s s1 item tr payload stream reason :
  addressed (app_db s) item payload stream -> attempted stream payload (S (ticks s)) tr ->
  reason ∈ ["delivery_failed"; "delivery_timeout"; "delivery_error"] ->
  (confirmed stream payload (S (ticks s)) tr -> reason = "delivery_timeout") ->
  w_trace (app_world s1) = (w_trace (app_world s) ++ tr)%list ->
  meanwhile (app_db s) (app_db s1) ->
  exists s', _retry item reason s1 = (Ok tt, s') /\ handled s s' item.
Proof.
  intros Ha Hatt Hr Hmiss Htr Hm. unfold _retry.
  match goal with |- context [(worldM nowM ≫= ?k) s1] =>
    destruct (now_handled k s1) as (s2 & -> & Hdb & Hw & Ht) end.
  eapply handled_write; [rewrite Ht; by eapply V_failed|congruence|by rewrite Hdb].
Qed.

Lemma attempt_app stream payload s :
  exists outcome s1 tr, worldM (attempt settings stream payload) s = (Ok outcome, s1) /\
    app_db s1 = app_db s /\ w_trace (app_world s1) = (w_trace (app_world s) ++ tr)%list /\
    attempted stream payload (ticks s) tr /\ (outcome = inl true -> confirmed stream payload (ticks s) tr) /\
    (confirmed stream payload (ticks s) tr -> outcome = inl true \/ outcome = inr "delivery_timeout").
Proof.
  unfold worldM, zoom. simpl lget.
  destruct (attempt_spec settings stream payload (app_world s)) as (o & w' & tr & -> & ? & ? & ? & ?).
  eexists o, _, tr. split; [reflexivity|]. done.
Qed.

Lemma attempt_reason stream payload s reason s1 :
  worldM (attempt settings stream payload) s = (Ok (inr reason), s1) ->
  reason ∈ ["delivery_failed"; "delivery_timeout"; "delivery_error"].
Proof.
  unfold worldM, zoom, attempt, catchM, mbind, M_bind. destruct (wait_for _ _) as [[b|e] w1]; [done|].
  intros [= <- _]. destruct e; set_solver.
Qed.

Lemma read_stream item s :
  exists s1, lockedM (readD (get_stream_by_id settings (item_stream_id item))) s =
    (get_stream_by_id settings (item_stream_id item) (app_db s), s1) /\
    app_world s1 = {| w_tick := S (w_tick (app_world s)); w_trace := w_trace (app_world s) |} /\
    meanwhile (app_db s) (app_db s1).
Proof.
  unfold lockedM, dbM, readD. eexists. split.
  - apply f_equal2; [apply get_stream_by_id_streams, locked_keeps|reflexivity].
  - split; [done|apply locked_steps].
Qed.

Lemma deliver_item_cases item s :
  match _deliver_item settings item s with
  | (Ok _, s') => handled s s' item
  | (Err _, s') => w_trace (app_world s') = w_trace (app_world s) /\ meanwhile (app_db s) (app_db s')
  end.
Proof.
  unfold _deliver_item.
  assert (w_trace (app_world s) = w_trace (app_world s) ++ [])%list as Hnil by by rewrite app_nil_r.
  destruct (decrypt_outbox_payload settings item) as [payload|e] eqn:Hdec.
  2:{ destruct e; try (by split; [|constructor]).
      destruct (handled_write s s item [] _ (V_unreadable _ _ _ _ _ Hdec) Hnil (rtc_refl _ _)) as (s' & -> & ?). done. }
  destruct (_valid_payload payload) eqn:Hval; cbn [negb].
  2:{ destruct (handled_write s s item [] _ (V_invalid _ _ _ _ _ Hdec Hval) Hnil (rtc_refl _ _)) as (s' & -> & ?). done. }
  destruct (read_stream item s) as (s1 & Hread & Hw1 & Hm1).
  assert (w_trace (app_world s1) = w_trace (app_world s) ++ [])%list as Hnil1 by by rewrite Hw1.
  rewrite (M_bind_run _ _ _ _ _ Hread).
  destruct (get_stream_by_id _ _ _) as [[stream|]|e] eqn:Hget; [|clear Hread|by rewrite Hw1].
  2:{ destruct (handled_write s s1 item [] _ (V_gone _ _ _ _ _ Hdec Hval Hget) Hnil1 Hm1) as (s' & -> & ?). done. }
  destruct (_payload_matches_stream payload stream) eqn:Hmatch; cbn [negb].
  2:{ destruct (handled_write s s1 item [] _ (V_changed _ _ _ _ _ _ Hdec Hval Hget Hmatch) Hnil1 Hm1) as (s' & -> & ?). done. }
  destruct (String.eqb_spec (status stream) "enabled") as [Hen|Hen]; cbn [negb].
  2:{ destruct (now_handled (fun now => lockedM (writeD (retry_outbox_item (item_id item)
        (item_attempts item) (now + _PAUSED_RECHECK_SECONDS) "stream_paused"))) s1) as (s2 & -> & Hdb & Hw & Ht).
      edestruct (handled_write s s2) as (s' & -> & ?);
        [rewrite Ht; by eapply V_paused|congruence|by rewrite Hdb|done]. }
  destruct (attempt_app stream payload s1) as (outcome & s2 & tr & Hatt & Hdb & Hw & Htr & Hconf & Hmiss).
  replace (ticks s1) with (S (ticks s)) in Htr, Hconf, Hmiss by by rewrite Hw1.
  assert (addressed (app_db s) item payload stream) as Haddr by done.
  assert (w_trace (app_world s2) = w_trace (app_world s) ++ tr)%list as Hw2 by (by rewrite Hw, Hw1).
  assert (meanwhile (app_db s) (app_db s2)) as Hm2 by (by rewrite Hdb).
  rewrite (M_bind_run _ _ _ _ _ Hatt). destruct outcome as [[]|reason].
  - edestruct (handled_write s s2) as (s' & -> & ?); [eapply V_delivered; eauto|done..].
  - edestruct (retry_handled s s2) as (s' & -> & ?); [done|done| |by intros [|]%Hmiss|done..]. set_solver.
  - apply attempt_reason in Hatt.
    edestruct (retry_handled s s2) as (s' & -> & ?); [done|done|done|by intros [|[= ->]]%Hmiss|done..].
Qed.

(** ** One pass of the worker *)

Lemma verdict_step db item start stop tr op db1 :
  verdict db item start stop tr op -> (0 <= item_attempts item)%Z -> db_step settings db1 (op db1).
Proof. intros [] Ha; constructor; lia. Qed.

Lemma attempted_sent stream payload tick tr rq :
  attempted stream payload tick tr -> Sent rq ∈ tr ->
  rq = receiver_request stream (str_field "token" payload) /\
  exists ips, env_getaddrinfo tick (safe_hostname (endpoint_url stream)) = Ok ips /\
    safe_target settings (endpoint_url stream) ips.
Proof.
  intros [Hpre Hsafe] Hin. pose proof Hin as Hrq. destruct Hpre as [k Hk].
  assert (Sent rq ∈ [Resolved (safe_hostname (endpoint_url stream));
                     Sent (receiver_request stream (str_field "token" payload))]) as Hin'
    by (rewrite Hk; apply elem_of_app; by left).
  assert (rq = receiver_request stream (str_field "token" payload)) as -> by set_solver.
  auto.
Qed.

(** The payload carries the stream's audience, URL, token and events. *)
Definition signed_for (payload : dict) (stream : Stream) : Prop :=
  dget "aud" payload = JStr (aud stream) /\
  dget "endpoint_url" payload = JStr (endpoint_url stream) /\
  dget "endpoint_token" payload = JStr (endpoint_token stream) /\
  py_eq (dget "events_requested" payload) (events_requested stream) = true.

Lemma matches_signed_for payload stream : _payload_matches_stream payload stream = true <-> signed_for payload stream.
Proof.
  unfold _payload_matches_stream, signed_for.
  rewrite !andb_true_iff, !py_eq_JStr_r. tauto.
Qed.

(** The states of one pass.  The worker polls [stop] when it was given one; it
    looks at the database, at a clock it has just read; and it handles a row it
    has just seen due.  What the other tasks do is the oracle's answer at that
    very tick, so the state of every visit is the state of the run. *)
Definition waited (s : App) : App :=
  {| app_world := {| w_tick := S (ticks s); w_trace := w_trace (app_world s) |}; app_db := app_db s |}.
Definition look (s : App) : App :=
  {| app_world := {| w_tick := S (S (ticks s)); w_trace := w_trace (app_world s) |};
     app_db := tasks_unlocked (S (ticks s)) (app_db s) |}.

Inductive pass_run (stop : bool) : App -> list (App * OutboxRow) -> App -> Prop :=
| run_end s : pass_run stop s [] s
| run_poll s visits s' : stop = true -> pass_run stop (waited s) visits s' -> pass_run stop s visits s'
| run_look s visits s' : pass_run stop (look s) visits s' -> pass_run stop s visits s'
| run_visit s o visits s' :
    o ∈ set_outbox (app_db (look s)) -> pending o = true -> (ob_next_attempt_at o <= env_now (ticks s))%Z ->
    pass_run stop (snd (_deliver_item settings (to_item o) (look s))) visits s' ->
    pass_run stop s ((look s, o) :: visits) s'.

Lemma pass_run_app stop s1 s2 s3 v1 v2 :
  pass_run stop s1 v1 s2 -> pass_run stop s2 v2 s3 -> pass_run stop s1 (v1 ++ v2) s3.
Proof.
  induction 1; intros; [done|apply run_poll; auto|apply run_look; auto|].
  rewrite <- app_comm_cons. apply run_visit; auto.
Qed.

(** What handling a row in state [a] adds to the trace. *)
Definition sent_by (a : App) (o : OutboxRow) (rq : Request) : Prop :=
  Sent rq ∈ drop (length (w_trace (app_world a))) (w_trace (app_world (snd (_deliver_item settings (to_item o) a)))).

(** Why a request was sent: by one of the visits, in whose state the row is
    addressed to the receiver of the request. *)
Definition justified (visits : list (App * OutboxRow)) (rq : Request) : Prop :=
  exists a o payload stream ips,
    (a, o) ∈ visits /\ sent_by a o rq /\ o ∈ set_outbox (app_db a) /\ pending o = true /\
    addressed (app_db a) (to_item o) payload stream /\ signed_for payload stream /\
    rq = receiver_request stream (str_field "token" payload) /\
    env_getaddrinfo (S (ticks a)) (safe_hostname (endpoint_url stream)) = Ok ips /\
    safe_target settings (endpoint_url stream) ips.

Lemma attempt_justified a o payload stream tr rq visits :
  (a, o) ∈ visits -> sent_by a o rq -> o ∈ set_outbox (app_db a) -> pending o = true ->
  addressed (app_db a) (to_item o) payload stream -> attempted stream payload (S (ticks a)) tr -> Sent rq ∈ tr ->
  justified visits rq.
Proof.
  intros Hv Hby Ho Hp Ha Hatt Hin. destruct (attempted_sent _ _ _ _ _ Hatt Hin) as (Hrq & ips & Hips & Hsafe).
  exists a, o, payload, stream, ips. split_and!; try done. apply matches_signed_for. unfold addressed in Ha. tauto.
Qed.

Lemma verdict_justified a o stop tr op rq visits :
  (a, o) ∈ visits -> sent_by a o rq -> o ∈ set_outbox (app_db a) -> pending o = true ->
  verdict (app_db a) (to_item o) (ticks a) stop tr op -> Sent rq ∈ tr -> justified visits rq.
Proof.
  intros Hv Hby Ho Hp Hver Hin. destruct Hver; try (by apply elem_of_nil in Hin); by eapply attempt_justified.
Qed.

Lemma justified_more v1 v2 rq : v1 ⊆ v2 -> justified v1 rq -> justified v2 rq.
Proof. intros Hsub (a & o & payload & stream & ips & Hv & H'). exists a, o, payload, stream, ips. auto. Qed.

Lemma steps_ok db db' : rtc (db_step settings) db db' -> db_ok db -> db_ok db'.
Proof. induction 1; [done|]. intros. apply IHrtc. by eapply db_step_ok. Qed.

Lemma meanwhile_steps db db' : meanwhile db db' -> rtc (db_step settings) db db'.
Proof. apply rtc_subrel. intros ??. apply lock_free_is_step. Qed.

(** A computation of the worker that only sends what is justified. *)
Definition sound_from (stop : bool) (s s' : App) : Prop :=
  rtc (db_step settings) (app_db s) (app_db s') /\
  exists visits tr, pass_run stop s visits s' /\ w_trace (app_world s') = (w_trace (app_world s) ++ tr)%list /\
    forall rq, Sent rq ∈ tr -> justified visits rq.

Lemma sound_silent stop s s' :
  rtc (db_step settings) (app_db s) (app_db s') -> pass_run stop s [] s' ->
  w_trace (app_world s') = w_trace (app_world s) -> sound_from stop s s'.
Proof. intros ? ? E. split; [done|]. exists [], []. rewrite E, app_nil_r. split; [done|]. split; [done|set_solver]. Qed.

Lemma sound_trans stop s1 s2 s3 : sound_from stop s1 s2 -> sound_from stop s2 s3 -> sound_from stop s1 s3.
Proof.
  intros [D1 (v1 & t1 & R1 & E1 & J1)] [D2 (v2 & t2 & R2 & E2 & J2)]. split; [by etrans|].
  exists (v1 ++ v2)%list, (t1 ++ t2)%list. rewrite E2, E1, app_assoc. split; [by eapply pass_run_app|]. split; [done|].
  intros rq [Hin|Hin]%elem_of_app; (eapply justified_more; [|by eauto]); set_solver.
Qed.

Lemma due_item_row now i db it :
  get_due_outbox_item now i db = Some it ->
  exists o, o ∈ set_outbox db /\ pending o = true /\ (ob_next_attempt_at o <= now)%Z /\ to_item o = it.
Proof.
  unfold get_due_outbox_item. intros (o & Hf & ->)%fmap_Some. apply List.find_some in Hf as [Hin Hb].
  exists o. apply list_elem_of_In in Hin. unfold due in Hb. by bool_hyps.
Qed.

(** A visit, from the state before the worker looks. *)
Lemma visit_sound stop s o :
  db_ok (app_db (look s)) -> o ∈ set_outbox (app_db (look s)) -> pending o = true ->
  (ob_next_attempt_at o <= env_now (ticks s))%Z ->
  sound_from stop s (snd (_deliver_item settings (to_item o) (look s))).
Proof.
  intros Hok Ho Hp Hd. pose proof (deliver_item_cases (to_item o) (look s)) as Hc.
  assert (rtc (db_step settings) (app_db s) (app_db (look s))) as Hlook by apply unlocked_steps.
  assert (pass_run stop s [(look s, o)] (snd (_deliver_item settings (to_item o) (look s)))) as Hrun
    by (apply run_visit; [done..|apply run_end]).
  destruct (_deliver_item settings (to_item o) (look s)) as [[u|e] s'] eqn:E; simpl in *.
  - destruct Hc as (tr & op & db1 & Hv & Htr & Hm & Hop). split.
    + rewrite Hop. etrans; [exact Hlook|]. eapply rtc_r; [by apply meanwhile_steps|]. eapply verdict_step; [done|].
      simpl. pose proof (ok_attempts _ Hok) as Ha. rewrite Forall_forall in Ha. by apply Ha.
    + exists [(look s, o)], tr. split; [done|]. split; [done|]. intros rq Hin.
      eapply (verdict_justified (look s) o); [left| |done..].
      unfold sent_by. rewrite E. cbn [snd]. by rewrite Htr, drop_app_length.
  - destruct Hc as [Hw Hm]. split; [etrans; [exact Hlook|by apply meanwhile_steps]|].
    exists [(look s, o)], []. rewrite app_nil_r. split; [done|]. split; [done|set_solver].
Qed.

Lemma stopped_sound stop s : exists b s1, stoppedM stop s = (Ok b, s1) /\ sound_from stop s s1.
Proof.
  unfold stoppedM. destruct stop; eexists _, _; (split; [reflexivity|]); apply sound_silent; try done.
  - apply run_poll; [done|apply run_end].
  - apply run_end.
Qed.

Lemma look_sound stop s : sound_from stop s (look s).
Proof. apply sound_silent; [apply unlocked_steps|apply run_look, run_end|done]. Qed.

(** Reading the clock and then the database. *)
Lemma look_run {A B} (f : Z -> Db -> A) (k : A -> M App B) s :
  (now ← worldM nowM; a ← unlockedM (readD (fun db => Ok (f now db))); k a) s =
  k (f (env_now (ticks s)) (app_db (look s))) (look s).
Proof. done. Qed.

Lemma sound_ok stop s s' : sound_from stop s s' -> db_ok (app_db s) -> db_ok (app_db s').
Proof. intros [Hs _]. by apply steps_ok. Qed.

Lemma deliver_items_sound stop items s :
  db_ok (app_db s) -> sound_from stop s (snd (deliver_items settings stop items s)).
Proof.
  revert s. induction items as [|item rest IH]; intros s Hok; simpl deliver_items.
  { apply sound_silent; [done|apply run_end|done]. }
  destruct (stopped_sound stop s) as (b & s1 & Hr1 & Hs1).
  rewrite (M_bind_run _ _ _ _ _ Hr1). destruct b; [done|].
  destruct (stopped_sound stop s1) as (b & s2 & Hr2 & Hs2).
  rewrite (M_bind_run _ _ _ _ _ Hr2). destruct b; [by eapply sound_trans|].
  assert (sound_from stop s s2) as Hs by by eapply sound_trans.
  assert (db_ok (app_db (look s2))) as Hok4 by (eapply sound_ok; [apply (look_sound stop)|]; eauto using sound_ok).
  eapply sound_trans; [exact Hs|]. rewrite look_run.
  destruct (get_due_outbox_item _ (item_id item) (app_db (look s2))) as [cur|] eqn:Hcur.
  2:{ eapply sound_trans; [apply look_sound|]. by apply IH. }
  apply due_item_row in Hcur as (o & Ho & Hp & Hd & <-).
  pose proof (visit_sound stop s2 o Hok4 Ho Hp Hd) as Hs5.
  assert (db_ok (app_db (snd (_deliver_item settings (to_item o) (look s2))))) as Hok5 by eauto using sound_ok.
  unfold mbind at 1, M_bind at 1. destruct (_deliver_item settings (to_item o) (look s2)) as [[u|e] s5]; simpl in Hs5, Hok5.
  - pose proof (IH s5 Hok5) as Hs6. unfold mbind, M_bind.
    destruct (deliver_items settings stop rest s5) as [[n|e] s6]; simpl in *; eauto using sound_trans.
  - done.
Qed.

Lemma deliver_pending_sound stop s :
  db_ok (app_db s) -> sound_from stop s (snd (deliver_pending settings stop s)).
Proof.
  intros Hok. unfold deliver_pending. rewrite (look_run (fun now => get_due_outbox now 25)).
  eapply sound_trans; [apply look_sound|]. apply deliver_items_sound.
  by eapply sound_ok; [apply (look_sound stop)|].
Qed.

(** ** Nothing is lost *)

Lemma meanwhile_keeps db db' o :
  meanwhile db db' -> o ∈ set_outbox db -> pending o = true -> o ∈ set_outbox db'.
Proof.
  induction 1 as [|a b c Hab _ IH]; [done|]. intros Ho Hp. apply IH; [|done].
  apply lock_free_keeps in Hab as [_ Hk]. auto.
Qed.

(** The same delivery, possibly with another status, attempt count or date. *)
Definition same_delivery (o o' : OutboxRow) : Prop :=
  ob_id o' = ob_id o /\ ob_stream_id o' = ob_stream_id o /\
  ob_payload o' = ob_payload o /\ ob_created_at o' = ob_created_at o.

Definition kept (o : OutboxRow) (st : string) (db : Db) : Prop :=
  exists o', o' ∈ set_outbox db /\ same_delivery o o' /\ ob_status o' = st.

Lemma update_kept o st f db :
  o ∈ set_outbox db -> pending o = true -> same_delivery o (f o) -> ob_status (f o) = st ->
  kept o st (upd_outbox (update_where (fun x => has_id (ob_id o) x && pending x) f) db).
Proof.
  intros Ho Hp Hs Hst. exists (f o). split; [|done]. apply update_where_elem. exists o.
  split; [done|]. unfold has_id. by rewrite Z.eqb_refl, Hp.
Qed.

Definition unreadable (item : OutboxItem) : Prop :=
  (exists msg, decrypt_outbox_payload settings item = Err (EncryptedDataError msg)) \/
  (exists payload, decrypt_outbox_payload settings item = Ok payload /\ _valid_payload payload = false).

(** The stream the delivery was signed for is gone or has been changed. *)
Definition superseded (db : Db) (item : OutboxItem) : Prop :=
  exists payload, decrypt_outbox_payload settings item = Ok payload /\
    match get_stream_by_id settings (item_stream_id item) db with
    | Ok (Some stream) => _payload_matches_stream payload stream = false
    | Ok None => True
    | Err _ => False
    end.

(** Handled from [start] on, the receiver confirmed it. *)
Definition acknowledged (db : Db) (item : OutboxItem) (start : nat) (tr : list event) : Prop :=
  exists payload stream, addressed db item payload stream /\ confirmed stream payload (S start) tr.

Lemma verdict_kept db o start stop tr op db1 :
  verdict db (to_item o) start stop tr op -> o ∈ set_outbox db1 -> pending o = true ->
  kept o "pending" (op db1) \/ (kept o "blocked" (op db1) /\ unreadable (to_item o)) \/
  superseded db (to_item o) \/ acknowledged db (to_item o) start tr.
Proof.
  intros Hv Ho Hp. pose proof Hp as Hst. unfold pending in Hst. bool_hyps.
  destruct Hv as [msg stop Hd|payload stop Hd Hval|payload stop Hd _ Hg|payload stream stop Hd _ Hg Hm
                 |payload stream tick Hd _ Hg Hm Hen|payload stream tr stop Ha _ Hc|payload stream tr tick reason Ha _ _ _].
  - right; left. split; [by apply update_kept|]. left. eauto.
  - right; left. split; [by apply update_kept|]. right. eauto.
  - right; right; left. exists payload. by rewrite Hg.
  - right; right; left. exists payload. by rewrite Hg.
  - left. by apply update_kept.
  - right; right; right. by exists payload, stream.
  - left. by apply update_kept.
Qed.

(** ** Claims *)

(** C5: one delivery attempt does what the queue promises: whatever the stored
    row holds, the handler settles it with exactly one write, chosen by the
    table [verdict] - blocked when the payload cannot be decrypted or is
    malformed, cancelled when its stream is gone or no longer matches,
    postponed when the stream is not enabled, completed when the receiver
    confirmed it, retried otherwise, the next attempt dated by the clock at
    the end of this one plus [retry_delay] of the attempts made (C34) - and the
    only request it sends is the signed SET to the matching receiver.  A
    confirmed delivery is retried only when the deadline expired.  If the
    handler raises, it has neither sent nor written anything. *)
Theorem deliver_item_refines item s :
  match _deliver_item settings item s with
  | (Ok _, s') => exists tr op db1, verdict (app_db s) item (ticks s) (ticks s') tr op /\
      w_trace (app_world s') = (w_trace (app_world s) ++ tr)%list /\
      meanwhile (app_db s) db1 /\ app_db s' = op db1
  | (Err _, s') => w_trace (app_world s') = w_trace (app_world s) /\ meanwhile (app_db s) (app_db s')
  end.
Proof. apply deliver_item_cases. Qed.

(** C4: no delivery is lost silently: after an attempt on a pending row,
    whatever the network, the clock and the other tasks did, the row is still
    stored with its payload - pending, or blocked because it cannot be read -
    unless the receiver confirmed the SET with a 2xx answer or the stream it
    was signed for was deleted or reconfigured. *)
Theorem delivery_never_lost o s :
  o ∈ set_outbox (app_db s) -> pending o = true ->
  let s' := snd (_deliver_item settings (to_item o) s) in
  exists tr, w_trace (app_world s') = (w_trace (app_world s) ++ tr)%list /\
    (kept o "pending" (app_db s') \/
     (kept o "blocked" (app_db s') /\ unreadable (to_item o)) \/
     superseded (app_db s) (to_item o) \/ acknowledged (app_db s) (to_item o) (ticks s) tr).
Proof.
  intros Ho Hp. pose proof (deliver_item_cases (to_item o) s) as Hc.
  destruct (_deliver_item settings (to_item o) s) as [[u|e] s']; simpl.
  - destruct Hc as (tr & op & db1 & Hv & Htr & Hm & ->). exists tr. split; [done|].
    eapply verdict_kept; [done| |done]. by eapply meanwhile_keeps.
  - destruct Hc as [Hw Hm]. exists []. rewrite app_nil_r. split; [done|]. left. exists o.
    split; [by eapply meanwhile_keeps|]. split; [done|]. unfold pending in Hp. by bool_hyps.
Qed.

(** C1: a pass of the delivery worker never sends a stale SET: the pass is a
    sequence of visits, each to a row the worker has just read as pending and
    due, and every request it sends is sent by one of them, in whose state of
    the database the row is still there and is addressed to a stream that
    exists, is enabled and has the audience, URL, token and events the SET was
    signed for; and the receiver host was resolved to public addresses for
    that request.  This holds under every interleaving with the other tasks of
    the service: what they do at each access is the oracle's answer then. *)
Theorem deliver_pending_sends_current stop s :
  db_ok (app_db s) ->
  let s' := snd (deliver_pending settings stop s) in
  rtc (db_step settings) (app_db s) (app_db s') /\
  exists visits tr, pass_run stop s visits s' /\ w_trace (app_world s') = (w_trace (app_world s) ++ tr)%list /\
    forall rq, Sent rq ∈ tr -> justified visits rq.
Proof. intros Hok. by apply deliver_pending_sound. Qed.
End worker.

(** ** Retry spacing *)

Lemma pow2_mono a b : (0 <= a <= b -> 2 ^ a <= 2 ^ b)%Z.
Proof. intros. apply Z.pow_le_mono_r; lia. Qed.

(** C34: retries back off exponentially and stay bounded: the first delay is 5
    seconds, each further one doubles while it is below an hour, and from the
    eleventh attempt on it is exactly one hour; the delay never shrinks. *)
Theorem retry_delay_backoff attempts :
  (1 <= attempts)%Z ->
  retry_delay 1 = 5%Z /\
  (5 <= retry_delay attempts <= 3600)%Z /\
  (retry_delay attempts <= retry_delay (attempts + 1))%Z /\
  (attempts < 10 -> retry_delay (attempts + 1) = 2 * retry_delay attempts)%Z /\
  (11 <= attempts -> retry_delay attempts = 3600)%Z.
Proof.
  intros Ha. unfold retry_delay, _RETRY_MAX_SECONDS, _RETRY_BASE_SECONDS.
  pose proof (pow2_mono 0 (Z.min (attempts - 1) 10) ltac:(lia)).
  pose proof (pow2_mono (Z.min (attempts - 1) 10) (Z.min (attempts + 1 - 1) 10) ltac:(lia)).
  split_and!; [done|lia|lia|lia| |].
  - intros Hlt. rewrite (Z.min_l (attempts + 1 - 1)), (Z.min_l (attempts - 1)) by lia. replace (attempts + 1 - 1)%Z with (Z.succ (attempts - 1)) by lia.
    rewrite Z.pow_succ_r by lia. pose proof (pow2_mono (attempts - 1) 8 ltac:(lia)). lia.
  - intros Hge. rewrite (Z.min_r _ 10) by lia. done.
Qed.

(** ** Routing events to the queue *)

Section enqueue.
Context `{CryptoLib} `{Env} `{Tasks} (settings : Settings) (keys : KeyStore).

Definition wants (stream : Stream) (event : MappedEvent) : bool :=
  match not_requested stream event with Ok b => negb b | Err _ => false end.

(** The deliveries an accepted webhook must produce, in order. *)
Definition routed (streams : list Stream) (events : list MappedEvent) : list (Stream * MappedEvent) :=
  flat_map (fun stream => map (pair stream) (List.filter (wants stream) events))
    (List.filter (fun stream => String.eqb (status stream) "enabled") streams).

(** A queued delivery carries a SET signed for its stream, event and subject. *)
Definition signed_delivery (email : string) (route : Stream * MappedEvent) (delivery : Stream * dict) : Prop :=
  let '(stream, event) := route in
  fst delivery = stream /\ exists now jti fresh token,
    sign_set settings keys now jti fresh (uri event) (aud stream) email
      (Some (payload event)) (txn event) = Ok token /\
    snd delivery = delivery_payload stream (uri event) token.

Lemma signM_ok event audience email w token w' :
  signM settings keys event audience email w = (Ok token, w') ->
  exists now jti fresh, sign_set settings keys now jti fresh (uri event) audience email
    (Some (payload event)) (txn event) = Ok token.
Proof.
  unfold signM, nowM, uuidM, ask, liftR, mbind, M_bind. intros [= Ht <-]. eauto.
Qed.

Lemma sign_events_ok stream events email w ds w' :
  sign_events settings keys stream events email w = (Ok ds, w') ->
  Forall2 (signed_delivery email) (map (pair stream) (List.filter (wants stream) events)) ds.
Proof.
  revert w ds; induction events as [|event events IH]; intros w ds; simpl.
  { intros [= <- <-]. constructor. }
  rewrite liftR_bind. unfold wants at 1. destruct (not_requested stream event) as [[]|e]; simpl; [apply IH| |done].
  intros Hrun. apply M_bind_ok in Hrun as (token & w1 & Hsign & Hrun).
  apply M_bind_ok in Hrun as (rest & w2 & Hrest & Hrun). injection Hrun as <- <-.
  constructor; [|by eapply IH]. split; [done|].
  apply signM_ok in Hsign as (now & jti & fresh & Hs). eauto 10.
Qed.

Lemma sign_deliveries_ok streams events email w ds w' :
  sign_deliveries settings keys streams events email w = (Ok ds, w') ->
  Forall2 (signed_delivery email) (routed streams events) ds.
Proof.
  revert w ds; induction streams as [|stream streams IH]; intros w ds; unfold routed; simpl.
  { intros [= <- <-]. constructor. }
  destruct (String.eqb (status stream) "enabled"); simpl; [|apply IH].
  intros Hrun. apply M_bind_ok in Hrun as (here & w1 & Hh & Hrun).
  apply M_bind_ok in Hrun as (rest & w2 & Hrest & Hrun). injection Hrun as <- <-.
  apply Forall2_app; [by eapply sign_events_ok|by eapply IH].
Qed.

Definition quiet (e : event) : Prop := False.

Lemma sign_events_emits stream events email : emits quiet (sign_events settings keys stream events email).
Proof.
  induction events as [|event events IH]; simpl; [apply emits_ret|].
  apply emits_bind; [apply emits_liftR|]. intros []; [done|].
  unfold signM, nowM, uuidM. auto 10 with emits.
Qed.

Lemma sign_deliveries_emits streams events email : emits quiet (sign_deliveries settings keys streams events email).
Proof.
  induction streams as [|stream streams IH]; simpl; [apply emits_ret|].
  apply emits_if; [done|]. apply emits_bind; [apply sign_events_emits|]. auto with emits.
Qed.

Lemma quiet_trace {A} (m : M World A) w r w' : emits quiet m -> m w = (r, w') -> w_trace w' = w_trace w.
Proof.
  intros Hm Hrun. apply Hm in Hrun as (tr & -> & Htr). destruct Htr as [|x l []]. apply app_nil_r.
Qed.

Lemma enqueue_outbox_cases now ent ds db :
  match enqueue_outbox settings now ent ds db with
  | (Ok n, db') => n = Z.of_nat (length ds) /\ Forall (deliverable settings db) ds /\
      db' = insert_deliveries settings now ent ds db
  | (Err e, db') => db' = db
  end.
Proof.
  destruct ds as [|d ds].
  { split_and!; [done..|]. destruct db. unfold insert_deliveries. simpl. by rewrite app_nil_r, Z.add_0_r. }
  rewrite enqueue_outbox_run. pose proof (check_deliveries_ok settings db (d :: ds)) as Hc.
  destruct (mapR _ _); [|done]. destruct (_ <? _)%Z; [done|]. split_and!; [done| |done]. by apply Hc.
Qed.

(** [ds] was appended to the queue of [db], at a time that has passed, and
    nothing else was written. *)
Definition committed (ds : list (Stream * dict)) (db : Db) (s' : App) : Prop :=
  exists u ent, (u <= w_tick (app_world s'))%nat /\
    app_db s' = insert_deliveries settings (env_now u) ent ds db.

(** The outcomes of [enqueue_events]. *)
Lemma enqueue_events_cases streams events email s :
  let '(r, s') := enqueue_events settings keys streams events email s in
  w_trace (app_world s') = w_trace (app_world s) /\
  match r with
  | Ok n => exists ds t,
      let db := tasks_unlocked t (app_db s) in
      Forall2 (signed_delivery email) (routed streams events) ds /\
      n = Z.of_nat (length ds) /\ Forall (deliverable settings db) ds /\ committed ds db s'
  | Err e => app_db s' = app_db s \/ exists t, app_db s' = tasks_unlocked t (app_db s)
  end.
Proof.
  unfold enqueue_events, worldM, zoom. unfold mbind at 1, M_bind at 1. simpl lget.
  destruct (sign_deliveries settings keys streams events email (app_world s)) as [[ds|e] w1] eqn:Hsign.
  2:{ cbn. split; [|by left]. by eapply quiet_trace, Hsign; apply sign_deliveries_emits. }
  assert (w_trace w1 = w_trace (app_world s)) as Hw
    by (eapply quiet_trace, Hsign; apply sign_deliveries_emits).
  apply sign_deliveries_ok in Hsign.
  cbn [mbind M_bind nowM ask lset lget app_world_lens app_world app_db w_tick w_trace].
  unfold unlockedM, dbM, mbind, M_bind. cbn [app_world app_db w_tick w_trace].
  match goal with |- context [enqueue_outbox settings ?n ?en ds ?d] =>
    pose proof (enqueue_outbox_cases n en ds d) as Hq;
    destruct (enqueue_outbox settings n en ds d) as [[n'|e] db'] end; (split; [done|]).
  - destruct Hq as (-> & Hd & Hset). eexists ds, _. split_and!; [done|done|exact Hd|].
    eexists _, _. split; [|exact Hset]. simpl. lia.
  - right. eauto.
Qed.

(** An accepted webhook queues exactly the SETs it must, all or none: when
    [enqueue_events] returns [n], the outbox has grown by exactly the [n]
    routed deliveries - one per enabled stream and requested event, in order,
    each signed for its stream, event and subject - against stream rows that
    were unchanged and enabled at commit time.  When it raises, it has queued
    nothing.  Nothing is sent in either case. *)
Theorem enqueue_events_all_or_nothing streams events email s :
  let '(r, s') := enqueue_events settings keys streams events email s in
  w_trace (app_world s') = w_trace (app_world s) /\
  match r with
  | Ok n => exists ds t,
      let db := tasks_unlocked t (app_db s) in
      Forall2 (signed_delivery email) (routed streams events) ds /\
      n = Z.of_nat (length ds) /\ Forall (deliverable settings db) ds /\ committed ds db s'
  | Err e => app_db s' = app_db s \/ exists t, app_db s' = tasks_unlocked t (app_db s)
  end.
Proof. apply enqueue_events_cases. Qed.

Lemma plain_strings l : plain (JArr (map JStr l)) = true.
Proof. by induction l. Qed.

Lemma forallb_strings l : forallb is_str (map JStr l) = true.
Proof. by induction l. Qed.

(** What is queued can be delivered: for a stream that asks for a list of
    event URIs, the payload stored for it decrypts, passes the worker's shape
    check and matches the stream, so the worker blocks or cancels it only if
    the key or the stream changes afterwards. *)
Theorem queued_payload_deliverable `{!CryptoLaws} stream uris event_uri token now ent seq i :
  events_requested stream = JArr (map JStr uris) ->
  exists p,
    decrypt_outbox_payload settings
      (to_item (outbox_row settings now ent seq i (stream, delivery_payload stream event_uri token))) = Ok p /\
    _valid_payload p = true /\ _payload_matches_stream p stream = true /\ str_field "token" p = token.
Proof.
  intros Hev. exists (delivery_payload stream event_uri token). split_and!.
  - assert (plain (JObj (delivery_payload stream event_uri token)) = true) as Hp.
    { unfold delivery_payload. rewrite Hev. cbn -[bool_decide].
      rewrite bool_decide_eq_true_2 by (repeat constructor; set_solver).
      change (plain (JArr (map JStr uris)) && true = true). by rewrite plain_strings. }
    by apply decrypt_outbox_row.
  - unfold _valid_payload, delivery_payload. rewrite Hev. cbn -[forallb]. by rewrite forallb_strings.
  - apply matches_signed_for. unfold signed_for. split_and!; try done.
    rewrite Hev. unfold delivery_payload. cbn -[py_eq]. rewrite Hev. by apply py_eq_strings.
  - done.
Qed.
End enqueue.

(** ** Witnesses: a receiver that accepts, and no other task *)
Module Example.
Import Toy.

#[export] Instance quiet_env : Env := {|
  env_now t := 1700000000 + Z.of_nat t;
  env_monotonic t := Z.of_nat t;
  env_uuid t := "uuid" +:+ str_of_int (Z.of_nat t);
  env_entropy t := "iv" +:+ str_of_int (Z.of_nat t);
  env_http t rq := Ok {| rs_status := 202; rs_content := ""; rs_text := "";
                         rs_json := Err JSONDecodeError; rs_headers := [] |};
  env_getaddrinfo t host := Ok ["93.184.216.34"];
  env_deadline t := None;
|}%Z.

#[export] Instance no_tasks : Tasks := {|
  tasks_unlocked t db := db;
  tasks_locked t db := db;
  stop_requested t := false;
|}.

#[export] Instance no_tasks_laws settings : TasksLaws settings.
Proof. split; intros; apply rtc_refl. Qed.

Definition queued_db : Db :=
  snd (enqueue_outbox example_settings 1700000000 (fun _ => "iv")
         [(example_stream, delivery_payload example_stream SESSION_REVOKED "signed.set")] example_db).
Definition queued_app : App := {| app_world := start; app_db := queued_db |}.
Definition queued_row : OutboxRow :=
  outbox_row example_settings 1700000000 (fun _ => "iv") 0 0
    (example_stream, delivery_payload example_stream SESSION_REVOKED "signed.set").

Lemma queued_db_ok : db_ok queued_db.
Proof.
  apply (reachable_db_ok example_settings). eapply reach_step; [eapply reach_step; [apply (reach_init _ true)|]|].
  - apply (step_save example_settings "iv" example_stream).
  - apply (step_enqueue example_settings).
Qed.

(** The pending delivery is sent, confirmed and removed. *)
Example delivered :
  set_outbox (app_db (snd (deliver_pending example_settings false queued_app))) = [] /\
  w_trace (app_world (snd (deliver_pending example_settings false queued_app))) =
    [Resolved "receiver.example.com"; Sent (receiver_request example_stream "signed.set")].
Proof. vm_compute. split; reflexivity. Qed.

Lemma deliver_item_refines_witness :
  match _deliver_item example_settings (to_item queued_row) queued_app with
  | (Ok _, s') => exists tr op db1, verdict example_settings (app_db queued_app) (to_item queued_row) 0 (w_tick (app_world s')) tr op /\
      w_trace (app_world s') = (w_trace (app_world queued_app) ++ tr)%list /\
      meanwhile example_settings (app_db queued_app) db1 /\ app_db s' = op db1
  | (Err _, s') => w_trace (app_world s') = w_trace (app_world queued_app) /\
      meanwhile example_settings (app_db queued_app) (app_db s')
  end.
Proof. apply (deliver_item_refines example_settings (to_item queued_row) queued_app). Defined.

Lemma delivery_never_lost_witness :
  exists tr, w_trace (app_world (snd (_deliver_item example_settings (to_item queued_row) queued_app))) = tr /\
    (kept queued_row "pending" (app_db (snd (_deliver_item example_settings (to_item queued_row) queued_app))) \/
     (kept queued_row "blocked" (app_db (snd (_deliver_item example_settings (to_item queued_row) queued_app)))
      /\ unreadable example_settings (to_item queued_row)) \/
     superseded example_settings queued_db (to_item queued_row) \/
     acknowledged example_settings queued_db (to_item queued_row) 0 tr).
Proof.
  apply (delivery_never_lost example_settings queued_row queued_app);
    [vm_compute; left | vm_compute; reflexivity].
Defined.

Lemma deliver_pending_sends_current_witness :
  exists visits, pass_run example_settings false queued_app visits (snd (deliver_pending example_settings false queued_app)) /\
    justified example_settings visits (receiver_request example_stream "signed.set").
Proof.
  destruct (deliver_pending_sends_current example_settings false queued_app queued_db_ok)
    as [_ (visits & tr & Hrun & Htr & Hj)].
  exists visits. split; [exact Hrun|]. apply Hj. rewrite (proj2 delivered) in Htr.
  change (w_trace (app_world queued_app) ++ tr)%list with tr in Htr. rewrite <- Htr. right. left.
Defined.

Lemma queued_payload_deliverable_witness :
  exists p, decrypt_outbox_payload example_settings (to_item queued_row) = Ok p /\
    _valid_payload p = true /\ _payload_matches_stream p example_stream = true /\
    str_field "token" p = "signed.set".
Proof.
  apply (queued_payload_deliverable example_settings example_stream
    ["https://schemas.openid.net/secevent/caep/event-type/session-revoked"]). reflexivity.
Defined.

Lemma retry_delay_backoff_witness : retry_delay 11 = 3600%Z.
Proof. apply (retry_delay_backoff 11); lia. Defined.
End Example.
