(* ===== verification/OutboxDrain.v ===== *)
(** * The queue drains

    The progress of the worker: while the receiver works and nobody else
    writes to the database, as many rounds as it takes to go through the queue
    in batches of 25 leave nothing pending, and the receiver has been sent
    every delivery meant for it once, in the order they were queued. *)
From Stdlib Require Import ZArith Lia Ascii String Sorting.Sorted.
From stdpp Require Import base option list strings.
From S2P Require Import Prelude PyStr PyVal Config Crypto Database DatabaseSpec World UrlValidation Pusher Outbox OutboxSpec.

Open Scope string_scope.

Definition pendings (db : Db) : list OutboxRow := List.filter pending (set_outbox db).
Definition is_row (rows : list OutboxRow) (o : OutboxRow) : bool := existsb (fun r => has_id (ob_id r) o) rows.
Definition others (rows l : list OutboxRow) : list OutboxRow := List.filter (fun o => negb (is_row rows o)) l.

(** ** Lists *)

Lemma filter_filter_comm {A} (p q : A -> bool) l : List.filter p (List.filter q l) = List.filter q (List.filter p l).
Proof. induction l as [|x l IH]; [done|]. simpl. destruct (p x) eqn:P, (q x) eqn:Q; simpl; rewrite ?P, ?Q, IH; done. Qed.

Lemma filter_true {A} (p : A -> bool) l : Forall (fun x => p x = true) l -> List.filter p l = l.
Proof. induction 1 as [|x l Hx _ IH]; [done|]. simpl. by rewrite Hx, IH. Qed.

Lemma insert_by_filter {A} (leb : A -> A -> bool) (p : A -> bool) x l :
  (forall a b c, leb a b = true -> leb b c = true -> leb a c = true) ->
  StronglySorted (fun a b => leb a b = true) l ->
  List.filter p (insert_by leb x l) = if p x then insert_by leb x (List.filter p l) else List.filter p l.
Proof.
  intros Htrans. induction 1 as [|y l Hl IH Hy]; [done|]. simpl. destruct (leb x y) eqn:Hxy.
  - simpl. destruct (p x) eqn:Px; [|done]. destruct (p y) eqn:Py; simpl; [by rewrite Hxy|].
    destruct (List.filter p l) as [|z t] eqn:E; [done|]. simpl.
    assert (leb x z = true) as ->; [|done]. eapply Htrans; [exact Hxy|]. rewrite Forall_forall in Hy.
    apply Hy, list_elem_of_In. eapply (proj1 (filter_In p z l)). rewrite E. by left.
  - simpl. rewrite IH. destruct (p x) eqn:Px, (p y) eqn:Py; simpl; rewrite ?Hxy; done.
Qed.

Lemma order_by_filter {A} (leb : A -> A -> bool) (p : A -> bool) l :
  (forall a b, leb a b = true \/ leb b a = true) ->
  (forall a b c, leb a b = true -> leb b c = true -> leb a c = true) ->
  List.filter p (order_by leb l) = order_by leb (List.filter p l).
Proof.
  intros Htot Htrans. induction l as [|x l IH]; [done|]. simpl.
  rewrite insert_by_filter; [|done|by apply order_by_sorted]. rewrite IH. by destruct (p x).
Qed.

Lemma others_cons x rows l : others (x :: rows) l = others rows (others [x] l).
Proof.
  unfold others. induction l as [|o l IH]; [done|]. cbn [List.filter].
  change (is_row (x :: rows) o) with (has_id (ob_id x) o || is_row rows o).
  change (is_row [x] o) with (has_id (ob_id x) o || false).
  destruct (has_id (ob_id x) o); cbn [orb negb]; [done|]. cbn [List.filter]. by rewrite IH.
Qed.

Lemma others_fresh x l : ob_id x ∉ map ob_id l -> others [x] l = l.
Proof.
  intros Hx. apply filter_true, Forall_forall. intros o Ho. unfold is_row, has_id. simpl.
  destruct (Z.eqb_spec (ob_id o) (ob_id x)) as [E|]; [|done]. destruct Hx. rewrite <- E. by apply list_elem_of_fmap_2.
Qed.

(** What is left of a queue of distinct rows after its first [n]. *)
Lemma others_take n l : NoDup (map ob_id l) -> others (take n l) l = drop n l.
Proof.
  revert n. induction l as [|x l IH]; intros n Hnd; [by destruct n|]. apply NoDup_cons in Hnd as [Hx Hnd].
  destruct n as [|n]; [by apply filter_true, Forall_true|]. cbn [take drop].
  rewrite others_cons. assert (others [x] (x :: l) = others [x] l) as ->.
  { unfold others, is_row, has_id. simpl. by rewrite Z.eqb_refl. }
  by rewrite others_fresh, IH.
Qed.

Section drain.
Context `{CryptoLib} `{Env} `{Tasks}.
Variable settings : Settings.

(** Nobody else commits anything and the process is not stopped. *)
Definition alone : Prop :=
  forall t db, tasks_unlocked t db = db /\ tasks_locked t db = db /\ stop_requested t = false.

(** From the tick [T0] on, the receiver of [stream] resolves to public addresses
    and accepts what it is sent, in time. *)
Record receiver_up (T0 : nat) (stream : Stream) : Prop := {
  up_allowed : receiver_host_allowed (endpoint_url stream) (ssf_allowed_receiver_hosts settings) = true;
  up_host : str_true (safe_hostname (endpoint_url stream)) = true;
  up_resolves t : (T0 <= t)%nat -> exists ip ips, env_getaddrinfo t (safe_hostname (endpoint_url stream)) = Ok (ip :: ips) /\
    all_public (ip :: ips) = true;
  up_accepts t token : (T0 <= t)%nat -> exists response, env_http t (receiver_request stream token) = Ok response /\ is_success response = true;
  up_in_time t : (T0 <= t)%nat -> env_deadline t = None;
}.

(** The payload can be decrypted or is recognised as unreadable. *)
Definition recognised (o : OutboxRow) : Prop :=
  match decrypt_outbox_payload settings (to_item o) with Ok _ | Err (EncryptedDataError _) => True | Err _ => False end.

(** What becomes of a queued row: what is sent and what is written. *)
Definition settlement (stream : Stream) (o : OutboxRow) : list event * (Db -> Db) :=
  match decrypt_outbox_payload settings (to_item o) with
  | Err _ => ([], block_outbox_item (ob_id o) "payload_decryption_failed")
  | Ok payload =>
      if negb (_valid_payload payload) then ([], block_outbox_item (ob_id o) "payload_invalid")
      else if of_stream (stream_id stream) o && _payload_matches_stream payload stream
      then ([Resolved (safe_hostname (endpoint_url stream)); Sent (receiver_request stream (str_field "token" payload))],
            complete_outbox_item (ob_id o))
      else ([], cancel_outbox_item (ob_id o))
  end.

Lemma push_accepted T0 stream token event_uri w : receiver_up T0 stream -> (T0 <= w_tick w)%nat ->
  exists w', push_signed_set settings stream token event_uri w = (Ok true, w') /\
    w_trace w' = (w_trace w ++ [Resolved (safe_hostname (endpoint_url stream)); Sent (receiver_request stream token)])%list /\
    (w_tick w <= w_tick w')%nat.
Proof.
  intros Hup Hr. unfold push_signed_set, _revalidate_endpoint. cbv zeta. rewrite (up_allowed _ _ Hup), (up_host _ _ Hup). cbn [negb].
  destruct (up_resolves _ _ Hup (w_tick w) Hr) as (ip & ips & Hips & Hpub).
  assert (_resolve_host (safe_hostname (endpoint_url stream)) w = (Ok (ip :: ips), after_lookup (safe_hostname (endpoint_url stream)) w)) as Hres.
  { rewrite resolve_host_run. by rewrite Hips. }
  rewrite (M_bind_run _ _ _ _ _ (M_bind_run _ _ _ _ _ Hres)). cbn iota. rewrite Hpub. cbn [negb].
  rewrite post_set_run. eexists. cbn. destruct (up_accepts _ _ Hup (S (w_tick w)) token) as (rsp & -> & Hok); [lia|].
  split; [cbn; by rewrite Hok|]. cbn. rewrite <- app_assoc. split; [done|lia].
Qed.

Lemma attempt_accepted T0 stream payload w : receiver_up T0 stream -> (T0 <= w_tick w)%nat ->
  exists w', attempt settings stream payload w = (Ok (inl true), w') /\
    w_trace w' = (w_trace w ++ [Resolved (safe_hostname (endpoint_url stream));
                                Sent (receiver_request stream (str_field "token" payload))])%list /\
    (w_tick w <= w_tick w')%nat.
Proof.
  intros Hup Hr.
  destruct (push_accepted T0 stream (str_field "token" payload) (str_field "event_uri" payload) w Hup Hr) as (w' & E & Htr & Hle).
  eexists. split; [unfold attempt, catchM, wait_for, mbind, M_bind; rewrite E, (up_in_time _ _ Hup) by lia; reflexivity|]. simpl. split; [exact Htr|lia].
Qed.

(** ** One item *)

Hypothesis Halone : alone.

(** [m] answers [a], writes [op] and is seen as [tr]. *)
Definition runs {A} (m : M App A) (s : App) (a : A) (tr : list event) (op : Db -> Db) (s' : App) : Prop :=
  m s = (Ok a, s') /\ app_db s' = op (app_db s) /\ w_trace (app_world s') = (w_trace (app_world s) ++ tr)%list /\
  (w_tick (app_world s) <= w_tick (app_world s'))%nat.

(** One reading of the clock or the database. *)
Ltac runs_tick := split; [done|split; [by rewrite app_nil_r|simpl; lia]].

Lemma runs_bind {A B} (m : M App A) (k : A -> M App B) s a tr op s1 b tr' op' s2 :
  runs m s a tr op s1 -> runs (k a) s1 b tr' op' s2 -> runs (m ≫= k) s b (tr ++ tr')%list (fun db => op' (op db)) s2.
Proof.
  intros (E & Hdb & Htr & Hle) (E' & Hdb' & Htr' & Hle'). split; [by rewrite (M_bind_run _ _ _ _ _ E)|].
  split; [by rewrite Hdb', Hdb|]. split; [by rewrite Htr', Htr, app_assoc|lia].
Qed.

Lemma runs_silent {A B} (m : M App A) (k : A -> M App B) s a s1 b tr op s2 :
  runs m s a [] id s1 -> runs (k a) s1 b tr op s2 -> runs (m ≫= k) s b tr op s2.
Proof. intros Hm Hk. by apply (runs_bind _ _ _ _ _ _ _ _ _ _ _ Hm Hk). Qed.

Lemma runs_then {A B} (m : M App A) (k : A -> M App B) s a s1 b tr op s2 :
  runs m s a tr id s1 -> runs (k a) s1 b [] op s2 -> runs (m ≫= k) s b tr op s2.
Proof. intros Hm Hk. pose proof (runs_bind _ _ _ _ _ _ _ _ _ _ _ Hm Hk) as Hr. by rewrite app_nil_r in Hr. Qed.

Lemma runs_ret {A B} (m : M App A) (f : A -> B) s a tr op s' :
  runs m s a tr op s' -> runs (n ← m; mret (f n)) s (f a) tr op s'.
Proof. intros (E & Hdb & Htr). split; [by rewrite (M_bind_run _ _ _ _ _ E)|done]. Qed.

Lemma runs_catch {A} (m : M App A) h s a tr op s' : runs m s a tr op s' -> runs (catchM m h) s a tr op s'.
Proof. intros (E & Hdb & Htr). split; [unfold catchM; by rewrite E|done]. Qed.

Lemma runs_write op s : exists s', runs (lockedM (writeD op)) s tt [] op s'.
Proof.
  eexists. split; [reflexivity|]. simpl. rewrite app_nil_r. split; [|split; [done|lia]].
  by destruct (Halone (w_tick (app_world s)) (app_db s)) as (_ & -> & _).
Qed.

Lemma runs_locked_read {A} (f : Db -> result A) s a :
  f (app_db s) = Ok a -> exists s', runs (lockedM (readD f)) s a [] id s'.
Proof.
  intros Hf. destruct (Halone (w_tick (app_world s)) (app_db s)) as (_ & E & _).
  eexists. split; [unfold lockedM, dbM, readD; rewrite E, Hf; reflexivity|]. runs_tick.
Qed.

Lemma runs_unlocked_read {A} (f : Db -> result A) s a :
  f (app_db s) = Ok a -> exists s', runs (unlockedM (readD f)) s a [] id s'.
Proof.
  intros Hf. destruct (Halone (w_tick (app_world s)) (app_db s)) as (E & _ & _).
  eexists. split; [unfold unlockedM, dbM, readD; rewrite E, Hf; reflexivity|]. runs_tick.
Qed.

Lemma runs_now s : exists s', runs (worldM nowM) s (env_now (w_tick (app_world s))) [] id s'.
Proof. eexists. split; [reflexivity|]. runs_tick. Qed.

Lemma runs_stopped stop s : exists s', runs (stoppedM stop) s false [] id s'.
Proof.
  unfold stoppedM. destruct stop.
  - destruct (Halone (w_tick (app_world s)) (app_db s)) as (_ & _ & E). eexists.
    split; [unfold worldM, zoom, ask; simpl; rewrite E; reflexivity|]. runs_tick.
  - exists s. split; [done|]. runs_tick.
Qed.

Variable row : StreamRow.
Variable stream : Stream.
Hypothesis Hrow : _row_to_stream settings row = Ok stream.
Lemma get_stream_found o db : streams db = [row] ->
  get_stream_by_id settings (ob_stream_id o) db = Ok (if of_stream (stream_id stream) o then Some stream else None).
Proof.
  intros Hs. unfold get_stream_by_id, find_row, of_stream. rewrite Hs. simpl.
  assert (r_stream_id row = stream_id stream) as ->.
  { unfold _row_to_stream in Hrow. by apply bind_ok in Hrow as (ev & _ & (tok & _ & [= <-])%bind_ok). }
  rewrite (String.eqb_sym (ob_stream_id o)). destruct (String.eqb _ _); [|done]. by rewrite Hrow.
Qed.

Hypothesis Henabled : status stream = "enabled".
Variable T0 : nat.
Hypothesis Hup : receiver_up T0 stream.

(** The receiver works. *)
Definition ready (s : App) : Prop := (T0 <= w_tick (app_world s))%nat.

Lemma runs_ready {A} (m : M App A) s a tr op s' : ready s -> runs m s a tr op s' -> ready s'.
Proof. unfold ready. intros Hr (_ & _ & _ & Hle). lia. Qed.

Lemma deliver_item_settles o s : ready s -> streams (app_db s) = [row] -> recognised o ->
  exists s', runs (_deliver_item settings (to_item o)) s tt (settlement stream o).1 (settlement stream o).2 s'.
Proof.
  intros Hr Hs Hrec. unfold recognised in Hrec. unfold _deliver_item, settlement.
  destruct (decrypt_outbox_payload settings (to_item o)) as [payload|[]] eqn:Hdec; try done; [|apply runs_write].
  destruct (_valid_payload payload); cbn [negb]; [|apply runs_write].
  destruct (runs_locked_read (get_stream_by_id settings (ob_stream_id o)) s _ (get_stream_found o _ Hs)) as (s1 & Hread).
  destruct (of_stream (stream_id stream) o); cbn [andb].
  2:{ destruct (runs_write (cancel_outbox_item (ob_id o)) s1) as (s2 & Hw). exists s2. by apply (runs_silent _ _ _ _ _ _ _ _ _ Hread). }
  destruct (_payload_matches_stream payload stream) eqn:Hm.
  2:{ destruct (runs_write (cancel_outbox_item (ob_id o)) s1) as (s2 & Hw). exists s2. apply (runs_silent _ _ _ _ _ _ _ _ _ Hread).
      rewrite Hm. exact Hw. }
  destruct (attempt_accepted T0 stream payload (app_world s1) Hup (runs_ready _ _ _ _ _ _ Hr Hread)) as (w' & Ha & Htr & Hle).
  destruct (runs_write (complete_outbox_item (ob_id o)) {| app_world := w'; app_db := app_db s1 |}) as (s2 & Hw).
  exists s2. apply (runs_silent _ _ _ _ _ _ _ _ _ Hread). rewrite Hm, Henabled. cbn [negb String.eqb Ascii.eqb Bool.eqb].
  eapply (runs_then _ _ _ (inl true)); [|exact Hw].
  split; [unfold worldM, zoom; simpl; rewrite Ha; reflexivity|]. done.
Qed.

(** Rows that are settled leave the pending ones, in either way. *)
Lemma pendings_settled o (f : OutboxRow -> option OutboxRow) l :
  (forall x, has_id (ob_id o) x && pending x = false -> f x = Some x) ->
  (forall x y, has_id (ob_id o) x && pending x = true -> f x = Some y -> pending y = false) ->
  List.filter pending (omap f l) = others [o] (List.filter pending l).
Proof.
  intros Hkeep Hsettle. induction l as [|x l IH]; [done|]. cbn [omap list_omap List.filter].
  destruct (has_id (ob_id o) x && pending x) eqn:E.
  - specialize (Hsettle x). apply andb_true_iff in E as [Ei Ep]. rewrite Ep. unfold others at 1. cbn [List.filter].
    change (is_row [o] x) with (has_id (ob_id o) x || false). rewrite Ei. cbn [orb negb].
    destruct (f x) as [y|]; [|exact IH]. cbn [List.filter]. by rewrite (Hsettle y) by (by rewrite ?Ei, ?Ep).
  - rewrite (Hkeep x E). cbn [List.filter]. destruct (pending x) eqn:Ep; [|exact IH].
    unfold others at 1. cbn [List.filter]. change (is_row [o] x) with (has_id (ob_id o) x || false).
    rewrite andb_true_r in E. rewrite E. cbn [orb negb]. f_equal. exact IH.
Qed.

Lemma omap_total {A B} (f : A -> B) l : omap (fun x => Some (f x)) l = map f l.
Proof. induction l as [|x l IH]; [done|]. cbn. by f_equal. Qed.

Lemma omap_filter {A} (p : A -> bool) l : omap (fun x => if p x then Some x else None) l = List.filter p l.
Proof. induction l as [|x l IH]; [done|]. cbn. destruct (p x); by rewrite <- IH. Qed.

Lemma settlement_pendings o db :
  streams ((settlement stream o).2 db) = streams db /\
  pendings ((settlement stream o).2 db) = others [o] (pendings db).
Proof.
  assert (forall d, pendings (upd_outbox (delete_where (fun x => has_id (ob_id o) x && pending x)) d) =
                    others [o] (pendings d)) as Hdel.
  { intros d. unfold pendings. simpl set_outbox. unfold delete_where.
    rewrite <- (omap_filter (fun x => negb (has_id (ob_id o) x && pending x))).
    apply pendings_settled; intros x; [by intros ->|]. by intros y ->. }
  assert (forall reason d, pendings (block_outbox_item (ob_id o) reason d) = others [o] (pendings d)) as Hblock.
  { intros reason d. unfold pendings. simpl set_outbox. unfold update_where. rewrite <- omap_total.
    apply pendings_settled; intros x; [by intros ->|]. by intros y -> [= <-]. }
  unfold settlement. destruct (decrypt_outbox_payload _ _); [|split; [done|apply Hblock]].
  destruct (negb _); [split; [done|apply Hblock]|]. destruct (_ && _); (split; [done|apply Hdel]).
Qed.

(** ** One pass *)

Definition sent (rows : list OutboxRow) : list event := List.concat (map (fun o => (settlement stream o).1) rows).
Definition settled (rows : list OutboxRow) (db : Db) : Db := foldl (fun db o => (settlement stream o).2 db) db rows.

(** The state the worker can go on from: one stream, distinct rows. *)
Hypothesis Hclock : forall t t', (t <= t')%nat -> (env_now t <= env_now t')%Z.
Record waiting (db : Db) : Prop := {
  wt_stream : streams db = [row];
  wt_ids : NoDup (map ob_id (pendings db));
  wt_recognised : Forall recognised (pendings db);
}.

(** All of them are due at [T]. *)
Definition due_by (T : Z) (o : OutboxRow) : Prop := (ob_next_attempt_at o <= T)%Z.
Definition drainable (T : Z) (db : Db) : Prop := waiting db /\ Forall (due_by T) (pendings db).

(** It is [T] or later. *)
Definition late (T : Z) (s : App) : Prop := (T <= env_now (w_tick (app_world s)))%Z.

Lemma runs_late {A} T (m : M App A) s a tr op s' : late T s -> runs m s a tr op s' -> late T s'.
Proof. unfold late. intros Hl (_ & _ & _ & Hle). pose proof (Hclock _ _ Hle). lia. Qed.

Lemma pendings_elem o db : o ∈ pendings db <-> o ∈ set_outbox db /\ pending o = true.
Proof. unfold pendings. rewrite !list_elem_of_In. apply filter_In. Qed.

Lemma others_elem rows l o : o ∈ others rows l <-> o ∈ l /\ ob_id o ∉ map ob_id rows.
Proof.
  unfold others. rewrite !list_elem_of_In, filter_In. f_equiv. unfold is_row. rewrite negb_true_iff.
  rewrite <- not_true_iff_false, existsb_exists. unfold has_id. rewrite in_map_iff.
  split; intros Hn (r & Hr); apply Hn; exists r; rewrite Z.eqb_eq in *; naive_solver.
Qed.

Lemma others_sublist rows l : others rows l `sublist_of` l.
Proof. apply filter_sublist. Qed.

Lemma Forall_others (P : OutboxRow -> Prop) rows l : Forall P l -> Forall P (others rows l).
Proof. rewrite !Forall_forall. intros Hl o [Ho _]%others_elem. by apply Hl. Qed.

Lemma settle_waiting o db : waiting db -> waiting ((settlement stream o).2 db).
Proof.
  intros [Hs Hids Hrec]. destruct (settlement_pendings o db) as [Es Ep].
  split; rewrite ?Es, ?Ep; [done| |].
  - eapply sublist_NoDup; [exact Hids|apply (fmap_sublist ob_id), others_sublist].
  - by apply Forall_others.
Qed.

Lemma find_by_id o l : NoDup (map ob_id l) -> o ∈ l -> List.find (has_id (ob_id o)) l = Some o.
Proof.
  induction l as [|x l IH]; intros Hids Ho; [by apply elem_of_nil in Ho|].
  apply NoDup_cons in Hids as [Hx Hids]. cbn [List.find]. apply elem_of_cons in Ho as [->|Ho].
  - unfold has_id. by rewrite Z.eqb_refl.
  - unfold has_id at 1. destruct (Z.eqb_spec (ob_id x) (ob_id o)) as [E|]; [|by apply IH].
    destruct Hx. rewrite E. by apply list_elem_of_fmap_2.
Qed.

Lemma find_due now i l o : List.find (has_id i) (List.filter pending l) = Some o -> due_by now o ->
  List.find (fun x => has_id i x && due now x) l = Some o.
Proof.
  intros Hf Hd. induction l as [|x l IH]; [done|]. cbn [List.find List.filter] in *. unfold due in *.
  destruct (pending x) eqn:Px; cbn [andb]; [|rewrite andb_false_r; by apply IH].
  cbn [List.find] in Hf. destruct (has_id i x) eqn:Hi; cbn [andb]; [|by apply IH].
  injection Hf as ->. by rewrite (proj2 (Z.leb_le _ _) Hd).
Qed.

Lemma due_item now o db : waiting db -> due_by now o -> o ∈ pendings db ->
  get_due_outbox_item now (ob_id o) db = Some (to_item o).
Proof.
  intros [_ Hids _] Hnow Ho. unfold get_due_outbox_item. by rewrite (find_due now _ _ o (find_by_id o _ Hids Ho)).
Qed.

Lemma due_by_later T now o : (T <= now)%Z -> due_by T o -> due_by now o.
Proof. unfold due_by. lia. Qed.

Lemma deliver_items_settle T stop rows s :
  ready s -> late T s -> waiting (app_db s) -> NoDup (map ob_id rows) ->
  Forall (fun o => o ∈ pendings (app_db s)) rows -> Forall (due_by T) rows ->
  exists s', runs (deliver_items settings stop (map to_item rows)) s (Z.of_nat (length rows)) (sent rows) (settled rows) s'.
Proof.
  revert s. induction rows as [|o rows IH]; intros s Hr Hl Hdb Hids Hin Hdue.
  { exists s. split; [done|]. runs_tick. }
  apply NoDup_cons in Hids as [Ho Hids]. apply Forall_cons in Hin as [Hino Hin]. apply Forall_cons in Hdue as [Hdo Hdue].
  cbn [map deliver_items].
  destruct (runs_stopped stop s) as (s1 & R1). destruct (runs_stopped stop s1) as (s2 & R2).
  destruct (runs_now s2) as (s3 & R3).
  assert (late T s2) as Hl2 by (eapply runs_late, R2; eapply runs_late, R1; exact Hl).
  assert (app_db s3 = app_db s) as Hdb3.
  { destruct R1 as (_ & E1 & _), R2 as (_ & E2 & _), R3 as (_ & E3 & _). unfold id in *. congruence. }
  destruct (runs_unlocked_read (fun db => Ok (get_due_outbox_item (env_now (w_tick (app_world s2))) (ob_id o) db)) s3 (Some (to_item o)))
    as (s4 & R4). { rewrite Hdb3. f_equal. apply due_item; [done|by eapply due_by_later|done]. }
  assert (app_db s4 = app_db s) as Hdb4. { destruct R4 as (_ & E4 & _). unfold id in *. congruence. }
  assert (ready s4) as Hr4. { eapply runs_ready, R4. eapply runs_ready, R3. eapply runs_ready, R2. by eapply runs_ready, R1. }
  destruct (deliver_item_settles o s4 Hr4) as (s5 & R5).
  { rewrite Hdb4. apply Hdb. }
  { pose proof (wt_recognised _ Hdb) as Hrec. rewrite Forall_forall in Hrec. by apply Hrec. }
  assert (app_db s5 = (settlement stream o).2 (app_db s)) as Hdb5 by (destruct R5 as (_ & -> & _); by rewrite Hdb4).
  destruct (IH s5) as (s6 & R6); [by eapply runs_ready, R5| | |done| |done|].
  - eapply runs_late, R5. eapply runs_late, R4. eapply runs_late, R3. exact Hl2.
  - rewrite Hdb5. by apply settle_waiting.
  - rewrite Hdb5, (proj2 (settlement_pendings o _)). apply Forall_forall. intros x Hx. apply others_elem.
    rewrite Forall_forall in Hin. split; [by apply Hin|]. simpl. intros [E|Hn]%elem_of_cons; [|by apply elem_of_nil in Hn].
    apply Ho. rewrite <- E. by apply list_elem_of_fmap_2.
  - exists s6. eapply runs_silent; [exact R1|]. cbn iota. eapply runs_silent; [exact R2|]. cbn iota.
    eapply runs_silent; [exact R3|]. eapply runs_silent; [exact R4|]. cbn iota.
    replace (Z.of_nat (length (o :: rows))) with (1 + Z.of_nat (length rows))%Z by (simpl length; lia).
    exact (runs_bind _ _ _ _ _ _ _ _ _ _ _ R5 (runs_ret _ (fun n => (1 + n)%Z) _ _ _ _ _ R6)).
Qed.

Lemma settled_spec rows db : waiting db ->
  waiting (settled rows db) /\ pendings (settled rows db) = others rows (pendings db).
Proof.
  revert db. induction rows as [|o rows IH]; intros db Hdb.
  - split; [done|]. symmetry. by apply filter_true, Forall_true.
  - destruct (IH _ (settle_waiting o db Hdb)) as [Hd Hp]. split; [exact Hd|].
    cbn [settled foldl]. unfold settled in Hp. rewrite Hp, (proj2 (settlement_pendings o db)). symmetry. apply others_cons.
Qed.

(** The queue in the order it was filled. *)
Definition queue (db : Db) : list OutboxRow := order_by fifo (pendings db).

Lemma queue_others rows db db' : pendings db' = others rows (pendings db) -> queue db' = others rows (queue db).
Proof. intros E. unfold queue, others. rewrite order_by_filter; [by rewrite E|apply fifo_total|apply fifo_trans]. Qed.

Lemma queue_ids db : NoDup (map ob_id (pendings db)) -> NoDup (map ob_id (queue db)).
Proof. intros Hnd. unfold queue. by rewrite (Permutation_map ob_id (order_by_perm fifo (pendings db))). Qed.

Lemma due_batch T now db : Forall (due_by T) (pendings db) -> (T <= now)%Z ->
  get_due_outbox now 25 db = map to_item (take 25 (queue db)).
Proof.
  intros Hdue Hnow. unfold get_due_outbox, queue. do 3 f_equal. unfold pendings in *.
  revert Hdue. generalize (set_outbox db) as l.
  induction l as [|x l IH]; intros Hdue; [done|]. cbn [List.filter] in *. unfold due at 1.
  destruct (pending x); [|by apply IH]. apply Forall_cons in Hdue as [Hx Hdue]. unfold due_by in Hx.
  assert ((ob_next_attempt_at x <=? now)%Z = true) as -> by (apply Z.leb_le; lia). cbn [andb]. f_equal. by apply IH.
Qed.

Lemma take_queue_pendings n db : Forall (fun o => o ∈ pendings db) (take n (queue db)).
Proof.
  apply Forall_forall. intros o Ho. rewrite <- (order_by_perm fifo (pendings _)). fold (queue db).
  rewrite <- (take_drop n (queue db)). apply elem_of_app. by left.
Qed.

(** One round takes the first 25 rows off the queue. *)
Lemma deliver_pending_batch T stop s : ready s -> late T s -> drainable T (app_db s) ->
  let rows := take 25 (queue (app_db s)) in
  exists s', runs (deliver_pending settings stop) s (Z.of_nat (length rows)) (sent rows) (settled rows) s' /\
    drainable T (app_db s') /\ queue (app_db s') = drop 25 (queue (app_db s)).
Proof.
  intros Hr Hl [Hdb Hdue] rows. unfold deliver_pending.
  destruct (runs_now s) as (s1 & R1). assert (app_db s1 = app_db s) as Hdb1 by (by destruct R1 as (_ & -> & _)).
  destruct (runs_unlocked_read (fun db => Ok (get_due_outbox (env_now (w_tick (app_world s))) 25 db)) s1 (map to_item rows))
    as (s2 & R2). { rewrite Hdb1. f_equal. by apply (due_batch T). }
  assert (app_db s2 = app_db s) as Hdb2 by (destruct R2 as (_ & -> & _); by rewrite Hdb1).
  pose proof (queue_ids _ (wt_ids _ Hdb)) as Hids. pose proof (take_queue_pendings 25 (app_db s)) as Hin.
  destruct (deliver_items_settle T stop rows s2) as (s3 & R3).
  - eapply runs_ready, R2. by eapply runs_ready, R1.
  - eapply runs_late, R2. eapply runs_late, R1. exact Hl.
  - by rewrite Hdb2.
  - eapply sublist_NoDup; [exact Hids|]. apply (fmap_sublist ob_id), sublist_take.
  - by rewrite Hdb2.
  - rewrite Forall_forall in *. intros o Ho. apply Hdue, Hin, Ho.
  - exists s3. split; [eapply runs_silent; [exact R1|]; by eapply runs_silent; [exact R2|]|].
    assert (app_db s3 = settled rows (app_db s)) as -> by (destruct R3 as (_ & -> & _); by rewrite Hdb2).
    destruct (settled_spec rows _ Hdb) as [Hd Hp]. split.
    + split; [done|]. rewrite Hp. by apply Forall_others.
    + rewrite (queue_others _ _ _ Hp). by apply others_take.
Qed.

Lemma sent_app r1 r2 : sent (r1 ++ r2) = (sent r1 ++ sent r2)%list.
Proof. unfold sent. by rewrite map_app, concat_app. Qed.

Lemma delivery_loop_drains T rounds s : ready s -> late T s -> drainable T (app_db s) ->
  (length (queue (app_db s)) <= 25 * rounds)%nat ->
  exists s' op, runs (delivery_loop settings rounds) s false (sent (queue (app_db s))) op s' /\ pendings (app_db s') = [].
Proof.
  revert s. induction rounds as [|rounds IH]; intros s Hr Hl Hdb Hlen.
  - assert (queue (app_db s) = []) as Hq by (destruct (queue (app_db s)); [done|simpl in Hlen; lia]).
    exists s, id. rewrite Hq. split; [split; [done|]; runs_tick|].
    apply Permutation_nil_r. rewrite <- (order_by_perm fifo). by unfold queue in Hq; rewrite Hq.
  - cbn [delivery_loop]. destruct (runs_stopped true s) as (s1 & R1).
    assert (app_db s1 = app_db s) as Hdb1 by (by destruct R1 as (_ & -> & _)).
    destruct (deliver_pending_batch T true s1) as (s2 & R2 & Hdb2 & Hq2); [by eapply runs_ready, R1|by eapply runs_late, R1|by rewrite Hdb1|].
    destruct (runs_stopped true s2) as (s3 & R3). destruct (runs_now s3) as (s4 & R4).
    assert (app_db s4 = app_db s2) as Hdb4 by (destruct R3 as (_ & E3 & _), R4 as (_ & E4 & _); unfold id in *; congruence).
    assert (late T s4) as Hl4.
    { eapply runs_late, R4. eapply runs_late, R3. eapply runs_late, R2. by eapply runs_late, R1. }
    assert (ready s4) as Hr4.
    { eapply runs_ready, R4. eapply runs_ready, R3. eapply runs_ready, R2. by eapply runs_ready, R1. }
    rewrite Hdb1 in R2, Hq2. rewrite <- Hdb4 in Hdb2, Hq2.
    destruct (IH s4 Hr4 Hl4 Hdb2) as (s5 & op & R5 & Hp5); [rewrite Hq2, length_drop; lia|]. rewrite Hq2 in R5.
    pose proof (runs_catch _ (fun _ => Some (mret tt)) _ _ _ _ _ (runs_ret _ (fun _ => tt) _ _ _ _ _ R2)) as R2'.
    rewrite <- (take_drop 25 (queue (app_db s))), sent_app. exists s5. eexists. split; [|exact Hp5].
    eapply runs_silent; [exact R1|]. eapply runs_bind; [exact R2'|].
    cbn beta. eapply runs_silent; [exact R3|]. eapply runs_silent; [exact R4|exact R5].
Qed.

(** C2: a due queue drains: [delivery_loop] leaves nothing pending after as
    many rounds as the queue has batches of 25, and until then the receiver was
    sent exactly the queued deliveries that are meant for it, each once, in the
    order they were queued - and nobody else was sent anything.  Assumed: one
    stream is stored, readable and enabled; its receiver's host is allowed by
    the settings and, from now on, resolves to public addresses and answers 2xx
    within the deadline; every pending row is already due (none waits for a
    retry), with its own identifier and a payload that is decrypted or
    recognised as unreadable; the clock never goes back; no other task ever writes to the database; and the worker is never
    asked to stop.  Rows in back-off are the subject of [OutboxRecovery]. *)
Theorem queue_drains T rounds s :
  ready s -> late T s -> drainable T (app_db s) -> (length (queue (app_db s)) <= 25 * rounds)%nat ->
  exists s', delivery_loop settings rounds s = (Ok false, s') /\ pendings (app_db s') = [] /\
    w_trace (app_world s') = (w_trace (app_world s) ++ sent (queue (app_db s)))%list.
Proof.
  intros Hr Hl Hdb Hlen. destruct (delivery_loop_drains T rounds s Hr Hl Hdb Hlen) as (s' & op & (E & _ & Htr & _) & Hp).
  by exists s'.
Qed.
End drain.

(** The queue of one delivery. *)
Module Example.
Import Toy OutboxSpec.Example.

Lemma example_up : receiver_up example_settings 0 example_stream.
Proof.
  split; [reflexivity|reflexivity| | |done].
  - intros t _. exists "93.184.216.34", []. split; vm_compute; reflexivity.
  - intros t token _. eexists. split; reflexivity.
Qed.

Definition example_row : StreamRow :=
  match streams queued_db with row :: _ => row | [] => row_of_stream example_settings "iv" example_stream end.

Lemma queued_drainable : drainable example_settings example_row 1700000000 queued_db.
Proof.
  assert (pendings queued_db = [queued_row]) as Hp by (vm_compute; reflexivity).
  split; [split|]; rewrite ?Hp.
  - vm_compute. reflexivity.
  - apply NoDup_singleton.
  - constructor; [|constructor]. unfold recognised.
    destruct (decrypt_outbox_payload example_settings (to_item queued_row)) eqn:E; [done|]. vm_compute in E. done.
  - constructor; [|constructor]. apply Z.leb_le. vm_compute. reflexivity.
Qed.

Lemma queue_drains_witness :
  pendings (app_db (snd (delivery_loop example_settings 1 queued_app))) = [] /\
  w_trace (app_world (snd (delivery_loop example_settings 1 queued_app))) =
    sent example_settings example_stream (queue queued_db).
Proof.
  destruct (queue_drains example_settings) with (row := example_row) (stream := example_stream) (T0 := 0%nat) (T := 1700000000%Z)
    (rounds := 1%nat) (s := queued_app) as (s' & E & Hp & Htr).
  - by intros t db.
  - vm_compute. reflexivity.
  - reflexivity.
  - exact example_up.
  - intros t t'. simpl. lia.
  - unfold ready. lia.
  - apply Z.leb_le. vm_compute. reflexivity.
  - exact queued_drainable.
  - apply Nat.leb_le. vm_compute. reflexivity.
  - rewrite E. split; [exact Hp|exact Htr].
Defined.
End Example.
