(* ===== verification/OutboxRecovery.v ===== *)
(** * The queue recovers

    The worker's progress when the receiver does not work at first: whatever
    the receiver, DNS and the deadline do for however long, no delivery leaves
    the queue unsettled, and once the receiver works and the retry times have
    passed the queue drains, with every delivery that is meant for the
    receiver sent to it. *)
From Stdlib Require Import ZArith Lia Ascii String.
From stdpp Require Import base option list strings.
From S2P Require Import Prelude PyStr PyVal Config Crypto Database DatabaseSpec World UrlValidation Pusher Outbox OutboxSpec OutboxDrain.

Open Scope string_scope.

(** ** Time goes forward *)

Definition forward {A} (m : M World A) : Prop := forall w, (w_tick w <= w_tick (snd (m w)))%nat.

Lemma forward_ret {A} (a : A) : forward (mret a).
Proof. intros w. simpl. lia. Qed.
Lemma forward_ask {A} (f : nat -> A) : forward (ask f).
Proof. intros w. simpl. lia. Qed.
Lemma forward_emit e : forward (emit e).
Proof. intros w. simpl. lia. Qed.
Lemma forward_liftR {A} (r : result A) : forward (liftR r).
Proof. intros w. simpl. lia. Qed.

Lemma forward_bind {A B} (m : M World A) (k : A -> M World B) : forward m -> (forall a, forward (k a)) -> forward (m ≫= k).
Proof.
  intros Hm Hk w. unfold mbind, M_bind. specialize (Hm w). destruct (m w) as [[a|e] w1]; [|done].
  specialize (Hk a w1). simpl in *. lia.
Qed.

Lemma forward_catch {A} (m : M World A) h : forward m -> (forall e k, h e = Some k -> forward k) -> forward (catchM m h).
Proof.
  intros Hm Hh w. unfold catchM. specialize (Hm w). destruct (m w) as [[a|e] w1]; [done|].
  destruct (h e) as [k|] eqn:E; [|done]. specialize (Hh e k E w1). simpl in *. lia.
Qed.

Lemma forward_if {A} (b : bool) (m n : M World A) : forward m -> forward n -> forward (if b then m else n).
Proof. by destruct b. Qed.

Lemma forward_wait_for `{Env} {A} (m : M World A) : forward m -> forward (wait_for m).
Proof. intros Hm w. unfold wait_for. specialize (Hm w). destruct (m w) as [r w1]. destruct (env_deadline _); simpl in *; lia. Qed.

Create HintDb forward.
#[export] Hint Resolve forward_ret forward_ask forward_emit forward_liftR forward_bind forward_catch forward_if forward_wait_for : forward.

Lemma forward_http `{Env} rq : forward (http rq).
Proof. unfold http. auto with forward. Qed.
Lemma forward_resolve `{Env} host : forward (_resolve_host host).
Proof. intros w. rewrite resolve_host_run. destruct (env_getaddrinfo _ _) as [ips|e]; [|destruct (is_OSError e)]; simpl; lia. Qed.
#[export] Hint Resolve forward_http forward_resolve : forward.

Lemma forward_push `{CryptoLib, Env} settings stream token event_uri : forward (push_signed_set settings stream token event_uri).
Proof.
  unfold push_signed_set, _revalidate_endpoint, post_set. cbv zeta. apply forward_bind.
  - auto with forward.
  - intros []; simpl; auto with forward. apply forward_catch; [auto with forward|].
    intros e k. destruct e; try done. intros [= <-]. auto with forward.
Qed.

Lemma forward_attempt `{CryptoLib, Env} settings stream payload : forward (attempt settings stream payload).
Proof.
  unfold attempt. apply forward_catch.
  - apply forward_bind; [apply forward_wait_for, forward_push|auto with forward].
  - intros e k [= <-]. auto with forward.
Qed.

Section recovery.
Context `{CryptoLib} `{Env} `{Tasks}.
Variable settings : Settings.
Hypothesis Halone : alone.
Variable row : StreamRow.
Variable stream : Stream.
Hypothesis Hrow : _row_to_stream settings row = Ok stream.
Hypothesis Henabled : status stream = "enabled".
Hypothesis Hclock : forall t t', (t <= t')%nat -> (env_now t <= env_now t')%Z.
Variable T0 : nat.
Hypothesis Hup : receiver_up settings T0 stream.

Local Abbreviation waiting := (waiting settings row).

(** A delivery that is meant for the receiver, and the same one later. *)
Definition meant (o : OutboxRow) (payload : dict) : Prop :=
  decrypt_outbox_payload settings (to_item o) = Ok payload /\ _valid_payload payload = true /\
  of_stream (stream_id stream) o = true /\ _payload_matches_stream payload stream = true.

Definition delivery_request (payload : dict) : Request := receiver_request stream (str_field "token" payload).

Definition same_delivery (o o' : OutboxRow) : Prop :=
  ob_id o' = ob_id o /\ ob_stream_id o' = ob_stream_id o /\ ob_payload o' = ob_payload o.

Lemma same_meant o o' payload : same_delivery o o' -> meant o payload -> meant o' payload.
Proof.
  intros (_ & Es & Ep). unfold meant, of_stream, decrypt_outbox_payload. simpl. by rewrite Es, Ep.
Qed.

(** ** One item, whatever the receiver does *)

Definition reschedules (o : OutboxRow) (op : Db -> Db) : Prop :=
  exists attempts next reason, op = retry_outbox_item (ob_id o) attempts next reason.

Definition settles_now (o : OutboxRow) (tr : list event) (op : Db -> Db) : Prop :=
  op = (settlement settings stream o).2 /\ forall payload, meant o payload -> Sent (delivery_request payload) ∈ tr.

Lemma retry_runs o reason s :
  exists s' op, runs (_retry (to_item o) reason) s tt [] op s' /\ reschedules o op.
Proof.
  unfold _retry. destruct (runs_now s) as (s1 & R1).
  destruct (runs_write Halone (retry_outbox_item (ob_id o) (ob_attempts o + 1)
    (env_now (w_tick (app_world s)) + retry_delay (ob_attempts o + 1)) reason) s1) as (s2 & R2).
  exists s2. eexists. split; [eapply runs_silent; [exact R1|exact R2]|by eexists _, _, _].
Qed.

Lemma deliver_item_runs o s : streams (app_db s) = [row] -> recognised settings o ->
  exists tr op s', runs (_deliver_item settings (to_item o)) s tt tr op s' /\ (settles_now o tr op \/ reschedules o op).
Proof.
  intros Hs Hrec. unfold recognised in Hrec. unfold _deliver_item, settles_now, settlement, meant.
  destruct (decrypt_outbox_payload settings (to_item o)) as [payload|[]] eqn:Hdec; try done.
  2:{ edestruct (runs_write Halone) as (s' & R). eexists [], _, s'. split; [exact R|]. left. split; [done|]. by intros p (? & _). }
  destruct (_valid_payload payload) eqn:Hval; cbn [negb].
  2:{ edestruct (runs_write Halone) as (s' & R). eexists [], _, s'. split; [exact R|]. left. split; [done|].
      intros p ([= <-] & Hv & _). congruence. }
  destruct (runs_locked_read Halone (get_stream_by_id settings (ob_stream_id o)) s _ (get_stream_found settings row stream Hrow o _ Hs))
    as (s1 & Hread).
  destruct (of_stream (stream_id stream) o) eqn:Hof; cbn [andb].
  2:{ destruct (runs_write Halone (cancel_outbox_item (ob_id o)) s1) as (s2 & Hw). eexists [], _, s2.
      split; [by apply (runs_silent _ _ _ _ _ _ _ _ _ Hread)|]. left. split; [done|]. by intros p (_ & _ & ? & _). }
  destruct (_payload_matches_stream payload stream) eqn:Hm.
  2:{ destruct (runs_write Halone (cancel_outbox_item (ob_id o)) s1) as (s2 & Hw). eexists [], _, s2. split.
      - apply (runs_silent _ _ _ _ _ _ _ _ _ Hread). rewrite Hm. exact Hw.
      - left. split; [done|]. intros p ([= <-] & _ & _ & ?). congruence. }
  destruct (attempt_app settings stream payload s1) as (outcome & s2 & tr & Hatt & Hdb & Htr & _ & Hconf & _).
  assert (runs (worldM (attempt settings stream payload)) s1 outcome tr id s2) as Ra.
  { split; [exact Hatt|]. split; [exact Hdb|]. split; [exact Htr|].
    pose proof (forward_attempt settings stream payload (app_world s1)) as Hf. revert Hatt. unfold worldM, zoom. simpl lget.
    destruct (attempt _ _ _ _) as [r w']. by intros [= _ <-]. }
  destruct outcome as [[]|reason].
  - destruct (runs_write Halone (complete_outbox_item (ob_id o)) s2) as (s3 & Hw). eexists tr, _, s3. split.
    + apply (runs_silent _ _ _ _ _ _ _ _ _ Hread). rewrite Hm, Henabled. cbn [negb String.eqb Ascii.eqb Bool.eqb].
      by eapply runs_then; [exact Ra|].
    + left. split; [done|]. intros p ([= <-] & _). by apply Hconf.
  - destruct (retry_runs o "delivery_failed" s2) as (s3 & op & Hw & Hop). exists tr, op, s3. split; [|by right].
    apply (runs_silent _ _ _ _ _ _ _ _ _ Hread). rewrite Hm, Henabled. cbn [negb String.eqb Ascii.eqb Bool.eqb].
    by eapply runs_then; [exact Ra|].
  - destruct (retry_runs o reason s2) as (s3 & op & Hw & Hop). exists tr, op, s3. split; [|by right].
    apply (runs_silent _ _ _ _ _ _ _ _ _ Hread). rewrite Hm, Henabled. cbn [negb String.eqb Ascii.eqb Bool.eqb].
    by eapply runs_then; [exact Ra|].
Qed.

(** ** What work leaves *)

(** [e] is in the trace of [s'], after the trace of [s]. *)
Definition since (s s' : App) (e : event) : Prop :=
  exists tr, w_trace (app_world s') = (w_trace (app_world s) ++ tr)%list /\ e ∈ tr.

Definition extends (s s' : App) : Prop := w_trace (app_world s) `prefix_of` w_trace (app_world s').

Lemma since_later s1 s2 s3 e : since s1 s2 e -> extends s2 s3 -> since s1 s3 e.
Proof.
  intros (tr & E & He) (tr' & E'). exists (tr ++ tr')%list. rewrite E', E, app_assoc. split; [done|].
  apply elem_of_app. by left.
Qed.

Lemma since_earlier s1 s2 s3 e : extends s1 s2 -> since s2 s3 e -> since s1 s3 e.
Proof.
  intros (tr & E) (tr' & E' & He). exists (tr ++ tr')%list. rewrite E', E, app_assoc. split; [done|].
  apply elem_of_app. by right.
Qed.

Record worked (s s' : App) : Prop := {
  wk_waiting : waiting (app_db s');
  wk_tick : (w_tick (app_world s) <= w_tick (app_world s'))%nat;
  wk_trace : extends s s';
  wk_rows o payload : o ∈ pendings (app_db s) -> meant o payload ->
    since s s' (Sent (delivery_request payload)) \/
    exists o', o' ∈ pendings (app_db s') /\ same_delivery o o';
}.

Lemma worked_refl s : waiting (app_db s) -> worked s s.
Proof. intros Hw. split; [done|lia|by exists []; rewrite app_nil_r|]. intros o p Ho _. right. by exists o. Qed.

Lemma worked_trans s1 s2 s3 : worked s1 s2 -> worked s2 s3 -> worked s1 s3.
Proof.
  intros [_ Ht1 Hs1 Hr1] [Hw Ht2 Hs2 Hr2]. split; [done|lia|unfold extends in *; by etrans|]. intros o p Ho Hm.
  destruct (Hr1 o p Ho Hm) as [|(o1 & Ho1 & Hsame)]; [by left; eapply since_later|].
  destruct (Hr2 o1 p Ho1 (same_meant _ _ _ Hsame Hm)) as [|(o2 & Ho2 & Hsame2)]; [by left; eapply since_earlier|].
  right. exists o2. split; [done|]. destruct Hsame as (? & ? & ?), Hsame2 as (? & ? & ?). split_and!; congruence.
Qed.

Lemma runs_silent_worked {A} (m : M App A) s a s' : waiting (app_db s) -> runs m s a [] id s' -> worked s s'.
Proof.
  intros Hw (_ & E & Htr & Hle). unfold id in E. split; rewrite ?E; [done|lia| |].
  - exists []. by rewrite Htr.
  - intros o p Ho _. right. by exists o.
Qed.

Lemma pendings_updated (p : OutboxRow -> bool) (f : OutboxRow -> OutboxRow) db :
  (forall x, pending (f x) = pending x) ->
  pendings (upd_outbox (update_where p f) db) = map (fun x => if p x then f x else x) (pendings db).
Proof.
  intros Hf. unfold pendings. simpl set_outbox. unfold update_where. induction (set_outbox db) as [|x l IH]; [done|].
  cbn [map List.filter]. assert (pending (if p x then f x else x) = pending x) as -> by (by destruct (p x)).
  destruct (pending x); [|exact IH]. cbn [map]. by f_equal.
Qed.

Lemma NoDup_id_eq l o o' : NoDup (map ob_id l) -> o ∈ l -> o' ∈ l -> ob_id o = ob_id o' -> o = o'.
Proof. intros Hnd Ho Ho' E. pose proof (find_by_id o l Hnd Ho) as H1'. rewrite E, (find_by_id o' l Hnd Ho') in H1'. congruence. Qed.

Lemma reschedule_worked {A} (m : M App A) o s a tr op s' : waiting (app_db s) -> reschedules o op ->
  runs m s a tr op s' -> worked s s'.
Proof.
  intros [Hs Hids Hrec] (attempts & next & reason & ->) (_ & Hdb & Htr & Hle).
  set (g := fun x => if has_id (ob_id o) x && pending x then
    {| ob_id := ob_id x; ob_stream_id := ob_stream_id x; ob_payload := ob_payload x; ob_created_at := ob_created_at x;
       ob_attempts := attempts; ob_next_attempt_at := next; ob_status := ob_status x; ob_last_error := Some reason |} else x).
  assert (pendings (app_db s') = map g (pendings (app_db s))) as Hp by (rewrite Hdb; by apply pendings_updated).
  assert (forall x, same_delivery x (g x)) as Hg by (intros x; unfold g; by destruct (_ && _)).
  split; [split|exact Hle|by exists tr|].
  - by rewrite Hdb.
  - assert (map ob_id (map g (pendings (app_db s))) = map ob_id (pendings (app_db s))) as E.
    { rewrite map_map. apply map_ext. intros x. by destruct (Hg x) as (-> & _). }
    by rewrite Hp, E.
  - rewrite Hp. apply Forall_forall. intros y (x & <- & Hx%list_elem_of_In)%list_elem_of_In%in_map_iff.
    rewrite Forall_forall in Hrec. specialize (Hrec x Hx). destruct (Hg x) as (_ & _ & Ep).
    unfold recognised, decrypt_outbox_payload in *. simpl in *. by rewrite Ep.
  - intros x payload Hx _. right. exists (g x). split; [|done]. rewrite Hp. by apply list_elem_of_fmap_2.
Qed.

Lemma settle_worked {A} (m : M App A) o s a tr op s' : waiting (app_db s) -> o ∈ pendings (app_db s) ->
  settles_now o tr op -> runs m s a tr op s' -> worked s s'.
Proof.
  intros Hw Ho [-> Hsent] (_ & Hdb & Htr & Hle). destruct (settlement_pendings settings stream o (app_db s)) as [_ Hp].
  split; [rewrite Hdb; by apply settle_waiting|exact Hle|by exists tr|].
  intros x payload Hx Hm. destruct (decide (ob_id x = ob_id o)) as [E|Hne].
  - left. rewrite (NoDup_id_eq _ _ _ (wt_ids _ _ _ Hw) Hx Ho E) in Hm. exists tr. auto.
  - right. exists x. split; [|done]. rewrite Hdb, Hp. apply others_elem. split; [done|].
    simpl. intros [?|Hn]%elem_of_cons; [done|by apply elem_of_nil in Hn].
Qed.

Lemma deliver_item_work o s : waiting (app_db s) -> o ∈ pendings (app_db s) ->
  exists s', _deliver_item settings (to_item o) s = (Ok tt, s') /\ worked s s' /\
    (ready T0 s -> pendings (app_db s') ⊆ pendings (app_db s)).
Proof.
  intros Hw Ho. pose proof (wt_recognised _ _ _ Hw) as Hrec. rewrite Forall_forall in Hrec. specialize (Hrec o Ho).
  destruct (deliver_item_runs o s (wt_stream _ _ _ Hw) Hrec) as (tr & op & s' & R & Hop).
  exists s'. split; [apply R|]. split; [destruct Hop; [by eapply settle_worked|by eapply reschedule_worked]|].
  intros Hr. destruct (deliver_item_settles settings Halone row stream Hrow Henabled T0 Hup o s Hr (wt_stream _ _ _ Hw) Hrec)
    as (s2 & E & Hdb & _).
  destruct R as (E' & _). rewrite E in E'. injection E' as ->.
  rewrite Hdb, (proj2 (settlement_pendings settings stream o (app_db s))).
  intros x Hx. by apply others_elem in Hx as [Hx _].
Qed.

(** ** Passes and rounds *)

Lemma found_pending now i db item : get_due_outbox_item now i db = Some item -> exists o, item = to_item o /\ o ∈ pendings db.
Proof.
  unfold get_due_outbox_item. intros (o & Hf & ->)%fmap_Some. apply find_some in Hf as [Hin Hp]. exists o. split; [done|].
  apply pendings_elem. rewrite list_elem_of_In. split; [done|]. unfold due in Hp. by apply andb_true_iff in Hp as [_ [Hp _]%andb_true_iff].
Qed.

(** Work that leaves no new row behind when the receiver works. *)
Definition progress (s s' : App) : Prop :=
  worked s s' /\ (ready T0 s -> pendings (app_db s') ⊆ pendings (app_db s)).

Lemma progress_trans s1 s2 s3 : progress s1 s2 -> progress s2 s3 -> progress s1 s3.
Proof.
  intros [W1 P1] [W2 P2]. split; [by eapply worked_trans|]. intros Hr.
  assert (ready T0 s2) as Hr2 by (unfold ready in *; pose proof (wk_tick _ _ W1); lia).
  specialize (P1 Hr). specialize (P2 Hr2). by etrans.
Qed.

Lemma silent_progress {A} (m : M App A) s a s' : waiting (app_db s) -> runs m s a [] id s' -> progress s s'.
Proof. intros Hw R. split; [by eapply runs_silent_worked|]. intros _. by destruct R as (_ & -> & _). Qed.

Lemma deliver_items_work stop items s : waiting (app_db s) ->
  exists n s', deliver_items settings stop items s = (Ok n, s') /\ progress s s'.
Proof.
  revert s. induction items as [|item items IH]; intros s Hw.
  { exists 0%Z, s. split; [done|]. split; [by apply worked_refl|done]. }
  cbn [deliver_items].
  destruct (runs_stopped Halone stop s) as (s1 & R1). pose proof (silent_progress _ _ _ _ Hw R1) as P1.
  pose proof (wk_waiting _ _ (proj1 P1)) as W1. destruct (runs_stopped Halone stop s1) as (s2 & R2).
  pose proof (progress_trans _ _ _ P1 (silent_progress _ _ _ _ W1 R2)) as P2. pose proof (wk_waiting _ _ (proj1 P2)) as W2.
  destruct (runs_now s2) as (s3 & R3).
  pose proof (progress_trans _ _ _ P2 (silent_progress _ _ _ _ W2 R3)) as P3. pose proof (wk_waiting _ _ (proj1 P3)) as W3.
  rewrite (M_bind_run _ _ _ _ _ (proj1 R1)), (M_bind_run _ _ _ _ _ (proj1 R2)), (M_bind_run _ _ _ _ _ (proj1 R3)).
  destruct (runs_unlocked_read Halone
    (fun db => Ok (get_due_outbox_item (env_now (w_tick (app_world s2))) (item_id item) db)) s3 _ eq_refl) as (s4 & R4).
  pose proof (progress_trans _ _ _ P3 (silent_progress _ _ _ _ W3 R4)) as P4. pose proof (wk_waiting _ _ (proj1 P4)) as W4.
  rewrite (M_bind_run _ _ _ _ _ (proj1 R4)).
  destruct (get_due_outbox_item _ _ _) as [current|] eqn:Hc.
  2:{ destruct (IH s4 W4) as (n & s5 & E & P5). exists n, s5. split; [exact E|by eapply progress_trans]. }
  apply found_pending in Hc as (o & -> & Ho).
  assert (o ∈ pendings (app_db s4)) as Ho4 by (by destruct R4 as (_ & -> & _)).
  destruct (deliver_item_work o s4 W4 Ho4) as (s5 & E5 & P5).
  pose proof (progress_trans _ _ _ P4 P5) as P5'. destruct (IH s5 (wk_waiting _ _ (proj1 P5))) as (n & s6 & E6 & P6).
  exists (1 + n)%Z, s6. rewrite (M_bind_run _ _ _ _ _ E5), (M_bind_run _ _ _ _ _ E6). split; [done|by eapply progress_trans].
Qed.

Lemma deliver_pending_work stop s : waiting (app_db s) ->
  exists n s', deliver_pending settings stop s = (Ok n, s') /\ progress s s'.
Proof.
  intros Hw. unfold deliver_pending. destruct (runs_now s) as (s1 & R1).
  pose proof (silent_progress _ _ _ _ Hw R1) as P1. pose proof (wk_waiting _ _ (proj1 P1)) as W1.
  destruct (runs_unlocked_read Halone (fun db => Ok (get_due_outbox (env_now (w_tick (app_world s))) 25 db)) s1 _ eq_refl) as (s2 & R2).
  pose proof (progress_trans _ _ _ P1 (silent_progress _ _ _ _ W1 R2)) as P2.
  rewrite (M_bind_run _ _ _ _ _ (proj1 R1)), (M_bind_run _ _ _ _ _ (proj1 R2)).
  destruct (deliver_items_work stop (get_due_outbox (env_now (w_tick (app_world s))) 25 (app_db s1)) s2 (wk_waiting _ _ (proj1 P2)))
    as (n & s3 & E3 & P3). exists n, s3. split; [exact E3|by eapply progress_trans].
Qed.

(** One round, and how rounds add up. *)
Lemma round_work s : waiting (app_db s) -> exists s', (w_tick (app_world s) < w_tick (app_world s'))%nat /\ progress s s' /\
  forall k, delivery_loop settings (S k) s = delivery_loop settings k s'.
Proof.
  intros Hw. destruct (runs_stopped Halone true s) as (s1 & R1).
  pose proof (silent_progress _ _ _ _ Hw R1) as P1. pose proof (wk_waiting _ _ (proj1 P1)) as W1.
  destruct (deliver_pending_work true s1 W1) as (n & s2 & E2 & P2). pose proof (progress_trans _ _ _ P1 P2) as P2'.
  pose proof (wk_waiting _ _ (proj1 P2)) as W2. destruct (runs_stopped Halone true s2) as (s3 & R3).
  pose proof (progress_trans _ _ _ P2' (silent_progress _ _ _ _ W2 R3)) as P3. pose proof (wk_waiting _ _ (proj1 P3)) as W3.
  destruct (runs_now s3) as (s4 & R4). exists s4. split; [|split].
  - pose proof (wk_tick _ _ (proj1 P3)). destruct R4 as (E4 & _). injection E4 as <-. simpl. lia.
  - eapply progress_trans; [exact P3|]. by eapply silent_progress.
  - intros k. cbn [delivery_loop]. rewrite (M_bind_run _ _ _ _ _ (proj1 R1)).
    assert (catchM (_ ← deliver_pending settings true; mret tt) (fun _ => Some (mret tt)) s1 = (Ok tt, s2)) as Ec.
    { unfold catchM. by rewrite (M_bind_run _ _ _ _ _ E2). }
    rewrite (M_bind_run _ _ _ _ _ Ec), (M_bind_run _ _ _ _ _ (proj1 R3)).
    change (worldM (ask env_now)) with (worldM nowM). by rewrite (M_bind_run _ _ _ _ _ (proj1 R4)).
Qed.

Lemma rounds_work k s : waiting (app_db s) -> exists s', (w_tick (app_world s) + k <= w_tick (app_world s'))%nat /\ progress s s' /\
  forall m, delivery_loop settings (k + m) s = delivery_loop settings m s'.
Proof.
  revert s. induction k as [|k IH]; intros s Hw.
  { exists s. split; [lia|]. split; [split; [by apply worked_refl|done]|done]. }
  destruct (round_work s Hw) as (s1 & Ht1 & P1 & E1).
  destruct (IH s1 (wk_waiting _ _ (proj1 P1))) as (s2 & Ht2 & P2 & E2). exists s2. split; [lia|].
  split; [by eapply progress_trans|]. intros m. cbn [Nat.add]. by rewrite E1, E2.
Qed.

Lemma latest_due l : exists T, Forall (due_by T) l.
Proof.
  induction l as [|o l [T IH]]; [by exists 0%Z|]. exists (Z.max (ob_next_attempt_at o) T). constructor; unfold due_by in *; [lia|].
  eapply Forall_impl; [exact IH|]. intros x Hx. simpl in *. lia.
Qed.

(** The queue recovers: whatever state the receiver is in now, if it works
    from some moment on, the worker empties the queue after finitely many
    rounds - through failures, timeouts and retries, without an exception
    ending it - and every delivery that was queued for the receiver is sent
    to it on the way, with its own token. *)
Lemma queue_recovers s : waiting (app_db s) -> (forall z, exists t, (z <= env_now t)%Z) ->
  exists rounds s', delivery_loop settings rounds s = (Ok false, s') /\ pendings (app_db s') = [] /\
    forall o payload, o ∈ pendings (app_db s) -> meant o payload -> since s s' (Sent (delivery_request payload)).
Proof.
  intros Hw Hunbounded. destruct (rounds_work T0 s Hw) as (s1 & Ht1 & P1 & E1).
  assert (ready T0 s1) as Hr1 by (unfold ready; lia). destruct (latest_due (pendings (app_db s1))) as [T HT].
  destruct (Hunbounded T) as [t Ht]. destruct (rounds_work t s1 (wk_waiting _ _ (proj1 P1))) as (s2 & Ht2 & P2 & E2).
  assert (ready T0 s2) as Hr2 by (unfold ready in *; lia).
  assert (late T s2) as Hl by (unfold late; pose proof (Hclock t (w_tick (app_world s2)) ltac:(lia)); lia).
  assert (drainable settings row T (app_db s2)) as Hdrain.
  { split; [apply P2|]. rewrite Forall_forall in *. intros o Ho. by apply HT, (proj2 P2 Hr1). }
  set (k := length (queue (app_db s2))).
  destruct (delivery_loop_drains settings Halone row stream Hrow Henabled T0 Hup Hclock T k s2 Hr2 Hl Hdrain)
    as (s3 & op & R3 & Hempty); [lia|].
  exists (T0 + (t + k))%nat, s3. rewrite E1, E2. split; [apply R3|]. split; [done|]. intros o payload Ho Hm.
  destruct (rounds_work k s2 (proj1 Hdrain)) as (s3' & _ & P3 & E3). specialize (E3 0%nat). rewrite Nat.add_0_r in E3.
  rewrite (proj1 R3) in E3. injection E3 as <-.
  destruct (wk_rows _ _ (proj1 (progress_trans _ _ _ P1 (progress_trans _ _ _ P2 P3))) o payload Ho Hm) as [|(o' & Ho' & _)]; [done|].
  rewrite Hempty in Ho'. by apply elem_of_nil in Ho'.
Qed.
End recovery.
