(* ===== verification/Lifespan.v ===== *)
(** * Starting and stopping the background tasks ([lifespan], [create_app] of [app/main.py])

    What runs next to the requests, and the shutdown: the delivery worker is
    asked to stop and awaited, the synchronisation loop is cancelled.  The
    worker ends, whatever the network and the other tasks do, and starts
    nothing once it has been asked to. *)
From Stdlib Require Import ZArith Lia Ascii String.
From stdpp Require Import base option list strings.
From S2P Require Import Prelude PyStr PyVal Config Crypto Database World UrlValidation Preflight Pusher Outbox OutboxRecovery.

Open Scope string_scope.

(** ** [create_app] *)

Record FastAPI := {
  fa_root_path : string;
  fa_title : string;
  fa_version : string;
  fa_docs_url : option string;
  fa_redoc_url : option string;
  fa_openapi_url : option string;
}.

Definition create_app (cfg : Settings) (app_version : option string) : FastAPI :=
  let openapi_enabled := ssf_enable_openapi cfg in
  {| fa_root_path := ssf_root_path cfg; fa_title := "SSF Transmitter"; fa_version := default "dev" app_version;
     fa_docs_url := if openapi_enabled then Some "/docs" else None;
     fa_redoc_url := if openapi_enabled then Some "/redoc" else None;
     fa_openapi_url := if openapi_enabled then Some "/openapi.json" else None |}.

(** ** [lifespan], from the start of the background tasks on *)

Definition SCIM_SYNC_STARTED (settings : Settings) : line :=
  {| lv := INFO; fmt := "Apple SCIM sync enabled — background sync every %ds"; args := [AInt (apple_scim_sync_interval settings)] |}.

(** Whether the synchronisation loop runs beside the worker, and what is logged. *)
Definition background_tasks (settings : Settings) : bool * list line :=
  if apple_scim_enabled settings then (true, [SCIM_SYNC_STARTED settings]) else (false, []).

(** What [asyncio.gather(task, return_exceptions=True)] answers. *)
Inductive task_result :=
| Returned
| CancelledError
| Raised (e : exn).

(** The lines of the shutdown, given how the tasks ended; [None]: there is no
    synchronisation loop. *)
Definition shutdown_lines (delivery : task_result) (apple_scim : option task_result) : list line :=
  (match delivery with
   | Raised e => [{| lv := WARNING; fmt := "SSF delivery outbox worker exited with an unexpected error"; args := [AExn e] |}]
   | _ => [{| lv := INFO; fmt := "SSF delivery outbox worker stopped"; args := [] |}]
   end ++
   match apple_scim with
   | Some CancelledError => [{| lv := INFO; fmt := "Apple SCIM: sync loop stopped"; args := [] |}]
   | Some (Raised e) => [{| lv := WARNING; fmt := "Apple SCIM: sync loop exited with an unexpected error"; args := [AExn e] |}]
   | _ => []
   end)%list.

(** ** The worker goes forward in time *)

Definition forwards {A} (m : M App A) : Prop := forall s, (w_tick (app_world s) <= w_tick (app_world (snd (m s))))%nat.

Lemma forwards_bind {A B} (m : M App A) (k : A -> M App B) : forwards m -> (forall a, forwards (k a)) -> forwards (m ≫= k).
Proof.
  intros Hm Hk s. unfold mbind, M_bind. specialize (Hm s). destruct (m s) as [[a|e] s1]; [|done].
  specialize (Hk a s1). simpl in *. lia.
Qed.
Lemma forwards_ret {A} (a : A) : forwards (mret a).
Proof. by intros s. Qed.
Lemma forwards_raise {A} e : forwards (raiseM e : M App A).
Proof. by intros s. Qed.
Lemma forwards_world {A} (m : M World A) : forward m -> forwards (worldM m).
Proof. intros Hm s. specialize (Hm (app_world s)). unfold worldM, zoom. simpl. by destruct (m (app_world s)). Qed.
Lemma forwards_db {A} others (m : M Db A) : forwards (dbM others m).
Proof. intros s. unfold dbM. destruct (m _). simpl. lia. Qed.
#[local] Hint Resolve forwards_bind forwards_ret forwards_raise forwards_world forwards_db : forward.

Section worker.
Context `{CryptoLib} `{Env} `{Tasks}.
Variable settings : Settings.

Lemma forwards_retry item reason : forwards (_retry item reason).
Proof. unfold _retry, nowM, lockedM. auto 6 with forward. Qed.
#[local] Hint Resolve forwards_retry : forward.

Lemma forwards_deliver item : forwards (_deliver_item settings item).
Proof.
  unfold _deliver_item, nowM, lockedM. destruct (decrypt_outbox_payload settings item) as [payload|[]]; auto with forward.
  destruct (negb _); [auto with forward|]. apply forwards_bind; [auto with forward|]. intros [stream|]; [|auto with forward].
  destruct (negb _); [auto with forward|]. destruct (negb _); [auto with forward|].
  apply forwards_bind; [apply forwards_world, forward_attempt|]. intros [[|]|]; auto with forward.
Qed.
#[local] Hint Resolve forwards_deliver : forward.

Lemma forwards_stopped stop : forwards (stoppedM stop).
Proof. unfold stoppedM. destruct stop; auto with forward. Qed.
#[local] Hint Resolve forwards_stopped : forward.

Lemma forwards_deliver_items stop items : forwards (deliver_items settings stop items).
Proof.
  induction items as [|item items IH]; cbn [deliver_items]; [auto with forward|]. unfold nowM, unlockedM.
  apply forwards_bind; [auto with forward|]. intros []; [auto with forward|].
  apply forwards_bind; [auto with forward|]. intros []; [auto with forward|].
  apply forwards_bind; [auto with forward|]. intros now. apply forwards_bind; [auto with forward|].
  intros [current|]; auto with forward.
Qed.

(** ** Stopping

    [T]: the tick from which on the event is set; nobody clears it. *)
Variable T : nat.
Hypothesis Hstop : forall t, (T <= t)%nat -> stop_requested t = true.

(** Nothing is sent and nothing is written. *)
Definition idle {A} (m : M App A) (a : A) (s : App) : Prop :=
  exists s', m s = (Ok a, s') /\ app_db s' = app_db s /\ w_trace (app_world s') = w_trace (app_world s).

Lemma stopped_idle s : (T <= w_tick (app_world s))%nat -> idle (stoppedM true) true s.
Proof. intros HT. eexists. cbn. rewrite Hstop by done. done. Qed.

Lemma deliver_items_idle items s : (T <= w_tick (app_world s))%nat -> idle (deliver_items settings true items) 0%Z s.
Proof.
  intros HT. destruct items as [|item items]; [by exists s|]. destruct (stopped_idle s HT) as (s1 & E & Hs1).
  exists s1. cbn [deliver_items]. by rewrite (M_bind_run _ _ _ _ _ E).
Qed.

Lemma delivery_loop_idle rounds s : (T <= w_tick (app_world s))%nat -> idle (delivery_loop settings (S rounds)) true s.
Proof.
  intros HT. destruct (stopped_idle s HT) as (s1 & E & Hs1). exists s1. cbn [delivery_loop]. by rewrite (M_bind_run _ _ _ _ _ E).
Qed.

Lemma delivery_loop_ends rounds s : (T <= w_tick (app_world s) + rounds)%nat ->
  exists s', delivery_loop settings (S rounds) s = (Ok true, s').
Proof.
  revert s. induction rounds as [|rounds IH]; intros s HT.
  { destruct (delivery_loop_idle 0 s) as (s' & E & _); [lia|]. by exists s'. }
  cbn [delivery_loop]. unfold mbind at 1, M_bind at 1. cbn -[delivery_loop deliver_pending].
  destruct (stop_requested _); [by eexists|].
  set (s1 := {| app_world := _; app_db := _ |}).
  assert (forwards (deliver_pending settings true)) as Hfwd.
  { unfold deliver_pending, nowM, unlockedM. pose proof forwards_deliver_items. auto with forward. }
  specialize (Hfwd s1). unfold mbind at 1, M_bind at 1, catchM, mbind at 1, M_bind at 1.
  destruct (deliver_pending settings true s1) as [r s2]. cbn [snd] in Hfwd.
  assert (w_tick (app_world s1) = S (w_tick (app_world s))) as Hs1 by done.
  destruct r; unfold mbind at 1, M_bind at 1; cbn -[delivery_loop deliver_pending];
    (destruct (stop_requested _); [|unfold mbind at 1, M_bind at 1; cbn -[delivery_loop]]); apply IH; cbn; lia.
Qed.

(** The shutdown does not wait for ever: however the receiver, DNS and the
    other tasks behave, the worker's loop ends once it has been asked
    to stop, and from then on it starts no delivery - the rest of a pass is
    skipped, so only the delivery that is under way is finished. *)
Theorem worker_stops s :
  (exists rounds s', delivery_loop settings rounds s = (Ok true, s')) /\
  forall s', (T <= w_tick (app_world s'))%nat ->
    (forall items, idle (deliver_items settings true items) 0%Z s') /\
    (forall rounds, idle (delivery_loop settings (S rounds)) true s').
Proof.
  split; [exists (S T); apply delivery_loop_ends; lia|].
  intros s' HT. split; [intros items; by apply deliver_items_idle|intros rounds; by apply delivery_loop_idle].
Qed.
End worker.
