(* ===== verification/Webhook.v ===== *)
(** * The Authentik webhook ([app/routes/webhook.py])

    slowapi's request limit is not modelled; a request is the headers the
    handler reads and the chunks of its body. *)
From Stdlib Require Import ZArith Lia Ascii String.
From stdpp Require Import base option list strings relations.
From S2P Require Import Prelude PyStr PyVal JsonText Config Crypto Database DatabaseSpec World UrlValidation Mapper Pusher Outbox OutboxSpec.

Open Scope string_scope.

Definition _MAX_BODY_BYTES : Z := 64 * 1024.

Record WebhookRequest := {
  wr_content_length : option string;
  wr_authorization : option string;
  wr_signature : option string;
  wr_chunks : list string;
}.

(** [hmac.compare_digest] on two [str]: only ASCII is supported. *)
Definition compare_digest_str (a b : string) : result bool :=
  if is_ascii_str a && is_ascii_str b then Ok (String.eqb a b) else Err TypeError.

(** The streaming loop, with [size] bytes read so far. *)
Fixpoint read_chunks (size : Z) (chunks : list string) : result string :=
  match chunks with
  | [] => Ok ""
  | chunk :: t =>
      let size := (size + str_len chunk)%Z in
      if (_MAX_BODY_BYTES <? size)%Z then Err (HTTPException 413 "Request body too large")
      else rest ← read_chunks size t; Ok (chunk +:+ rest)
  end.

Definition _read_body_within_limit (request : WebhookRequest) : result string :=
  let declared_oversized :=
    match wr_content_length request with
    | None => false
    | Some content_length =>
        match int_of_str content_length with
        | Some n => (_MAX_BODY_BYTES <? n)%Z
        | None => false
        end
    end in
  _ ← raise_when declared_oversized (HTTPException 413 "Request body too large");
  read_chunks 0 (wr_chunks request).

Definition _parse_webhook_json (raw_body : string) : result dict :=
  payload ← catch (loads_bytes raw_body) (fun e => match e with
              | JSONDecodeError | UnicodeDecodeError => Some (Err (HTTPException 400 "Invalid JSON body"))
              | _ => None
              end);
  match payload with
  | JObj d => Ok d
  | _ => Err (HTTPException 400 "Invalid JSON body")
  end.

Section webhook.
Context `{CryptoLib} `{Env} `{Tasks}.
Variable settings : Settings.
Variable keys : KeyStore.

Definition _verify_bearer_token (authorization : option string) : bool :=
  match authorization with
  | None => false
  | Some authorization =>
      if negb (str_true authorization) then false
      else
        let '(scheme, _, token) := partition " " authorization in
        if negb (String.eqb (lower scheme) "bearer") || negb (str_true token) then false
        else match ssf_webhook_token settings with
             | None => false
             | Some expected =>
                 if negb (str_true expected) then false
                 else String.eqb (utf8_encode token) (utf8_encode expected)
             end
  end.

Definition webhook_signature (raw_body : string) : string :=
  hexdigest (hmac_sha256 (utf8_encode (ssf_webhook_secret settings)) raw_body).

Definition _verify_hmac_signature (raw_body : string) (signature : option string) : result bool :=
  match signature with
  | None => Ok false
  | Some signature =>
      if negb (str_true signature) then Ok false
      else if negb (startswith "sha256=" signature) then Ok false
      else compare_digest_str (webhook_signature raw_body) (removeprefix "sha256=" signature)
  end.

Definition _authenticate_webhook (request : WebhookRequest) (raw_body : string) : result unit :=
  let mode := ssf_webhook_auth_mode settings in
  if String.eqb mode "bearer" then
    raise_when (negb (_verify_bearer_token (wr_authorization request))) (HTTPException 401 "Unauthorized")
  else if String.eqb mode "hmac" then
    ok ← _verify_hmac_signature raw_body (wr_signature request);
    raise_when (negb ok) (HTTPException 401 "Unauthorized")
  else if String.eqb mode "unsigned" then Ok tt
  else Err (HTTPException 500 "Invalid webhook auth configuration").

Definition ignored (reason : string) : json := JObj [("status", JStr "ignored"); ("reason", JStr reason)].
Definition accepted (queued : Z) : json := JObj [("status", JStr "accepted"); ("queued", JInt queued)].

(** [except OutboxFullError ... except StreamChangedError ...] *)
Definition queue_errors (e : exn) : option exn :=
  match e with
  | OutboxFullError _ => Some (HTTPException 503 "Delivery queue is full; retry the webhook later")
  | StreamChangedError _ =>
      Some (HTTPException 503 "Stream configuration changed before delivery could be queued; retry the webhook")
  | _ => None
  end.

Definition authentik_webhook (request : WebhookRequest) : M App json :=
  raw_body ← liftR (_read_body_within_limit request);
  _ ← liftR (_authenticate_webhook request raw_body);
  payload ← liftR (_parse_webhook_json raw_body);
  let email := extract_email payload in
  events ← worldM (map_authentik_event payload);
  match events, email with
  | [], _ => mret (ignored "unmapped_event")
  | _, None => mret (ignored "missing_email")
  | _, Some email =>
      streams ← unlockedM (readD (list_streams settings));
      let enabled_streams := List.filter (fun s => String.eqb (status s) "enabled") streams in
      match enabled_streams with
      | [] => mret (ignored "no_enabled_stream")
      | _ =>
          queued ← catchM (enqueue_events settings keys enabled_streams events email)
                     (fun e => raiseM <$> queue_errors e);
          mret (accepted queued)
      end
  end.

(** ** Authentication *)

(** The request proves knowledge of the configured credential. *)
Definition authentic (request : WebhookRequest) (raw_body : string) : Prop :=
  (ssf_webhook_auth_mode settings = "bearer" /\ exists scheme token,
     wr_authorization request = Some (scheme +:+ " " +:+ token) /\ lower scheme = "bearer" /\
     token <> "" /\ ssf_webhook_token settings = Some token) \/
  (ssf_webhook_auth_mode settings = "hmac" /\
     wr_signature request = Some ("sha256=" +:+ webhook_signature raw_body)) \/
  ssf_webhook_auth_mode settings = "unsigned".

Lemma partition_app c s a b : partition c s = (a, true, b) -> s = a +:+ String c b.
Proof.
  revert a b. induction s as [|x s IH]; intros a b; simpl; [done|].
  destruct (Ascii.eqb_spec c x) as [->|].
  - intros [= <- <-]. done.
  - destruct (partition c s) as [[h f] t] eqn:E. intros [= <- -> <-]. rewrite str_app_cons. f_equal. by apply IH.
Qed.

Lemma partition_none c s a b : partition c s = (a, false, b) -> b = "".
Proof.
  revert a b. induction s as [|x s IH]; intros a b; simpl; [by intros [= _ <-]|].
  destruct (Ascii.eqb c x); [done|].
  destruct (partition c s) as [[h f] t] eqn:E. intros [= _ -> <-]. by eapply IH.
Qed.

Lemma verify_bearer_token_ok a : _verify_bearer_token a = true -> exists scheme token,
  a = Some (scheme +:+ " " +:+ token) /\ lower scheme = "bearer" /\ token <> "" /\
  ssf_webhook_token settings = Some token.
Proof.
  unfold _verify_bearer_token. destruct a as [a|]; [|done].
  destruct (str_true a); [|done]. cbn [negb].
  destruct (partition " " a) as [[scheme found] token] eqn:Hp.
  destruct (String.eqb_spec (lower scheme) "bearer") as [Hs|]; [|done]. cbn [negb orb].
  destruct (str_true token) eqn:Ht; [|done]. cbn [negb].
  destruct (ssf_webhook_token settings) as [expected|]; [|done].
  destruct (str_true expected); [|done]. cbn [negb]. intros He%String.eqb_eq%utf8_encode_inj.
  subst expected. unfold str_true in Ht. bool_hyps.
  destruct found; [|by apply partition_none in Hp]. apply partition_app in Hp as ->.
  exists scheme, token. done.
Qed.

Lemma authenticate_ok request raw_body u :
  _authenticate_webhook request raw_body = Ok u -> authentic request raw_body.
Proof.
  unfold _authenticate_webhook, authentic.
  destruct (String.eqb_spec (ssf_webhook_auth_mode settings) "bearer") as [Hm|_].
  { intros Hr%raise_when_ok. bool_hyps. left. split; [done|]. by apply verify_bearer_token_ok. }
  destruct (String.eqb_spec (ssf_webhook_auth_mode settings) "hmac") as [Hm|_].
  { rewrite bind_ok. intros (ok & Hv & Hr%raise_when_ok). bool_hyps. subst ok.
    right; left. split; [done|].
    unfold _verify_hmac_signature in Hv. destruct (wr_signature request) as [sig|]; [|done].
    destruct (str_true sig); [|done]. cbn [negb] in Hv.
    destruct (startswith "sha256=" sig) eqn:Hp; [|done]. cbn [negb] in Hv.
    unfold compare_digest_str in Hv. destruct (_ && _); [|done]. injection Hv as Hv.
    apply String.eqb_eq in Hv. rewrite Hv. apply startswith_app in Hp. rewrite Hp at 1.
    by rewrite Hp, removeprefix_app. }
  destruct (String.eqb_spec (ssf_webhook_auth_mode settings) "unsigned"); [|done]. intros _. auto.
Qed.

(** ** Claims *)

Fixpoint concat_chunks (chunks : list string) : string :=
  match chunks with [] => "" | c :: t => c +:+ concat_chunks t end.

Lemma read_chunks_ok size chunks body : read_chunks size chunks = Ok body ->
  body = concat_chunks chunks /\ (chunks <> [] -> (size + str_len body <= _MAX_BODY_BYTES)%Z).
Proof.
  revert size body. induction chunks as [|c t IH]; intros size body; simpl.
  - by intros [= <-].
  - destruct (_ <? _)%Z eqn:E; [done|]. bool_hyps. rewrite bind_ok. intros (rest & Hr & [= <-]).
    destruct (IH _ _ Hr) as [-> Hb]. split; [done|]. intros _. unfold str_len in *.
    rewrite str_app_length. destruct t as [|c' t]; [simpl; lia|]. specialize (Hb ltac:(done)). lia.
Qed.

Lemma read_body_ok request body : _read_body_within_limit request = Ok body ->
  body = concat_chunks (wr_chunks request) /\ (str_len body <= _MAX_BODY_BYTES)%Z.
Proof.
  unfold _read_body_within_limit. rewrite bind_ok. intros (? & _ & H').
  apply read_chunks_ok in H' as [-> Hb]. split; [done|].
  destruct (wr_chunks request); [done|]. by apply Hb.
Qed.

(** C6: the webhook acts only on authenticated requests: if the handler returns
    normally or leaves any trace in the state of the service, then the body
    is the concatenation of the received chunks, at most 64 KiB long, and the
    request carries the configured bearer token, or the HMAC-SHA256 of that
    very body under the webhook secret, or the service runs in the explicit
    unsigned mode. *)
Theorem webhook_requires_authentication request s :
  let '(r, s') := authentik_webhook request s in
  is_ok r = true \/ s' <> s ->
  exists body, body = concat_chunks (wr_chunks request) /\ (str_len body <= 65536)%Z /\
    authentic request body.
Proof.
  unfold authentik_webhook.
  liftR_step Hbody; [|by intros [|]].
  liftR_step Hauth; [|by intros [|]].
  apply read_body_ok in Hbody as [-> Hlen]. apply authenticate_ok in Hauth.
  match goal with |- let (_, _) := ?x in _ => destruct x as [r s'] end. intros _. eauto.
Qed.

(** Only other tasks changed the database. *)
Definition others_only (s s' : App) : Prop :=
  rtc (fun a b => exists t, b = tasks_unlocked t a) (app_db s) (app_db s').

Definition enabled_only (streams : list Stream) : list Stream :=
  List.filter (fun s => String.eqb (status s) "enabled") streams.

Lemma map_event_app p s :
  exists events s1, worldM (map_authentik_event p) s = (Ok events, s1) /\
    (exists w w', map_authentik_event p w = (Ok events, w')) /\
    w_trace (app_world s1) = w_trace (app_world s) /\ app_db s1 = app_db s.
Proof.
  unfold worldM, zoom. simpl lget.
  destruct (map_event_total p (app_world s)) as (evs & w' & E). rewrite E.
  eexists evs, _. split; [reflexivity|]. split; [eauto|]. split; [|done].
  by eapply quiet_trace, E; apply map_event_emits.
Qed.

Lemma parse_webhook_json_ok body p : _parse_webhook_json body = Ok p -> loads_bytes body = Ok (JObj p).
Proof.
  unfold _parse_webhook_json. rewrite bind_ok. intros (v & Hv & Hp).
  unfold catch in Hv. destruct (loads_bytes body) as [v'|e]; [|by destruct e].
  injection Hv as ->. destruct v; try done. by injection Hp as ->.
Qed.

Lemma webhook_cases request s :
  let '(r, s') := authentik_webhook request s in
  w_trace (app_world s') = w_trace (app_world s) /\
  match r with
  | Err _ => others_only s s'
  | Ok answer =>
      (exists reason, answer = ignored reason /\ others_only s s') \/
      exists p email streams events ds t t',
        let db := tasks_unlocked t' (tasks_unlocked t (app_db s)) in
        answer = accepted (Z.of_nat (length ds)) /\
        loads_bytes (concat_chunks (wr_chunks request)) = Ok (JObj p) /\
        extract_email p = Some email /\
        (exists w w', map_authentik_event p w = (Ok events, w')) /\
        list_streams settings (tasks_unlocked t (app_db s)) = Ok streams /\
        Forall2 (signed_delivery settings keys email) (routed (enabled_only streams) events) ds /\
        Forall (deliverable settings db) ds /\ committed settings ds db s'
  end.
Proof.
  unfold authentik_webhook.
  liftR_step Hbody; [|by split; [|apply rtc_refl]].
  liftR_step Hauth; [|by split; [|apply rtc_refl]].
  liftR_step Hparse; [|by split; [|apply rtc_refl]].
  cbv zeta. destruct (map_event_app a1 s) as (events & s1 & Hrun & Hevents & Hw & Hdb).
  rewrite (M_bind_run _ _ _ _ _ Hrun).
  assert (others_only s s1) as Ho by (unfold others_only; rewrite Hdb; apply rtc_refl).
  destruct events as [|ev evs]; [split; [done|]; left; eauto|].
  destruct (extract_email a1) as [email|] eqn:Hemail; [|split; [done|]; left; eauto].
  pose proof (parse_webhook_json_ok _ _ Hparse) as Hloads.
  apply read_body_ok in Hbody as [-> _].
  set (t := w_tick (app_world s1)). set (db1 := tasks_unlocked t (app_db s1)).
  set (s2 := {| app_world := {| w_tick := S t; w_trace := w_trace (app_world s1) |}; app_db := db1 |}).
  assert (others_only s s2) as Ho2.
  { eapply rtc_r; [exact Ho|]. exists t. done. }
  assert (unlockedM (readD (list_streams settings)) s1 = (list_streams settings db1, s2)) as Hread by done.
  rewrite (M_bind_run _ _ _ _ _ Hread).
  destruct (list_streams settings db1) as [streams|e] eqn:Hstreams; [|done].
  fold (enabled_only streams). destruct (enabled_only streams) as [|st sts] eqn:Hen; [split; [done|]; left; eauto|].
  rewrite <- Hen. pose proof (enqueue_events_cases settings keys (enabled_only streams) (ev :: evs) email s2) as Hq.
  unfold mbind, M_bind, catchM.
  destruct (enqueue_events settings keys (enabled_only streams) (ev :: evs) email s2) as [[n|e] s3].
  - destruct Hq as (Hw3 & ds & t' & Hsigned & -> & Hdel & Hset).
    split; [by rewrite Hw3|]. right.
    assert (app_db s2 = tasks_unlocked t (app_db s)) as E2 by (unfold s2, db1; simpl; by rewrite Hdb).
    rewrite E2 in Hdel, Hset. unfold db1 in Hstreams. rewrite Hdb in Hstreams.
    exists a1, email, streams, (ev :: evs), ds, t, t'. by split_and!.
  - destruct Hq as [Hw3 Hdb3].
    assert (others_only s s3) as Ho3.
    { destruct Hdb3 as [E|[t' E]]; unfold others_only; rewrite E; [exact Ho2|].
      eapply rtc_r; [exact Ho2|]. by exists t'. }
    destruct (queue_errors e); simpl; (split; [by rewrite Hw3|done]).
Qed.

(** C7: the answer of the webhook is what happened.  [accepted n] means that
    exactly the [n] SETs routed from this event to the enabled streams were
    committed to the outbox, signed for the user named in the payload;
    [ignored] and every error mean that nothing was queued.  In no case is
    another host contacted before answering. *)
Theorem webhook_answer_is_truthful request s :
  let '(r, s') := authentik_webhook request s in
  w_trace (app_world s') = w_trace (app_world s) /\
  match r with
  | Err _ => others_only s s'
  | Ok answer =>
      (exists reason, answer = ignored reason /\ others_only s s') \/
      exists p email streams events ds t t',
        let db := tasks_unlocked t' (tasks_unlocked t (app_db s)) in
        answer = accepted (Z.of_nat (length ds)) /\
        loads_bytes (concat_chunks (wr_chunks request)) = Ok (JObj p) /\
        extract_email p = Some email /\
        (exists w w', map_authentik_event p w = (Ok events, w')) /\
        list_streams settings (tasks_unlocked t (app_db s)) = Ok streams /\
        Forall2 (signed_delivery settings keys email) (routed (enabled_only streams) events) ds /\
        Forall (deliverable settings db) ds /\ committed settings ds db s'
  end.
Proof. apply webhook_cases. Qed.
End webhook.

(** ** Inputs the error handling misses *)

(** In HMAC mode a signature header with a non-ASCII character is not
    rejected with 401: [hmac.compare_digest] refuses non-ASCII strings and the
    [TypeError] escapes the handler, which changes nothing but answers 500. *)
Theorem nonascii_signature_raises `{CryptoLib, Env, Tasks} settings keys request provided s :
  ssf_webhook_auth_mode settings = "hmac" ->
  wr_signature request = Some ("sha256=" +:+ provided) ->
  is_ascii_str provided = false ->
  is_ok (_read_body_within_limit request) = true ->
  authentik_webhook settings keys request s = (Err TypeError, s).
Proof.
  intros Hmode Hsig Hascii Hbody. unfold authentik_webhook.
  liftR_step Hb; [|done]. unfold _authenticate_webhook. rewrite Hmode. cbn [String.eqb Ascii.eqb Bool.eqb].
  unfold _verify_hmac_signature. rewrite Hsig.
  change (str_true ("sha256=" +:+ provided)) with true.
  rewrite prefix_app, removeprefix_app. cbn [negb].
  unfold compare_digest_str. by rewrite Hascii, andb_false_r.
Qed.

(** A body within the size limit can still escape the documented 400: an
    integer of more than 4300 digits makes [json.loads] raise a plain
    [ValueError], which [_parse_webhook_json] does not translate. *)
Theorem huge_integer_not_rejected_as_400 :
  let body := Nat.iter 4301 (String "1") "" in
  (str_len body <= _MAX_BODY_BYTES)%Z /\
  exists msg, _parse_webhook_json body = Err (ValueError msg).
Proof. split; [vm_compute; discriminate|]. eexists. vm_compute. reflexivity. Qed.

(** ** Witnesses *)
Module Example.
Import Toy OutboxSpec.Example.

Definition q (s : string) : string := String dquote s +:+ String dquote "".

(** A logout event, signed with the webhook secret of [example_settings]. *)
Definition logout_body : string :=
  "{" +:+ q "body" +:+ ":{" +:+ q "action" +:+ ":" +:+ q "authentik.core.auth.logout" +:+ "," +:+
  q "user" +:+ ":{" +:+ q "email" +:+ ":" +:+ q " alice@example.com " +:+ "}," +:+ q "pk" +:+ ":7}}".

Definition logout_request : WebhookRequest :=
  {| wr_content_length := Some "128"; wr_authorization := None;
     wr_signature := Some ("sha256=" +:+ webhook_signature example_settings logout_body);
     wr_chunks := [str_take 10 logout_body; str_drop 10 logout_body] |}.

Definition rsa_key : RsaKey := {| rk_private_pem := "pem"; rk_public_pem := "pub"; rk_n := 3233; rk_e := 65537 |}.
Definition example_keys : KeyStore := ensure_keys rsa_key {| ks_private_pem := None; ks_jwks := None |}.
Definition idle_app : App := {| app_world := start; app_db := example_db |}.

Example logout_is_queued :
  fst (authentik_webhook example_settings example_keys logout_request idle_app) = Ok (accepted 1).
Proof. vm_compute. reflexivity. Qed.

Lemma webhook_requires_authentication_witness :
  exists body, body = concat_chunks (wr_chunks logout_request) /\ (str_len body <= 65536)%Z /\
    authentic example_settings logout_request body.
Proof.
  pose proof (webhook_requires_authentication example_settings example_keys logout_request idle_app) as Hw.
  pose proof logout_is_queued as Hq.
  destruct (authentik_webhook example_settings example_keys logout_request idle_app) as [r s'].
  apply Hw. left. simpl in Hq. by rewrite Hq.
Defined.

Lemma nonascii_signature_raises_witness :
  authentik_webhook example_settings example_keys
    {| wr_content_length := None; wr_authorization := None;
       wr_signature := Some ("sha256=" +:+ String "233" ""); wr_chunks := [logout_body] |} idle_app
  = (Err TypeError, idle_app).
Proof. apply (nonascii_signature_raises _ _ _ (String "233" "")); vm_compute; reflexivity. Defined.
End Example.
