(* ===== verification/EndToEnd.v ===== *)
(** * From the webhook to the receiver

    The two halves of the transmitter meet only in the database: the webhook
    ([app/routes/webhook.py]) signs an event and queues it, the worker
    ([app/events/outbox.py]) reads the queue and sends it.  Here the two are
    composed: the rows the one commits are rows the other sends. *)
From Stdlib Require Import ZArith Lia Ascii String Sorting.Sorted.
From stdpp Require Import base option list strings.
From S2P Require Import Prelude PyStr PyVal JsonText Config Crypto Database DatabaseSpec World UrlValidation Mapper Pusher Outbox OutboxSpec OutboxDrain OutboxRecovery Webhook.

Open Scope string_scope.

(** ** Lists *)

Lemma imap_seq_sorted {A B} (f : nat -> A -> B) (R : B -> B -> Prop) l k :
  (forall i j x y, (i < j)%nat -> R (f i x) (f j y)) -> StronglySorted R (imap (fun i => f (k + i)%nat) l).
Proof.
  intros HR. revert k. induction l as [|x l IH]; intros k; [constructor|]. rewrite imap_cons. constructor.
  - erewrite imap_ext; [apply (IH (S k))|]. intros i y _. simpl. f_equal. lia.
  - apply Forall_forall. intros b (i & y & -> & _)%elem_of_lookup_imap_1. apply HR. lia.
Qed.

Lemma insert_by_head {A} (leb : A -> A -> bool) x l : Forall (fun y => leb x y = true) l -> insert_by leb x l = x :: l.
Proof. destruct 1 as [|y l Hy _]; [done|]. simpl. by rewrite Hy. Qed.

Lemma order_by_id {A} (leb : A -> A -> bool) l : StronglySorted (fun a b => leb a b = true) l -> order_by leb l = l.
Proof.
  induction 1 as [|x l _ IH Hx]; [done|]. unfold order_by in *. simpl. rewrite IH. by apply insert_by_head.
Qed.

Section end_to_end.
Context `{CryptoLib} `{Env} `{Tasks} `{!CryptoLaws}.
Variable settings : Settings.
Variable keys : KeyStore.
Hypothesis Halone : alone.
Hypothesis Hclock : forall t t', (t <= t')%nat -> (env_now t <= env_now t')%Z.
Variable row : StreamRow.
Variable stream : Stream.
Variable uris : list string.
Hypothesis Hrow : _row_to_stream settings row = Ok stream.
Hypothesis Henabled : status stream = "enabled".
Hypothesis Hrequested : events_requested stream = JArr (map JStr uris).

(** ** What was just queued *)

Lemma inserted_pendings now ent ds db :
  pendings (insert_deliveries settings now ent ds db) =
  (pendings db ++ imap (outbox_row settings now ent (outbox_seq db)) ds)%list.
Proof.
  unfold pendings. simpl set_outbox. rewrite List.filter_app. f_equal. apply filter_true, Forall_forall.
  by intros o (i & d & -> & _)%elem_of_lookup_imap_1.
Qed.

Lemma inserted_sorted now ent ds seq :
  StronglySorted (fun a b => fifo a b = true) (imap (outbox_row settings now ent seq) ds).
Proof.
  apply (imap_seq_sorted (outbox_row settings now ent seq) _ ds 0). intros i j x y Hij. unfold fifo. simpl.
  rewrite Z.eqb_refl, Z.ltb_irrefl. simpl. lia.
Qed.

(** A delivery signed for one of the events the stream asks for. *)
Definition to_stream (email : string) (events : list MappedEvent) (ds : list (Stream * dict)) : Prop :=
  Forall2 (fun event d => fst d = stream /\ exists now jti fresh token,
      sign_set settings keys now jti fresh (uri event) (aud stream) email (Some (payload event)) (txn event) = Ok token /\
      snd d = delivery_payload stream (uri event) token)
    (List.filter (wants stream) events) ds.

Lemma routed_to_stream email events ds :
  Forall2 (signed_delivery settings keys email) (routed (enabled_only [stream]) events) ds ->
  to_stream email events ds.
Proof.
  unfold to_stream, enabled_only, routed. cbn [List.filter]. rewrite Henabled. cbn [String.eqb Ascii.eqb Bool.eqb List.filter].
  rewrite Henabled. cbn [String.eqb Ascii.eqb Bool.eqb flat_map]. rewrite app_nil_r.
  intros Hf. apply (proj1 (Forall2_fmap_l (pair stream) _ _ _)) in Hf. eapply Forall2_impl; [exact Hf|]. by intros event d.
Qed.

Lemma to_stream_payload email events ds : to_stream email events ds ->
  Forall (fun d => exists event_uri token, d = (stream, delivery_payload stream event_uri token)) ds.
Proof.
  intros Hf. eapply Forall2_Forall_r; [exact Hf|]. apply Forall_forall.
  intros event _ [st d] [Hst (now & jti & fresh & token & _ & Hd)]. simpl in *. subst. eauto.
Qed.

(** The worker takes a fresh row for a delivery to the stream it was queued for. *)
Lemma fresh_row_meant now ent seq i event_uri token :
  exists payload, meant settings stream (outbox_row settings now ent seq i (stream, delivery_payload stream event_uri token)) payload /\
    str_field "token" payload = token.
Proof.
  destruct (queued_payload_deliverable settings stream uris event_uri token now ent seq i Hrequested)
    as (p & Hdec & Hvalid & Hmatch & Htoken).
  exists p. split; [|done]. split_and!; [done|done|apply String.eqb_refl|done].
Qed.

Lemma meant_recognised o payload : meant settings stream o payload -> recognised settings o.
Proof. unfold meant, recognised. by intros (-> & _). Qed.

Lemma fresh_row_settles now ent seq i event_uri token :
  let o := outbox_row settings now ent seq i (stream, delivery_payload stream event_uri token) in
  recognised settings o /\
  (settlement settings stream o).1 = [Resolved (safe_hostname (endpoint_url stream)); Sent (receiver_request stream token)].
Proof.
  intros o. destruct (fresh_row_meant now ent seq i event_uri token) as (p & Hm & Htoken). fold o in Hm.
  split; [by eapply meant_recognised|]. destruct Hm as (Hdec & Hvalid & Hof & Hmatch).
  unfold settlement. by rewrite Hdec, Hvalid, Hof, Hmatch, Htoken.
Qed.

(** What the receiver gets for the queue of [ds]. *)
Definition exchanges (ds : list (Stream * dict)) : list event :=
  flat_map (fun d => [Resolved (safe_hostname (endpoint_url stream));
                      Sent (receiver_request stream (str_field "token" (snd d)))]) ds.

Lemma fresh_queue_sent now ent seq ds k :
  Forall (fun d => exists event_uri token, d = (stream, delivery_payload stream event_uri token)) ds ->
  let rows := imap (fun i => outbox_row settings now ent seq (k + i)) ds in
  Forall (recognised settings) rows /\ sent settings stream rows = exchanges ds.
Proof.
  revert k. induction ds as [|d ds IH]; intros k Hds rows; [by split; [constructor|]|].
  apply Forall_cons in Hds as [(event_uri & token & ->) Hds]. specialize (IH (S k) Hds). cbv zeta in IH.
  unfold rows. rewrite imap_cons.
  destruct (fresh_row_settles now ent seq (k + 0) event_uri token) as [Hrec Hset].
  rewrite (imap_ext _ (fun i => outbox_row settings now ent seq (S k + i))) by (intros; simpl; f_equal; lia).
  destruct IH as [IHr IHs]. split; [by constructor|]. unfold sent in *. cbn [map List.concat]. by rewrite Hset, IHs.
Qed.

Lemma fresh_queue now ent ds db :
  streams db = [row] -> pendings db = [] ->
  Forall (fun d => exists event_uri token, d = (stream, delivery_payload stream event_uri token)) ds ->
  let db' := insert_deliveries settings now ent ds db in
  drainable settings row now db' /\ length (queue db') = length ds /\ sent settings stream (queue db') = exchanges ds.
Proof.
  intros Hs Hp Hds db'. pose proof (inserted_pendings now ent ds db) as Hp'. rewrite Hp in Hp'. fold db' in Hp'. simpl app in Hp'.
  destruct (fresh_queue_sent now ent (outbox_seq db) ds 0 Hds) as [Hrec Hsent]. cbn [Nat.add] in Hrec, Hsent.
  assert (queue db' = imap (outbox_row settings now ent (outbox_seq db)) ds) as Hq.
  { unfold queue. rewrite Hp'. apply order_by_id, inserted_sorted. }
  rewrite Hq, length_imap. split_and!; [|done|exact Hsent].
  split; [split; [exact Hs|rewrite Hp'; apply inserted_ids|by rewrite Hp']|].
  rewrite Hp'. apply imap_Forall. intros. unfold due_by. simpl. lia.
Qed.

(** What an accepted event has committed. *)
Lemma accepted_event request s n s1 :
  streams (app_db s) = [row] -> authentik_webhook settings keys request s = (Ok (accepted n), s1) ->
  exists p email events ds u ent,
    loads_bytes (concat_chunks (wr_chunks request)) = Ok (JObj p) /\ extract_email p = Some email /\
    (exists w w', map_authentik_event p w = (Ok events, w')) /\ to_stream email events ds /\ n = Z.of_nat (length ds) /\
    w_trace (app_world s1) = w_trace (app_world s) /\ (u <= w_tick (app_world s1))%nat /\
    app_db s1 = insert_deliveries settings (env_now u) ent ds (app_db s).
Proof.
  intros Hs Hrun. pose proof (webhook_cases settings keys request s) as Hw. rewrite Hrun in Hw.
  destruct Hw as [Htr [(reason & [=] & _)|(p & email & sts & events & ds & t & t' & Hw)]].
  cbv zeta in Hw. rewrite !(proj1 (Halone _ _)) in Hw.
  destruct Hw as ([= ->] & Hloads & Hemail & Hevents & Hsts & Hsigned & _ & (u & ent & Hu & Hdb)).
  unfold list_streams in Hsts. rewrite Hs in Hsts. cbn in Hsts. rewrite Hrow in Hsts. injection Hsts as <-.
  apply routed_to_stream in Hsigned. exists p, email, events, ds, u, ent. by split_and!.
Qed.

(** With a receiver that works and nothing else in the queue, the SETs of an
    event are all that is sent, in order and each once. *)
Lemma accepted_event_exchanges request s n s1 rounds :
  receiver_up settings (w_tick (app_world s1)) stream -> streams (app_db s) = [row] -> pendings (app_db s) = [] ->
  authentik_webhook settings keys request s = (Ok (accepted n), s1) -> (n <= 25 * Z.of_nat rounds)%Z ->
  exists email events ds s2, to_stream email events ds /\ n = Z.of_nat (length ds) /\
    delivery_loop settings rounds s1 = (Ok false, s2) /\ pendings (app_db s2) = [] /\
    w_trace (app_world s2) = (w_trace (app_world s) ++ exchanges ds)%list.
Proof.
  intros Hup Hs Hp Hrun Hn.
  destruct (accepted_event request s n s1 Hs Hrun) as (p & email & events & ds & u & ent & _ & _ & _ & Hsigned & -> & Htr & Hu & Hdb).
  destruct (fresh_queue (env_now u) ent ds (app_db s) Hs Hp (to_stream_payload _ _ _ Hsigned)) as (Hdrain & Hlen & Hsent).
  rewrite <- Hdb in *.
  destruct (delivery_loop_drains settings Halone row stream Hrow Henabled (w_tick (app_world s1)) Hup Hclock
    (env_now u) rounds s1) as (s2 & op & (E & _ & Htr2 & _) & Hempty); [unfold ready; lia|by apply Hclock|done|lia|].
  exists email, events, ds, s2. rewrite Htr2, Htr, Hsent. by split_and!.
Qed.

(** The worker can go on from the queue with the new rows. *)
Lemma inserted_waiting now ent ds db : db_ok db -> streams db = [row] -> Forall (recognised settings) (pendings db) ->
  Forall (fun d => exists event_uri token, d = (stream, delivery_payload stream event_uri token)) ds ->
  waiting settings row (insert_deliveries settings now ent ds db).
Proof.
  intros Hok Hs Hrec Hds. split; [exact Hs| |].
  - eapply sublist_NoDup; [by apply (insert_deliveries_ids settings now ent ds)|apply (fmap_sublist ob_id), filter_sublist].
  - rewrite inserted_pendings. apply Forall_app. split; [done|]. apply Forall_forall.
    intros o (i & d & -> & Hd)%elem_of_lookup_imap_1. rewrite Forall_forall in Hds.
    destruct (Hds d) as (event_uri & token & ->); [by eapply list_elem_of_lookup_2|].
    by destruct (fresh_row_settles now ent (outbox_seq db) i event_uri token).
Qed.

(** C3: an event reaches the receiver.  When the webhook has answered that it
    accepted [n] deliveries, they are [n] SETs, one per event of the payload
    that the stream asks for, each signed for the user the payload names; and
    however long the receiver was down, the worker sends it all of them after
    that answer, with its own bearer token, and empties the queue after
    finitely many rounds.  Assumed: one stream is stored, readable and enabled,
    with a list of event URIs; the rows satisfy the row invariant and every
    pending payload is decrypted or recognised as unreadable; no other task
    ever writes to the database, and the worker is never asked to stop; the
    clock never goes back and passes every date; the receiver's host is allowed by
    the settings and, from some moment [T0] on, resolves to public addresses and
    answers 2xx within the deadline; and the cryptographic library keeps its laws ([CryptoLaws]). *)
Theorem accepted_event_reaches_receiver request s n s1 T0 :
  db_ok (app_db s) -> streams (app_db s) = [row] -> Forall (recognised settings) (pendings (app_db s)) ->
  authentik_webhook settings keys request s = (Ok (accepted n), s1) ->
  receiver_up settings T0 stream -> (forall z, exists t, (z <= env_now t)%Z) ->
  exists p email events ds rounds s2,
    loads_bytes (concat_chunks (wr_chunks request)) = Ok (JObj p) /\ extract_email p = Some email /\
    (exists w w', map_authentik_event p w = (Ok events, w')) /\
    to_stream email events ds /\ n = Z.of_nat (length ds) /\
    delivery_loop settings rounds s1 = (Ok false, s2) /\ pendings (app_db s2) = [] /\
    Forall (fun d => since s1 s2 (Sent (receiver_request stream (str_field "token" (snd d))))) ds.
Proof.
  intros Hok Hs Hrec Hrun Hup Hunbounded.
  destruct (accepted_event request s n s1 Hs Hrun)
    as (p & email & events & ds & u & ent & Hloads & Hemail & Hevents & Hsigned & Hn & _ & _ & Hdb).
  pose proof (to_stream_payload _ _ _ Hsigned) as Hds.
  pose proof (inserted_waiting (env_now u) ent ds (app_db s) Hok Hs Hrec Hds) as Hw. rewrite <- Hdb in Hw.
  destruct (queue_recovers settings Halone row stream Hrow Henabled Hclock T0 Hup s1 Hw Hunbounded)
    as (rounds & s2 & E & Hempty & Hsent).
  exists p, email, events, ds, rounds, s2. split_and!; try done. apply Forall_forall.
  intros d Hd. rewrite Forall_forall in Hds. destruct (Hds d Hd) as (event_uri & token & ->).
  apply list_elem_of_lookup_1 in Hd as [i Hi].
  destruct (fresh_row_meant (env_now u) ent (outbox_seq (app_db s)) i event_uri token) as (payload & Hm & Htoken).
  simpl snd. change (str_field "token" (delivery_payload stream event_uri token)) with token. rewrite <- Htoken.
  eapply Hsent, Hm. rewrite Hdb, inserted_pendings. apply elem_of_app. right.
  apply elem_of_lookup_imap. by exists i, (stream, delivery_payload stream event_uri token).
Qed.
End end_to_end.

(** ** A logout while the receiver is down *)
Module Example.
Import Toy OutboxSpec.Example OutboxDrain.Example Webhook.Example.

(** The receiver refuses connections during the first hundred interactions. *)
Definition outage : Env := {|
  env_now := env_now; env_monotonic := env_monotonic; env_uuid := env_uuid; env_entropy := env_entropy;
  env_http t rq := if Nat.ltb t 100 then Err HTTPError else env_http t rq;
  env_getaddrinfo := env_getaddrinfo; env_deadline := env_deadline |}.

Lemma outage_up : @receiver_up outage example_settings 100 example_stream.
Proof.
  destruct example_up as [Ha Hh Hres Hacc Hdl]. split; [exact Ha|exact Hh|intros; apply Hres; lia| |intros; apply Hdl; lia].
  intros t token Ht. unfold outage. simpl env_http. destruct (Nat.ltb_spec t 100); [lia|]. exact (Hacc t token ltac:(lia)).
Qed.

Definition logout_run := authentik_webhook (H0 := outage) example_settings example_keys logout_request idle_app.

Lemma accepted_event_reaches_receiver_witness :
  exists token rounds s2, delivery_loop (H0 := outage) example_settings rounds (snd logout_run) = (Ok false, s2) /\
    pendings (app_db s2) = [] /\ since (snd logout_run) s2 (Sent (receiver_request example_stream token)).
Proof.
  assert (fst logout_run = Ok (accepted 1)) as E by (vm_compute; reflexivity).
  destruct (accepted_event_reaches_receiver (H0 := outage) example_settings example_keys) with (row := example_row)
    (stream := example_stream) (uris := ["https://schemas.openid.net/secevent/caep/event-type/session-revoked"])
    (request := logout_request) (s := idle_app) (n := 1%Z) (s1 := snd logout_run) (T0 := 100%nat)
    as (p & email & events & ds & rounds & s2 & _ & _ & _ & _ & Hlen & Hloop & Hempty & Hsent).
  - by intros t db.
  - intros t t'. simpl. lia.
  - vm_compute. reflexivity.
  - reflexivity.
  - reflexivity.
  - split; vm_compute; repeat constructor; discriminate.
  - vm_compute. reflexivity.
  - constructor.
  - rewrite <- E. unfold logout_run. destruct (authentik_webhook _ _ _ _). reflexivity.
  - exact outage_up.
  - intros z. exists (Z.to_nat z). simpl. lia.
  - destruct ds as [|d ds]; [discriminate Hlen|]. apply Forall_cons in Hsent as [Hsent _].
    eexists _, rounds, s2. split_and!; [exact Hloop|exact Hempty|exact Hsent].
Defined.
End Example.
