(* ===== verification/StreamsApi.v ===== *)
(** * Stream management ([app/models.py], [app/routes/streams.py],
    [app/routes/verification.py])

    Pydantic's own parsing is not modelled: a request body is a record of the
    fields it yields, and the validators the models declare are definitions.
    The management token check is in [Auth]. *)
From Stdlib Require Import ZArith Lia Ascii String.
From stdpp Require Import base option list strings relations.
From S2P Require Import Prelude PyStr PyVal JsonText Config Crypto Database DatabaseSpec World UrlValidation Discovery Mapper Pusher Outbox OutboxSpec Webhook.

Open Scope string_scope.

(** ** Request models *)

Definition SUPPORTED_EVENT_URIS : list string :=
  ["https://schemas.openid.net/secevent/caep/event-type/credential-change";
   "https://schemas.openid.net/secevent/caep/event-type/session-revoked";
   "https://schemas.openid.net/secevent/ssf/event-type/verification"].

Definition SUPPORTED_DELIVERY_METHODS : list string :=
  ["https://schemas.openid.net/secevent/risc/delivery-method/push"; "urn:ietf:rfc:8935"].

Inductive StreamStatus := enabled | paused | disabled.

(** [StreamStatus.value] *)
Definition status_value (s : StreamStatus) : string :=
  match s with enabled => "enabled" | paused => "paused" | disabled => "disabled" end.

Definition _coerce_aud (v : json) : result string :=
  v ← match v with
      | JArr [x] => Ok x
      | JArr l => Err (ValueError ("aud must be a single string value, got list of " +:+
                                   str_of_int (Z.of_nat (length l))))
      | _ => Ok v
      end;
  match v with
  | JStr s => if str_true (strip s) then Ok s else Err (ValueError "aud must not be empty")
  | _ => Err (ValueError ("aud must be a string, got " +:+ type_name v))
  end.

Definition _coerce_aud_optional (v : json) : result (option string) :=
  match v with JNull => Ok None | _ => Some <$> _coerce_aud v end.

Definition repr_list (l : list string) : string := py_repr (JArr (map JStr l)).

Definition canonicalize_event_uri (uri : string) : string := uri.

Definition _validate_event_uris (uris : list string) : result (list string) :=
  let canonical := map canonicalize_event_uri uris in
  let unsupported := List.filter (fun u => negb (str_mem u SUPPORTED_EVENT_URIS)) canonical in
  match unsupported with
  | [] => Ok canonical
  | _ => Err (ValueError ("Unsupported event URI(s): " +:+ repr_list unsupported +:+
                          ". Supported: " +:+ repr_list SUPPORTED_EVENT_URIS))
  end.

Definition _validate_method (v : option string) : result (option string) :=
  match v with
  | Some m => if str_mem m SUPPORTED_DELIVERY_METHODS then Ok v
              else Err (ValueError ("Unsupported delivery method: " +:+ repr_str m +:+
                                    ". Supported: " +:+ repr_list SUPPORTED_DELIVERY_METHODS))
  | None => Ok None
  end.

Record DeliveryConfig := {
  dc_endpoint_url : string;
  dc_method : option string;
  dc_endpoint_url_token : option string;
  dc_authorization_header : option string;
}.

Record StreamCreateRequest := {
  cr_aud : string;
  cr_delivery : DeliveryConfig;
  cr_events_requested : list string;
  cr_status : StreamStatus;
}.

Record StreamPatchRequest := {
  pr_status : option StreamStatus;
  pr_events_requested : option (list string);
  pr_delivery : option DeliveryConfig;
  pr_aud : option string;
}.

(** ** Handlers *)

(** Iterating over a JSON value. *)
Definition py_iter (v : json) : result (list json) :=
  match v with
  | JArr l => Ok l
  | JObj d => Ok (map JStr (dkeys d))
  | JStr s => Ok (map (fun c => JStr (String c "")) (list_ascii_of_string s))
  | _ => Err TypeError
  end.

(** [str(exc)] of a [ValueError] *)
Definition exn_str (e : exn) : string := match e with ValueError msg => msg | _ => "" end.

(** [except ValueError as exc: raise HTTPException(400, detail)] *)
Definition bad_request {S A} (prefix : string) (m : M S A) : M S A :=
  catchM m (fun e => if is_ValueError e
                     then Some (raiseM (HTTPException 400 (prefix +:+ exn_str e))) else None).

Section streams_api.
Context `{CryptoLib} `{Env} `{Tasks}.
Variable settings : Settings.
Variable keys : KeyStore.

Definition supported_json : list json := map JStr SUPPORTED_EVENT_URIS.

Definition _stream_response (stream : Stream) : result json :=
  events_delivered ← match events_requested stream with
                     | JNull => Ok supported_json
                     | v => l ← py_iter v; Ok (List.filter (fun e => in_list e supported_json) l)
                     end;
  Ok (JObj [("iss", JStr (ssf_issuer settings)); ("stream_id", JStr (stream_id stream));
            ("aud", JStr (aud stream));
            ("delivery", JObj [("method", JStr "urn:ietf:rfc:8935"); ("endpoint_url", JStr (endpoint_url stream))]);
            ("events_supported", JArr supported_json);
            ("events_requested", events_requested stream);
            ("events_delivered", JArr events_delivered);
            ("status", JStr (status stream)); ("stream_model", JStr "single-stream");
            ("created_at", JInt (created_at stream))]).

Definition current_stream : M App (option Stream) := unlockedM (readD (get_first_stream settings)).

Definition _get_stream_or_404 (sid : option string) : M App Stream :=
  stream ← current_stream;
  match stream with
  | None => raiseM (HTTPException 404 "No stream configured")
  | Some stream =>
      match sid with
      | Some sid => if String.eqb (stream_id stream) sid then mret stream
                    else raiseM (HTTPException 404 "Stream not found")
      | None => mret stream
      end
  end.

(** [settings.ssf_allowed_receiver_hosts or None] *)
Definition allowed_hosts_or_none : option (list string) :=
  match ssf_allowed_receiver_hosts settings with [] => None | l => Some l end.

(** [value or ""] *)
Definition or_empty (v : option string) : string := opt_or v "".

Definition create_payload (body : StreamCreateRequest) : StreamPayload :=
  {| p_aud := Some (cr_aud body);
     p_delivery := Some {| d_endpoint_url := Some (dc_endpoint_url (cr_delivery body));
                           d_endpoint_url_token := Some (or_empty (dc_endpoint_url_token (cr_delivery body)));
                           d_authorization_header := Some (or_empty (dc_authorization_header (cr_delivery body))) |};
     p_endpoint_url := None; p_endpoint_token := None;
     p_events_requested := Some (JArr (map JStr (cr_events_requested body)));
     p_status := Some (status_value (cr_status body));
     p_stream_id := None |}.

Definition validate_target (delivery : DeliveryConfig) : M App unit :=
  bad_request "Invalid endpoint_url: "
    (_ ← worldM (validate_receiver_endpoint_url (dc_endpoint_url delivery) allowed_hosts_or_none); mret tt).

Definition create_stream_endpoint (body : StreamCreateRequest) : M App json :=
  _ ← validate_target (cr_delivery body);
  now ← worldM nowM; uuid ← worldM uuidM;
  stream ← bad_request "" (liftR (prepare_stream now uuid (create_payload body)));
  pushed ← worldM (push_verification_set settings keys stream None);
  if negb (pushed : bool)
  then raiseM (HTTPException 502 "Verification SET delivery failed; stream registration was not confirmed.")
  else
    iv ← worldM entropyM;
    _ ← unlockedM (save_stream settings iv stream);
    liftR (_stream_response stream).

Definition get_stream_endpoint : M App json :=
  stream ← _get_stream_or_404 None; liftR (_stream_response stream).

Definition get_stream_by_id_endpoint (sid : string) : M App json :=
  stream ← _get_stream_or_404 (Some sid); liftR (_stream_response stream).

(** The sparse dict of [_patch_stream_body]. *)
Definition patch_payload (body : StreamPatchRequest) : StreamPayload :=
  {| p_aud := pr_aud body;
     p_delivery := (fun d => {| d_endpoint_url := Some (dc_endpoint_url d);
                                d_endpoint_url_token := dc_endpoint_url_token d;
                                d_authorization_header := dc_authorization_header d |}) <$> pr_delivery body;
     p_endpoint_url := None; p_endpoint_token := None;
     p_events_requested := (fun l => JArr (map JStr l)) <$> pr_events_requested body;
     p_status := status_value <$> pr_status body;
     p_stream_id := None |}.

Definition _patch_stream_body (body : StreamPatchRequest) : M App json :=
  _ ← match pr_delivery body with Some d => validate_target d | None => mret tt end;
  iv ← worldM entropyM;
  stream ← bad_request "" (unlockedM (update_stream settings iv (patch_payload body)));
  match stream with
  | None => raiseM (HTTPException 404 "No stream configured")
  | Some stream => liftR (_stream_response stream)
  end.

Definition patch_stream_endpoint (body : StreamPatchRequest) : M App json := _patch_stream_body body.

Definition patch_stream_by_id_endpoint (sid : string) (body : StreamPatchRequest) : M App json :=
  _ ← _get_stream_or_404 (Some sid); _patch_stream_body body.

Definition delete_stream_endpoint : M App unit :=
  s ← current_stream;
  match s with
  | None => mret tt
  | Some s => _ ← unlockedM (delete_stream_by_id (stream_id s)); mret tt
  end.

Definition delete_stream_by_id_endpoint (sid : string) : M App unit :=
  deleted ← unlockedM (delete_stream_by_id sid);
  if (deleted : bool) then mret tt else raiseM (HTTPException 404 "Stream not found").

Definition status_fields (stream : Stream) : json :=
  JObj [("status", JStr (status stream)); ("stream_id", JStr (stream_id stream));
        ("aud", JStr (aud stream)); ("events_requested", events_requested stream)].

Definition stream_status : M App json :=
  stream ← current_stream;
  match stream with
  | None => mret (JObj [("status", JStr "disabled"); ("reason", JStr "no_stream")])
  | Some stream => mret (status_fields stream)
  end.

Definition stream_status_by_id (sid : string) : M App json :=
  stream ← _get_stream_or_404 (Some sid); mret (status_fields stream).

Record DeliveryStatus := { ds_counts : OutboxStatus; ds_oldest_pending_age_seconds : option Z }.

Definition delivery_status : M App DeliveryStatus :=
  counts ← unlockedM (readD (fun db => Ok (get_outbox_status db)));
  match os_oldest_pending_at counts with
  | None => mret {| ds_counts := counts; ds_oldest_pending_age_seconds := None |}
  | Some oldest =>
      now ← worldM nowM;
      mret {| ds_counts := counts; ds_oldest_pending_age_seconds := Some (Z.max 0 (now - oldest)) |}
  end.

Definition retry_blocked_deliveries : M App json :=
  now ← worldM nowM;
  n ← unlockedM (requeue_blocked_outbox now); mret (JObj [("requeued", JInt n)]).

Definition discard_pending_deliveries : M App json :=
  n ← unlockedM delete_pending_outbox; mret (JObj [("discarded", JInt n)]).

Definition discard_blocked_deliveries : M App json :=
  n ← unlockedM delete_blocked_outbox; mret (JObj [("discarded", JInt n)]).

(** [verify_stream_by_id] and [trigger_verification]. *)
Definition verify_with (state : option string) (sid : option string) : M App unit :=
  stream ← _get_stream_or_404 sid;
  pushed ← worldM (push_verification_set settings keys stream state);
  if (pushed : bool) then mret tt else raiseM (HTTPException 502 "Verification SET delivery failed").

Definition verify_stream_by_id (sid : string) : M App unit := verify_with None (Some sid).
Definition trigger_verification (state : option string) : M App unit := verify_with state None.

(** The validator of [VerificationRequest]: a bare string is the state. *)
Definition _coerce_string (value : json) : json :=
  match value with JStr _ => JObj [("state", value)] | _ => value end.

(** The two subject endpoints only log the keys of their payload. *)
Definition add_subject (payload : dict) : M App json := mret (JObj [("status", JStr "ok")]).
Definition remove_subject (payload : dict) : M App json := mret (JObj [("status", JStr "ok")]).

(** [{**status, "oldest_pending_age_seconds": ...}] *)
Definition int_or_none (v : option Z) : json := match v with Some z => JInt z | None => JNull end.
Definition delivery_status_json (d : DeliveryStatus) : json :=
  JObj [("pending", JInt (os_pending (ds_counts d))); ("blocked", JInt (os_blocked (ds_counts d)));
        ("oldest_pending_at", int_or_none (os_oldest_pending_at (ds_counts d)));
        ("stored", JInt (os_stored (ds_counts d))); ("capacity", JInt (os_capacity (ds_counts d)));
        ("oldest_pending_age_seconds", int_or_none (ds_oldest_pending_age_seconds d))].

(** ** The two routers of the management interface *)

Inductive api_call :=
| ACreate (body : StreamCreateRequest)
| APatch (body : StreamPatchRequest)
| APatchById (sid : string) (body : StreamPatchRequest)
| ADelete
| ADeleteById (sid : string)
| ARead (sid : option string)
| AAddSubject (payload : dict)
| ARemoveSubject (payload : dict)
| AStatus (sid : option string)
| ADeliveryStatus
| AVerify (sid : string)
| AVerification (state : option string)
| ARetryBlocked
| ADiscardPending
| ADiscardBlocked.

(** The handler and the status code its route declares. *)
Definition run_call (c : api_call) : M App answer :=
  let json code (m : M App json) : M App answer := v ← m; mret (json_answer code v) in
  let empty code (m : M App unit) : M App answer := _ ← m; mret (Empty code) in
  match c with
  | ACreate body => json 201%Z (create_stream_endpoint body)
  | APatch body => json 200%Z (patch_stream_endpoint body)
  | APatchById sid body => json 200%Z (patch_stream_by_id_endpoint sid body)
  | ADelete => empty 204%Z delete_stream_endpoint
  | ADeleteById sid => empty 204%Z (delete_stream_by_id_endpoint sid)
  | ARead None => json 200%Z get_stream_endpoint
  | ARead (Some sid) => json 200%Z (get_stream_by_id_endpoint sid)
  | AAddSubject payload => json 200%Z (add_subject payload)
  | ARemoveSubject payload => json 200%Z (remove_subject payload)
  | AStatus None => json 200%Z stream_status
  | AStatus (Some sid) => json 200%Z (stream_status_by_id sid)
  | ADeliveryStatus => d ← delivery_status; mret (json_answer 200 (delivery_status_json d))
  | AVerify sid => empty 202%Z (verify_stream_by_id sid)
  | AVerification state => empty 202%Z (trigger_verification state)
  | ARetryBlocked => json 200%Z retry_blocked_deliveries
  | ADiscardPending => json 200%Z discard_pending_deliveries
  | ADiscardBlocked => json 200%Z discard_blocked_deliveries
  end.
End streams_api.

(** ** Lemmas *)

Section facts.
Context `{CryptoLib} `{Env} `{Tasks} (settings : Settings) (keys : KeyStore).

Lemma py_iter_strings l : py_iter (JArr (map JStr l)) = Ok (map JStr l).
Proof. done. Qed.

Lemma stream_response_total stream l :
  events_requested stream = JArr (map JStr l) -> exists v, _stream_response settings stream = Ok v.
Proof. intros E. unfold _stream_response. rewrite E. simpl. eauto. Qed.

(** What a registration asks for: the bearer token is the one given, bare or as
    an [Authorization] header. *)
Definition requested_token (d : DeliveryConfig) : string :=
  match or_empty (dc_endpoint_url_token d) with
  | "" => removeprefix "Bearer " (or_empty (dc_authorization_header d))
  | token => token
  end.

Definition requested_stream (now : Z) (uuid : string) (body : StreamCreateRequest) : Stream :=
  {| stream_id := uuid; aud := cr_aud body; endpoint_url := dc_endpoint_url (cr_delivery body);
     endpoint_token := requested_token (cr_delivery body);
     events_requested := JArr (map JStr (cr_events_requested body));
     status := status_value (cr_status body); created_at := now |}.

Lemma prepare_create now uuid body stream :
  prepare_stream now uuid (create_payload body) = Ok stream -> stream = requested_stream now uuid body.
Proof.
  unfold prepare_stream, create_payload, requested_stream, requested_token. cbn.
  unfold or_opt, opt_false. destruct (str_true (dc_endpoint_url (cr_delivery body))) eqn:Eu; simpl; [|done].
  rewrite Eu. simpl. destruct (str_true (cr_aud body)); simpl; [|done].
  generalize (or_empty (dc_endpoint_url_token (cr_delivery body))) (or_empty (dc_authorization_header (cr_delivery body))).
  intros [|c token] [|c' header]; cbn -[removeprefix]; try (by destruct (cr_events_requested body); intros [= <-]).
  unfold str_true. destruct (String.eqb_spec (removeprefix "Bearer " (String c' header)) "") as [->|];
    by destruct (cr_events_requested body); intros [= <-].
Qed.

(** World steps leave the database alone. *)
Lemma worldM_db {A} (m : M World A) s r s' : worldM m s = (r, s') -> app_db s' = app_db s.
Proof. unfold worldM, zoom. destruct (m (lget s)). by intros [= <- <-]. Qed.

Lemma worldM_run {A} (m : M World A) s :
  worldM m s = (fst (m (app_world s)), {| app_world := snd (m (app_world s)); app_db := app_db s |}).
Proof. unfold worldM, zoom. simpl. by destruct (m (app_world s)). Qed.

(** One oracle read. *)
Definition tick_on (s : App) : App :=
  {| app_world := {| w_tick := S (w_tick (app_world s)); w_trace := w_trace (app_world s) |};
     app_db := app_db s |}.

Lemma ask_step {A B} (f : nat -> A) (k : A -> M App B) s :
  (worldM (ask f) ≫= k) s = k (f (w_tick (app_world s))) (tick_on s).
Proof. done. Qed.

Lemma allowed_default : default [] (allowed_hosts_or_none settings) = ssf_allowed_receiver_hosts settings.
Proof. unfold allowed_hosts_or_none. by destruct (ssf_allowed_receiver_hosts settings). Qed.

Lemma bad_request_ok {S A} p (m : M S A) s a s' : bad_request p m s = (Ok a, s') -> m s = (Ok a, s').
Proof. unfold bad_request, catchM. destruct (m s) as [[x|e] s1]; [done|]. by destruct (is_ValueError e). Qed.

Lemma bad_request_err {S A} p (m : M S A) s e s' : bad_request p m s = (Err e, s') ->
  exists e0, m s = (Err e0, s') /\
    e = if is_ValueError e0 then HTTPException 400 (p +:+ exn_str e0) else e0.
Proof.
  unfold bad_request, catchM. destruct (m s) as [[x|e0] s1]; [done|].
  destruct (is_ValueError e0) eqn:E; intros [= <- <-]; exists e0; by rewrite E.
Qed.

(** The target was validated, with the answer of the DNS at that moment. *)
Definition validated (d : DeliveryConfig) (s s1 : App) (host : string) : Prop :=
  app_db s1 = app_db s /\ w_trace (app_world s1) = (w_trace (app_world s) ++ [Resolved host])%list /\
  exists ips, env_getaddrinfo (w_tick (app_world s)) host = Ok ips /\
    safe_receiver (dc_endpoint_url d) (ssf_allowed_receiver_hosts settings) ips host.

Lemma validate_target_ok d s s1 :
  validate_target settings d s = (Ok tt, s1) -> exists host, validated d s s1 host.
Proof.
  unfold validate_target. intros Hrun%bad_request_ok.
  apply M_bind_ok in Hrun as (u & s2 & Hrun & [= <-]). rewrite worldM_run in Hrun.
  pose proof (validate_url_cases (dc_endpoint_url d) (allowed_hosts_or_none settings) (app_world s)) as Hv.
  destruct (validate_receiver_endpoint_url _ _ _) as [[u'|e] w']; [|done].
  injection Hrun as <- <-. destruct Hv as (_ & host & ips & Hdns & Hsafe & Htr).
  exists host. split; [done|]. split; [done|]. rewrite <- allowed_default. eauto.
Qed.

Lemma validate_target_db d s r s1 : validate_target settings d s = (r, s1) -> app_db s1 = app_db s.
Proof.
  unfold validate_target, bad_request, catchM, mbind, M_bind. rewrite worldM_run.
  destruct (fst _) as [u|e]; [by intros [= <- <-]|].
  destruct (is_ValueError e); by intros [= <- <-].
Qed.

(** From [s] on, the verification SET was signed, delivered and confirmed. *)
Definition verified (stream : Stream) (state : option string) (s s1 : App) : Prop :=
  exists ips token response,
    let t := w_tick (app_world s) in
    let host := safe_hostname (endpoint_url stream) in
    let rq := receiver_request stream token in
    env_getaddrinfo t host = Ok ips /\ safe_target settings (endpoint_url stream) ips /\
    sign_verification_set settings keys (env_now (S t)) (env_uuid (S (S t))) (aud stream) (stream_id stream) state = Ok token /\
    w_trace (app_world s1) = (w_trace (app_world s) ++ [Resolved host; Sent rq])%list /\
    env_http (S (S (S t))) rq = Ok response /\ is_success response = true.

Lemma push_verification_ok stream state s s1 :
  worldM (push_verification_set settings keys stream state) s = (Ok true, s1) ->
  app_db s1 = app_db s /\ verified stream state s s1.
Proof.
  rewrite worldM_run. pose proof (push_verification_set_cases settings keys stream state (app_world s)) as Hp.
  cbv zeta in Hp. destruct (push_verification_set _ _ _ _ _) as [r w'].
  intros [= -> <-]. split; [done|].
  destruct Hp as [[Hr _]|(ips & token & Hdns & Hsafe & Hsign & Htr & Hr)]; [done|].
  unfold delivery_outcome in Hr. destruct (env_http _ _) as [resp|[]] eqn:Hhttp; try done.
  injection Hr as Hr. exists ips, token, resp. by split_and!.
Qed.
End facts.

(** ** Claims *)

Section claims.
Context `{CryptoLaws} `{Env} `{Tasks} (settings : Settings) (keys : KeyStore).

(** C8: a stream is registered only after its receiver has confirmed it.  When
    [create_stream_endpoint] succeeds, the URL was validated against the SSRF
    rules, a verification SET signed for the new stream was then delivered to
    that URL and answered with a 2xx status, and the one stream the database now
    holds is the requested one in every field: audience, URL, bearer token (given
    bare or as an [Authorization] header), events and status from the request,
    a fresh identifier and the time of the request; the deliveries pending for
    the previous stream are cancelled.  When it fails, it has changed nothing. *)
Theorem create_stream_confirms_receiver body s :
  match create_stream_endpoint settings keys body s with
  | (Ok answer, s') => exists host s1 s2 t,
      let stream := requested_stream (env_now (w_tick (app_world s1))) (env_uuid (S (w_tick (app_world s1)))) body in
      validated settings (cr_delivery body) s s1 host /\
      verified settings keys stream None (tick_on (tick_on s1)) s2 /\ w_trace (app_world s') = w_trace (app_world s2) /\
      length (streams (app_db s')) = 1%nat /\ get_first_stream settings (app_db s') = Ok (Some stream) /\
      set_outbox (app_db s') = delete_where pending (set_outbox (tasks_unlocked t (app_db s))) /\
      _stream_response settings stream = Ok answer
  | (Err _, s') => app_db s' = app_db s
  end.
Proof.
  unfold create_stream_endpoint. unfold mbind at 1, M_bind at 1.
  destruct (validate_target settings (cr_delivery body) s) as [[[]|e] s1] eqn:Hval.
  2:{ by eapply validate_target_db. }
  pose proof (validate_target_db _ _ _ _ _ Hval) as Hdb1.
  apply validate_target_ok in Hval as [host Hval].
  unfold nowM, uuidM, entropyM. rewrite !ask_step. set (s2 := tick_on (tick_on s1)).
  unfold mbind at 1, M_bind at 1.
  destruct (bad_request "" _ s2) as [[stream|e] s3] eqn:Hprep.
  2:{ apply bad_request_err in Hprep as (e0 & [= _ <-] & _). exact Hdb1. }
  apply bad_request_ok in Hprep. injection Hprep as Hprep <-.
  apply prepare_create in Hprep. assert (events_requested stream = JArr (map JStr (cr_events_requested body))) as Hev
    by (by rewrite Hprep).
  unfold mbind at 1, M_bind at 1.
  destruct (worldM (push_verification_set settings keys stream None) s2) as [[[]|e] s3] eqn:Hpush; cbn [negb];
    [|apply worldM_db in Hpush; simpl; rewrite Hpush; exact Hdb1..].
  apply push_verification_ok in Hpush as [Hdb3 Hver].
  rewrite ask_step. unfold mbind, M_bind, unlockedM, dbM.
  set (db := tasks_unlocked _ _).
  assert (plain (events_requested stream) = true) as Hplain by (rewrite Hev; apply plain_strings).
  match goal with |- context [save_stream settings ?iv stream db] =>
    destruct (save_stream_run settings iv stream db Hplain) as (db' & Hsave & Hfirst & _ & Hout) end.
  rewrite Hsave. injection Hsave as Hsave.
  destruct (stream_response_total settings stream _ Hev) as [v Hv].
  unfold liftR. rewrite Hv. exists host, s1, s3. eexists. cbv zeta.
  change (w_tick (app_world (tick_on s1))) with (S (w_tick (app_world s1))) in Hprep. rewrite <- Hprep.
  split_and!; [exact Hval|exact Hver|done|by rewrite <- Hsave|exact Hfirst| |done].
  cbn [app_db]. rewrite Hout. unfold db. cbn [tick_on app_db]. rewrite Hdb3.
  change (app_db s2) with (app_db s1). rewrite Hdb1. reflexivity.
Qed.

(** The receiver token a patch leaves: a replacement given in the delivery
    block, bare or as an [Authorization] header, or the stored one. *)
Definition patched_token (body : StreamPatchRequest) (old : string) : string :=
  match pr_delivery body with
  | None => old
  | Some d =>
      match dc_endpoint_url_token d, dc_authorization_header d with
      | Some t, _ => t
      | None, Some h => removeprefix "Bearer " h
      | None, None => old
      end
  end.

Lemma patched body s :
  (forall d, pr_delivery body = Some d -> dc_endpoint_url d <> "") ->
  updated_stream (patch_payload body) s =
  {| stream_id := stream_id s; aud := opt_or (pr_aud body) (aud s);
     endpoint_url := match pr_delivery body with Some d => dc_endpoint_url d | None => endpoint_url s end;
     endpoint_token := patched_token body (endpoint_token s);
     events_requested := match pr_events_requested body with
                         | Some l => JArr (map JStr l) | None => events_requested s end;
     status := match pr_status body with Some st => status_value st | None => status s end;
     created_at := created_at s |}.
Proof.
  intros Hne. destruct body as [st ev [d|] au]; unfold updated_stream, patch_payload, patched_token; cbn.
  - assert (str_true (dc_endpoint_url d) = true) as Hu.
    { unfold str_true. specialize (Hne d eq_refl). by destruct (String.eqb_spec (dc_endpoint_url d) ""). }
    unfold or_opt, opt_false, _replacement_endpoint_token. cbn. rewrite Hu. cbn.
    destruct (dc_endpoint_url_token d), (dc_authorization_header d) as [h|], st, ev; cbn; try done;
      unfold str_true; destruct (String.eqb_spec h ""); by subst.
  - destruct st, ev; done.
Qed.

(** A patch changes exactly the fields it names.  When it succeeds, a new
    endpoint URL has passed SSRF validation, and the answer describes the
    stored stream with each given field replaced and every other one kept -
    the receiver token included, unless the delivery block carries a new one
    - while queued deliveries follow [update_stream].  When it fails, with
    400, 404 or otherwise, nothing was written. *)
Theorem patch_stream_effect body s :
  match _patch_stream_body settings body s with
  | (Ok answer, s') => exists row old new t,
      let db := tasks_unlocked t (app_db s) in
      head (order_by newer (streams db)) = Some row /\ _row_to_stream settings row = Ok old /\
      new = {| stream_id := stream_id old; aud := opt_or (pr_aud body) (aud old);
               endpoint_url := match pr_delivery body with Some d => dc_endpoint_url d | None => endpoint_url old end;
               endpoint_token := patched_token body (endpoint_token old);
               events_requested := match pr_events_requested body with
                                   | Some l => JArr (map JStr l) | None => events_requested old end;
               status := match pr_status body with Some st => status_value st | None => status old end;
               created_at := created_at old |} /\
      _stream_response settings new = Ok answer /\
      (forall d, pr_delivery body = Some d -> exists host t' ips, env_getaddrinfo t' host = Ok ips /\
         safe_receiver (dc_endpoint_url d) (ssf_allowed_receiver_hosts settings) ips host) /\
      set_outbox (app_db s') =
        (if same_receiver old new then
           if String.eqb (status new) "enabled" && negb (String.eqb (status old) "enabled")
           then update_where (pending_of (stream_id old)) next_attempt_now (set_outbox db)
           else set_outbox db
         else delete_where (pending_of (stream_id old)) (set_outbox db))
  | (Err _, s') => others_only s s'
  end.
Proof.
  assert (forall new, is_list (events_requested new) = true -> exists v, _stream_response settings new = Ok v) as Htotal.
  { intros new Hl. unfold _stream_response. destruct (events_requested new); try done. simpl. eauto. }
  unfold _patch_stream_body. unfold mbind at 1, M_bind at 1.
  destruct (match pr_delivery body with Some d => validate_target settings d | None => mret tt end s)
    as [r s1] eqn:Hval.
  assert (app_db s1 = app_db s) as Hdb1.
  { destruct (pr_delivery body) as [d|]; [by eapply validate_target_db|by injection Hval as _ <-]. }
  destruct r as [[]|e]; [|unfold others_only; rewrite Hdb1; apply rtc_refl].
  unfold entropyM. rewrite ask_step.
  match goal with |- context [update_stream settings ?iv] => set (iv0 := iv) end.
  set (s2 := tick_on s1). unfold mbind at 1, M_bind at 1.
  set (t := w_tick (app_world s2)). set (db := tasks_unlocked t (app_db s)).
  pose proof (update_stream_cases settings iv0 (patch_payload body) db) as Hu.
  assert (unlockedM (update_stream settings iv0 (patch_payload body)) s2 =
    let '(r, db') := update_stream settings iv0 (patch_payload body) db in
    (r, {| app_world := {| w_tick := S t; w_trace := w_trace (app_world s2) |}; app_db := db' |})) as Hrun.
  { unfold unlockedM, dbM, db. change (app_db s2) with (app_db s1). by rewrite Hdb1. }
  unfold bad_request, catchM. rewrite Hrun.
  destruct (update_stream settings iv0 (patch_payload body) db) as [[[new|]|e] db'].
  - destruct Hu as (row & old & Hrow & Hold & Hnew & Hlist & Hq & _).
    destruct (Htotal new Hlist) as [answer Hans]. unfold liftR. rewrite Hans.
    assert (forall d, pr_delivery body = Some d -> exists host, validated settings d s s1 host) as Hv.
    { intros d Hd. rewrite Hd in Hval. by apply validate_target_ok in Hval. }
    exists row, old, new, t. split_and!; try done.
    + rewrite Hnew. apply patched. intros d Hd. destruct (Hv d Hd) as (host & _ & _ & ips & _ & Hsafe).
      intros Hempty. destruct (sr_parsed _ _ _ _ Hsafe) as (pu & Hp & Hscheme & _). rewrite Hempty in Hp.
      vm_compute in Hp. injection Hp as <-. discriminate Hscheme.
    + intros d Hd. destruct (Hv d Hd) as (host & _ & _ & ips & ? & ?). eauto.
  - destruct Hu as [-> _]. apply rtc_once. by exists t.
  - destruct (is_ValueError e); simpl; rewrite Hu; apply rtc_once; by exists t.
Qed.
End claims.

(** ** Witnesses *)
Module Example.
Import Toy OutboxSpec.Example Webhook.Example.

Definition create_body : StreamCreateRequest :=
  {| cr_aud := "https://federation.apple.com/feeds/business/caep/0000";
     cr_delivery := {| dc_endpoint_url := "https://receiver.example.com/set"; dc_method := None;
                       dc_endpoint_url_token := Some "receiver-token"; dc_authorization_header := None |};
     cr_events_requested := ["https://schemas.openid.net/secevent/caep/event-type/session-revoked"];
     cr_status := enabled |}.

Example create_succeeds : is_ok (fst (create_stream_endpoint example_settings example_keys create_body idle_app)) = true.
Proof. vm_compute. reflexivity. Qed.

Lemma create_stream_confirms_receiver_witness :
  exists stream, get_first_stream example_settings
      (app_db (snd (create_stream_endpoint example_settings example_keys create_body idle_app))) = Ok (Some stream) /\
    aud stream = cr_aud create_body /\ endpoint_token stream = "receiver-token".
Proof.
  pose proof (create_stream_confirms_receiver example_settings example_keys create_body idle_app) as Hc.
  pose proof create_succeeds as Hok.
  destruct (create_stream_endpoint example_settings example_keys create_body idle_app) as [[v|e] s']; [|done].
  destruct Hc as (host & s1 & s2 & t & _ & _ & _ & _ & Hg & _). eexists. split; [exact Hg|]. split; reflexivity.
Defined.
End Example.
