(* ===== verification/StreamsType.v ===== *)
(** * The stored stream is well typed

    A typing of the [streams] table; the steps of the database layer with the
    arguments the program gives them, which preserve it; and the fact that
    every handler of the stream management API, whatever its outcome, keeps
    what those steps keep, provided the other tasks do: rely and guarantee are
    the same predicate. *)
From Stdlib Require Import ZArith Lia Ascii String.
From stdpp Require Import base option list strings.
From S2P Require Import Prelude PyStr PyVal JsonText Config Crypto Database DatabaseSpec World UrlValidation Pusher Outbox OutboxSpec StreamsApi.

Open Scope string_scope.

Section typing.
Context `{CryptoLib} `{Env}.
Variable settings : Settings.
(** The allowlist the receivers were checked against. *)
Variable allowed : list string.

(** A receiver URL that passed validation with some answer of the DNS. *)
Definition safe_url (url : string) : Prop :=
  exists host ips, safe_receiver url allowed ips host.

Definition supported (uris : list string) : Prop := Forall (fun u => u ∈ SUPPORTED_EVENT_URIS) uris.

Record typed_row (row : StreamRow) : Prop := {
  ty_aud : strip (r_aud row) <> "";
  ty_url : safe_url (r_endpoint_url row);
  ty_events : exists uris, loads (r_events_requested row) = Ok (JArr (map JStr uris)) /\ supported uris;
  ty_status : exists st, r_status row = status_value st;
}.

Definition typed_db (db : Db) : Prop := Forall typed_row (streams db).

(** ** The database operations *)

Lemma strings_plain uris : plain (JArr (map JStr uris)) = true.
Proof. simpl. by induction uris. Qed.

Lemma strings_roundtrip uris : loads (dumps Spaced (JArr (map JStr uris))) = Ok (JArr (map JStr uris)).
Proof. apply loads_dumps, strings_plain. Qed.

Lemma save_typed iv s : typed_row (row_of_stream settings iv s) -> preserves typed_db (save_stream settings iv s).
Proof. intros Hs db r db' [= <- <-] _. by constructor. Qed.

Lemma row_of_stream_typed iv s st uris :
  strip (aud s) <> "" -> safe_url (endpoint_url s) -> events_requested s = JArr (map JStr uris) ->
  supported uris -> status s = status_value st -> typed_row (row_of_stream settings iv s).
Proof.
  intros Ha Hu He Hs Hst. split; simpl; [done|done| |by exists st].
  exists uris. rewrite He. by rewrite strings_roundtrip.
Qed.

(** A patch of well-typed values. *)
Record typed_patch (p : StreamPayload) : Prop := {
  tp_aud : forall a, p_aud p = Some a -> strip a <> "";
  tp_url : forall u, or_opt (d_endpoint_url (default no_delivery (p_delivery p))) (p_endpoint_url p) = Some u ->
             u <> "" -> safe_url u;
  tp_events : forall v, p_events_requested p = Some v -> exists uris, v = JArr (map JStr uris) /\ supported uris;
  tp_status : forall v, p_status p = Some v -> exists st, v = status_value st;
}.

Lemma row_to_stream_fields row s : _row_to_stream settings row = Ok s ->
  aud s = r_aud row /\ endpoint_url s = r_endpoint_url row /\ status s = r_status row /\
  loads (r_events_requested row) = Ok (events_requested s).
Proof. unfold _row_to_stream. intros (t & _ & (ev & Hev & [= <-])%bind_ok)%bind_ok. done. Qed.

Lemma updated_row_typed sid s token row p r :
  typed_patch p -> typed_row row -> _row_to_stream settings row = Ok s -> typed_row r ->
  typed_row (updated_row sid (updated_stream p s) token r).
Proof.
  intros [Pa Pu Pe Ps] [Ta Tu (uris & Hl & Hsup) Tst] (Ea & Eu & Est & Eev)%row_to_stream_fields Tr.
  unfold updated_row. destruct (String.eqb _ sid); [|done]. split; simpl.
  - unfold opt_or. destruct (p_aud p) as [a|]; [|by rewrite Ea].
    destruct (str_true a); [by apply Pa|by rewrite Ea].
  - revert Pu. unfold or_opt, opt_false.
    destruct (d_endpoint_url (default no_delivery (p_delivery p))) as [u|]; [destruct (str_true u) eqn:Hu|].
    + intros Pu. simpl. apply Pu; [done|]. unfold str_true in Hu. by bool_hyps.
    + destruct (p_endpoint_url p) as [u'|]; [destruct (str_true u') eqn:Hu'|]; simpl; intros Pu; [|by rewrite Eu..].
      apply Pu; [done|]. unfold str_true in Hu'. by bool_hyps.
    + destruct (p_endpoint_url p) as [u'|]; [destruct (str_true u') eqn:Hu'|]; simpl; intros Pu; [|by rewrite Eu..].
      apply Pu; [done|]. unfold str_true in Hu'. by bool_hyps.
  - destruct (p_events_requested p) as [v|].
    + destruct (Pe v eq_refl) as (uris' & -> & Hs'). exists uris'. exact (conj (strings_roundtrip uris') Hs').
    + rewrite Hl in Eev. injection Eev as <-. exists uris. exact (conj (strings_roundtrip uris) Hsup).
  - destruct (p_status p) as [v|]; simpl; [by apply Ps|]. by rewrite Est.
Qed.

Lemma order_by_elem {A} (leb : A -> A -> bool) l x : x ∈ order_by leb l -> x ∈ l.
Proof.
  unfold order_by. induction l as [|y l IH]; simpl; [done|].
  assert (forall t, x ∈ insert_by leb y t -> x = y \/ x ∈ t) as Hins.
  { clear. induction t as [|z t IH]; simpl; [intros ?%list_elem_of_singleton; auto|].
    destruct (leb y z).
    - intros [->|?]%elem_of_cons; auto.
    - rewrite !elem_of_cons. intros [->|Hx]; [auto|]. destruct (IH Hx); auto. }
  intros [->|Hx]%Hins; [left|right; auto].
Qed.

Lemma update_typed iv p : typed_patch p -> preserves typed_db (update_stream settings iv p).
Proof.
  intros Hp db r db' E Hdb. pose proof (update_stream_cases settings iv p db) as Hc. rewrite E in Hc.
  destruct r as [[s'|]|e]; [|by destruct Hc as [-> _]|by subst].
  destruct Hc as (row & s & Hrow & Hs & _ & _ & _ & _ & token & Hrows). unfold typed_db. rewrite Hrows.
  assert (typed_row row) as Hr.
  { unfold typed_db in Hdb. rewrite Forall_forall in Hdb. apply Hdb, (order_by_elem newer).
    destruct (order_by newer (streams db)); [done|]. injection Hrow as ->. left. }
  apply Forall_map. eapply Forall_impl; [exact Hdb|]. intros r Tr. by apply (updated_row_typed _ s token row).
Qed.

Lemma delete_typed sid : preserves typed_db (delete_stream_by_id sid).
Proof.
  unfold delete_stream_by_id, transaction. intros db r db' E Hdb.
  unfold mbind, M_bind, getM, modifyM in E. cbv beta iota zeta in E.
  destruct (0 <? _)%nat; injection E as <- <-; unfold typed_db; simpl;
    (apply Forall_forall; intros x Hx; apply list_elem_of_In, filter_In in Hx as [Hx _];
     unfold typed_db in Hdb; rewrite Forall_forall in Hdb; apply Hdb, list_elem_of_In, Hx).
Qed.

(** ** The operations as the program calls them *)

(** The steps of [DatabaseSpec.db_step]; a stream is stored and patched with
    well-typed values only. *)
Inductive write_step : Db -> Db -> Prop :=
| write_save iv s db : typed_row (row_of_stream settings iv s) -> write_step db (snd (save_stream settings iv s db))
| write_update iv p db : typed_patch p -> write_step db (snd (update_stream settings iv p db))
| write_delete sid db : write_step db (snd (delete_stream_by_id sid db))
| write_enqueue now ent ds db : write_step db (snd (enqueue_outbox settings now ent ds db))
| write_complete i db : write_step db (complete_outbox_item i db)
| write_retry i a n r db : (0 <= a)%Z -> write_step db (retry_outbox_item i a n r db)
| write_block i r db : write_step db (block_outbox_item i r db)
| write_cancel i db : write_step db (cancel_outbox_item i db)
| write_requeue now db : write_step db (snd (requeue_blocked_outbox now db))
| write_delete_blocked db : write_step db (snd (delete_blocked_outbox db))
| write_delete_pending db : write_step db (snd (delete_pending_outbox db))
| write_tokens row db : write_step db (set_tokens row db).

Lemma write_is_step db db' : write_step db db' -> db_step settings db db'.
Proof. destruct 1; by constructor. Qed.

(** Each of them keeps the typing. *)
Lemma write_step_typed db db' : write_step db db' -> typed_db db -> typed_db db'.
Proof.
  destruct 1 as [iv s db Hs|iv p db Hp|sid db|now ent ds db| | | | | | | |]; try done.
  - by eapply save_typed.
  - eapply update_typed; [exact Hp|apply surjective_pairing].
  - eapply delete_typed, surjective_pairing.
  - unfold typed_db. by rewrite (proj1 (enqueue_keeps settings now ent ds db)).
Qed.
End typing.

(** ** Without the allowlist

    What holds of a stored stream whatever allowlist it was registered under. *)
Section weaken.
Context `{CryptoLib}.

Lemma safe_url_weaken allowed url : safe_url allowed url -> safe_url [] url.
Proof. intros (host & ips & []). exists host, ips. by split. Qed.

Lemma typed_row_weaken allowed row : typed_row allowed row -> typed_row [] row.
Proof. intros []. split; eauto using safe_url_weaken. Qed.

Lemma write_step_weaken settings allowed db db' : write_step settings allowed db db' -> write_step settings [] db db'.
Proof.
  destruct 1; try by constructor.
  - constructor. by eapply typed_row_weaken.
  - match goal with Hp : typed_patch _ _ |- _ => destruct Hp end. constructor. split; eauto using safe_url_weaken.
Qed.
End weaken.

(** ** Requests that passed the validators of the models *)

Definition valid_delivery (d : DeliveryConfig) : Prop := _validate_method (dc_method d) = Ok (dc_method d).

Definition valid_create (body : StreamCreateRequest) : Prop :=
  (exists v, _coerce_aud v = Ok (cr_aud body)) /\
  _validate_event_uris (cr_events_requested body) = Ok (cr_events_requested body) /\
  valid_delivery (cr_delivery body).

Definition valid_patch (body : StreamPatchRequest) : Prop :=
  (exists v, _coerce_aud_optional v = Ok (pr_aud body)) /\
  (forall uris, pr_events_requested body = Some uris -> _validate_event_uris uris = Ok uris) /\
  (forall d, pr_delivery body = Some d -> valid_delivery d).

Lemma coerce_aud_nonblank v a : _coerce_aud v = Ok a -> strip a <> "".
Proof.
  unfold _coerce_aud. intros (x & _ & E)%bind_ok. destruct x; try done.
  destruct (str_true (strip s)) eqn:Hs; [|done]. injection E as <-. unfold str_true in Hs. by bool_hyps.
Qed.

Lemma validate_event_uris_supported uris : _validate_event_uris uris = Ok uris -> supported uris.
Proof.
  unfold _validate_event_uris, supported. rewrite (map_id uris : map canonicalize_event_uri uris = uris).
  intros E. apply Forall_forall. intros u Hu.
  apply str_mem_elem. destruct (str_mem u SUPPORTED_EVENT_URIS) eqn:Hm; [done|].
  assert (u ∈ List.filter (fun u => negb (str_mem u SUPPORTED_EVENT_URIS)) uris) as Hin.
  { apply list_elem_of_In, filter_In. split; [by apply list_elem_of_In|by rewrite Hm]. }
  destruct (List.filter _ uris); [by apply elem_of_nil in Hin|done].
Qed.

Section handlers.
Context `{CryptoLib} `{Env} `{Tasks}.
Variable settings : Settings.
Variable keys : KeyStore.

Abbreviation hosts := (ssf_allowed_receiver_hosts settings).

(** An invariant of the steps the other tasks keep. *)
Variable Inv : Db -> Prop.
Hypothesis Inv_step : forall db db', write_step settings hosts db db' -> Inv db -> Inv db'.
Hypothesis others_keep : forall t db, Inv db -> Inv (tasks_unlocked t db).

Definition Inv_app (s : App) : Prop := Inv (app_db s).

Lemma worldM_keeps {A} (m : M World A) : preserves Inv_app (worldM m : M App A).
Proof. intros s r s' E Hs. apply worldM_db in E. unfold Inv_app. by rewrite E. Qed.

Lemma unlockedM_keeps {A} (m : M Db A) : preserves Inv m -> preserves Inv_app (unlockedM m).
Proof.
  intros Hm s r s' E Hs. unfold unlockedM, dbM in E. destruct (m _) as [r0 db'] eqn:Em.
  injection E as <- <-. apply Hm in Em. by apply Em, others_keep.
Qed.

Lemma readD_keeps {A} (f : Db -> result A) : preserves Inv (readD f).
Proof. by intros db r db' [= <- <-]. Qed.

(** One operation. *)
Lemma write_keeps {A} (m : M Db A) :
  (forall db, write_step settings hosts db (snd (m db))) -> preserves Inv (m : M Db A).
Proof. intros Hm db r db' E. specialize (Hm db). rewrite E in Hm. by apply Inv_step. Qed.

Lemma current_stream_keeps : preserves Inv_app (current_stream settings).
Proof. apply unlockedM_keeps, readD_keeps. Qed.

Lemma get_stream_or_404_keeps sid : preserves Inv_app (_get_stream_or_404 settings sid).
Proof.
  unfold _get_stream_or_404. apply preserves_bind; [apply current_stream_keeps|]. intros [stream|]; [|apply preserves_raise].
  destruct sid as [sid|]; [|apply preserves_ret]. destruct (String.eqb _ sid); [apply preserves_ret|apply preserves_raise].
Qed.

Lemma bad_request_keeps {A} p (m : M App A) : preserves Inv_app m -> preserves Inv_app (bad_request p m).
Proof.
  intros Hm. apply preserves_catch; [done|]. intros e k Hk. destruct (is_ValueError e); [|done].
  injection Hk as <-. apply preserves_raise.
Qed.

Lemma validate_target_keeps d : preserves Inv_app (validate_target settings d).
Proof.
  apply bad_request_keeps, preserves_bind; [apply worldM_keeps|]. intros _. apply preserves_ret.
Qed.

Lemma validated_safe d s u s' : validate_target settings d s = (Ok u, s') -> safe_url hosts (dc_endpoint_url d).
Proof. destruct u. intros (host & _ & _ & ips & _ & Hsafe)%validate_target_ok. by exists host, ips. Qed.

Lemma create_keeps body : valid_create body -> preserves Inv_app (create_stream_endpoint settings keys body).
Proof.
  intros ([v Ha%coerce_aud_nonblank] & He%validate_event_uris_supported & _). unfold create_stream_endpoint.
  apply preserves_bind_post with (Q := fun _ => safe_url hosts (dc_endpoint_url (cr_delivery body)));
    [apply validate_target_keeps|intros s u s' _; apply validated_safe|]. intros _ Hurl.
  apply preserves_bind; [apply worldM_keeps|]. intros now. apply preserves_bind; [apply worldM_keeps|]. intros uuid.
  eapply preserves_bind_post with (Q := fun stream => prepare_stream now uuid (create_payload body) = Ok stream).
  { apply bad_request_keeps, preserves_liftR. }
  { intros s a s' _ E%bad_request_ok. by injection E. }
  intros stream ->%prepare_create.
  apply preserves_bind; [apply worldM_keeps|]. intros []; cbn [negb]; [|apply preserves_raise].
  apply preserves_bind; [apply worldM_keeps|]. intros iv.
  apply preserves_bind; [|intros _; apply preserves_liftR].
  apply unlockedM_keeps, write_keeps. intros db. constructor. by eapply row_of_stream_typed.
Qed.

Lemma patch_payload_typed body :
  valid_patch body -> (forall d, pr_delivery body = Some d -> safe_url hosts (dc_endpoint_url d)) ->
  typed_patch hosts (patch_payload body).
Proof.
  intros ([v Ha] & He & _) Hd. split; unfold patch_payload; cbn [p_aud p_delivery p_endpoint_url p_events_requested p_status].
  - intros a E. rewrite E in Ha. unfold _coerce_aud_optional in Ha.
    assert (exists v', _coerce_aud v' = Ok a) as [v' Hv'].
    { destruct v; try done; destruct (_coerce_aud _) eqn:E'; simpl in Ha; try done; injection Ha as ->; eauto. }
    by eapply coerce_aud_nonblank.
  - destruct (pr_delivery body) as [d|]; simpl; [|done]. unfold or_opt, opt_false.
    intros u Hu Hne. destruct (str_true (dc_endpoint_url d)) eqn:Ht; simpl in Hu; [|done].
    injection Hu as <-. by apply Hd.
  - intros v' E. destruct (pr_events_requested body) as [uris|]; [|done]. injection E as <-.
    exists uris. split; [done|]. by apply validate_event_uris_supported, He.
  - intros v' E. destruct (pr_status body) as [st|]; [|done]. injection E as <-. by exists st.
Qed.

Lemma patch_keeps body : valid_patch body -> preserves Inv_app (_patch_stream_body settings body).
Proof.
  intros Hv. unfold _patch_stream_body.
  eapply preserves_bind_post with (Q := fun _ => forall d, pr_delivery body = Some d -> safe_url hosts (dc_endpoint_url d)).
  { destruct (pr_delivery body); [apply validate_target_keeps|apply preserves_ret]. }
  { intros s u s' _ E d Hd. rewrite Hd in E. by eapply validated_safe. }
  intros _ Hd. apply preserves_bind; [apply worldM_keeps|]. intros iv.
  apply preserves_bind; [apply bad_request_keeps, unlockedM_keeps, write_keeps; constructor; by apply patch_payload_typed|].
  intros [stream|]; [apply preserves_liftR|apply preserves_raise].
Qed.

(** ** The management interface *)

(** What FastAPI lets through to the handlers. *)
Definition valid_call (c : api_call) : Prop :=
  match c with
  | ACreate body => valid_create body
  | APatch body | APatchById _ body => valid_patch body
  | _ => True
  end.

Lemma verify_keeps state sid : preserves Inv_app (verify_with settings keys state sid).
Proof.
  apply preserves_bind; [apply get_stream_or_404_keeps|]. intros s.
  apply preserves_bind; [apply worldM_keeps|]. intros []; [apply preserves_ret|apply preserves_raise].
Qed.

Ltac queue_step := apply unlockedM_keeps, write_keeps; constructor.

(** The handlers are the first part of a call; the rest only answers. *)
Ltac then_answer := apply preserves_bind; [|intros; apply preserves_ret].

Lemma run_call_keeps c : valid_call c -> preserves Inv_app (run_call settings keys c).
Proof.
  intros Hv. destruct c as [body|body|sid body| |sid|[sid|]|payload|payload|[sid|]| |sid|state| | |]; then_answer.
  - by apply create_keeps.
  - by apply patch_keeps.
  - apply preserves_bind; [apply get_stream_or_404_keeps|]. intros _. by apply patch_keeps.
  - apply preserves_bind; [apply current_stream_keeps|]. intros [s|]; [|apply preserves_ret].
    apply preserves_bind; [apply unlockedM_keeps, write_keeps; constructor|]. intros _. apply preserves_ret.
  - apply preserves_bind; [apply unlockedM_keeps, write_keeps; constructor|]. intros []; [apply preserves_ret|apply preserves_raise].
  - apply preserves_bind; [apply get_stream_or_404_keeps|]. intros s. apply preserves_liftR.
  - apply preserves_bind; [apply get_stream_or_404_keeps|]. intros s. apply preserves_liftR.
  - apply preserves_ret.
  - apply preserves_ret.
  - apply preserves_bind; [apply get_stream_or_404_keeps|]. intros s. apply preserves_ret.
  - apply preserves_bind; [apply current_stream_keeps|]. intros [s|]; apply preserves_ret.
  - apply preserves_bind; [apply unlockedM_keeps, readD_keeps|]. intros counts.
    destruct (os_oldest_pending_at counts); [|apply preserves_ret].
    apply preserves_bind; [apply worldM_keeps|]. intros now. apply preserves_ret.
  - by apply verify_keeps.
  - by apply verify_keeps.
  - apply preserves_bind; [apply worldM_keeps|]. intros now.
    apply preserves_bind; [queue_step|]. intros n. apply preserves_ret.
  - apply preserves_bind; [queue_step|]. intros n. apply preserves_ret.
  - apply preserves_bind; [queue_step|]. intros n. apply preserves_ret.
Qed.

Lemma run_calls_keeps calls : Forall valid_call calls ->
  forall s, Inv_app s -> Inv_app (foldl (fun s c => snd (run_call settings keys c s)) s calls).
Proof.
  induction 1 as [|c calls Hc _ IH]; intros s Hs; simpl; [done|]. apply IH.
  destruct (run_call settings keys c s) as [r s'] eqn:E. by eapply run_call_keeps.
Qed.
End handlers.

Section stored.
Context `{CryptoLib} `{Env} `{Tasks}.
Variable settings : Settings.
Variable keys : KeyStore.

Definition typed_app (s : App) : Prop := typed_db (ssf_allowed_receiver_hosts settings) (app_db s).

(** The other tasks keep the table well typed. *)
Hypothesis others_typed : forall t db,
  typed_db (ssf_allowed_receiver_hosts settings) db -> typed_db (ssf_allowed_receiver_hosts settings) (tasks_unlocked t db).

Lemma filter_supported uris : supported uris ->
  List.filter (fun e => in_list e supported_json) (map JStr uris) = map JStr uris.
Proof.
  induction 1 as [|u uris Hu _ IH]; [done|]. cbn [map List.filter].
  assert (in_list (JStr u) supported_json = true) as ->.
  { unfold supported_json. rewrite in_list_str. by apply existsb_str_elem. }
  by rewrite IH.
Qed.

(** C9: every stream the management API leaves in the database is well typed,
    after any sequence of valid calls, successful or not, if the other tasks
    keep it so: a nonblank audience, an HTTPS receiver URL that passed the
    SSRF validation, a list of supported event URIs, and one of the three
    statuses; and each of those streams can be presented to a client. *)
Theorem stored_streams_typed calls s :
  typed_app s -> Forall valid_call calls ->
  let s' := foldl (fun s c => snd (run_call settings keys c s)) s calls in
  typed_app s' /\
  forall row stream, row ∈ streams (app_db s') -> _row_to_stream settings row = Ok stream ->
    exists answer uris, _stream_response settings stream = Ok (JObj answer) /\
      events_requested stream = JArr (map JStr uris) /\ dlookup "events_delivered" answer = Some (JArr (map JStr uris)).
Proof.
  intros Hs Hc. cbv zeta.
  pose proof (run_calls_keeps settings keys _ (write_step_typed settings _) others_typed calls Hc s Hs) as Hty.
  split; [done|].
  intros row stream Hrow (_ & _ & _ & Hev)%row_to_stream_fields. unfold Inv_app, typed_db in Hty.
  rewrite Forall_forall in Hty. destruct (ty_events _ row (Hty row Hrow)) as (uris & Hl & Hsup).
  rewrite Hl in Hev. injection Hev as Hev. unfold _stream_response. rewrite <- Hev. cbn [py_iter].
  unfold mbind, result_bind. rewrite (filter_supported uris Hsup). eexists _, uris. repeat split.
Qed.
End stored.

(** A registration and a patch on an empty database. *)
Module Example.
Import Toy OutboxSpec.Example Webhook.Example StreamsApi.Example.

Definition pause_patch : StreamPatchRequest :=
  {| pr_status := Some paused; pr_events_requested := None; pr_delivery := None; pr_aud := None |}.
Definition empty_app : App := {| app_world := start; app_db := empty_db |}.
Definition calls : list api_call := [ACreate create_body; APatch pause_patch].
Definition after_calls : App :=
  foldl (fun s c => snd (run_call example_settings example_keys c s)) empty_app calls.

Lemma stored_streams_typed_witness :
  typed_app example_settings after_calls /\ map r_status (streams (app_db after_calls)) = ["paused"].
Proof.
  split; [|vm_compute; reflexivity].
  apply (stored_streams_typed example_settings example_keys) with (calls := calls) (s := empty_app).
  - by intros t db Hdb.
  - constructor.
  - repeat constructor.
    + exists (JStr (cr_aud create_body)). vm_compute. reflexivity.
    + by exists JNull.
    + intros uris [=].
    + intros d [=].
Defined.
End Example.
