(* ===== verification/AppleScim.v ===== *)
(** * The Apple SCIM client ([app/scim/apple.py])

    User records returned by Apple are shared, mutable dictionaries: the
    identity indexes hold references to them and the externalId repair
    rewrites one in place.  They live in a heap and are passed by address. *)
From Stdlib Require Import ZArith Lia Ascii String.
From stdpp Require Import base option list strings.
From S2P Require Import Prelude PyStr PyVal JsonText Config World.

Open Scope string_scope.

Definition APPLE_SCIM_BASE : string := "https://federation.apple.com/feeds/business/scim".
Definition _USER_LIST_COUNT : Z := 200.
Definition _FILTER_LOOKUP_COUNT : Z := 2.

(** ** Standard-library helpers: [urllib.parse.quote(s, safe="")] and
    [json.dumps(s, ensure_ascii=False)] *)

Definition unreserved (c : ascii) : bool :=
  let n := code c in
  ((48 <=? n) && (n <=? 57) || (65 <=? n) && (n <=? 90) || (97 <=? n) && (n <=? 122)
   || (n =? 95) || (n =? 46) || (n =? 45) || (n =? 126))%N.

Definition upper_hex (n : N) : ascii := ascii_of_N (if (n <? 10)%N then 48 + n else 55 + n).

Fixpoint quote_bytes (s : string) : string :=
  match s with
  | "" => ""
  | String c t =>
      if unreserved c then String c (quote_bytes t)
      else String "%" (String (upper_hex (code c / 16)) (String (upper_hex (code c mod 16)) (quote_bytes t)))
  end.

Definition quote (s : string) : string := quote_bytes (utf8_encode s).

Definition raw_esc_char (c : ascii) : string :=
  let n := code c in
  if (128 <=? n)%N || (n =? 127)%N then String c "" else esc_char c.

Fixpoint raw_esc (s : string) : string :=
  match s with "" => "" | String c t => raw_esc_char c +:+ raw_esc t end.

Definition dumps_unicode (s : string) : string := String dquote (raw_esc s +:+ String dquote "").

(** ** State *)

Record SyncResult := {
  created : Z;
  updated : Z;
  unchanged : Z;
  conflicts : Z;
  errors : Z;
  update_400_invalid_request : Z;
  out_of_scope_diffs : Z;
  conflict_usernames : list string;
}.

Definition no_result : SyncResult :=
  {| created := 0; updated := 0; unchanged := 0; conflicts := 0; errors := 0;
     update_400_invalid_request := 0; out_of_scope_diffs := 0; conflict_usernames := [] |}.

Abbreviation addr := nat.
Abbreviation index := (list (string * addr)).

Record Scim := {
  sc_world : World;
  sc_heap : list dict;
  sc_result : SyncResult;
}.

(** The state [sync_users] is called in: its result object is fresh and no
    Apple record is held. *)
Definition sync_start (w : World) : Scim := {| sc_world := w; sc_heap := []; sc_result := no_result |}.

#[export] Instance scim_world_lens : Lens Scim World :=
  {| lget := sc_world; lset w s := {| sc_world := w; sc_heap := sc_heap s; sc_result := sc_result s |} |}.
#[export] Instance scim_world_laws : LensLaws Scim World.
Proof. split; [done|by intros []|done]. Qed.

(** Dictionaries with reference values. *)
Fixpoint ilookup (k : string) (d : index) : option addr :=
  match d with
  | [] => None
  | (k', a) :: t => if String.eqb k k' then Some a else ilookup k t
  end.
Fixpoint iset (k : string) (a : addr) (d : index) : index :=
  match d with
  | [] => [(k, a)]
  | (k', a') :: t => if String.eqb k k' then (k', a) :: t else (k', a') :: iset k a t
  end.

Definition heap_get (a : addr) (h : list dict) : dict := default [] (h !! a).

Definition alloc (d : dict) : M Scim addr := fun s =>
  (Ok (length (sc_heap s)),
   {| sc_world := sc_world s; sc_heap := (sc_heap s ++ [d])%list; sc_result := sc_result s |}).
Definition deref (a : addr) : M Scim dict := fun s => (Ok (heap_get a (sc_heap s)), s).
(** [d.clear(); d.update(new)] *)
Definition overwrite (a : addr) (d : dict) : M Scim unit := fun s =>
  (Ok tt, {| sc_world := sc_world s; sc_heap := <[a := d]> (sc_heap s); sc_result := sc_result s |}).
Definition record_result (f : SyncResult -> SyncResult) : M Scim unit := fun s =>
  (Ok tt, {| sc_world := sc_world s; sc_heap := sc_heap s; sc_result := f (sc_result s) |}).

(** [result.x += 1] *)
Definition inc_created (r : SyncResult) := {| created := created r + 1; updated := updated r; unchanged := unchanged r; conflicts := conflicts r; errors := errors r; update_400_invalid_request := update_400_invalid_request r; out_of_scope_diffs := out_of_scope_diffs r; conflict_usernames := conflict_usernames r |}.
Definition inc_updated (r : SyncResult) := {| created := created r; updated := updated r + 1; unchanged := unchanged r; conflicts := conflicts r; errors := errors r; update_400_invalid_request := update_400_invalid_request r; out_of_scope_diffs := out_of_scope_diffs r; conflict_usernames := conflict_usernames r |}.
Definition inc_unchanged (r : SyncResult) := {| created := created r; updated := updated r; unchanged := unchanged r + 1; conflicts := conflicts r; errors := errors r; update_400_invalid_request := update_400_invalid_request r; out_of_scope_diffs := out_of_scope_diffs r; conflict_usernames := conflict_usernames r |}.
Definition inc_errors (r : SyncResult) := {| created := created r; updated := updated r; unchanged := unchanged r; conflicts := conflicts r; errors := errors r + 1; update_400_invalid_request := update_400_invalid_request r; out_of_scope_diffs := out_of_scope_diffs r; conflict_usernames := conflict_usernames r |}.
Definition inc_update_400 (r : SyncResult) := {| created := created r; updated := updated r; unchanged := unchanged r; conflicts := conflicts r; errors := errors r; update_400_invalid_request := update_400_invalid_request r + 1; out_of_scope_diffs := out_of_scope_diffs r; conflict_usernames := conflict_usernames r |}.
Definition inc_out_of_scope (r : SyncResult) := {| created := created r; updated := updated r; unchanged := unchanged r; conflicts := conflicts r; errors := errors r; update_400_invalid_request := update_400_invalid_request r; out_of_scope_diffs := out_of_scope_diffs r + 1; conflict_usernames := conflict_usernames r |}.
Definition add_conflict (username : list string) (r : SyncResult) := {| created := created r; updated := updated r; unchanged := unchanged r; conflicts := conflicts r + 1; errors := errors r; update_400_invalid_request := update_400_invalid_request r; out_of_scope_diffs := out_of_scope_diffs r; conflict_usernames := (conflict_usernames r ++ username)%list |}.

(** ** Identities *)

Definition _normalize_identifier (v : json) : string := lower (strip (str_or_empty v)).
Definition _normalize_email (v : json) : string := lower (strip (str_or_empty v)).

(** [str(d.get("externalId") or "").strip()] *)
Definition external_id_of (d : dict) : string := strip (str_or_empty (dget "externalId" d)).
Definition username_of (d : dict) : string := _normalize_identifier (dget "userName" d).

Definition safe_id_char (c : ascii) : bool :=
  negb (Ascii.eqb c "/" || Ascii.eqb c "\" || Ascii.eqb c "%")
  && negb ((code c <? 32)%N || (code c =? 127)%N).

Definition _is_safe_user_id (v : json) : bool :=
  match v with
  | JStr s => String.eqb s (strip s) && negb (str_mem s [""; "."; ".."]) && str_forallb safe_id_char s
  | _ => false
  end.

Definition _user_url (user_id : string) : string := APPLE_SCIM_BASE +:+ "/Users/" +:+ quote user_id.

(** [d["id"]], used where only a string can reach [quote]. *)
Definition id_of (d : dict) : result string :=
  match dlookup "id" d with
  | Some (JStr s) => Ok s
  | Some _ => Err TypeError
  | None => Err KeyError
  end.

(** [isinstance(username, str) and username.strip()] *)
Definition nonblank (v : json) : bool := match v with JStr s => str_true (strip s) | _ => false end.

(** ** Listing: one page *)

Definition list_error (msg : string) : exn := AppleUserListError msg.

Definition _validate_users_page (data : dict) (expected_start : Z) (expected_total : option Z)
    : result (list dict * Z) :=
  match dget "totalResults" data with
  | JInt total =>
      _ ← raise_when (total <? 0)%Z (list_error "Apple SCIM user listing has an invalid totalResults");
      _ ← raise_when (match expected_total with Some t => negb (total =? t)%Z | None => false end)
            (list_error "Apple SCIM user listing changed during pagination");
      match dget_default "startIndex" (JInt expected_start) data with
      | JInt start =>
          _ ← raise_when (negb (start =? expected_start)%Z)
                (list_error "Apple SCIM user listing has an unexpected startIndex");
          match dget_default "Resources" (JArr []) data with
          | JArr l =>
              resources ← mapR (fun u => match u with
                            | JObj d => Ok d
                            | _ => Err (list_error "Apple SCIM user listing has invalid Resources")
                            end) l;
              let n := Z.of_nat (length resources) in
              match dget_default "itemsPerPage" (JInt n) data with
              | JInt per_page =>
                  _ ← raise_when (negb (per_page =? n)%Z)
                        (list_error "Apple SCIM user listing has an invalid itemsPerPage");
                  _ ← raise_when (total <? start - 1 + n)%Z
                        (list_error "Apple SCIM user listing exceeds totalResults");
                  _ ← raise_when ((n =? 0) && (start <=? total))%Z
                        (list_error "Apple SCIM user listing ended before all users were returned");
                  Ok (resources, total)
              | _ => Err (list_error "Apple SCIM user listing has an invalid itemsPerPage")
              end
          | _ => Err (list_error "Apple SCIM user listing has invalid Resources")
          end
      | _ => Err (list_error "Apple SCIM user listing has an unexpected startIndex")
      end
  | _ => Err (list_error "Apple SCIM user listing has an invalid totalResults")
  end.

(** Only called on validated pages, where the three values are integers. *)
Definition _next_users_page_url (data : dict) (expected_start : Z) : result (option string) :=
  let n := match dget_default "Resources" (JArr []) data with JArr l => Z.of_nat (length l) | _ => 0%Z end in
  match dget "totalResults" data, dget_default "startIndex" (JInt expected_start) data,
        dget_default "itemsPerPage" (JInt n) data with
  | JInt total, JInt start, JInt per_page =>
      if (per_page =? 0)%Z then
        _ ← raise_when (start <=? total)%Z
              (list_error "Apple SCIM user listing ended before all users were returned");
        Ok None
      else if (start + per_page - 1 <? total)%Z then
        Ok (Some (APPLE_SCIM_BASE +:+ "/Users?count=" +:+ str_of_int _USER_LIST_COUNT +:+
                  "&startIndex=" +:+ str_of_int (start + per_page)))
      else Ok None
  | _, _, _ => Err TypeError
  end.

Definition _apple_single_page (data : dict) (requested_count : Z) : result (option (list dict)) :=
  match dget "Resources" data, dget "totalResults" data, dget "startIndex" data, dget "itemsPerPage" data with
  | JArr l, JInt total, JInt start, JInt per_page =>
      let n := Z.of_nat (length l) in
      if (negb (total =? n) || negb (start =? n + 1) || negb (per_page =? requested_count))%Z then Ok None
      else
        _ ← raise_when (requested_count <? n)%Z (list_error "Apple SCIM user listing exceeds the requested count");
        '(users, _) ← _validate_users_page (dset "itemsPerPage" (JInt n) (dset "startIndex" (JInt 1) data)) 1 None;
        Ok (Some users)
  | _, _, _, _ => Ok None
  end.

(** ** Indexes *)

Record Indexes := { seen_ids : list string; by_ext_id : index; by_username : index }.

Definition no_indexes : Indexes := {| seen_ids := []; by_ext_id := []; by_username := [] |}.

(** [_index_users_page] on a one-user page. *)
Definition _index_users_page (a : addr) (u : dict) (ix : Indexes) : Indexes :=
  let ext_id := dget "externalId" u in
  let username := dget_default "userName" (JStr "") u in
  {| seen_ids := seen_ids ix;
     by_ext_id := if truthy ext_id then iset (strip (py_str ext_id)) a (by_ext_id ix) else by_ext_id ix;
     by_username := if truthy username then iset (_normalize_identifier username) a (by_username ix)
                    else by_username ix |}.

Definition has_key (k : string) (d : index) : bool := match ilookup k d with Some _ => true | None => false end.

Definition _index_unique_user (a : addr) (u : dict) (ix : Indexes) : result Indexes :=
  let username := dget "userName" u in
  match dget "id" u with
  | JStr user_id =>
      _ ← raise_when (negb (_is_safe_user_id (JStr user_id)))
            (list_error "Apple SCIM user listing contains a user with an invalid id");
      _ ← raise_when (negb (nonblank username))
            (list_error "Apple SCIM user listing contains a user without a userName");
      let external_id := external_id_of u in
      _ ← raise_when (str_mem user_id (seen_ids ix)
                      || has_key (_normalize_identifier username) (by_username ix)
                      || (str_true external_id && has_key external_id (by_ext_id ix)))
            (list_error "Apple SCIM user listing contains duplicate identities");
      let ix' := _index_users_page a u ix in
      Ok {| seen_ids := user_id :: seen_ids ix'; by_ext_id := by_ext_id ix'; by_username := by_username ix' |}
  | _ => Err (list_error "Apple SCIM user listing contains a user with an invalid id")
  end.

(** Allocate and index the users of a page, in order. *)
Fixpoint index_users (users : list dict) (ix : Indexes) : M Scim Indexes :=
  match users with
  | [] => mret ix
  | u :: t =>
      a ← alloc u;
      ix' ← liftR (_index_unique_user a u ix);
      index_users t ix'
  end.

Definition _index_user_list (users : list dict) : M Scim Indexes := index_users users no_indexes.

(** ** Filtered lookups: pure parts *)

Definition _filtered_resources (data : dict) : result (list dict) :=
  match dget "totalResults" data with
  | JInt total =>
      _ ← raise_when (total <? 0)%Z (list_error "Apple SCIM filtered lookup has an invalid totalResults");
      match dget_default "startIndex" (JInt 1) data with
      | JInt start =>
          _ ← raise_when (negb ((start =? 0) || (start =? 1)))%Z
                (list_error "Apple SCIM filtered lookup has an invalid startIndex");
          match dget_default "Resources" (if (total =? 0)%Z then JArr [] else JNull) data with
          | JArr l =>
              resources ← mapR (fun u => match u with
                            | JObj d => Ok d
                            | _ => Err (list_error "Apple SCIM filtered lookup has invalid Resources")
                            end) l;
              let n := Z.of_nat (length resources) in
              match dget_default "itemsPerPage" (JInt n) data with
              | JInt per_page =>
                  _ ← raise_when (negb (per_page =? n) || negb (total =? n))%Z
                        (list_error "Apple SCIM filtered lookup has inconsistent result counts");
                  _ ← raise_when (1 <? total)%Z
                        (list_error "Apple SCIM filtered lookup returned multiple matching users");
                  Ok resources
              | _ => Err (list_error "Apple SCIM filtered lookup has inconsistent result counts")
              end
          | _ => Err (list_error "Apple SCIM filtered lookup has invalid Resources")
          end
      | _ => Err (list_error "Apple SCIM filtered lookup has an invalid startIndex")
      end
  | _ => Err (list_error "Apple SCIM filtered lookup has an invalid totalResults")
  end.

Definition _validate_filtered_user (data : dict) (attribute expected : string) : result (option dict) :=
  resources ← _filtered_resources data;
  match resources with
  | [] => Ok None
  | user :: _ =>
      _ ← raise_when (negb (_is_safe_user_id (dget "id" user)))
            (list_error "Apple SCIM filtered lookup has an invalid user id");
      _ ← raise_when (negb (nonblank (dget "userName" user)) || negb (is_dict (dget_default "name" (JObj []) user)))
            (list_error "Apple SCIM filtered lookup has invalid user attributes");
      let actual := dget attribute user in
      let matches :=
        if String.eqb attribute "userName"
        then String.eqb (_normalize_identifier actual) (_normalize_identifier (JStr expected))
        else String.eqb (strip (str_or_empty actual)) expected in
      _ ← raise_when (negb matches) (list_error "Apple SCIM filtered lookup returned a mismatched identity");
      Ok (Some user)
  end.

(** [_same_identity] on two records; [None] is handled by the callers below. *)
Definition same_record (first second : dict) : bool :=
  py_eq (dget "id" first) (dget "id" second)
  && String.eqb (username_of first) (username_of second)
  && String.eqb (external_id_of first) (external_id_of second).

Definition _same_identity (first second : option dict) : bool :=
  match first, second with
  | Some f, Some g => same_record f g
  | None, None => true
  | _, _ => false
  end.

(** [_source_identities]: the loop with its two sets. *)
Fixpoint source_identities_from (seen_ext seen_names : list string) (scim_users : list dict)
    : result (list (string * string)) :=
  match scim_users with
  | [] => Ok []
  | user :: t =>
      let external_id := external_id_of user in
      match dget "userName" user with
      | JStr username =>
          _ ← raise_when (negb (str_true external_id) || negb (str_true (strip username)))
                (list_error "Authentik SCIM user has an invalid identity");
          let normalized := _normalize_identifier (JStr username) in
          _ ← raise_when (str_mem external_id seen_ext || str_mem normalized seen_names)
                (list_error "Authentik SCIM users contain duplicate identities");
          rest ← source_identities_from (external_id :: seen_ext) (normalized :: seen_names) t;
          Ok ((external_id, username) :: rest)
      | _ => Err (list_error "Authentik SCIM user has an invalid identity")
      end
  end.

Definition _source_identities (scim_users : list dict) : result (list (string * string)) :=
  source_identities_from [] [] scim_users.

Definition filter_url (attribute value : string) : string :=
  APPLE_SCIM_BASE +:+ "/Users?filter=" +:+ attribute +:+ "%20eq%20" +:+ quote (dumps_unicode value)
  +:+ "&count=" +:+ str_of_int _FILTER_LOOKUP_COUNT.

(** ** Differences and updates: pure parts *)

(** The loop of [_primary_email]. *)
Fixpoint primary_email_from (first_value : option string) (emails : list json) : option string :=
  match emails with
  | [] => first_value
  | JObj email :: t =>
      let value := dget "value" email in
      let first_value := match first_value with
                         | None => if truthy value then Some (strip (py_str value)) else None
                         | Some v => Some v
                         end in
      match dget "primary" email with
      | JBool true => if truthy value then Some (strip (py_str value)) else primary_email_from first_value t
      | _ => primary_email_from first_value t
      end
  | _ :: t => primary_email_from first_value t
  end.

Definition _primary_email (user : dict) : option string :=
  match dget_default "emails" (JArr []) user with
  | JObj email => primary_email_from None [JObj email]
  | JArr emails => primary_email_from None emails
  | _ => None
  end.

Definition opt_json (v : option string) : json := match v with Some s => JStr s | None => JNull end.

(** [str(d.get("name", {}).get(sub) or "").strip()] *)
Definition name_part (sub : string) (d : dict) : result string :=
  v ← py_get sub (dget_default "name" (JObj []) d); Ok (strip (str_or_empty v)).

Abbreviation diffs := (list (string * bool)).

Definition _field_diffs (existing new : dict) (include_external_id : bool) : result diffs :=
  given ← name_part "givenName" existing; given' ← name_part "givenName" new;
  family ← name_part "familyName" existing; family' ← name_part "familyName" new;
  Ok ([("userName", negb (String.eqb (username_of existing) (username_of new)));
       ("givenName", negb (String.eqb given given'));
       ("familyName", negb (String.eqb family family'));
       ("active", negb (Bool.eqb (truthy (dget_default "active" (JBool true) existing))
                                 (truthy (dget_default "active" (JBool true) new))));
       ("email", negb (String.eqb (_normalize_email (opt_json (_primary_email existing)))
                                  (_normalize_email (opt_json (_primary_email new)))))]
      ++ (if include_external_id
          then [("externalId", negb (String.eqb (external_id_of existing) (external_id_of new)))] else []))%list.

(** [diffs.get(k, False)] and [any(diffs.values())] *)
Definition diff_get (k : string) (d : diffs) : bool :=
  match List.find (fun kv => String.eqb k (fst kv)) d with Some kv => snd kv | None => false end.
Definition any_diff (d : diffs) : bool := existsb snd d.

Definition _update_fields_for_mode (mode : string) : list string :=
  if String.eqb mode "external_id_only" then ["externalId"]
  else if String.eqb mode "emails_only" then ["emails"]
  else if String.eqb mode "username_only" then ["userName"]
  else ["externalId"; "userName"; "name"; "emails"; "active"].

Definition _MODE_FIELD_TO_DIFF_KEYS (field : string) : list string :=
  if String.eqb field "externalId" then ["externalId"]
  else if String.eqb field "userName" then ["userName"]
  else if String.eqb field "name" then ["givenName"; "familyName"]
  else if String.eqb field "emails" then ["email"]
  else if String.eqb field "active" then ["active"]
  else [].

Definition allowed_keys (mode : string) : list string :=
  flat_map _MODE_FIELD_TO_DIFF_KEYS (_update_fields_for_mode mode).

Definition _actionable_diffs (d : diffs) (mode : string) : diffs :=
  List.filter (fun kv => str_mem (fst kv) (allowed_keys mode)) d.

Definition operation (path : string) (value : json) : json :=
  JObj [("op", JStr "Replace"); ("path", JStr path); ("value", value)].

Definition _changed_name_operations (user : dict) (d : diffs) : result (list (string * json)) :=
  mapR (fun sub => v ← match dget_default "name" (JObj []) user with
                       | JObj n => Ok (dget_default sub (JStr "") n)
                       | _ => Err AttributeError
                       end;
                   Ok ("name." +:+ sub, v))
    (List.filter (fun sub => diff_get sub d) (_MODE_FIELD_TO_DIFF_KEYS "name")).

(** The operations of one field, as (path, value) pairs. *)
Definition field_operations (user : dict) (d : diffs) (field : string) : result (list (string * json)) :=
  if String.eqb field "name" then _changed_name_operations user d
  else if String.eqb field "externalId" then Ok [(field, JStr (external_id_of user))]
  else if String.eqb field "userName" then Ok [(field, dget "userName" user)]
  else if String.eqb field "emails" then Ok [(field, dget_default "emails" (JArr []) user)]
  else Ok [(field, dget_default "active" (JBool true) user)].

Definition patch_op_body (ops : list (string * json)) : json :=
  JObj [("schemas", JArr [JStr "urn:ietf:params:scim:api:messages:2.0:PatchOp"]);
        ("Operations", JArr (map (fun op => operation (fst op) (snd op)) ops))].

(** The method, the body and the names of the fields it changes. *)
Definition _build_update_request (user : dict) (mode apple_id : string) (d : diffs)
    : result (string * json * list string) :=
  let fields := _update_fields_for_mode mode in
  if String.eqb mode "replace_all" then
    Ok ("PUT", JObj (dset "id" (JStr apple_id) (dremove "externalId" user)),
        List.filter (fun name => negb (String.eqb name "externalId")) fields)
  else
    let fields := List.filter (fun name => existsb (fun key => diff_get key d) (_MODE_FIELD_TO_DIFF_KEYS name)) fields in
    _ ← raise_when (match fields with [] => true | _ => false end)
          (ValueError "Cannot build a PATCH without changed attributes");
    ops ← mapR (field_operations user d) fields;
    Ok ("PATCH", patch_op_body (concat ops), map fst (concat ops)).

Definition ok_write (status : Z) : bool := ((status =? 200) || (status =? 204))%Z.
Definition _classify_update_400 (resp : Response) : bool := (rs_status resp =? 400)%Z.

Definition _record_username_conflict (user : dict) (r : SyncResult) : SyncResult :=
  add_conflict (match dget "userName" user with
                | JStr name => if str_true name then [name] else []
                | _ => []
                end) r.

Section apple.
Context `{Env}.
Variable settings : Settings.

Definition netM {A} (m : M World A) : M Scim A := zoom m.

Definition get_request (headers : list (string * string)) (url : string) : Request :=
  {| rq_method := "GET"; rq_url := url; rq_params := []; rq_headers := headers; rq_body := NoBody |}.

Definition write_request (method : string) (headers : list (string * string)) (url : string) (body : json) : Request :=
  {| rq_method := method; rq_url := url; rq_params := []; rq_headers := headers; rq_body := JsonBody body |}.

Definition _fetch_users_page (headers : list (string * string)) (url : string) : M Scim dict :=
  resp ← catchM (netM (http (get_request headers url)))
           (fun e => match e with
            | HTTPError => Some (raiseM (list_error "Network error listing Apple SCIM users"))
            | _ => None
            end);
  _ ← liftR (raise_when (negb (rs_status resp =? 200)%Z)
        (list_error ("Apple SCIM user listing returned HTTP " +:+ str_of_int (rs_status resp))));
  data ← liftR (catch (rs_json resp) (fun e =>
           if is_ValueError e then Some (Err (list_error "Apple SCIM user listing returned non-JSON")) else None));
  match data with
  | JObj d => mret d
  | _ => raiseM (list_error "Apple SCIM user listing returned an invalid response")
  end.

(** The body of the [while next_url] loop for one page: the indexes, the next
    URL and the number of users read. *)
Definition list_page (headers : list (string * string)) (url : string)
    (expected_start total : Z) (ix : Indexes) : M Scim (Indexes * option string * Z) :=
  data ← _fetch_users_page headers url;
  '(users, _) ← liftR (_validate_users_page data expected_start (Some total));
  ix' ← index_users users ix;
  next ← liftR (_next_users_page_url data expected_start);
  mret (ix', next, Z.of_nat (length users)).

(** The loop after the first page; [fuel] bounds its iterations. *)
Fixpoint list_pages (fuel : nat) (headers : list (string * string)) (url : option string)
    (expected_start total : Z) (ix : Indexes) : M Scim Indexes :=
  match url with
  | None => mret ix
  | Some url =>
      match fuel with
      | O => raiseM OtherException
      | S fuel' =>
          '(ix', next, n) ← list_page headers url expected_start total ix;
          list_pages fuel' headers next (expected_start + n) total ix'
      end
  end.

Definition _get_existing_users (headers : list (string * string)) : M Scim Indexes :=
  data ← _fetch_users_page headers (APPLE_SCIM_BASE +:+ "/Users?count=" +:+ str_of_int _USER_LIST_COUNT);
  apple_users ← liftR (_apple_single_page data _USER_LIST_COUNT);
  match apple_users with
  | Some users =>
      ix ← _index_user_list users;
      raiseM (AppleFilteredLookupRequired (by_ext_id ix) (by_username ix))
  | None =>
      '(users, total) ← liftR (_validate_users_page data 1 None);
      ix ← index_users users no_indexes;
      next ← liftR (_next_users_page_url data 1);
      list_pages (Z.to_nat total) headers next (1 + Z.of_nat (length users)) total ix
  end.

(** ** Filtered lookups *)

Definition derefO (a : option addr) : M Scim (option dict) :=
  match a with Some a => d ← deref a; mret (Some d) | None => mret None end.

Definition same_identityM (a b : option addr) : M Scim bool :=
  x ← derefO a; y ← derefO b; mret (_same_identity x y).

Definition _lookup_filtered_user (headers : list (string * string)) (attribute value : string)
    (sampled : option addr) : M Scim (option addr) :=
  data ← _fetch_users_page headers (filter_url attribute value);
  user ← liftR (_validate_filtered_user data attribute value);
  found ← match user with Some u => a ← alloc u; mret (Some a) | None => mret None end;
  same ← same_identityM sampled found;
  _ ← liftR (raise_when (match sampled with Some _ => negb same | None => false end)
        (list_error "Apple SCIM filtered lookup disagrees with the initial listing"));
  mret found.

Definition _record_filtered_identity (by_id : index) (found : option addr) : M Scim index :=
  match found with
  | None => mret by_id
  | Some a =>
      u ← deref a;
      user_id ← liftR (id_of u);
      let previous := ilookup user_id by_id in
      same ← same_identityM previous found;
      _ ← liftR (raise_when (match previous with Some _ => negb same | None => false end)
            (list_error "Apple SCIM filtered lookups disagree about a user"));
      mret (iset user_id a by_id)
  end.

Definition lookup_result : Type := (string * string) * (option addr * option addr).

(** The first loop of [_get_existing_users_by_filter]. *)
Fixpoint filter_lookups (headers : list (string * string)) (identities : list (string * string))
    (sample_ext sample_user by_id : index) : M Scim (list lookup_result * index) :=
  match identities with
  | [] => mret ([], by_id)
  | (external_id, username) :: t =>
      external_match ← _lookup_filtered_user headers "externalId" external_id (ilookup external_id sample_ext);
      username_match ← _lookup_filtered_user headers "userName" username
                         (ilookup (_normalize_identifier (JStr username)) sample_user);
      by_id ← _record_filtered_identity by_id external_match;
      by_id ← _record_filtered_identity by_id username_match;
      '(results, by_id) ← filter_lookups headers t sample_ext sample_user by_id;
      mret (((external_id, username), (external_match, username_match)) :: results, by_id)
  end.

(** The second loop: read every identified user directly. *)
Fixpoint verify_users (headers : list (string * string)) (by_id : index) (ix : Indexes) : M Scim Indexes :=
  match by_id with
  | [] => mret ix
  | (user_id, filtered) :: t =>
      verified ← _fetch_users_page headers (_user_url user_id);
      previous ← deref filtered;
      _ ← liftR (raise_when (negb (same_record previous verified)
                             || negb (is_dict (dget_default "name" (JObj []) verified)))
            (list_error "Apple SCIM user identity changed during lookup verification"));
      a ← alloc verified;
      ix' ← liftR (_index_unique_user a verified ix);
      verify_users headers t ix'
  end.

(** The last loop: the indexes agree with the lookups. *)
Fixpoint check_lookups (ix : Indexes) (results : list lookup_result) : M Scim unit :=
  match results with
  | [] => mret tt
  | ((external_id, username), (external_match, username_match)) :: t =>
      same1 ← same_identityM external_match (ilookup external_id (by_ext_id ix));
      same2 ← same_identityM username_match (ilookup (_normalize_identifier (JStr username)) (by_username ix));
      _ ← liftR (raise_when (negb same1 || negb same2)
            (list_error "Apple SCIM filtered lookups returned inconsistent identities"));
      check_lookups ix t
  end.

Definition _get_existing_users_by_filter (headers : list (string * string)) (scim_users : list dict)
    (sample_ext sample_user : index) : M Scim Indexes :=
  identities ← liftR (_source_identities scim_users);
  '(results, by_id) ← filter_lookups headers identities sample_ext sample_user [];
  ix ← verify_users headers by_id no_indexes;
  _ ← check_lookups ix results;
  mret ix.

(** ** Writes *)

Definition _can_recover_by_username (apple_user : dict) (authentik_external_id : json) : bool :=
  let found_ext := external_id_of apple_user in
  let current_ext := strip (str_or_empty authentik_external_id) in
  if negb (str_true current_ext) then false
  else if str_true found_ext then String.eqb found_ext current_ext
  else apple_scim_allow_username_recovery settings.

(** The error branch of the two write helpers. *)
Definition write_failed (resp : Response) : M Scim unit :=
  _ ← record_result inc_errors;
  if _classify_update_400 resp then record_result inc_update_400 else mret tt.

Definition _patch_user (headers : list (string * string)) (apple_user : addr) (new_user : dict) (d : diffs) : M Scim unit :=
  current ← deref apple_user;
  apple_id ← liftR (id_of current);
  '(method, body, _) ← liftR (_build_update_request new_user (apple_scim_update_mode settings) apple_id d);
  resp ← netM (http (write_request method headers (_user_url apple_id) body));
  if ok_write (rs_status resp) then record_result inc_updated else write_failed resp.

Definition repair_body (external_id : string) : json := patch_op_body [("externalId", JStr external_id)].

Definition _patch_external_id (headers : list (string * string)) (apple_user : addr) (new_user : dict) : M Scim bool :=
  current ← deref apple_user;
  apple_id ← liftR (id_of current);
  let external_id := external_id_of new_user in
  resp ← netM (http (write_request "PATCH" headers (_user_url apple_id) (repair_body external_id)));
  if negb (ok_write (rs_status resp)) then (_ ← write_failed resp; mret false)
  else
    verification ← catchM (r ← netM (http (get_request headers (_user_url apple_id))); mret (Some r))
                     (fun e => match e with HTTPError => Some (mret None) | _ => None end);
    match verification with
    | None => _ ← record_result inc_errors; mret false
    | Some verification =>
        if negb (rs_status verification =? 200)%Z then (_ ← record_result inc_errors; mret false)
        else
          verified ← liftR (catch (rs_json verification)
                              (fun e => if is_ValueError e then Some (Ok JNull) else None));
          match verified with
          | JObj v =>
              if negb (py_eq (dget "id" v) (JStr apple_id))
                 || negb (String.eqb (external_id_of v) external_id)
                 || negb (String.eqb (username_of v) (username_of new_user))
                 || negb (is_dict (dget_default "name" (JObj []) v))
              then (_ ← record_result inc_errors; mret false)
              else
                _ ← overwrite apple_user v;
                _ ← record_result inc_updated;
                mret true
          | _ => _ ← record_result inc_errors; mret false
          end
    end.

Definition _username_recovery_allowed (apple_user user : dict) : M Scim bool :=
  if _can_recover_by_username apple_user (dget "externalId" user) then mret true
  else _ ← record_result (_record_username_conflict user); mret false.

(** The part of [_reconcile_diffs] after the externalId repair. *)
Definition apply_diffs (headers : list (string * string)) (apple_user : addr) (user : dict)
    (d : diffs) (external_id_patch_attempted : bool) : M Scim unit :=
  let actionable := _actionable_diffs d (apple_scim_update_mode settings) in
  let out_of_scope := existsb (fun kv => negb (existsb (fun kv' => String.eqb (fst kv) (fst kv')) actionable) && snd kv) d in
  _ ← (if out_of_scope then record_result inc_out_of_scope else mret tt);
  if any_diff actionable then _patch_user headers apple_user user actionable
  else if negb external_id_patch_attempted then record_result inc_unchanged
  else mret tt.

Definition _reconcile_diffs (headers : list (string * string)) (apple_user : addr) (user : dict)
    (recovered_by_username : bool) : M Scim unit :=
  current ← deref apple_user;
  allowed ← (if recovered_by_username then _username_recovery_allowed current user else mret true);
  if negb (allowed : bool) then mret tt
  else
    d ← liftR (_field_diffs current user true);
    if recovered_by_username && diff_get "externalId" d then
      repaired ← _patch_external_id headers apple_user user;
      if negb (repaired : bool) then mret tt
      else
        current ← deref apple_user;
        d ← liftR (_field_diffs current user false);
        apply_diffs headers apple_user user d true
    else apply_diffs headers apple_user user d false.

(** ** Create conflicts *)

Definition _query_username_filter (headers : list (string * string)) (username : string) : M Scim (option dict) :=
  resp ← catchM (r ← netM (http (get_request headers (filter_url "userName" username))); mret (Some r))
           (fun e => match e with HTTPError => Some (mret None) | _ => None end);
  match resp with
  | None => mret None
  | Some resp =>
      if negb (rs_status resp =? 200)%Z then mret None
      else
        payload ← liftR (catch (rs_json resp) (fun e => if is_ValueError e then Some (Ok JNull) else None));
        mret (as_dict payload)
  end.

Definition _verified_filtered_user (headers : list (string * string)) (username : string) (found : dict) (user : dict)
    : M Scim (option addr) :=
  listed ← catchM
    (ix ← catchM (_get_existing_users headers)
            (fun e => match e with
             | AppleFilteredLookupRequired ext names =>
                 Some (_get_existing_users_by_filter headers [user] ext names)
             | _ => None
             end);
     mret (Some (by_username ix)))
    (fun e => if is_AppleUserListError e then Some (mret None) else None);
  match listed with
  | None => mret None
  | Some listed_by_username =>
      match ilookup (_normalize_identifier (JStr username)) listed_by_username with
      | None => mret None
      | Some a =>
          listed ← deref a;
          listed_id ← liftR (match dlookup "id" listed with Some v => Ok v | None => Err KeyError end);
          if negb (py_eq listed_id (dget "id" found))
             || negb (String.eqb (external_id_of listed) (external_id_of found))
          then mret None else mret (Some a)
      end
  end.

(** [user.get("userName", "")]; the source users carry a string. *)
Definition source_username (user : dict) : string := py_str (dget_default "userName" (JStr "") user).

Definition _handle_409 (headers : list (string * string)) (user : dict) : M Scim unit :=
  let username := source_username user in
  payload ← _query_username_filter headers username;
  match payload with
  | None => record_result inc_errors
  | Some payload =>
      let zero_based := match dget "startIndex" payload with JInt 0 => true | _ => false end in
      let payload := if zero_based : bool then dset "startIndex" (JInt 1) payload else payload in
      page ← liftR (match _validate_users_page payload 1 None with
                    | Ok p => Ok (Some p)
                    | Err e => if is_AppleUserListError e then Ok None else Err e
                    end);
      match page with
      | None => record_result inc_errors
      | Some (resources, total) =>
          if (1 <? total)%Z then record_result (_record_username_conflict user)
          else if (total =? 0)%Z then record_result (_record_username_conflict user)
          else match resources with
               | [] => raiseM IndexError
               | found :: _ =>
                   if negb (_is_safe_user_id (dget "id" found)) || negb (nonblank (dget "userName" found))
                      || negb (String.eqb (username_of found) (_normalize_identifier (JStr username)))
                   then record_result inc_errors
                   else
                     target ← (if zero_based : bool
                               then _verified_filtered_user headers username found user
                               else a ← alloc found; mret (Some a));
                     match target with
                     | None => record_result inc_errors
                     | Some a => _reconcile_diffs headers a user true
                     end
               end
      end
  end.

(** ** Matching, creating, synchronising *)

(** [str(user["externalId"]).strip()] *)
Definition source_external_id (user : dict) : result string :=
  match dlookup "externalId" user with Some v => Ok (strip (py_str v)) | None => Err KeyError end.

Definition _match_apple_user (user : dict) (ix : Indexes) : M Scim (option addr * bool * bool) :=
  ext_id ← liftR (source_external_id user);
  let by_ext := ilookup ext_id (by_ext_id ix) in
  let username_match := ilookup (username_of user) (by_username ix) in
  match by_ext with
  | Some a =>
      match username_match with
      | Some b =>
          u ← deref b; v ← deref a;
          id1 ← liftR (match dlookup "id" u with Some x => Ok x | None => Err KeyError end);
          id2 ← liftR (match dlookup "id" v with Some x => Ok x | None => Err KeyError end);
          if negb (py_eq id1 id2) then mret (None, false, true) else mret (Some a, false, false)
      | None => mret (Some a, false, false)
      end
  | None =>
      match username_match with
      | Some b => u ← deref b; mret (if truthy (JObj u) then (Some b, true, false) else (None, false, false))
      | None => mret (None, false, false)
      end
  end.

Definition _verify_created_user (headers : list (string * string)) (user : dict) (response : Response) : M Scim bool :=
  created ← liftR (catch (rs_json response) (fun e => if is_ValueError e then Some (Ok JNull) else None));
  let created_id := match created with JObj d => dget "id" d | _ => JNull end in
  if negb (_is_safe_user_id created_id) then mret false
  else
    ix ← catchM (ix ← _get_existing_users_by_filter headers [user] [] []; mret (Some ix))
           (fun e => if is_AppleUserListError e then Some (mret None) else None);
    match ix with
    | None => mret false
    | Some ix =>
        ext_id ← liftR (source_external_id user);
        match ilookup ext_id (by_ext_id ix) with
        | None => mret false
        | Some a =>
            same ← same_identityM (Some a) (ilookup (username_of user) (by_username ix));
            if negb (same : bool) then mret false
            else
              u ← deref a;
              id ← liftR (match dlookup "id" u with Some v => Ok v | None => Err KeyError end);
              mret (py_eq id created_id)
        end
    end.

Definition _create_user (headers : list (string * string)) (user : dict) (verify_identity : bool) : M Scim unit :=
  resp ← netM (http (write_request "POST" headers (APPLE_SCIM_BASE +:+ "/Users") (JObj user)));
  if ((rs_status resp =? 200) || (rs_status resp =? 201))%Z then
    verified ← (if verify_identity then _verify_created_user headers user resp else mret true);
    if (verified : bool) then record_result inc_created else record_result inc_errors
  else if (rs_status resp =? 409)%Z then _handle_409 headers user
  else record_result inc_errors.

(** The loop body of [sync_users] for one source user. *)
Definition sync_user (headers : list (string * string)) (ix : Indexes) (filtered : bool) (user : dict) : M Scim unit :=
  '(apple_user, recovered_by_username, username_conflict) ← _match_apple_user user ix;
  if username_conflict : bool then record_result (_record_username_conflict user)
  else
    catchM (match apple_user with
            | None => _create_user headers user filtered
            | Some a => _reconcile_diffs headers a user recovered_by_username
            end)
      (fun e => match e with HTTPError => Some (record_result inc_errors) | _ => None end).

Definition scim_headers (access_token : string) : list (string * string) :=
  [("Authorization", "Bearer " +:+ access_token); ("Content-Type", "application/scim+json");
   ("Accept", "application/scim+json")].

(** The listing phase of [sync_users]: the indexes and whether they come from
    individual lookups. *)
Definition sync_listing (headers : list (string * string)) (scim_users : list dict) : M Scim (Indexes * bool) :=
  catchM (ix ← _get_existing_users headers; mret (ix, false))
    (fun e => match e with
     | AppleFilteredLookupRequired ext names =>
         Some (ix ← _get_existing_users_by_filter headers scim_users ext names; mret (ix, true))
     | _ => None
     end).

(** [_log_sync_start] reads [u["externalId"]] of every source user. *)
Definition _log_sync_start (scim_users : list dict) : result unit :=
  _ ← mapR source_external_id scim_users; Ok tt.

Definition sync_users (access_token : string) (scim_users : list dict) : M Scim SyncResult :=
  let headers := scim_headers access_token in
  _ ← record_result (fun _ => no_result);
  '(ix, filtered) ← sync_listing headers scim_users;
  _ ← liftR (_log_sync_start scim_users);
  _ ← forM (sync_user headers ix filtered) scim_users;
  s ← getM;
  mret (sc_result s).
End apple.
