(* ===== verification/AppleWalk.v ===== *)
(** * Walking through the SCIM client

    A relation between the states before and after that every step of
    [app/scim/apple.py] respects is respected by each of its functions.  The
    listing only asks the network and allocates records ([Walk]); the
    functions that write also count and overwrite ([WalkWrites]). *)
From Stdlib Require Import ZArith Ascii String.
From stdpp Require Import base option list strings.
From S2P Require Import Prelude PyStr PyVal Config World AppleScim.

Open Scope string_scope.

Class Walk (R : Scim -> Scim -> Prop) : Prop := {
  walk_refl s : R s s;
  walk_trans s1 s2 s3 : R s1 s2 -> R s2 s3 -> R s1 s3;
  walk_net s w tr : w_trace w = (w_trace (sc_world s) ++ tr)%list ->
    R s {| sc_world := w; sc_heap := sc_heap s; sc_result := sc_result s |};
  walk_alloc s d :
    R s {| sc_world := sc_world s; sc_heap := (sc_heap s ++ [d])%list; sc_result := sc_result s |};
}.

Class WalkWrites (R : Scim -> Scim -> Prop) : Prop := {
  writes_walk :: Walk R;
  walk_record s f : R s {| sc_world := sc_world s; sc_heap := sc_heap s; sc_result := f (sc_result s) |};
  walk_overwrite s a d : R s {| sc_world := sc_world s; sc_heap := <[a := d]> (sc_heap s); sc_result := sc_result s |};
}.

(** Whatever the outcome, the state moves along [R]. *)
Definition walks {A} (R : Scim -> Scim -> Prop) (m : M Scim A) : Prop := forall s r s', m s = (r, s') -> R s s'.

Create HintDb walk.

Section steps.
Context (R : Scim -> Scim -> Prop) `{!Walk R} `{Env}.

Lemma walk_bind {A B} (m : M Scim A) (k : A -> M Scim B) : walks R m -> (forall a, walks R (k a)) -> walks R (m ≫= k).
Proof.
  intros Hm Hk s r s'. unfold mbind, M_bind. destruct (m s) as [[a|e] s1] eqn:E; apply Hm in E.
  - intros E2. eapply walk_trans; [exact E|by eapply Hk].
  - by intros [= <- <-].
Qed.

Lemma walk_catch {A} (m : M Scim A) h : walks R m -> (forall e k, h e = Some k -> walks R k) -> walks R (catchM m h).
Proof.
  intros Hm Hh s r s'. unfold catchM. destruct (m s) as [[a|e] s1] eqn:E; apply Hm in E.
  - by intros [= <- <-].
  - destruct (h e) as [k|] eqn:Hk; [|by intros [= <- <-]]. intros E2. eapply walk_trans; [exact E|by eapply Hh].
Qed.

Lemma walks_ret {A} (a : A) : walks R (mret a).
Proof. intros s r s' [= <- <-]. apply walk_refl. Qed.
Lemma walks_raise {A} e : walks R (raiseM e : M Scim A).
Proof. intros s r s' [= <- <-]. apply walk_refl. Qed.
Lemma walks_lift {A} (r : result A) : walks R (liftR r).
Proof. intros s r' s' [= <- <-]. apply walk_refl. Qed.
Lemma walks_deref a : walks R (deref a).
Proof. intros s r s' [= <- <-]. apply walk_refl. Qed.
Lemma walks_get : walks R getM.
Proof. intros s r s' [= <- <-]. apply walk_refl. Qed.
Lemma walks_alloc d : walks R (alloc d).
Proof. intros s r s' [= <- <-]. apply walk_alloc. Qed.
Lemma walks_http rq : walks R (netM (http rq)).
Proof. intros s r s' [= <- <-]. by apply walk_net with (tr := [Sent rq]). Qed.
End steps.
#[export] Hint Resolve walks_ret walks_raise walks_lift walks_deref walks_get walks_alloc walks_http : walk.

Ltac walk_auto := auto with walk typeclass_instances.

(** Walk through a computation. *)
Ltac walk :=
  repeat first
    [ progress walk_auto
    | apply walk_bind; [apply _| |intros ?]
    | apply walk_catch; [apply _| |let e := fresh "e" in let Hk := fresh "Hk" in
        intros e ? Hk; destruct e; try discriminate Hk; injection Hk as <-]
    | match goal with |- walks _ (match ?x with _ => _ end) => destruct x end ].

(** ** Reading *)

Section reading.
Context (R : Scim -> Scim -> Prop) `{!Walk R} `{Env} (hd : list (string * string)).

Lemma walks_fetch url : walks R (_fetch_users_page hd url).
Proof. unfold _fetch_users_page. walk. Qed.
#[local] Hint Resolve walks_fetch : walk.

Lemma walks_index_users us ix : walks R (index_users us ix).
Proof. revert ix. induction us as [|u us IH]; intros ix; simpl; walk. Qed.
#[local] Hint Resolve walks_index_users : walk.

Lemma walks_list_page url es total ix : walks R (list_page hd url es total ix).
Proof. unfold list_page. walk. Qed.
#[local] Hint Resolve walks_list_page : walk.

Lemma walks_list_pages fuel url es total ix : walks R (list_pages fuel hd url es total ix).
Proof. revert url es ix. induction fuel as [|fuel IH]; intros [url|] es ix; simpl; walk. Qed.
#[local] Hint Resolve walks_list_pages : walk.

Lemma walks_same_identity a b : walks R (same_identityM a b).
Proof. unfold same_identityM, derefO. walk. Qed.
#[local] Hint Resolve walks_same_identity : walk.

Lemma walks_index_list us : walks R (_index_user_list us).
Proof. apply walks_index_users. Qed.
#[local] Hint Resolve walks_index_list : walk.

Lemma walks_get_existing : walks R (_get_existing_users hd).
Proof. unfold _get_existing_users. walk. Qed.
#[local] Hint Resolve walks_get_existing : walk.

Lemma walks_record_identity by_id found : walks R (_record_filtered_identity by_id found).
Proof. unfold _record_filtered_identity. walk. Qed.
#[local] Hint Resolve walks_record_identity : walk.

Lemma walks_lookup attr v sampled : walks R (_lookup_filtered_user hd attr v sampled).
Proof. unfold _lookup_filtered_user. walk. Qed.
#[local] Hint Resolve walks_lookup : walk.

Lemma walks_filter_lookups ids se su by_id : walks R (filter_lookups hd ids se su by_id).
Proof. revert by_id. induction ids as [|[e n] ids IH]; intros by_id; simpl; walk. Qed.
#[local] Hint Resolve walks_filter_lookups : walk.

Lemma walks_verify_users by_id ix : walks R (verify_users hd by_id ix).
Proof. revert ix. induction by_id as [|[i f] by_id IH]; intros ix; simpl; walk. Qed.
#[local] Hint Resolve walks_verify_users : walk.

Lemma walks_check_lookups ix rs : walks R (check_lookups ix rs).
Proof. induction rs as [|[[e n] [m1 m2]] rs IH]; simpl; walk. Qed.
#[local] Hint Resolve walks_check_lookups : walk.

Lemma walks_by_filter us se su : walks R (_get_existing_users_by_filter hd us se su).
Proof. unfold _get_existing_users_by_filter. walk. Qed.
#[local] Hint Resolve walks_by_filter : walk.

Lemma walks_listing us : walks R (sync_listing hd us).
Proof. unfold sync_listing. walk. Qed.

Lemma walks_try_get rq : walks R
  (catchM (r ← netM (http rq); mret (Some r)) (fun e => match e with HTTPError => Some (mret None) | _ => None end)).
Proof. walk. Qed.
#[local] Hint Resolve walks_try_get : walk.

Lemma walks_query name : walks R (_query_username_filter hd name).
Proof. unfold _query_username_filter. walk. Qed.

Lemma walks_verified name found user : walks R (_verified_filtered_user hd name found user).
Proof. unfold _verified_filtered_user. walk. Qed.

Lemma walks_verify_created user resp : walks R (_verify_created_user hd user resp).
Proof. unfold _verify_created_user. walk. Qed.

Lemma walks_match user ix : walks R (_match_apple_user user ix).
Proof. unfold _match_apple_user. walk. Qed.
End reading.
#[export] Hint Resolve walks_fetch walks_index_users walks_index_list walks_list_page walks_list_pages walks_same_identity
  walks_get_existing walks_by_filter walks_listing walks_try_get walks_query walks_verified walks_verify_created
  walks_match : walk.

(** ** Writing *)

Section writing.
Context (R : Scim -> Scim -> Prop) `{!WalkWrites R} `{Env} (settings : Settings) (hd : list (string * string)).

Lemma walks_record f : walks R (record_result f).
Proof. intros s r s' [= <- <-]. apply walk_record. Qed.
Lemma walks_overwrite a d : walks R (overwrite a d).
Proof. intros s r s' [= <- <-]. apply walk_overwrite. Qed.
#[local] Hint Resolve walks_record walks_overwrite : walk.

Lemma walks_write_failed resp : walks R (write_failed resp).
Proof. unfold write_failed. walk. Qed.
#[local] Hint Resolve walks_write_failed : walk.

Lemma walks_patch_user a user d : walks R (_patch_user settings hd a user d).
Proof. unfold _patch_user. walk. Qed.
#[local] Hint Resolve walks_patch_user : walk.

Lemma walks_patch_external_id a user : walks R (_patch_external_id hd a user).
Proof. unfold _patch_external_id. walk. Qed.
#[local] Hint Resolve walks_patch_external_id : walk.

Lemma walks_apply_diffs a user d b : walks R (apply_diffs settings hd a user d b).
Proof. unfold apply_diffs. walk. Qed.
#[local] Hint Resolve walks_apply_diffs : walk.

Lemma walks_recovery_allowed record user : walks R (_username_recovery_allowed settings record user).
Proof. unfold _username_recovery_allowed. walk. Qed.
#[local] Hint Resolve walks_recovery_allowed : walk.

Lemma walks_reconcile a user b : walks R (_reconcile_diffs settings hd a user b).
Proof. unfold _reconcile_diffs. walk. Qed.
#[local] Hint Resolve walks_reconcile : walk.

Lemma walks_handle_409 user : walks R (_handle_409 settings hd user).
Proof. unfold _handle_409. walk. Qed.
#[local] Hint Resolve walks_handle_409 : walk.

Lemma walks_create user b : walks R (_create_user settings hd user b).
Proof. unfold _create_user. walk. Qed.
#[local] Hint Resolve walks_create : walk.

Lemma walks_sync_user ix filtered user : walks R (sync_user settings hd ix filtered user).
Proof. unfold sync_user. walk. Qed.
#[local] Hint Resolve walks_sync_user : walk.

Lemma walks_sync_all ix filtered us : walks R (forM (sync_user settings hd ix filtered) us).
Proof. induction us as [|u us IH]; simpl; walk. Qed.
End writing.
#[export] Hint Resolve walks_record walks_overwrite walks_write_failed walks_patch_user walks_patch_external_id
  walks_apply_diffs walks_recovery_allowed walks_reconcile walks_handle_409 walks_create walks_sync_user
  walks_sync_all : walk.

(** ** Instances *)

(** The counters stay. *)
Definition same_counts (s s' : Scim) : Prop := sc_result s' = sc_result s.
#[export] Instance same_counts_walk : Walk same_counts.
Proof. unfold same_counts. split; [done|congruence|done|done]. Qed.

(** The trace only grows. *)
Definition grows (s s' : Scim) : Prop := w_trace (sc_world s) `prefix_of` w_trace (sc_world s').
#[export] Instance grows_walk : WalkWrites grows.
Proof.
  unfold grows. split; [split|done|done]; [done|intros s1 s2 s3; apply (transitivity (R := prefix))| |done].
  intros s w tr E. cbn. rewrite E. by apply prefix_app_r.
Qed.
