(* ===== verification/AppleScimLogic.v ===== *)
(** * A program logic for the SCIM client

    What a computation of [app/scim/apple.py] may send and how the heap of
    Apple records may change, with a rule per primitive and a lemma per
    function: the listing only reads, and every write is authorised. *)
From Stdlib Require Import ZArith Lia Ascii String.
From stdpp Require Import base option list strings.
From S2P Require Import Prelude PyStr PyVal JsonText Config World AppleScim.

Open Scope string_scope.

Section logic.
Context `{Env} (settings : Settings) (token : string) (users : list dict).

Definition headers := scim_headers token.

(** ** What may be sent *)

(** A record Apple returned in answer to a GET of this client. *)
Definition observed (d : dict) : Prop :=
  exists t rq resp body, env_http t rq = Ok resp /\ rq_method rq = "GET" /\ rs_json resp = Ok (JObj body) /\
    (d = body \/ exists l, dlookup "Resources" body = Some (JArr l) /\ JObj d ∈ l).

(** The account carries the user's externalId. *)
Definition identified (record user : dict) : Prop := external_id_of record = external_id_of user.

(** It carries none, but has the user's userName, and the operator enabled
    recovery by userName. *)
Definition repairable (record user : dict) : Prop :=
  external_id_of record = "" /\ external_id_of user <> "" /\ username_of record = username_of user /\
  apple_scim_allow_username_recovery settings = true.

(** The one update each kind of account may get, in whatever mode: a repairable
    one the user's externalId, and nothing else; an identified one the request the
    configured mode builds from the differences in its scope, if there are any. *)
Definition repair_of (record user : dict) (id : string) (rq : Request) : Prop :=
  repairable record user /\
  rq = write_request "PATCH" headers (_user_url id) (repair_body (external_id_of user)).

Definition update_of (record user : dict) (id : string) (rq : Request) : Prop :=
  identified record user /\
  exists included d method body fields,
    _field_diffs record user included = Ok d /\
    any_diff (_actionable_diffs d (apple_scim_update_mode settings)) = true /\
    _build_update_request user (apple_scim_update_mode settings) id
      (_actionable_diffs d (apple_scim_update_mode settings)) = Ok (method, body, fields) /\
    rq = write_request method headers (_user_url id) body.

(** A read of Apple's users, with the headers [hd]. *)
Definition apple_url (url : string) : Prop := exists rest, url = APPLE_SCIM_BASE +:+ "/Users" +:+ rest.
Definition apple_read (hd : list (string * string)) (rq : Request) : Prop :=
  exists url, apple_url url /\ rq = get_request hd url.

Definition authorised (rq : Request) : Prop :=
  apple_read headers rq \/
  exists user, user ∈ users /\
    (rq = write_request "POST" headers (APPLE_SCIM_BASE +:+ "/Users") (JObj user) \/
     exists record id, observed record /\ dlookup "id" record = Some (JStr id) /\
       (repair_of record user id rq \/ update_of record user id rq)).

Definition read_only (hd : list (string * string)) (e : event) : Prop :=
  match e with Sent rq => apple_read hd rq | _ => True end.
Definition allowed_event (e : event) : Prop := match e with Sent rq => authorised rq | _ => True end.

(** ** How the state may evolve *)

(** A record changes only by the externalId repair: it had none, and keeps its
    userName. *)
Definition record_evolves (d d' : dict) : Prop :=
  d' = d \/ (external_id_of d = "" /\ username_of d' = username_of d).

Definition heap_evolves (h h' : list dict) : Prop :=
  (length h <= length h')%nat /\ forall a, (a < length h)%nat -> record_evolves (heap_get a h) (heap_get a h').

Definition evolves (P : event -> Prop) (s s' : Scim) : Prop :=
  heap_evolves (sc_heap s) (sc_heap s') /\
  exists tr, w_trace (sc_world s') = (w_trace (sc_world s) ++ tr)%list /\ Forall P tr.

Definition good (s : Scim) : Prop := Forall observed (sc_heap s).

Lemma record_evolves_trans d1 d2 d3 : record_evolves d1 d2 -> record_evolves d2 d3 -> record_evolves d1 d3.
Proof. unfold record_evolves. intros [->|[? E1]] [->|[? E2]]; auto. right. split; congruence. Qed.

Lemma heap_evolves_refl h : heap_evolves h h.
Proof. split; [lia|]. by left. Qed.

Lemma heap_evolves_trans h1 h2 h3 : heap_evolves h1 h2 -> heap_evolves h2 h3 -> heap_evolves h1 h3.
Proof.
  intros [L1 R1] [L2 R2]. split; [lia|]. intros a Ha.
  eapply record_evolves_trans; [by apply R1|]. apply R2. lia.
Qed.

Lemma evolves_refl P s : evolves P s s.
Proof. split; [apply heap_evolves_refl|]. exists []. by rewrite app_nil_r. Qed.

Lemma evolves_trans P s1 s2 s3 : evolves P s1 s2 -> evolves P s2 s3 -> evolves P s1 s3.
Proof.
  intros [H1 (t1 & E1 & F1)] [H2 (t2 & E2 & F2)]. split; [by eapply heap_evolves_trans|].
  exists (t1 ++ t2)%list. rewrite E2, E1, app_assoc. split; [done|]. by apply Forall_app.
Qed.

Lemma evolves_weaken (P Q : event -> Prop) s s' : (forall e, P e -> Q e) -> evolves P s s' -> evolves Q s s'.
Proof. intros HPQ [Hh (tr & E & F)]. split; [done|]. exists tr. split; [done|]. by eapply Forall_impl. Qed.

(** ** Triples *)

(** [triple P pre m post]: from a good state satisfying [pre], [m] sends only
    what [P] allows, keeps the heap good, and if it returns [a], [post a]. *)
Definition triple {A} (P : event -> Prop) (pre : Scim -> Prop) (m : M Scim A) (post : A -> Scim -> Prop) : Prop :=
  forall s r s', good s -> pre s -> m s = (r, s') ->
    evolves P s s' /\ good s' /\ forall a, r = Ok a -> post a s'.

Definition stable (P : event -> Prop) (pre : Scim -> Prop) : Prop :=
  forall s s', evolves P s s' -> pre s -> pre s'.

Definition any {A} : A -> Scim -> Prop := fun _ _ => True.
Definition top : Scim -> Prop := fun _ => True.

Section rules.
Context (P : event -> Prop).

Lemma t_ret {A} (pre : Scim -> Prop) (a : A) (post : A -> Scim -> Prop) :
  (forall s, pre s -> post a s) -> triple P pre (mret a) post.
Proof.
  intros Hp s r s' Hg Hs [= <- <-]. split; [apply evolves_refl|]. split; [done|].
  intros ? [= <-]. auto.
Qed.

Lemma t_raise {A} pre e (post : A -> Scim -> Prop) : triple P pre (raiseM e) post.
Proof. intros s r s' Hg Hs [= <- <-]. split; [apply evolves_refl|]. by split. Qed.

Lemma t_lift {A} (pre : Scim -> Prop) (r : result A) (post : A -> Scim -> Prop) :
  (forall s a, pre s -> r = Ok a -> post a s) -> triple P pre (liftR r) post.
Proof.
  intros Hp s r' s' Hg Hs [= <- <-]. split; [apply evolves_refl|]. split; [done|]. eauto.
Qed.

Lemma t_bind {A B} pre mid (post : B -> Scim -> Prop) (m : M Scim A) (k : A -> M Scim B) :
  triple P pre m mid -> (forall a, triple P (mid a) (k a) post) -> triple P pre (m ≫= k) post.
Proof.
  intros Hm Hk s r s' Hg Hs. unfold mbind, M_bind.
  destruct (m s) as [[a|e] s1] eqn:E; destruct (Hm _ _ _ Hg Hs E) as (He & Hg1 & Hpost).
  - intros E2. destruct (Hk a _ _ _ Hg1 (Hpost a eq_refl) E2) as (He2 & Hg2 & Hpost2).
    split; [by eapply evolves_trans|]. done.
  - intros [= <- <-]. done.
Qed.

Lemma t_conseq {A} (pre pre' : Scim -> Prop) (post post' : A -> Scim -> Prop) m :
  triple P pre' m post' -> (forall s, pre s -> pre' s) -> (forall a s, post' a s -> post a s) ->
  triple P pre m post.
Proof.
  intros Hm Hpre Hpost s r s' Hg Hs E. destruct (Hm _ _ _ Hg (Hpre _ Hs) E) as (? & ? & Hq).
  split_and!; auto.
Qed.

(** A pure part of the precondition. *)
Lemma t_pull {A} (Q : Prop) pre (m : M Scim A) post :
  (Q -> triple P pre m post) -> triple P (fun s => pre s /\ Q) m post.
Proof. intros Hm s r s' Hg [Hs HQ] E. by apply (Hm HQ s r s'). Qed.

(** A stable assertion is carried along. *)
Lemma t_frame {A} (F pre : Scim -> Prop) (post : A -> Scim -> Prop) m :
  stable P F -> triple P pre m post ->
  triple P (fun s => F s /\ pre s) m (fun a s => F s /\ post a s).
Proof.
  intros HF Hm s r s' Hg [Hf Hs] E. destruct (Hm _ _ _ Hg Hs E) as (He & Hg' & Hq).
  split; [done|]. split; [done|]. intros a Ha. split; [by eapply HF|auto].
Qed.

Lemma t_catch {A} (F pre : Scim -> Prop) (post : A -> Scim -> Prop) m h :
  stable P F -> (forall s, pre s -> F s) -> triple P pre m post ->
  (forall e k, h e = Some k -> triple P F k post) -> triple P pre (catchM m h) post.
Proof.
  intros HF Hpre Hm Hh s r s' Hg Hs. unfold catchM.
  destruct (m s) as [[a|e] s1] eqn:E; destruct (Hm _ _ _ Hg Hs E) as (He & Hg1 & Hpost).
  - intros [= <- <-]. done.
  - destruct (h e) as [k|] eqn:Hk; [|intros [= <- <-]; done].
    intros E2. destruct (Hh e k Hk s1 r s' Hg1) as (He2 & Hg2 & Hpost2); [|done|].
    { eapply HF; [exact He|]. auto. }
    split; [by eapply evolves_trans|]. done.
Qed.
End rules.

Lemma t_weaken {A} (P Q : event -> Prop) pre (m : M Scim A) post :
  (forall e, P e -> Q e) -> triple P pre m post -> triple Q pre m post.
Proof.
  intros HPQ Hm s r s' Hg Hs E. destruct (Hm _ _ _ Hg Hs E) as (He & ? & ?).
  split; [by eapply evolves_weaken|done].
Qed.

(** ** Primitives *)

Definition valid (a : addr) (s : Scim) : Prop := (a < length (sc_heap s))%nat.
Definition named (k : string) (a : addr) (s : Scim) : Prop :=
  valid a s /\ username_of (heap_get a (sc_heap s)) = k.
Definition owned (k : string) (a : addr) (s : Scim) : Prop :=
  valid a s /\ external_id_of (heap_get a (sc_heap s)) = k.

Lemma stable_valid P a : stable P (valid a).
Proof. intros s s' [[Hl _] _]. unfold valid. lia. Qed.

Lemma stable_named P k a : stable P (named k a).
Proof.
  intros s s' He [Hv Hn]. split; [by eapply stable_valid|].
  destruct He as [[_ Hr] _]. destruct (Hr a Hv) as [->|[_ ->]]; done.
Qed.

Lemma stable_owned P k a : k <> "" -> stable P (owned k a).
Proof.
  intros Hk s s' He [Hv Hn]. split; [by eapply stable_valid|].
  destruct He as [[_ Hr] _]. destruct (Hr a Hv) as [->|[Hempty _]]; congruence.
Qed.

Lemma stable_top P : stable P top.
Proof. by intros s s' _. Qed.

Lemma stable_const P (Q : Prop) : stable P (fun _ => Q).
Proof. by intros s s' _. Qed.

Lemma stable_and P F G : stable P F -> stable P G -> stable P (fun s => F s /\ G s).
Proof. intros HF HG s s' He [? ?]. split; eauto. Qed.

Lemma emits_net {A} P (pre : Scim -> Prop) (m : M World A) :
  stable P pre -> emits P m -> triple P pre (netM m) (fun _ => pre).
Proof.
  intros Hst Hm s r s' Hg Hs. unfold netM, zoom. simpl lget.
  destruct (m (sc_world s)) as [r0 w'] eqn:E. intros [= <- <-].
  apply Hm in E as (tr & E & F).
  assert (evolves P s {| sc_world := w'; sc_heap := sc_heap s; sc_result := sc_result s |}) as He
    by (split; [apply heap_evolves_refl|]; eauto).
  split; [done|]. split; [done|]. eauto.
Qed.

Lemma http_result rq w r w' : http rq w = (r, w') -> exists t, env_http t rq = r.
Proof. unfold http, emit, ask, liftR, mbind, M_bind. intros [= <- <-]. eauto. Qed.

Lemma t_http P pre rq : stable P pre -> P (Sent rq) ->
  triple P pre (netM (http rq)) (fun resp s => pre s /\ exists t, env_http t rq = Ok resp).
Proof.
  intros Hst HP s r s' Hg Hs E.
  destruct (emits_net P pre (http rq) Hst (emits_http P rq HP) s r s' Hg Hs E) as (He & Hg' & Hpost).
  split; [done|]. split; [done|]. intros a ->. split; [by eapply Hpost|].
  unfold netM, zoom in E. destruct (http rq (lget s)) as [r0 w'] eqn:E'. injection E as -> _.
  by eapply http_result.
Qed.

Lemma heap_get_app_l a (h h' : list dict) : (a < length h)%nat -> heap_get a (h ++ h')%list = heap_get a h.
Proof. intros Ha. unfold heap_get. by rewrite lookup_app_l. Qed.

Lemma t_alloc P pre d : stable P pre -> observed d ->
  triple P pre (alloc d) (fun a s => pre s /\ valid a s /\ heap_get a (sc_heap s) = d).
Proof.
  intros Hst Hd s r s' Hg Hs [= <- <-].
  assert (evolves P s {| sc_world := sc_world s; sc_heap := (sc_heap s ++ [d])%list; sc_result := sc_result s |}) as He.
  { split; [split|].
    - simpl. rewrite length_app. lia.
    - intros a Ha. left. simpl. by apply heap_get_app_l.
    - exists []. by rewrite app_nil_r. }
  split; [done|]. split; [by apply Forall_app_2; [|apply Forall_singleton]|].
  intros a [= <-]. split; [by eapply Hst|]. unfold valid, heap_get. simpl.
  rewrite length_app, lookup_app_r, Nat.sub_diag by lia. simpl. split; [lia|done].
Qed.

Lemma t_deref P (pre : Scim -> Prop) a :
  triple P pre (deref a) (fun d s => pre s /\ heap_get a (sc_heap s) = d).
Proof.
  intros s r s' Hg Hs [= <- <-]. split; [apply evolves_refl|]. split; [done|]. by intros ? [= <-].
Qed.

Lemma t_record P (pre : Scim -> Prop) f :
  stable P pre -> triple P pre (record_result f) (fun _ => pre).
Proof.
  intros Hst s r s' Hg Hs [= <- <-].
  assert (evolves P s {| sc_world := sc_world s; sc_heap := sc_heap s; sc_result := f (sc_result s) |}) as He.
  { split; [apply heap_evolves_refl|]. exists []. by rewrite app_nil_r. }
  split; [done|]. split; [done|]. eauto.
Qed.

Lemma good_heap s a : good s -> valid a s -> observed (heap_get a (sc_heap s)).
Proof.
  unfold good, valid, heap_get. intros Hg Ha. destruct (lookup_lt_is_Some_2 _ _ Ha) as [d Hd].
  rewrite Hd. simpl. by eapply Forall_lookup_1.
Qed.

Lemma heap_get_insert_eq a v (h : list dict) : (a < length h)%nat -> heap_get a (<[a := v]> h) = v.
Proof. intros Ha. unfold heap_get. by rewrite list_lookup_insert_eq. Qed.

Lemma heap_get_insert_ne a b v (h : list dict) : a <> b -> heap_get b (<[a := v]> h) = heap_get b h.
Proof. intros Hne. unfold heap_get. by rewrite list_lookup_insert_ne. Qed.

Lemma t_overwrite P a v name :
  observed v -> username_of v = name ->
  triple P (fun s => named name a s /\ external_id_of (heap_get a (sc_heap s)) = "") (overwrite a v)
    (fun _ s => valid a s /\ heap_get a (sc_heap s) = v).
Proof.
  intros Hv Hname s r s' Hg [[Ha Hn] He] [= <- <-]. unfold valid in *. split; [split; [split|]|].
  - simpl. rewrite length_insert. lia.
  - intros b Hb. simpl. destruct (decide (a = b)) as [<-|Hne].
    + right. rewrite heap_get_insert_eq by done. split; congruence.
    + left. by apply heap_get_insert_ne.
  - exists []. by rewrite app_nil_r.
  - split; [by apply Forall_insert|]. intros ? _. simpl. rewrite length_insert.
    split; [done|]. by apply heap_get_insert_eq.
Qed.

(** ** Indexes *)

Definition ix_ok (ix : Indexes) (s : Scim) : Prop :=
  (forall k a, ilookup k (by_ext_id ix) = Some a -> k <> "" -> owned k a s) /\
  (forall k a, ilookup k (by_username ix) = Some a -> named k a s).

Lemma stable_ix_ok P ix : stable P (ix_ok ix).
Proof.
  intros s s' He [H1 H2]. split; intros k a Hk.
  - intros Hne. eapply stable_owned; eauto.
  - eapply stable_named; eauto.
Qed.

Lemma ilookup_iset_eq k a d : ilookup k (iset k a d) = Some a.
Proof.
  induction d as [|[k' a'] d IH]; simpl; [by rewrite String.eqb_refl|].
  destruct (String.eqb k k') eqn:E; simpl; by rewrite E.
Qed.

Lemma ilookup_iset_ne k k' a d : k <> k' -> ilookup k' (iset k a d) = ilookup k' d.
Proof.
  intros Hne. induction d as [|[j b] d IH]; simpl.
  - by destruct (String.eqb_spec k' k); [congruence|].
  - destruct (String.eqb_spec k j); simpl; subst.
    + by destruct (String.eqb_spec k' j); [congruence|].
    + by destruct (String.eqb k' j).
Qed.

Lemma truthy_external_id u : truthy (dget "externalId" u) = true ->
  external_id_of u = strip (py_str (dget "externalId" u)).
Proof. unfold external_id_of, str_or_empty, py_or. by intros ->. Qed.

Lemma truthy_username u : truthy (dget_default "userName" (JStr "") u) = true ->
  username_of u = _normalize_identifier (dget_default "userName" (JStr "") u).
Proof. unfold username_of, dget, dget_default. by destruct (dlookup "userName" u). Qed.

Lemma index_users_page_ok a u ix s :
  ix_ok ix s -> valid a s -> heap_get a (sc_heap s) = u -> ix_ok (_index_users_page a u ix) s.
Proof.
  intros [H1 H2] Ha Hu. split; cbn [by_ext_id by_username _index_users_page].
  - destruct (truthy _) eqn:Et; [|done]. intros k b Hk Hne.
    destruct (decide (strip (py_str (dget "externalId" u)) = k)) as [<-|Hd].
    + rewrite ilookup_iset_eq in Hk. injection Hk as <-. split; [done|]. rewrite Hu. by apply truthy_external_id.
    + rewrite ilookup_iset_ne in Hk by done. by apply H1.
  - destruct (truthy _) eqn:Et; [|done]. intros k b Hk.
    destruct (decide (_normalize_identifier (dget_default "userName" (JStr "") u) = k)) as [<-|Hd].
    + rewrite ilookup_iset_eq in Hk. injection Hk as <-. split; [done|]. rewrite Hu. by apply truthy_username.
    + rewrite ilookup_iset_ne in Hk by done. by apply H2.
Qed.

Lemma index_unique_user_inv a u ix ix' : _index_unique_user a u ix = Ok ix' ->
  exists user_id, dget "id" u = JStr user_id /\ _is_safe_user_id (JStr user_id) = true /\
    nonblank (dget "userName" u) = true /\ user_id ∉ seen_ids ix /\
    has_key (username_of u) (by_username ix) = false /\
    seen_ids ix' = user_id :: seen_ids ix /\
    by_ext_id ix' = by_ext_id (_index_users_page a u ix) /\
    by_username ix' = by_username (_index_users_page a u ix).
Proof.
  unfold _index_unique_user. destruct (dget "id" u) as [| | | |user_id| |]; try done.
  rewrite bind_ok. intros (? & R1%raise_when_ok & H').
  apply bind_ok in H' as (? & R2%raise_when_ok & H').
  apply bind_ok in H' as (? & R3%raise_when_ok & [= <-]). bool_hyps.
  exists user_id. split_and!; try done. rewrite <- str_mem_elem. congruence.
Qed.

Lemma index_unique_user_ok a u ix ix' s :
  ix_ok ix s -> valid a s -> heap_get a (sc_heap s) = u ->
  _index_unique_user a u ix = Ok ix' -> ix_ok ix' s.
Proof.
  intros Hix Ha Hu H'. apply index_unique_user_inv in H' as (? & _ & _ & _ & _ & _ & _ & Hb1 & Hb2).
  pose proof (index_users_page_ok a u ix s Hix Ha Hu) as [I1 I2].
  split; [rewrite Hb1|rewrite Hb2]; done.
Qed.

Lemma t_index_users P us ix : Forall observed us ->
  triple P (ix_ok ix) (index_users us ix) ix_ok.
Proof.
  revert ix. induction us as [|u us IH]; intros ix Hus; simpl.
  - by apply t_ret.
  - apply Forall_cons in Hus as [Hu Hus].
    eapply t_bind; [by apply t_alloc; [apply stable_ix_ok|]|]. intros a. simpl.
    eapply t_bind; [|intros ix'; by apply IH].
    apply t_lift. intros s ix' (Hix & Ha & Hh) Hok. by eapply index_unique_user_ok.
Qed.

(** ** Reading *)

Definition fetched (d : dict) : Prop :=
  exists t rq resp, env_http t rq = Ok resp /\ rq_method rq = "GET" /\ rs_json resp = Ok (JObj d).

Lemma fetched_observed d : fetched d -> observed d.
Proof. intros (t & rq & resp & ? & ? & ?). exists t, rq, resp, d. auto. Qed.

(** The users of a page are elements of its [Resources]. *)
Definition resources_of (data : dict) (us : list dict) : Prop :=
  us = [] \/ dlookup "Resources" data = Some (JArr (map JObj us)).

Lemma mapR_objects e l us :
  mapR (fun u => match u with JObj d => Ok d | _ => Err e end) l = Ok us -> l = map JObj us.
Proof.
  revert us. induction l as [|v l IH]; intros us; simpl; [by intros [= <-]|].
  destruct v; try done. simpl. rewrite bind_ok. intros (t & Ht & [= <-]). simpl. f_equal. auto.
Qed.

Lemma resources_observed data us : fetched data -> resources_of data us -> Forall observed us.
Proof.
  intros (t & rq & resp & Hh & Hm & Hj) [->|Hr]; [constructor|].
  apply Forall_forall. intros u Hu. exists t, rq, resp, data. split_and!; try done.
  right. eexists. split; [exact Hr|]. apply list_elem_of_In, in_map, list_elem_of_In, Hu.
Qed.

(** A validated page. *)
Record page_ok (data : dict) (expected_start : Z) (us : list dict) (total : Z) : Prop := {
  pg_resources : resources_of data us;
  pg_total : dget "totalResults" data = JInt total;
  pg_start : dget_default "startIndex" (JInt expected_start) data = JInt expected_start;
  pg_per_page : dget_default "itemsPerPage" (JInt (Z.of_nat (length us))) data = JInt (Z.of_nat (length us));
  pg_length : match dget_default "Resources" (JArr []) data with JArr l => length l = length us | _ => False end;
  pg_bound : (expected_start - 1 + Z.of_nat (length us) <= total)%Z;
  pg_nonneg : (0 <= total)%Z;
  pg_progress : us = [] -> (total < expected_start)%Z;
}.

Lemma validate_users_page_ok data es et us total :
  _validate_users_page data es et = Ok (us, total) ->
  page_ok data es us total /\ (forall t, et = Some t -> total = t).
Proof.
  unfold _validate_users_page. destruct (dget "totalResults" data) as [| |tot| | | |] eqn:Et; try done.
  rewrite bind_ok. intros (? & R1%raise_when_ok & H').
  apply bind_ok in H' as (? & R2%raise_when_ok & H').
  destruct (dget_default "startIndex" _ data) as [| |start| | | |] eqn:Es; try done.
  apply bind_ok in H' as (? & R3%raise_when_ok & H').
  destruct (dget_default "Resources" (JArr []) data) as [| | | | |l|] eqn:Er; try done.
  apply bind_ok in H' as (resources & Hres & H'). cbv zeta in H'.
  destruct (dget_default "itemsPerPage" _ data) as [| |per| | | |] eqn:Ep; try done.
  apply bind_ok in H' as (? & R4%raise_when_ok & H').
  apply bind_ok in H' as (? & R5%raise_when_ok & H').
  apply bind_ok in H' as (? & R6%raise_when_ok & [= -> ->]). bool_hyps.
  apply mapR_objects in Hres. split.
  - split; try done; try congruence.
    + unfold resources_of. unfold dget_default in Er. destruct (dlookup "Resources" data) as [v|]; simpl in Er.
      * right. congruence.
      * left. injection Er as <-. by destruct us.
    + by rewrite Er, Hres, length_map.
    + intros ->. simpl in R6. bool_hyps. lia.
  - intros t ->. by bool_hyps.
Qed.

Lemma apple_url_list : apple_url (APPLE_SCIM_BASE +:+ "/Users?count=" +:+ str_of_int _USER_LIST_COUNT).
Proof. by exists ("?count=" +:+ str_of_int _USER_LIST_COUNT). Qed.

Lemma apple_url_filter attribute value : apple_url (filter_url attribute value).
Proof.
  by exists ("?filter=" +:+ attribute +:+ "%20eq%20" +:+ quote (dumps_unicode value) +:+ "&count=" +:+ str_of_int _FILTER_LOOKUP_COUNT).
Qed.

Lemma apple_url_user id : apple_url (_user_url id).
Proof. by exists ("/" +:+ quote id). Qed.

(** The next page is on Apple's side, whatever the page says. *)
Lemma next_page_url data es url : _next_users_page_url data es = Ok (Some url) -> apple_url url.
Proof.
  unfold _next_users_page_url. cbv zeta.
  destruct (dget "totalResults" data) as [| |total| | | |]; try done.
  destruct (dget_default "startIndex" _ data) as [| |start| | | |]; try done.
  destruct (dget_default "itemsPerPage" _ data) as [| |per_page| | | |]; try done.
  destruct (_ =? 0)%Z; [intros (? & _ & [=])%bind_ok|].
  destruct (_ <? total)%Z; [|done]. intros [= <-].
  by exists ("?count=" +:+ str_of_int _USER_LIST_COUNT +:+ "&startIndex=" +:+ str_of_int (start + per_page)).
Qed.

Lemma t_fetch hd pre url : apple_url url -> stable (read_only hd) pre ->
  triple (read_only hd) pre (_fetch_users_page hd url) (fun d s => pre s /\ fetched d).
Proof.
  intros Hurl Hst. unfold _fetch_users_page.
  eapply t_bind.
  { eapply (t_catch (read_only hd) pre); [exact Hst|done|apply t_http; [done|by exists url]|].
    intros e k Hk. destruct e; try done. injection Hk as <-. apply t_raise. }
  intros resp. simpl.
  eapply t_bind; [by apply t_lift with (post := fun _ s => pre s /\ exists t, env_http t (get_request hd url) = Ok resp)|].
  intros ?. simpl.
  eapply t_bind with (mid := fun data s => pre s /\ (exists t, env_http t (get_request hd url) = Ok resp) /\ rs_json resp = Ok data).
  { apply t_lift. intros s data [Hs Ht] Hd. split_and!; try done. unfold catch in Hd.
    destruct (rs_json resp) as [v|e]; [congruence|]. by destruct (is_ValueError e). }
  intros data. simpl. destruct data; try apply t_raise. apply t_ret. intros s (Hs & [t Ht] & Hj).
  split; [done|]. eexists t, _, resp. done.
Qed.

(** A pure result, remembered. *)
Lemma t_pure {A} P (pre : Scim -> Prop) (r : result A) :
  triple P pre (liftR r) (fun a s => pre s /\ r = Ok a).
Proof. by apply t_lift. Qed.

Lemma t_list_page hd url es total ix :
  apple_url url ->
  triple (read_only hd) (ix_ok ix) (list_page hd url es total ix)
    (fun p s => ix_ok p.1.1 s /\ forall u, p.1.2 = Some u -> apple_url u).
Proof.
  intros Hurl. unfold list_page.
  eapply t_bind; [apply t_fetch; [done|apply stable_ix_ok]|]. intros data. simpl.
  eapply t_bind with (mid := fun p s => ix_ok ix s /\ Forall observed p.1).
  { apply t_lift. intros s [us t] [Hs Hf] Hv. split; [done|].
    apply validate_users_page_ok in Hv as [Hp _]. by eapply resources_observed, pg_resources. }
  intros [us t]. simpl.
  apply t_pull. intros Hus.
  eapply t_bind; [by apply t_index_users|]. intros ix'.
  eapply t_bind; [apply t_pure|]. intros next. apply t_ret. simpl. intros s' [Hix Hn]. split; [done|].
  intros u ->. by eapply next_page_url.
Qed.

Lemma t_list_pages fuel hd url es total ix : (forall u, url = Some u -> apple_url u) ->
  triple (read_only hd) (ix_ok ix) (list_pages fuel hd url es total ix) ix_ok.
Proof.
  revert url es ix. induction fuel as [|fuel IH]; intros [url|] es ix Hurl; simpl;
    try (by apply t_ret); [apply t_raise|].
  eapply t_bind; [by apply t_list_page, Hurl|]. intros [[ix' next] n]. simpl.
  apply t_pull. intros Hn. by apply IH.
Qed.

Lemma single_page_users data n us : _apple_single_page data n = Ok (Some us) -> resources_of data us.
Proof.
  unfold _apple_single_page.
  destruct (dget "Resources" data) as [| | | | |l|] eqn:Er; try done.
  destruct (dget "totalResults" data); try done. destruct (dget "startIndex" data); try done.
  destruct (dget "itemsPerPage" data); try done.
  destruct (_ || _ || _); [done|]. rewrite bind_ok. intros (? & _ & H').
  apply bind_ok in H' as ([us' t] & Hv & [= ->]). apply validate_users_page_ok in Hv as [Hp _].
  destruct (pg_resources _ _ _ _ Hp) as [->|Hr]; [by left|]. right.
  rewrite !dlookup_dset_ne in Hr by done. done.
Qed.

Lemma t_get_existing hd : triple (read_only hd) top (_get_existing_users hd) ix_ok.
Proof.
  unfold _get_existing_users.
  eapply t_bind; [apply t_fetch; [apply apple_url_list|apply stable_top]|]. intros data. simpl.
  eapply t_bind with (mid := fun r s => top s /\ fetched data /\ _apple_single_page data _USER_LIST_COUNT = Ok r).
  { apply t_lift. intros s r [Hs Hf] Hr. done. }
  intros r. simpl. apply t_pull. intros [Hf Hr]. destruct r as [us|].
  - assert (Forall observed us) as Hus by (eapply resources_observed, single_page_users; eauto).
    eapply t_bind; [|intros ix; apply t_raise].
    eapply t_conseq with (pre' := ix_ok no_indexes) (post' := ix_ok); [by apply t_index_users|done|done].
  - eapply t_bind with (mid := fun p s => top s /\ Forall observed p.1).
    { apply t_lift. intros s [us t] Hs Hv. split; [done|].
      apply validate_users_page_ok in Hv as [Hp _]. by eapply resources_observed, pg_resources. }
    intros [us t]. simpl. apply t_pull. intros Hus.
    eapply t_bind.
    { eapply t_conseq with (pre' := ix_ok no_indexes) (post' := ix_ok); [by apply t_index_users|done|done]. }
    intros ix. simpl.
    eapply t_bind; [apply t_pure|]. intros next. apply t_pull. intros Hn.
    apply t_list_pages. intros u ->. by eapply next_page_url.
Qed.

(** Reading the heap keeps any stable assertion. *)
Lemma t_derefO P (pre : Scim -> Prop) a : triple P pre (derefO a) (fun _ => pre).
Proof.
  destruct a as [a|]; [|by apply t_ret]. unfold derefO.
  eapply t_bind; [apply t_deref|]. intros d. apply t_ret. by intros s [Hs _].
Qed.

Lemma t_same_identity P (pre : Scim -> Prop) a b : triple P pre (same_identityM a b) (fun _ => pre).
Proof.
  unfold same_identityM. eapply t_bind; [apply t_derefO|]. intros x.
  eapply t_bind; [apply t_derefO|]. intros y. by apply t_ret.
Qed.

Lemma t_check P (pre : Scim -> Prop) (b : bool) e : triple P pre (liftR (raise_when b e)) (fun _ => pre).
Proof. by apply t_lift. Qed.

Lemma filtered_user_observed data attr expected u :
  fetched data -> _validate_filtered_user data attr expected = Ok (Some u) -> observed u.
Proof.
  intros Hf. unfold _validate_filtered_user. rewrite bind_ok. intros (us & Hr & H').
  assert (Forall observed us) as Hus.
  { eapply resources_observed; [exact Hf|]. unfold _filtered_resources in Hr.
    destruct (dget "totalResults" data); try done. apply bind_ok in Hr as (? & _ & Hr).
    destruct (dget_default "startIndex" _ data); try done. apply bind_ok in Hr as (? & _ & Hr).
    destruct (dget_default "Resources" _ data) as [| | | | |l|] eqn:Er; try done.
    apply bind_ok in Hr as (resources & Hres & Hr). cbv zeta in Hr.
    destruct (dget_default "itemsPerPage" _ data); try done.
    apply bind_ok in Hr as (? & _ & Hr). apply bind_ok in Hr as (? & _ & [= ->]).
    apply mapR_objects in Hres. unfold resources_of, dget_default in *.
    destruct (dlookup "Resources" data) as [v|]; simpl in Er; [right; congruence|].
    left. destruct (z =? 0)%Z; [|done]. injection Er as <-. by destruct us. }
  destruct us as [|u' us]; [done|]. apply Forall_cons in Hus as [Hu _].
  apply bind_ok in H' as (? & _ & H'). apply bind_ok in H' as (? & _ & H').
  apply bind_ok in H' as (? & _ & [= ->]). done.
Qed.

Lemma t_lookup hd attr v sampled pre : stable (read_only hd) pre ->
  triple (read_only hd) pre (_lookup_filtered_user hd attr v sampled) (fun _ => pre).
Proof.
  intros Hst. unfold _lookup_filtered_user.
  eapply t_bind; [by apply t_fetch; [apply apple_url_filter|]|]. intros data. simpl. apply t_pull. intros Hf.
  eapply t_bind with (mid := fun u s => pre s /\ match u with Some u => observed u | None => True end).
  { apply t_lift. intros s u Hs Hu. split; [done|]. destruct u; [|done]. by eapply filtered_user_observed. }
  intros u. simpl. apply t_pull. intros Hu.
  eapply t_bind with (mid := fun _ => pre).
  { destruct u as [u|]; [|by apply t_ret].
    eapply t_bind; [by apply t_alloc|]. intros a. apply t_ret. by intros s [Hs _]. }
  intros found. eapply t_bind; [apply t_same_identity|]. intros same.
  eapply t_bind; [apply t_check|]. intros ?. by apply t_ret.
Qed.

Lemma t_record_identity P by_id found (pre : Scim -> Prop) :
  triple P pre (_record_filtered_identity by_id found) (fun _ => pre).
Proof.
  unfold _record_filtered_identity. destruct found as [a|]; [|by apply t_ret].
  eapply t_bind; [apply t_deref|]. intros u.
  eapply t_bind with (mid := fun _ => pre); [apply t_lift; by intros s ? [Hs _]|]. intros user_id.
  eapply t_bind; [apply t_same_identity|]. intros same.
  eapply t_bind; [apply t_check|]. intros ?. by apply t_ret.
Qed.

Lemma t_filter_lookups hd ids se su by_id : triple (read_only hd) top (filter_lookups hd ids se su by_id) (fun _ => top).
Proof.
  revert by_id. induction ids as [|[e n] ids IH]; intros by_id; simpl; [by apply t_ret|].
  eapply t_bind; [apply t_lookup, stable_top|]. intros m1.
  eapply t_bind; [apply t_lookup, stable_top|]. intros m2.
  eapply t_bind; [apply t_record_identity|]. intros b1.
  eapply t_bind; [apply t_record_identity|]. intros b2.
  eapply t_bind; [apply IH|]. intros [rs b3]. by apply t_ret.
Qed.

Lemma t_verify_users hd by_id ix : triple (read_only hd) (ix_ok ix) (verify_users hd by_id ix) ix_ok.
Proof.
  revert ix. induction by_id as [|[user_id filtered] by_id IH]; intros ix; simpl; [by apply t_ret|].
  eapply t_bind; [apply t_fetch; [apply apple_url_user|apply stable_ix_ok]|]. intros v. simpl. apply t_pull. intros Hf.
  eapply t_bind; [apply t_deref|]. intros previous.
  eapply t_bind; [apply t_check|]. intros ?.
  eapply t_bind.
  { eapply t_conseq; [apply (t_alloc (read_only hd) (ix_ok ix) v); [apply stable_ix_ok|by apply fetched_observed]|
                      by intros s [Hs _]|done]. }
  intros ad. simpl. eapply t_bind; [|intros ix'; apply IH].
  apply t_lift. intros s ix' (Hix & Ha & Hh) Hok. by eapply index_unique_user_ok.
Qed.

Lemma t_check_lookups P ix rs pre : triple P pre (check_lookups ix rs) (fun _ => pre).
Proof.
  induction rs as [|[[e n] [m1 m2]] rs IH]; simpl; [by apply t_ret|].
  eapply t_bind; [apply t_same_identity|]. intros s1.
  eapply t_bind; [apply t_same_identity|]. intros s2.
  eapply t_bind; [apply t_check|]. intros ?. apply IH.
Qed.

Lemma t_by_filter hd us se su : triple (read_only hd) top (_get_existing_users_by_filter hd us se su) ix_ok.
Proof.
  unfold _get_existing_users_by_filter.
  eapply t_bind with (mid := fun _ => top); [by apply t_lift|]. intros ids.
  eapply t_bind; [apply t_filter_lookups|]. intros [rs by_id].
  eapply t_bind.
  { eapply t_conseq with (pre' := ix_ok no_indexes) (post' := ix_ok); [apply t_verify_users|done|done]. }
  intros ix. eapply t_bind; [apply t_check_lookups|]. intros ?. by apply t_ret.
Qed.

(** The listing phase only reads. *)
Lemma t_sync_listing hd us : triple (read_only hd) top (sync_listing hd us) (fun p => ix_ok p.1).
Proof.
  unfold sync_listing. eapply t_catch; [apply stable_top|done| |].
  - eapply t_bind; [apply t_get_existing|]. intros ix. by apply t_ret.
  - intros e k Hk. destruct e; try done. injection Hk as <-.
    eapply t_bind; [apply t_by_filter|]. intros ix. by apply t_ret.
Qed.

(** ** Writing *)

Lemma read_only_allowed e : read_only headers e -> allowed_event e.
Proof. destruct e; simpl; [done|]. by left. Qed.

(** A source user Authentik yields: a nonblank externalId and a userName. *)
Definition source_ok (user : dict) : Prop :=
  exists e n, dlookup "externalId" user = Some (JStr e) /\ strip e <> "" /\
    dlookup "userName" user = Some (JStr n).

Lemma source_external user : source_ok user ->
  source_external_id user = Ok (external_id_of user) /\ external_id_of user <> "".
Proof.
  intros (e & n & He & Hne & _). unfold source_external_id, external_id_of, dget, dget_default.
  rewrite He. simpl. unfold str_or_empty, py_or. simpl. unfold str_true.
  destruct (String.eqb_spec e "") as [->|]; [by rewrite strip_empty in Hne|]. done.
Qed.

Lemma source_name user : source_ok user ->
  _normalize_identifier (JStr (source_username user)) = username_of user.
Proof.
  intros (e & n & _ & _ & Hn). unfold source_username, username_of, dget, dget_default. by rewrite Hn.
Qed.

Lemma dlookup_dget k d v : dlookup k d = Some v -> dget k d = v.
Proof. unfold dget, dget_default. by intros ->. Qed.

Lemma id_of_ok d id : id_of d = Ok id -> dlookup "id" d = Some (JStr id).
Proof. unfold id_of. destruct (dlookup "id" d) as [[]|]; try done. by intros [= ->]. Qed.

Lemma can_recover record user :
  external_id_of user <> "" -> username_of record = username_of user ->
  _can_recover_by_username settings record (dget "externalId" user) = true -> identified record user \/ repairable record user.
Proof.
  intros Hne Hn. unfold _can_recover_by_username.
  change (strip (str_or_empty (dget "externalId" user))) with (external_id_of user).
  destruct (str_true (external_id_of user)); [|done]. cbn [negb].
  destruct (str_true (external_id_of record)) eqn:E; [intros He%String.eqb_eq; by left|].
  intros Hr. right. split_and!; try done. unfold str_true in E. by bool_hyps.
Qed.

Lemma diffs_external existing new d : _field_diffs existing new true = Ok d ->
  diff_get "externalId" d = negb (String.eqb (external_id_of existing) (external_id_of new)).
Proof.
  unfold _field_diffs. rewrite bind_ok. intros (g & _ & H').
  apply bind_ok in H' as (g' & _ & H'). apply bind_ok in H' as (f & _ & H').
  by apply bind_ok in H' as (f' & _ & [= <-]).
Qed.

Lemma t_write_failed pre resp : stable allowed_event pre -> triple allowed_event pre (write_failed resp) (fun _ => pre).
Proof.
  intros Hst. unfold write_failed. eapply t_bind; [by apply t_record|]. intros ?.
  destruct (_classify_update_400 resp); [by apply t_record|by apply t_ret].
Qed.

(** The target of an update: an account of the user, with its record. *)
Definition target (a : addr) (user record : dict) (h : list dict) : Prop :=
  (a < length h)%nat /\ heap_get a h = record /\ identified record user.

(** A record of the heap is one Apple returned. *)
Lemma t_deref_record P (Q : list dict -> Prop) a :
  (forall h, Q h -> (a < length h)%nat) ->
  triple P (fun s => Q (sc_heap s)) (deref a)
    (fun d s => (Q (sc_heap s) /\ heap_get a (sc_heap s) = d) /\ observed d).
Proof.
  intros HQ s r s' Hg Hs [= <- <-]. split; [apply evolves_refl|]. split; [done|].
  intros ? [= <-]. split; [done|]. by apply good_heap, HQ.
Qed.

Lemma update_allowed user record id rq : user ∈ users -> observed record ->
  dlookup "id" record = Some (JStr id) -> repair_of record user id rq \/ update_of record user id rq ->
  allowed_event (Sent rq).
Proof. intros Hu Ho Hid Hup. right. exists user. split; [done|]. right. by exists record, id. Qed.

Lemma t_patch_user a user record included d : user ∈ users ->
  _field_diffs record user included = Ok d ->
  any_diff (_actionable_diffs d (apple_scim_update_mode settings)) = true ->
  triple allowed_event (fun s => target a user record (sc_heap s))
    (_patch_user settings headers a user (_actionable_diffs d (apple_scim_update_mode settings))) (fun _ => top).
Proof.
  intros Hu Hd Hany. unfold _patch_user.
  eapply t_bind; [apply (t_deref_record allowed_event (target a user record)); by intros h []|].
  intros current. apply t_pull. intros Ho.
  eapply t_conseq with (pre' := fun s => top s /\ current = record /\ identified record user);
    [|by intros s [(_ & <- & ?) <-]|by intros ? ? HH; exact HH].
  apply t_pull. intros [-> Hown].
  eapply t_bind; [apply t_pure|]. intros id. apply t_pull. intros Hid%id_of_ok.
  eapply t_bind; [apply t_pure|]. intros [[method body] fields]. apply t_pull. intros Hb.
  eapply t_bind.
  { apply t_http; [apply stable_top|]. eapply update_allowed; [done|exact Ho|exact Hid|]. right. split; [done|].
    by exists included, d, method, body, fields. }
  intros resp. simpl. destruct (ok_write _).
  - eapply t_conseq; [apply (t_record _ top); apply stable_top|done|done].
  - eapply t_conseq; [apply (t_write_failed top); apply stable_top|done|done].
Qed.

(** Network calls leave the heap alone: any assertion on it survives. *)
Lemma t_http_heap P (Q : list dict -> Prop) rq : P (Sent rq) ->
  triple P (fun s => Q (sc_heap s)) (netM (http rq))
    (fun resp s => Q (sc_heap s) /\ exists t, env_http t rq = Ok resp).
Proof.
  intros HP s r s' Hg Hs E.
  destruct (t_http P top rq (stable_top P) HP s r s' Hg I E) as (He & Hg' & Hpost).
  split; [done|]. split; [done|]. intros a Ha. split; [|by apply Hpost].
  unfold netM, zoom in E. destruct (http rq (lget s)) as [r0 w']. by injection E as _ <-.
Qed.

(** [try: r = await client.get(...) except httpx.HTTPError] *)
Lemma t_try_get P (Q : list dict -> Prop) rq : P (Sent rq) -> rq_method rq = "GET" ->
  triple P (fun s => Q (sc_heap s))
    (catchM (r ← netM (http rq); mret (Some r)) (fun e => match e with HTTPError => Some (mret None) | _ => None end))
    (fun o s => Q (sc_heap s) /\ forall r d, o = Some r -> rs_json r = Ok (JObj d) -> fetched d).
Proof.
  intros HP Hm s r s' Hg Hs. unfold catchM, mbind, M_bind.
  destruct (netM (http rq) s) as [[resp|e] s1] eqn:E;
    destruct (t_http_heap P Q rq HP s _ s1 Hg Hs E) as (He & Hg1 & Hpost).
  - intros [= <- <-]. split; [done|]. split; [done|]. intros o [= <-].
    destruct (Hpost resp eq_refl) as [HQ [t Ht]]. split; [done|].
    intros r0 d [= <-] Hj. exists t, rq, resp. done.
  - assert (Q (sc_heap s1)) as HQ1.
    { unfold netM, zoom in E. destruct (http rq (lget s)) as [r0 w']. by injection E as _ <-. }
    destruct e; intros [= <- <-]; (split; [done|]; split; [done|]; intros o Ho; try discriminate Ho).
    injection Ho as <-. split; [done|]. intros ? ? [=].
Qed.

(** What the repair starts from. *)
Definition unlinked (a : addr) (user : dict) (h : list dict) : Prop :=
  (a < length h)%nat /\ repairable (heap_get a h) user.

Lemma t_record_heap P (Q : list dict -> Prop) f :
  triple P (fun s => Q (sc_heap s)) (record_result f) (fun _ s => Q (sc_heap s)).
Proof.
  intros s r s' Hg Hs [= <- <-]. split; [|split; [done|]; by intros].
  split; [apply heap_evolves_refl|]. exists []. by rewrite app_nil_r.
Qed.

(** Report a failure and give up. *)
Lemma t_give_up {A} P (pre : Scim -> Prop) f (a : A) (post : A -> Scim -> Prop) :
  (forall s, post a s) -> triple P pre (_ ← record_result f; mret a) post.
Proof.
  intros Hp. eapply t_conseq with (pre' := top); [|done|by intros].
  eapply t_bind; [apply t_record, stable_top|]. intros ?. apply t_ret. auto.
Qed.

Lemma t_patch_external_id a user : user ∈ users ->
  triple allowed_event (fun s => unlinked a user (sc_heap s)) (_patch_external_id headers a user)
    (fun ok s => ok = true -> valid a s /\ identified (heap_get a (sc_heap s)) user).
Proof.
  intros Hu. unfold _patch_external_id.
  eapply t_bind; [apply (t_deref_record allowed_event (unlinked a user)); by intros h []|].
  intros current. apply t_pull. intros Ho.
  eapply t_conseq with (pre' := fun s => unlinked a user (sc_heap s) /\ repairable current user);
    [|by intros s [[? ?] <-]|by intros ? ? HH; exact HH].
  apply t_pull. intros Hl.
  eapply t_bind; [apply t_pure|]. intros id. apply t_pull. intros Hid%id_of_ok. cbv zeta.
  eapply t_bind.
  { apply (t_http_heap allowed_event (unlinked a user)).
    eapply (update_allowed user current id); [done..|]. by left. }
  intros resp. simpl. apply t_pull. intros _.
  destruct (ok_write _); cbn [negb].
  2:{ eapply t_conseq with (pre' := top) (post' := fun ok _ => ok = false); [|done|by intros ? ? ->].
      eapply t_bind; [apply (t_write_failed top), stable_top|]. intros ?. by apply t_ret. }
  eapply t_bind.
  { apply (t_try_get allowed_event (unlinked a user)); [left; eexists; split; [apply apple_url_user|reflexivity]|done]. }
  intros o. simpl. apply t_pull. intros Hfetched.
  destruct o as [verification|]; [|by apply t_give_up].
  destruct (negb _); [by apply t_give_up|].
  eapply t_bind; [apply t_pure|]. intros verified. apply t_pull. intros Hv.
  destruct verified as [| | | | | |v]; try by apply t_give_up.
  assert (fetched v) as Hf.
  { apply (Hfetched verification v eq_refl). unfold catch in Hv.
    destruct (rs_json verification) as [j|e]; [done|]. by destruct (is_ValueError e). }
  destruct (_ || _) eqn:Hchecks; [by apply t_give_up|]. bool_hyps.
  eapply t_bind.
  { eapply t_conseq; [apply (t_overwrite allowed_event a v (username_of user));
      [by apply fetched_observed|done]| |done].
    intros s (Ha & He & _ & Hn & _). done. }
  intros ?. simpl.
  eapply t_bind; [by apply (t_record_heap allowed_event (fun h => (a < length h)%nat /\ heap_get a h = v))|].
  intros ?. apply t_ret. intros s [Ha Hh] _. split; [done|]. rewrite Hh. done.
Qed.

Lemma t_apply_diffs a user record included d tried : user ∈ users -> _field_diffs record user included = Ok d ->
  triple allowed_event (fun s => target a user record (sc_heap s)) (apply_diffs settings headers a user d tried)
    (fun _ => top).
Proof.
  intros Hu Hd. unfold apply_diffs. cbv zeta.
  eapply t_bind with (mid := fun _ s => target a user record (sc_heap s)).
  { destruct (existsb _ _); [|by apply t_ret]. apply t_record_heap. }
  intros ?. destruct (any_diff _) eqn:Hany; [by eapply t_patch_user|].
  eapply t_conseq with (pre' := top) (post' := fun _ => top); [|done|done].
  destruct (negb tried); [apply t_record, stable_top|by apply t_ret].
Qed.

(** What [_reconcile_diffs] is called with: a record found by externalId, or
    one with the user's userName. *)
Definition matched (a : addr) (user : dict) (recovered : bool) (s : Scim) : Prop :=
  valid a s /\
  if recovered then username_of (heap_get a (sc_heap s)) = username_of user
  else external_id_of (heap_get a (sc_heap s)) = external_id_of user.

Lemma t_reconcile a user recovered : user ∈ users -> source_ok user ->
  triple allowed_event (matched a user recovered) (_reconcile_diffs settings headers a user recovered)
    (fun _ => top).
Proof.
  intros Hu Hok. destruct (source_external user Hok) as [_ Hne]. unfold _reconcile_diffs.
  eapply t_bind; [apply t_deref|]. intros current. simpl.
  eapply t_bind with (mid := fun allowed s => (matched a user recovered s /\ heap_get a (sc_heap s) = current) /\
                        (allowed = true -> identified current user \/ repairable current user /\ recovered = true)).
  { destruct recovered.
    - unfold _username_recovery_allowed. destruct (_can_recover_by_username _ _ _) eqn:Hc.
      + apply t_ret. intros s [[Ha Hn] <-]. split; [done|]. intros _. destruct (can_recover _ _ Hne Hn Hc); auto.
      + eapply t_bind; [|intros ?; apply t_ret; intros s Hs; by split; [exact Hs|]].
        by apply (t_record_heap allowed_event (fun h =>
            ((a < length h)%nat /\ username_of (heap_get a h) = username_of user) /\ heap_get a h = current)).
    - apply t_ret. intros s [[Ha He] <-]. split; [done|]. intros _. by left. }
  intros allowed. destruct allowed; cbn [negb]; [|by apply t_ret].
  apply t_pull. intros Hl. specialize (Hl eq_refl).
  eapply t_bind; [apply t_pure|]. intros d. apply t_pull. intros Hd.
  destruct (recovered && diff_get "externalId" d)%bool eqn:Hr.
  - bool_hyps. subst recovered.
    eapply t_bind.
    { eapply t_conseq; [by apply t_patch_external_id| |by intros ? ? HH; exact HH]. intros s [[Ha Hn] Hh].
      split; [done|]. rewrite Hh. destruct Hl as [He|[Hrep _]]; [|done].
      exfalso. apply diffs_external in Hd. rewrite Hd, He, String.eqb_refl in *. done. }
    intros [|]; cbn [negb]; [|by apply t_ret].
    eapply t_conseq with (pre' := fun s => valid a s /\ identified (heap_get a (sc_heap s)) user);
      [|by intros s Hs; apply Hs|by intros ? ? HH; exact HH].
    eapply t_bind.
    { apply (t_deref_record allowed_event (fun h => (a < length h)%nat /\ identified (heap_get a h) user)). by intros h []. }
    intros record. apply t_pull. intros _.
    eapply t_bind; [apply t_pure|]. intros d'. apply t_pull. intros Hd'.
    eapply t_conseq; [by eapply t_apply_diffs| |by intros ? ? HH; exact HH]. by intros s [[Ha Ho] <-].
  - eapply t_conseq; [by eapply t_apply_diffs| |by intros ? ? HH; exact HH]. intros s [[Ha _] Hh].
    split; [done|]. split; [done|]. destruct Hl as [He|[Hrep ->]]; [done|]. exfalso.
    apply diffs_external in Hd. simpl in Hr. rewrite Hd in Hr. apply negb_false_iff, String.eqb_eq in Hr.
    destruct Hrep as (He & Hne' & _). congruence.
Qed.

(** ** Creation and its conflicts *)

Lemma t_query_filter name pre : (exists Q, pre = fun s => Q (sc_heap s)) -> 
  triple allowed_event pre (_query_username_filter headers name)
    (fun o s => pre s /\ forall d, o = Some d -> fetched d).
Proof.
  intros [Q ->]. unfold _query_username_filter.
  eapply t_bind; [apply (t_try_get allowed_event Q); [left; eexists; split; [apply apple_url_filter|reflexivity]|done]|].
  intros [resp|]; [|apply t_ret; by intros s [HQ _]]. simpl.
  apply t_pull. intros Hf. destruct (negb _); [by apply t_ret|].
  eapply t_bind; [apply t_pure|]. intros v. apply t_pull. intros Hv. apply t_ret. intros s HQ.
  split; [done|]. intros d Hd. apply (Hf resp d eq_refl).
  destruct v; try done. injection Hd as ->. unfold catch in Hv.
  destruct (rs_json resp) as [j|e]; [done|]. by destruct (is_ValueError e).
Qed.

Lemma t_verified name found user :
  triple allowed_event top (_verified_filtered_user headers name found user)
    (fun o s => forall a, o = Some a -> named (_normalize_identifier (JStr name)) a s).
Proof.
  unfold _verified_filtered_user.
  eapply t_bind with (mid := fun o s => forall ix, o = Some ix -> forall k a, ilookup k ix = Some a -> named k a s).
  { eapply t_catch; [apply stable_top|done| |].
    - eapply t_bind with (mid := ix_ok).
      + eapply t_catch; [apply stable_top|done| |].
        * eapply t_weaken; [apply read_only_allowed|apply t_get_existing].
        * intros e k Hk. destruct e; try done. injection Hk as <-.
          eapply t_weaken; [apply read_only_allowed|apply t_by_filter].
      + intros ix. apply t_ret. by intros s [_ Hn] ? [= <-].
    - intros e k Hk. destruct (is_AppleUserListError e); [|done]. injection Hk as <-. by apply t_ret. }
  intros [ix|]; [|by apply t_ret].
  destruct (ilookup _ ix) as [a|] eqn:Ha; [|by apply t_ret].
  eapply t_bind with (mid := fun _ => named (_normalize_identifier (JStr name)) a).
  { eapply t_conseq; [apply (t_deref allowed_event (named (_normalize_identifier (JStr name)) a))| |by intros ? ? []].
    intros s Hs. by apply (Hs ix). }
  intros l. eapply t_bind; [by apply t_lift with (post := fun _ => named (_normalize_identifier (JStr name)) a)|].
  intros lid. destruct (_ || _); [by apply t_ret|]. apply t_ret. by intros s Hn ? [= <-].
Qed.

Lemma t_give_up' f : triple allowed_event top (record_result f) (fun _ => top).
Proof. apply t_record, stable_top. Qed.

Lemma t_handle_409 user : user ∈ users -> source_ok user ->
  triple allowed_event top (_handle_409 settings headers user) (fun _ => top).
Proof.
  intros Hu Hok. unfold _handle_409.
  eapply t_bind; [apply t_query_filter; by exists (fun _ => True)|]. intros o.
  apply t_pull. intros Hf. destruct o as [payload|]; [|apply t_give_up']. specialize (Hf payload eq_refl).
  cbv zeta. set (zero_based := match dget "startIndex" payload with JInt 0 => true | _ => false end).
  eapply t_bind; [apply t_pure|]. intros page. apply t_pull. intros Hp.
  destruct page as [[resources total]|]; [|apply t_give_up'].
  destruct (1 <? total)%Z; [apply t_give_up'|]. destruct (total =? 0)%Z; [apply t_give_up'|].
  destruct resources as [|found resources]; [apply t_raise|].
  assert (observed found) as Ho.
  { destruct (_validate_users_page _ _ _) as [[us t]|e] eqn:Hv.
    2:{ simpl in Hp. by destruct (is_AppleUserListError e). }
    injection Hp as -> ->. apply validate_users_page_ok in Hv as [Hv _].
    assert (resources_of payload (found :: resources)) as Hr.
    { destruct (pg_resources _ _ _ _ Hv) as [|Hr]; [done|]. right.
      destruct zero_based; [by rewrite dlookup_dset_ne in Hr|done]. }
    pose proof (resources_observed _ _ Hf Hr) as Hus. by apply Forall_cons in Hus as [? _]. }
  destruct (_ || _) eqn:Hc; [apply t_give_up'|]. bool_hyps.
  eapply t_bind with (mid := fun t s => forall a, t = Some a -> matched a user true s).
  - destruct zero_based.
    + eapply t_conseq; [apply t_verified|done|]. intros o s Hn a Ha.
      destruct (Hn a Ha) as [Hv Hname]. split; [done|]. by rewrite Hname, source_name.
    + eapply t_bind; [by apply (t_alloc _ top); [apply stable_top|]|]. intros a. apply t_ret.
      intros s (_ & Ha & Hh) ? [= <-]. split; [done|].
      rewrite Hh. etrans; [eassumption|]. by apply source_name.
  - intros [a|]; [|eapply t_conseq; [apply t_give_up'|done|done]].
    eapply t_conseq; [by apply t_reconcile| |done]. intros s Hs. by apply Hs.
Qed.

Lemma t_drop_post {A} P pre (m : M Scim A) post : triple P pre m post -> triple P pre m (fun _ => top).
Proof. intros Hm. by eapply t_conseq. Qed.

Lemma t_verify_created user resp :
  triple allowed_event top (_verify_created_user headers user resp) (fun _ => top).
Proof.
  unfold _verify_created_user.
  eapply t_bind; [by apply t_lift with (post := fun _ => top)|]. intros c. cbv zeta.
  destruct (negb _); [by apply t_ret|].
  eapply t_bind with (mid := fun _ => top).
  { eapply t_catch; [apply stable_top|done| |].
    - eapply t_bind with (mid := fun _ => top); [|intros ix; by apply t_ret].
      eapply t_weaken; [apply read_only_allowed|]. eapply t_drop_post, t_by_filter.
    - intros e k Hk. destruct (is_AppleUserListError e); [|done]. injection Hk as <-. by apply t_ret. }
  intros [ix|]; [|by apply t_ret].
  eapply t_bind; [by apply t_lift with (post := fun _ => top)|]. intros k.
  destruct (ilookup k (by_ext_id ix)) as [a|]; [|by apply t_ret].
  eapply t_bind; [apply t_same_identity|]. intros same. destruct (negb same); [by apply t_ret|].
  eapply t_bind; [eapply t_drop_post, t_deref|]. intros u.
  eapply t_bind; [by apply t_lift with (post := fun _ => top)|]. intros id. by apply t_ret.
Qed.

Lemma t_create user verify : user ∈ users -> source_ok user ->
  triple allowed_event top (_create_user settings headers user verify) (fun _ => top).
Proof.
  intros Hu Hok. unfold _create_user.
  eapply t_bind; [eapply t_drop_post, t_http; [apply stable_top|]|].
  { right. exists user. split; [done|]. by left. }
  intros resp. destruct (_ || _).
  - eapply t_bind with (mid := fun _ => top).
    + destruct verify; [apply t_verify_created|by apply t_ret].
    + intros [|]; apply t_give_up'.
  - destruct (_ =? 409)%Z; [by apply t_handle_409|apply t_give_up'].
Qed.

Lemma t_read P (pre : Scim -> Prop) a : triple P pre (deref a) (fun _ => pre).
Proof. eapply t_conseq; [apply (t_deref P pre a)|done|]. by intros ? ? []. Qed.

Lemma t_match user ix : source_ok user ->
  triple allowed_event (ix_ok ix) (_match_apple_user user ix)
    (fun p s => forall a, p.1.1 = Some a -> matched a user p.1.2 s).
Proof.
  intros Hok. destruct (source_external user Hok) as [Hext Hne]. unfold _match_apple_user.
  rewrite Hext. eapply t_bind; [apply t_pure|]. intros k. simpl. apply t_pull. intros [= <-].
  destruct (ilookup (external_id_of user) (by_ext_id ix)) as [a|] eqn:Ha;
    destruct (ilookup (username_of user) (by_username ix)) as [b|] eqn:Hb.
  - eapply t_bind; [apply t_read|]. intros u.
    eapply t_bind; [apply t_read|]. intros v.
    eapply t_bind; [by apply t_lift with (post := fun _ => ix_ok ix)|]. intros id1.
    eapply t_bind; [by apply t_lift with (post := fun _ => ix_ok ix)|]. intros id2.
    destruct (negb _); apply t_ret; [by intros ? ? ? [=]|]. intros s [H1 _] ? [= <-]. exact (H1 _ _ Ha Hne).
  - apply t_ret. intros s [H1 _] ? [= <-]. exact (H1 _ _ Ha Hne).
  - eapply t_bind; [apply t_read|]. intros u.
    apply t_ret. intros s [_ H2] a'. destruct u; simpl; [by intros [=]|].
    intros [= <-]. exact (H2 _ _ Hb).
  - apply t_ret. by intros ? ? ? [=].
Qed.

Lemma t_sync_user ix filtered user : user ∈ users -> source_ok user ->
  triple allowed_event (ix_ok ix) (sync_user settings headers ix filtered user) (fun _ => ix_ok ix).
Proof.
  intros Hu Hok. eapply t_conseq with (pre' := fun s => ix_ok ix s /\ ix_ok ix s)
    (post' := fun _ s => ix_ok ix s /\ top s); [|done|by intros ? ? [? _]].
  apply t_frame; [apply stable_ix_ok|]. unfold sync_user.
  eapply t_bind; [by apply t_match|]. intros [[o recovered] conflict]. simpl.
  destruct conflict; [eapply t_conseq; [apply t_give_up'|done|done]|].
  eapply t_catch; [apply stable_top|done| |].
  - destruct o as [a|].
    + eapply t_conseq; [by apply t_reconcile| |done]. intros s Hs. by apply Hs.
    + eapply t_conseq; [by apply t_create|done|done].
  - intros e k Hk. destruct e; try done. injection Hk as <-. apply t_give_up'.
Qed.

Lemma t_sync_all ix filtered us : Forall (fun u => u ∈ users /\ source_ok u) us ->
  triple allowed_event (ix_ok ix) (forM (sync_user settings headers ix filtered) us) (fun _ => ix_ok ix).
Proof.
  induction us as [|u us IH]; intros Hus; simpl; [by apply t_ret|].
  apply Forall_cons in Hus as [[Hin Hok] Hus]. eapply t_bind; [by apply t_sync_user|].
  intros ?. by apply IH.
Qed.

Lemma t_sync_users : Forall source_ok users ->
  triple allowed_event top (sync_users settings token users) (fun _ => top).
Proof.
  intros Hok. unfold sync_users. cbv zeta.
  eapply t_bind; [apply t_give_up'|]. intros ?.
  eapply t_bind; [eapply t_weaken; [apply read_only_allowed|apply t_sync_listing]|]. intros [ix filtered]. simpl.
  eapply t_bind; [by apply t_lift with (post := fun _ => ix_ok ix)|]. intros ?.
  eapply t_bind.
  { apply t_sync_all, Forall_forall. intros u Hu. split; [done|].
    rewrite Forall_forall in Hok. by apply Hok. }
  intros ? s r s' Hg Hs [= <- <-].
  split; [apply evolves_refl|]. by split.
Qed.

(** The triple, for a synchronisation from its start. *)
Lemma sync_users_events w r s' : Forall source_ok users -> sync_users settings token users (sync_start w) = (r, s') ->
  exists tr, w_trace (sc_world s') = (w_trace w ++ tr)%list /\ Forall allowed_event tr.
Proof.
  intros Hok Hrun. destruct (t_sync_users Hok (sync_start w) r s') as ([_ Htr] & _); try done. by constructor.
Qed.
End logic.
