(* ===== verification/AppleScimSpec.v ===== *)
(** * What a SCIM synchronisation guarantees

    The claims about [app/scim/apple.py]: writes only reach accounts that
    belong to the source user, nothing is written before the listing is
    complete, the listing terminates and is complete, every source user is
    counted, and an update carries the changed fields of the configured scope. *)
From Stdlib Require Import ZArith Lia Ascii String.
From stdpp Require Import base option list strings.
From S2P Require Import Prelude PyStr PyVal JsonText Config World AppleScim AppleWalk AppleScimLogic.

Open Scope string_scope.

(** ** Writes *)

(** C16: a synchronisation writes only what it may: every request it sends is a
    read of Apple's users, the creation of one of the source users, or an update
    of an account Apple reported, addressed by that account's own id.  If the
    record carries the user's externalId, the update is the request the
    configured mode builds from the differences between record and user that are
    in the mode's scope, and there are some.  If it carries none, has the user's
    userName, and recovery by userName is enabled, it is the PATCH that sets the
    externalId, in every mode.  No other account is updated. *)
Theorem sync_users_writes_authorised `{Env} settings token users w r s' :
  Forall source_ok users -> sync_users settings token users (sync_start w) = (r, s') ->
  exists tr, w_trace (sc_world s') = (w_trace w ++ tr)%list /\
    Forall (allowed_event settings token users) tr.
Proof.
  apply sync_users_events.
Qed.

(** Nothing is written before the listing is complete: the requests of the
    listing phase are all reads, and when it fails - a page that is invalid,
    inconsistent or missing, a network error, lookups that disagree - the
    synchronisation raises that error, having sent nothing else and counted
    nothing. *)
Theorem sync_users_lists_before_writing `{Env} settings token users w r s' :
  sync_users settings token users (sync_start w) = (r, s') ->
  exists listing s1, sync_listing (scim_headers token) users (sync_start w) = (listing, s1) /\
    (exists tr, w_trace (sc_world s1) = (w_trace w ++ tr)%list /\ Forall (read_only (scim_headers token)) tr) /\
    match listing with
    | Err e => r = Err e /\ s' = s1 /\ sc_result s' = no_result
    | Ok _ => True
    end.
Proof.
  unfold sync_users. cbv zeta. unfold mbind at 1, M_bind at 1.
  change (record_result (fun _ => no_result) (sync_start w)) with (Ok tt, sync_start w). cbv iota beta.
  destruct (sync_listing (scim_headers token) users (sync_start w)) as [listing s1] eqn:E.
  intros Hrun. exists listing, s1. split; [done|]. split.
  - destruct (t_sync_listing (scim_headers token) users (sync_start w) listing s1) as ([_ Htr] & _); try done.
    by constructor.
  - destruct listing as [p|e]; [done|]. rewrite (M_bind_run _ _ _ _ _ E) in Hrun. injection Hrun as <- <-.
    split_and!; try done. exact (walks_listing same_counts _ _ _ _ _ E).
Qed.

(** ** The listing *)

Section listing.
Context `{Env}.

(** The [while] loop, without fuel. *)
Inductive run_pages (hd : list (string * string)) (total : Z) :
    option string -> Z -> Indexes -> Scim -> result Indexes -> Scim -> Prop :=
| rp_done es ix s : run_pages hd total None es ix s (Ok ix) s
| rp_raise url es ix s e s1 :
    list_page hd url es total ix s = (Err e, s1) -> run_pages hd total (Some url) es ix s (Err e) s1
| rp_next url es ix s ix' next n s1 r s2 :
    list_page hd url es total ix s = (Ok (ix', next, n), s1) ->
    run_pages hd total next (es + n) ix' s1 r s2 -> run_pages hd total (Some url) es ix s r s2.

(** After a valid page, there is a next one exactly while users are missing. *)
Lemma next_page_ok data es us total next :
  page_ok data es us total -> _next_users_page_url data es = Ok next ->
  (next = None \/ (es + Z.of_nat (length us) <= total)%Z) /\
  (next = None -> (es + Z.of_nat (length us) - 1 = total)%Z).
Proof.
  intros [_ Htot Hst Hpp Hlen Hb Hnn Hpr] Hn. unfold _next_users_page_url in Hn. rewrite Htot, Hst in Hn.
  destruct (dget_default "Resources" (JArr []) data) as [| | | | |l|]; try done.
  rewrite Hlen, Hpp in Hn. destruct (_ =? 0)%Z eqn:E0.
  - apply bind_ok in Hn as (? & R%raise_when_ok & [= <-]). bool_hyps. split; [by left|]. intros _. lia.
  - destruct (_ <? total)%Z eqn:E1; injection Hn as <-; bool_hyps; split; [right; lia|done|by left|intros _; lia].
Qed.

(** What one successful page tells. *)
Lemma list_page_ok hd url es total ix s ix' next n s' :
  list_page hd url es total ix s = (Ok (ix', next, n), s') ->
  exists us, n = Z.of_nat (length us) /\ (us = [] -> (total < es)%Z) /\
    (next = None \/ (es + n <= total)%Z) /\ (next = None -> (es + n - 1 = total)%Z) /\
    exists s0, index_users us ix s0 = (Ok ix', s').
Proof.
  unfold list_page. intros Hrun.
  apply M_bind_ok in Hrun as (data & s1 & _ & Hrun).
  apply M_bind_ok in Hrun as ([us t] & s2 & Hv & Hrun). injection Hv as Hv <-.
  apply M_bind_ok in Hrun as (ix1 & s3 & Hix & Hrun).
  apply M_bind_ok in Hrun as (nx & s4 & Hn & Hret).
  injection Hn as Hn <-. injection Hret as -> -> <- <-.
  apply validate_users_page_ok in Hv as [Hp Ht]. specialize (Ht total eq_refl). subst t.
  exists us. split; [done|]. split; [apply Hp|].
  destruct (next_page_ok _ _ _ _ _ Hp Hn) as [H1 H2]. eauto.
Qed.

Lemma run_list_pages fuel hd url es total ix s :
  url = None \/ (es <= total)%Z -> (total - es < Z.of_nat fuel)%Z ->
  run_pages hd total url es ix s (fst (list_pages fuel hd url es total ix s)) (snd (list_pages fuel hd url es total ix s)).
Proof.
  revert url es ix s. induction fuel as [|fuel IH]; intros [url|] es ix s Hes Hf; simpl; try constructor.
  - destruct Hes; [done|lia].
  - destruct (list_page hd url es total ix s) as [[[[ix' next] n]|e] s1] eqn:E.
    + rewrite (M_bind_run _ _ _ _ _ E). eapply rp_next; [exact E|].
      apply list_page_ok in E as (us & -> & Hpr & Hnext & _). apply IH; [done|].
      destruct us; [specialize (Hpr eq_refl); destruct Hes; [done|lia]|]. cbn [length]. lia.
    + rewrite (M_bind_run _ _ _ _ _ E). by constructor.
Qed.

(** Every user indexed so far has one id and one userName of its own. *)
Definition distinct (ix : Indexes) : Prop :=
  NoDup (seen_ids ix) /\ length (by_username ix) = length (seen_ids ix) /\ NoDup (map fst (by_username ix)).

Lemma ilookup_None k d : ilookup k d = None <-> k ∉ map fst d.
Proof.
  induction d as [|[j b] d IH]; simpl; [split; [by intros _ ?%elem_of_nil|done]|].
  rewrite not_elem_of_cons. destruct (String.eqb_spec k j); [split; [done|by intros []]|]. naive_solver.
Qed.

Lemma iset_fresh k a d : ilookup k d = None -> iset k a d = (d ++ [(k, a)])%list.
Proof.
  induction d as [|[j b] d IH]; simpl; [done|]. destruct (String.eqb k j); [done|]. intros Hk. by rewrite IH.
Qed.

Lemma nonblank_truthy v : nonblank v = true -> truthy v = true.
Proof. destruct v; try done. simpl. unfold str_true. by destruct (String.eqb_spec s ""); [subst|]. Qed.

Lemma index_unique_user_distinct a u ix ix' :
  distinct ix -> _index_unique_user a u ix = Ok ix' ->
  distinct ix' /\ length (seen_ids ix') = S (length (seen_ids ix)).
Proof.
  intros (Hs & Hl & Hn) Hok. apply index_unique_user_inv in Hok as (i & _ & _ & Hb & Hi & Hfresh & Hids & _ & Hnames).
  apply nonblank_truthy in Hb.
  assert (dget_default "userName" (JStr "") u = dget "userName" u) as Hd.
  { unfold dget, dget_default in *. by destruct (dlookup "userName" u). }
  assert (by_username ix' = (by_username ix ++ [(username_of u, a)])%list) as Hb'.
  { rewrite Hnames. simpl. rewrite Hd, Hb. apply iset_fresh. unfold has_key in Hfresh.
    change (_normalize_identifier (dget "userName" u)) with (username_of u). by destruct (ilookup _ _). }
  rewrite Hids. split; [|done]. unfold distinct. rewrite Hb', Hids, length_app, map_app. simpl.
  split_and!; [by constructor|lia|]. apply NoDup_app. split_and!; [done| |by apply NoDup_singleton].
  intros k Hk Hin%list_elem_of_singleton. subst k. unfold has_key in Hfresh.
  destruct (ilookup (username_of u) (by_username ix)) eqn:E; [done|]. by apply ilookup_None in E.
Qed.

Lemma index_users_distinct us ix s ix' s' :
  distinct ix -> index_users us ix s = (Ok ix', s') ->
  distinct ix' /\ length (seen_ids ix') = (length us + length (seen_ids ix))%nat.
Proof.
  revert ix s. induction us as [|u us IH]; intros ix s Hd; simpl; [by intros [= <- <-]|].
  intros Hrun. apply M_bind_ok in Hrun as (a & s1 & _ & Hrun).
  apply M_bind_ok in Hrun as (ix1 & s2 & Hix & Hrun). injection Hix as Hix <-.
  apply index_unique_user_distinct in Hix as [Hd1 Hl1]; [|done].
  apply IH in Hrun as [Hd2 Hl2]; [|done]. split; [done|]. lia.
Qed.

Lemma list_pages_distinct fuel hd url es total ix s ix' s' :
  distinct ix -> Z.of_nat (length (seen_ids ix)) = (es - 1)%Z -> (url = None -> (es - 1)%Z = total) ->
  list_pages fuel hd url es total ix s = (Ok ix', s') ->
  distinct ix' /\ Z.of_nat (length (seen_ids ix')) = total.
Proof.
  revert url es ix s. induction fuel as [|fuel IH]; intros [url|] es ix s Hd Hl Hnone; simpl.
  - done.
  - intros [= <- <-]. split; [done|]. rewrite Hl. by apply Hnone.
  - intros Hrun. apply M_bind_ok in Hrun as ([[ix1 next] n] & s1 & Hp & Hrun).
    apply list_page_ok in Hp as (us & -> & _ & _ & Hlast & s0 & Hix).
    apply index_users_distinct in Hix as [Hd1 Hl1]; [|done].
    apply IH in Hrun; [done|done|lia|]. intros Hn. specialize (Hlast Hn). lia.
  - intros [= <- <-]. split; [done|]. rewrite Hl. by apply Hnone.
Qed.

(** C21: the pagination loop terminates, whatever the server answers: run with
    as much fuel as the announced number of users, it behaves as the unbounded
    loop does. *)
Theorem list_pages_terminates hd url es total ix s :
  url = None \/ (es <= total)%Z -> (1 <= es)%Z ->
  let run := list_pages (Z.to_nat total) hd url es total ix s in
  run_pages hd total url es ix s (fst run) (snd run).
Proof. intros Hurl Hes. apply run_list_pages; [done|lia]. Qed.

Lemma fetch_ok hd url s d s' : _fetch_users_page hd url s = (Ok d, s') ->
  exists t resp, env_http t (get_request hd url) = Ok resp /\ rs_json resp = Ok (JObj d).
Proof.
  unfold _fetch_users_page. intros Hrun.
  apply M_bind_ok in Hrun as (resp & s1 & Hh & Hrun).
  apply M_bind_ok in Hrun as (? & s2 & _ & Hrun).
  apply M_bind_ok in Hrun as (v & s3 & Hv & Hrun).
  destruct v; try done. injection Hrun as <- <-. injection Hv as Hv <-.
  assert (exists t, env_http t (get_request hd url) = Ok resp) as [t Ht].
  { unfold catchM, netM, zoom in Hh. destruct (http _ _) as [r w] eqn:E.
    destruct r as [r|e]; [injection Hh as -> <-; by eapply http_result|]. by destruct e. }
  exists t, resp. split; [done|]. unfold catch in Hv. destruct (rs_json resp) as [j|e]; [congruence|].
  by destruct (is_ValueError e).
Qed.

(** C18: a full listing that succeeds is complete and unambiguous: Apple
    announced a number of users on the first page, and exactly that many, with
    pairwise different ids and userNames, are indexed. *)
Theorem listing_complete hd s ix s' :
  _get_existing_users hd s = (Ok ix, s') ->
  distinct ix /\ exists t resp data,
    env_http t (get_request hd (APPLE_SCIM_BASE +:+ "/Users?count=" +:+ str_of_int _USER_LIST_COUNT)) = Ok resp /\
    rs_json resp = Ok (JObj data) /\ dget "totalResults" data = JInt (Z.of_nat (length (seen_ids ix))).
Proof.
  unfold _get_existing_users. intros Hrun.
  apply M_bind_ok in Hrun as (data & s1 & Hfetch & Hrun).
  apply M_bind_ok in Hrun as (o & s2 & Ho & Hrun). injection Ho as Ho <-.
  destruct o as [us|].
  { apply M_bind_ok in Hrun as (? & ? & _ & Hrun). done. }
  apply M_bind_ok in Hrun as ([us total] & s3 & Hv & Hrun). injection Hv as Hv <-.
  apply M_bind_ok in Hrun as (ix1 & s4 & Hix & Hrun).
  apply M_bind_ok in Hrun as (next & s5 & Hn & Hrun). injection Hn as Hn <-.
  apply validate_users_page_ok in Hv as [Hp _].
  apply index_users_distinct in Hix as [Hd Hl]; [|split_and!; simpl; [constructor|done|constructor]].
  apply list_pages_distinct in Hrun as [Hd' Hl']; [|done|simpl in *; lia|].
  2:{ intros Hnone. apply (next_page_ok _ _ _ _ _ Hp Hn) in Hnone. lia. }
  split; [done|]. apply fetch_ok in Hfetch as (t & resp & Hh & Hj). exists t, resp, data.
  rewrite Hl'. split_and!; try done. apply Hp.
Qed.
End listing.

(** ** Every user is counted *)

Definition total_counted (c : SyncResult) : Z := created c + updated c + unchanged c + conflicts c + errors c.

(** [m] adds [d] to the counters, where [Q] relates its outcome and [d]. *)
Definition counts {A} (Q : result A -> Z -> Prop) (m : M Scim A) : Prop :=
  forall s r s', m s = (r, s') -> Q r (total_counted (sc_result s') - total_counted (sc_result s))%Z.

Section counts.
Context {A B : Type}.

Lemma counts_bind (Q : result A -> Z -> Prop) (R : result B -> Z -> Prop) (T : A -> result B -> Z -> Prop)
    (m : M Scim A) (k : A -> M Scim B) :
  counts Q m -> (forall a, counts (T a) (k a)) -> (forall e d, Q (Err e) d -> R (Err e) d) ->
  (forall a r d d', Q (Ok a) d -> T a r d' -> R r (d + d')%Z) -> counts R (m ≫= k).
Proof.
  intros Hm Hk He Hok s r s' Hrun. unfold mbind, M_bind in Hrun.
  destruct (m s) as [[a|e] s1] eqn:E; apply Hm in E.
  - apply Hk in Hrun. specialize (Hok _ _ _ _ E Hrun). by replace (_ - _)%Z with
      (total_counted (sc_result s1) - total_counted (sc_result s) +
       (total_counted (sc_result s') - total_counted (sc_result s1)))%Z by lia.
  - injection Hrun as <- <-. by apply He.
Qed.

(** A step that leaves the counters alone. *)
Lemma counts_quiet (R : result B -> Z -> Prop) (m : M Scim A) (k : A -> M Scim B) :
  walks same_counts m -> (forall e, R (Err e) 0%Z) -> (forall a, counts R (k a)) -> counts R (m ≫= k).
Proof.
  intros Hm He Hk. eapply (counts_bind (fun _ d => d = 0%Z)); [|exact Hk| |].
  - intros s r s' E. rewrite (Hm _ _ _ E). lia.
  - by intros e d ->.
  - by intros a r d d' ->.
Qed.
End counts.

Lemma counts_weaken {A} (Q R : result A -> Z -> Prop) m :
  counts Q m -> (forall r d, Q r d -> R r d) -> counts R m.
Proof. intros Hm HQR s r s' E. by apply HQR, Hm. Qed.

Lemma counts_same {A} (R : result A -> Z -> Prop) (m : M Scim A) :
  walks same_counts m -> (forall r, R r 0%Z) -> counts R m.
Proof. intros Hm HR s r s' E. rewrite (Hm _ _ _ E), Z.sub_diag. apply HR. Qed.

Lemma counts_ret {A} (R : result A -> Z -> Prop) a : R (Ok a) 0%Z -> counts R (mret a).
Proof. intros HR s r s' [= <- <-]. by rewrite Z.sub_diag. Qed.

Lemma counts_raise {A} (R : result A -> Z -> Prop) e : R (Err e) 0%Z -> counts R (raiseM e).
Proof. intros HR s r s' [= <- <-]. by rewrite Z.sub_diag. Qed.

Lemma counts_record (R : result unit -> Z -> Prop) f n :
  (forall c, total_counted (f c) = (total_counted c + n)%Z) -> R (Ok tt) n -> counts R (record_result f).
Proof. intros Hf HR s r s' [= <- <-]. simpl. rewrite Hf. by replace (_ - _)%Z with n by lia. Qed.

(** Exactly one count, or an exception and none. *)
Definition one {A} : result A -> Z -> Prop := fun r d => (if is_ok r then d = 1 else d = 0)%Z.
(** One or two counts; an exception comes before the first or the second. *)
Definition some {A} : result A -> Z -> Prop := fun r d => (if is_ok r then 1 <= d <= 2 else 0 <= d <= 1)%Z.

Lemma counts_then {B} (R : result B -> Z -> Prop) f n (k : M Scim B) (Q : result B -> Z -> Prop) :
  (forall c, total_counted (f c) = (total_counted c + n)%Z) -> counts Q k ->
  (forall r d, Q r d -> R r (n + d)%Z) -> counts R (_ ← record_result f; k).
Proof.
  intros Hf Hk HR. eapply (counts_bind (fun r d => r = Ok tt /\ d = n) R (fun _ => Q)).
  - by eapply counts_record.
  - intros _. exact Hk.
  - by intros e d [? _].
  - intros a r d d' [_ ->]. apply HR.
Qed.

Lemma counts_write_failed resp : counts one (write_failed resp).
Proof.
  unfold write_failed. eapply counts_then with (n := 1%Z) (Q := fun r d => is_ok r = true /\ d = 0%Z).
  - intros c. unfold total_counted. simpl. lia.
  - destruct (_classify_update_400 resp); [|by apply counts_ret].
    eapply counts_record; [|done]. intros c. unfold total_counted. simpl. lia.
  - by intros [] d [? ->].
Qed.

Lemma counts_single f : (forall c, total_counted (f c) = (total_counted c + 1)%Z) -> counts one (record_result f).
Proof. intros Hf. by eapply counts_record. Qed.

Lemma counted_created c : total_counted (inc_created c) = (total_counted c + 1)%Z.
Proof. unfold total_counted. simpl. lia. Qed.
Lemma counted_updated c : total_counted (inc_updated c) = (total_counted c + 1)%Z.
Proof. unfold total_counted. simpl. lia. Qed.
Lemma counted_unchanged c : total_counted (inc_unchanged c) = (total_counted c + 1)%Z.
Proof. unfold total_counted. simpl. lia. Qed.
Lemma counted_errors c : total_counted (inc_errors c) = (total_counted c + 1)%Z.
Proof. unfold total_counted. simpl. lia. Qed.
Lemma counted_conflict u c : total_counted (_record_username_conflict u c) = (total_counted c + 1)%Z.
Proof. unfold total_counted, _record_username_conflict. simpl. lia. Qed.
Lemma counted_out_of_scope c : total_counted (inc_out_of_scope c) = (total_counted c + 0)%Z.
Proof. unfold total_counted. simpl. lia. Qed.

Lemma one_some {A} r d : @one A r d -> @some A r d.
Proof. unfold one, some. destruct (is_ok r); lia. Qed.

(** Raise the outcome of a step that has counted. *)
Ltac count_step :=
  match goal with
  | |- counts _ (mret _) => apply counts_ret
  | |- counts _ (raiseM _) => apply counts_raise
  | |- counts one (record_result _) => apply counts_single
  | |- counts _ (write_failed _) => apply counts_write_failed
  | |- counts _ (match ?x with _ => _ end) => destruct x
  | |- counts _ (mbind _ _) => apply counts_quiet; [by walk|done|intros ?]
  end.

#[local] Hint Resolve counted_created counted_updated counted_unchanged counted_errors counted_conflict
  counted_out_of_scope : walk.

Section counted.
Context `{Env} (settings : Settings) (hd : list (string * string)).

Lemma counts_patch_user a user d : counts one (_patch_user settings hd a user d).
Proof. unfold _patch_user. repeat count_step; walk_auto. Qed.

(** A failure reported, then an answer. *)
Lemma counts_report {A} f (a : A) :
  (forall c, total_counted (f c) = (total_counted c + 1)%Z) -> counts one (_ ← record_result f; mret a).
Proof.
  intros Hf. eapply counts_then with (Q := fun r d => is_ok r = true /\ d = 0%Z); [exact Hf|by apply counts_ret|].
  by intros [] d [? ->].
Qed.

Lemma counts_patch_external_id a user : counts one (_patch_external_id hd a user).
Proof.
  unfold _patch_external_id. do 3 count_step.
  destruct (negb _).
  { eapply (counts_bind one _ (fun _ r d => is_ok r = true /\ d = 0%Z));
      [apply counts_write_failed|intros ?; by apply counts_ret|done|].
    by intros ? [] d d' -> [? ->]. }
  apply counts_quiet; [apply walks_try_get; apply _|done|]. intros [v|]; [|apply counts_report, counted_errors].
  destruct (negb _); [apply counts_report, counted_errors|].
  apply counts_quiet; [by walk|done|]. intros [| | | | | |w]; try (apply counts_report, counted_errors).
  destruct (_ || _); [apply counts_report, counted_errors|].
  apply counts_quiet; [by intros s r s' [= <- <-]|done|]. intros _. apply counts_report, counted_updated.
Qed.

(** After a repair that has been counted. *)
Lemma counts_apply_diffs a user d tried :
  counts (fun r n => one r n \/ (tried = true /\ r = Ok tt /\ n = 0%Z)) (apply_diffs settings hd a user d tried).
Proof.
  unfold apply_diffs. cbv zeta. eapply (counts_bind (fun r n => r = Ok tt /\ n = 0%Z)) with (T := fun _ r n => one r n \/ (tried = true /\ r = Ok tt /\ n = 0%Z)).
  - destruct (existsb _ _); [|by apply counts_ret]. eapply counts_record; [apply counted_out_of_scope|done].
  - intros ?. destruct (any_diff _); [eapply counts_weaken; [apply counts_patch_user|intros ? ? ?; by left]|].
    destruct tried; cbn [negb]; [apply counts_ret; by right|].
    eapply counts_weaken; [apply counts_single, counted_unchanged|intros ? ? ?; by left].
  - by intros e n [? _].
  - by intros ? r n n' [_ ->].
Qed.

Lemma counts_reconcile a user recovered : counts some (_reconcile_diffs settings hd a user recovered).
Proof.
  unfold _reconcile_diffs. apply counts_quiet; [by walk|done|]. intros current.
  eapply (counts_bind (fun r n => r = Ok true /\ n = 0%Z \/ r = Ok false /\ n = 1%Z) some
            (fun ok r n => if ok then some r n else r = Ok tt /\ n = 0%Z)).
  - destruct recovered; [|apply counts_ret; by left]. unfold _username_recovery_allowed.
    destruct (_can_recover_by_username _ _ _); [apply counts_ret; by left|].
    eapply counts_then with (Q := fun r d => r = Ok false /\ d = 0%Z); [apply counted_conflict|by apply counts_ret|].
    intros r d [-> ->]. by right.
  - intros [|]; cbn [negb]; [|by apply counts_ret].
    apply counts_quiet; [by walk|done|]. intros d.
    destruct (recovered && _)%bool.
    2:{ eapply counts_weaken; [apply counts_apply_diffs|]. intros r n [Hn|(? & _)]; [by apply one_some|done]. }
    eapply (counts_bind one some (fun _ r n => r = Ok tt /\ n = 0%Z \/ one r n)); [apply counts_patch_external_id| | |].
    + intros [|]; cbn [negb]; [|apply counts_ret; by left].
      apply counts_quiet; [by walk|by right|]. intros current'.
      apply counts_quiet; [by walk|by right|]. intros d'.
      eapply counts_weaken; [apply counts_apply_diffs|]. intros r n [Hn|(_ & -> & ->)]; [by right|by left].
    + intros e n Hn. by apply one_some.
    + unfold one, some. simpl. intros b r n n' -> [[-> ->]|Hn]; [simpl; lia|]. destruct (is_ok r); lia.
  - intros e n [[? _]|[? _]]; done.
  - intros [|] r n n' [[? ->]|[? ->]]; try done. by intros [-> ->].
Qed.

Lemma counts_give_up f : (forall c, total_counted (f c) = (total_counted c + 1)%Z) -> counts some (record_result f).
Proof. intros Hf. eapply counts_weaken; [by apply counts_single|apply one_some]. Qed.

Lemma some_raise {A} e : @some A (Err e) 0%Z.
Proof. unfold some. simpl. lia. Qed.
#[local] Hint Resolve counts_give_up counts_reconcile some_raise : walk.

Lemma counts_409 user : counts some (_handle_409 settings hd user).
Proof.
  unfold _handle_409. cbv zeta. apply counts_quiet; [walk_auto..|]. intros [payload|]; [|walk_auto].
  apply counts_quiet; [walk_auto..|]. intros [[resources total]|]; [|walk_auto].
  destruct (1 <? total)%Z; [walk_auto|]. destruct (total =? 0)%Z; [walk_auto|].
  destruct resources; [apply counts_raise; walk_auto|]. destruct (_ || _); [walk_auto|].
  apply counts_quiet; [by walk|walk_auto|]. intros [a|]; walk_auto.
Qed.

Lemma counts_create user verify : counts some (_create_user settings hd user verify).
Proof.
  unfold _create_user. apply counts_quiet; [walk_auto..|]. intros resp. destruct (_ || _).
  - apply counts_quiet; [by walk|walk_auto|]. intros [|]; walk_auto.
  - destruct (_ =? 409)%Z; [apply counts_409|walk_auto].
Qed.

(** What synchronising one user adds, on success. *)
Definition once_or_twice (r : result unit) (d : Z) : Prop := r = Ok tt -> (1 <= d <= 2)%Z.

Lemma counts_sync_user ix filtered user : counts once_or_twice (sync_user settings hd ix filtered user).
Proof.
  unfold sync_user. apply counts_quiet; [walk_auto|done|]. intros [[o recovered] conflict].
  destruct conflict.
  - eapply counts_record; [apply counted_conflict|]. intros _. lia.
  - assert (forall R, counts some R -> counts once_or_twice
      (catchM R (fun e => match e with HTTPError => Some (record_result inc_errors) | _ => None end))) as Hc.
    2:{ destruct o; apply Hc; [apply counts_reconcile|apply counts_create]. }
    intros m Hm s r s' Hrun Hr. subst r. unfold catchM in Hrun.
    destruct (m s) as [[[]|e] s1] eqn:E; apply Hm in E.
    + injection Hrun as <-. unfold some in E. simpl in E. lia.
    + destruct e; try done. injection Hrun as <-. cbn [sc_result]. rewrite counted_errors.
      unfold some in E. simpl in E. lia.
Qed.

Lemma counts_sync_all ix filtered us :
  counts (fun r d => r = Ok tt -> (Z.of_nat (length us) <= d <= 2 * Z.of_nat (length us))%Z)
    (forM (sync_user settings hd ix filtered) us).
Proof.
  induction us as [|u us IH]; [by apply counts_ret|]. cbn [forM].
  eapply (counts_bind once_or_twice _ (fun _ r d => r = Ok tt -> (Z.of_nat (length us) <= d <= 2 * Z.of_nat (length us))%Z)).
  - apply counts_sync_user.
  - intros _. exact IH.
  - done.
  - intros [] r d d' Hd Hd' ->. specialize (Hd eq_refl). specialize (Hd' eq_refl). cbn [length]. lia.
Qed.

End counted.

(** C19: no source user is dropped from the report: a synchronisation that
    completes has counted each of them at least once - created, updated,
    unchanged, conflict or error - and at most twice (an account recovered by
    userName is repaired and may then be updated as well). *)
Theorem sync_users_counts_everyone `{Env} settings token users w res s' :
  sync_users settings token users (sync_start w) = (Ok res, s') ->
  (Z.of_nat (length users) <= total_counted res <= 2 * Z.of_nat (length users))%Z.
Proof.
  unfold sync_users. cbv zeta. intros Hrun.
  apply M_bind_ok in Hrun as ([] & s0 & [= <-] & Hrun).
  apply M_bind_ok in Hrun as ([ix filtered] & s1 & Hl & Hrun).
  apply M_bind_ok in Hrun as (? & s2 & Hlog & Hrun). injection Hlog as _ <-.
  apply M_bind_ok in Hrun as ([] & s3 & Hall & Hrun).
  injection Hrun as <- <-.
  assert (sc_result s1 = no_result) as Hc by exact (walks_listing same_counts _ _ _ _ _ Hl).
  apply counts_sync_all in Hall. specialize (Hall eq_refl). rewrite Hc in Hall.
  change (total_counted no_result) with 0%Z in Hall. lia.
Qed.

(** ** A directory in step *)

Section settled.
Context `{Env}.
Variable settings : Settings.

(** The account with the user's externalId, if any other has the user's
    userName then under the same id, differs in nothing the configured mode
    would change. *)
Definition settled (ix : Indexes) (h : list dict) (user : dict) : Prop :=
  exists a d, ilookup (external_id_of user) (by_ext_id ix) = Some a /\
    (forall b, ilookup (username_of user) (by_username ix) = Some b ->
       exists i j, dlookup "id" (heap_get b h) = Some i /\ dlookup "id" (heap_get a h) = Some j /\ py_eq i j = true) /\
    _field_diffs (heap_get a h) user true = Ok d /\
    any_diff (_actionable_diffs d (apple_scim_update_mode settings)) = false.

Definition with_result (f : SyncResult -> SyncResult) (s : Scim) : Scim :=
  {| sc_world := sc_world s; sc_heap := sc_heap s; sc_result := f (sc_result s) |}.

(** What a settled user adds to the report. *)
Definition settled_result (r r' : SyncResult) : Prop := r' = inc_unchanged r \/ r' = inc_unchanged (inc_out_of_scope r).

Lemma match_settled ix user s : source_ok user -> settled ix (sc_heap s) user ->
  exists a d, _match_apple_user user ix s = (Ok (Some a, false, false), s) /\
    _field_diffs (heap_get a (sc_heap s)) user true = Ok d /\
    any_diff (_actionable_diffs d (apple_scim_update_mode settings)) = false.
Proof.
  intros [He _]%source_external (a & d & Ha & Hb & Hd & Hn). exists a, d. split; [|done].
  unfold _match_apple_user. rewrite He, liftR_bind. cbv zeta. rewrite Ha.
  destruct (ilookup (username_of user) (by_username ix)) as [b|]; [|done].
  destruct (Hb b eq_refl) as (i & j & Hi & Hj & Hij).
  unfold mbind, M_bind, deref. rewrite Hi, Hj. cbn [liftR]. unfold liftR. by rewrite Hij.
Qed.

Lemma sync_user_settled hd ix filtered user s : source_ok user -> settled ix (sc_heap s) user ->
  exists f, sync_user settings hd ix filtered user s = (Ok tt, with_result f s) /\
    settled_result (sc_result s) (f (sc_result s)).
Proof.
  intros Hok Hs. destruct (match_settled ix user s Hok Hs) as (a & d & Hm & Hd & Hn).
  unfold sync_user. rewrite (M_bind_run _ _ _ _ _ Hm). unfold catchM, _reconcile_diffs.
  unfold mbind at 1, M_bind at 1. unfold deref at 1. cbn [negb]. rewrite M_ret_bind. cbn [negb].
  rewrite liftR_bind, Hd. cbn [andb]. unfold apply_diffs. rewrite Hn. cbv zeta. cbn [negb].
  destruct (existsb _ d).
  - exists (fun r => inc_unchanged (inc_out_of_scope r)). split; [done|by right].
  - exists inc_unchanged. split; [done|by left].
Qed.

Lemma log_sync_start_ok us : Forall source_ok us -> _log_sync_start us = Ok tt.
Proof.
  intros Hok. unfold _log_sync_start. destruct (mapR_total source_external_id us) as [ys ->]; [|done].
  intros u Hu. rewrite Forall_forall in Hok. destruct (source_external u (Hok u Hu)) as [-> _]. eauto.
Qed.

(** Counted as unchanged, and as nothing else. *)
Definition only_unchanged (n : Z) (r : SyncResult) : Prop :=
  unchanged r = n /\ created r = 0%Z /\ updated r = 0%Z /\ conflicts r = 0%Z /\ errors r = 0%Z.

Lemma sync_all_settled hd ix filtered us s n : Forall source_ok us -> Forall (settled ix (sc_heap s)) us ->
  only_unchanged n (sc_result s) ->
  exists f, forM (sync_user settings hd ix filtered) us s = (Ok tt, with_result f s) /\
    only_unchanged (n + Z.of_nat (length us)) (f (sc_result s)).
Proof.
  revert s n. induction us as [|user us IH]; intros s n Hok Hs Hn.
  - exists (fun r => r). split; [by destruct s|]. by rewrite Z.add_0_r.
  - apply Forall_cons in Hok as [Hu Hok]. apply Forall_cons in Hs as [Hsu Hs].
    destruct (sync_user_settled hd ix filtered user s Hu Hsu) as (f & E & Hf).
    destruct (IH (with_result f s) (n + 1)%Z Hok Hs) as (g & E' & Hg).
    { destruct Hn as (? & ? & ? & ? & ?). unfold with_result. cbn [sc_result].
      destruct Hf as [->| ->]; split_and!; simpl; congruence. }
    exists (fun r => g (f r)). cbn [forM]. rewrite (M_bind_run _ _ _ _ _ E), E'. split; [done|].
    replace (n + Z.of_nat (length (user :: us)))%Z with (n + 1 + Z.of_nat (length us))%Z by (cbn [length]; lia).
    exact Hg.
Qed.

End settled.

(** A synchronisation whose listing finds everyone settled. *)
Lemma sync_users_settled `{Env} settings token users w ix filtered s1 :
  Forall source_ok users ->
  sync_listing (scim_headers token) users (sync_start w) = (Ok (ix, filtered), s1) ->
  Forall (settled settings ix (sc_heap s1)) users ->
  exists f, sync_users settings token users (sync_start w) = (Ok (f (sc_result s1)), with_result f s1) /\
    only_unchanged (Z.of_nat (length users)) (f (sc_result s1)).
Proof.
  intros Hok Hl Hs.
  assert (sc_result s1 = no_result) as Hc by exact (walks_listing same_counts _ _ _ _ _ Hl).
  destruct (sync_all_settled settings (scim_headers token) ix filtered users s1 0 Hok Hs) as (f & E & Hf).
  { by rewrite Hc. }
  assert (_log_sync_start users = Ok tt) as Hlog by (by apply log_sync_start_ok).
  exists f. split; [|exact Hf].
  unfold sync_users. cbv zeta. unfold mbind at 1, M_bind at 1.
  change (record_result (fun _ => no_result) (sync_start w)) with (Ok tt, sync_start w). cbv iota beta.
  rewrite (M_bind_run _ _ _ _ _ Hl), liftR_bind, Hlog, (M_bind_run _ _ _ _ _ E). done.
Qed.

(** C17: synchronising is idempotent: when the listing finds every source user
    settled - an account with its externalId that differs in nothing the
    configured mode would change - the synchronisation sends nothing beyond
    the reads of the listing, reports every user as unchanged and nothing else,
    and leaves the records alone. *)
Theorem settled_directory_untouched `{Env} settings token users w ix filtered s1 :
  Forall source_ok users ->
  sync_listing (scim_headers token) users (sync_start w) = (Ok (ix, filtered), s1) ->
  Forall (settled settings ix (sc_heap s1)) users ->
  exists res s', sync_users settings token users (sync_start w) = (Ok res, s') /\
    only_unchanged (Z.of_nat (length users)) res /\
    sc_world s' = sc_world s1 /\ sc_heap s' = sc_heap s1 /\
    exists tr, w_trace (sc_world s') = (w_trace w ++ tr)%list /\ Forall (read_only (scim_headers token)) tr.
Proof.
  intros Hok Hl Hs.
  destruct (t_sync_listing (scim_headers token) users (sync_start w) (Ok (ix, filtered)) s1)
    as ([_ Htr] & _); [by constructor|done|done|].
  destruct (sync_users_settled settings token users w ix filtered s1 Hok Hl Hs) as (f & E & Hf).
  exists (f (sc_result s1)), (with_result f s1). split; [exact E|]. split; [exact Hf|done].
Qed.

Module Example.

(** A directory with one account that has no externalId; everything else is
    accepted. *)
Definition ann (ext : string) : dict :=
  [("id", JStr "a1"); ("userName", JStr "Ann@example.com"); ("externalId", JStr ext);
   ("name", JObj [("givenName", JStr "Ann"); ("familyName", JStr "Lee")]); ("active", JBool true);
   ("emails", JArr [JObj [("value", JStr "ann@example.com"); ("primary", JBool true)]])].

Definition answer (status : Z) (v : json) : result Response :=
  Ok {| rs_status := status; rs_content := ""; rs_text := ""; rs_json := Ok v; rs_headers := [] |}.

#[export] Instance directory : Env := {|
  env_now t := 1700000000%Z;
  env_monotonic t := 0%Z;
  env_uuid t := "u";
  env_entropy t := "iv";
  env_http t rq :=
    if String.eqb (rq_method rq) "GET" then
      if String.eqb (rq_url rq) (_user_url "a1") then answer 200 (JObj (ann "42"))
      else answer 200 (JObj [("totalResults", JInt 1); ("startIndex", JInt 1); ("itemsPerPage", JInt 1);
                             ("Resources", JArr [JObj (ann "")])])
    else if String.eqb (rq_method rq) "POST" then answer 201 (JObj []) else answer 200 (JObj []);
  env_getaddrinfo t host := Ok [];
  env_deadline t := None;
|}.

Definition recovery_settings : Settings :=
  match from_env (fun name => if String.eqb name "APPLE_SCIM_ALLOW_USERNAME_RECOVERY" then Some "true"
                        else example_env name) with
  | Ok s => s
  | Err _ => example_settings
  end.

Definition source_users : list dict :=
  [[("externalId", JStr "42"); ("userName", JStr "ann@example.com");
    ("name", JObj [("givenName", JStr "Anne"); ("familyName", JStr "Lee")]); ("active", JBool true);
    ("emails", JArr [JObj [("value", JStr "ann@example.com"); ("primary", JBool true)]])];
   [("externalId", JStr "43"); ("userName", JStr "bob@example.com")]].

Lemma source_users_ok : Forall source_ok source_users.
Proof.
  repeat constructor; [exists "42", "ann@example.com"|exists "43", "bob@example.com"]; by split_and!.
Qed.

(** The account is recovered by userName, repaired, then given its new first
    name; the other user is created. *)
Example sync_run :
  map (fun e => match e with Sent rq => (rq_method rq, rq_url rq) | Resolved h => ("", h) end)
    (w_trace (sc_world (snd (sync_users recovery_settings "tok" source_users (sync_start start))))) =
  [("GET", "https://federation.apple.com/feeds/business/scim/Users?count=200"); ("PATCH", _user_url "a1");
   ("GET", _user_url "a1"); ("PATCH", _user_url "a1"); ("POST", "https://federation.apple.com/feeds/business/scim/Users")].
Proof. vm_compute. reflexivity. Qed.

Lemma sync_users_writes_authorised_witness :
  exists tr, w_trace (sc_world (snd (sync_users recovery_settings "tok" source_users (sync_start start)))) =
    (w_trace start ++ tr)%list /\ Forall (allowed_event recovery_settings "tok" source_users) tr.
Proof.
  apply (sync_users_writes_authorised recovery_settings "tok" source_users start
    (fst (sync_users recovery_settings "tok" source_users (sync_start start))));
    [exact source_users_ok|apply surjective_pairing].
Defined.

Lemma sync_users_lists_before_writing_witness :
  exists listing s1, sync_listing (scim_headers "tok") source_users (sync_start start) = (listing, s1) /\
    (exists tr, w_trace (sc_world s1) = (w_trace start ++ tr)%list /\ Forall (read_only (scim_headers "tok")) tr) /\
    match listing with
    | Err e => fst (sync_users recovery_settings "tok" source_users (sync_start start)) = Err e /\
        snd (sync_users recovery_settings "tok" source_users (sync_start start)) = s1 /\
        sc_result (snd (sync_users recovery_settings "tok" source_users (sync_start start))) = no_result
    | Ok _ => True
    end.
Proof. apply (sync_users_lists_before_writing recovery_settings). apply surjective_pairing. Defined.

Lemma list_pages_terminates_witness :
  run_pages (scim_headers "tok") 1 (Some "https://apple/Users") 1 no_indexes (sync_start start)
    (fst (list_pages 1 (scim_headers "tok") (Some "https://apple/Users") 1 1 no_indexes (sync_start start)))
    (snd (list_pages 1 (scim_headers "tok") (Some "https://apple/Users") 1 1 no_indexes (sync_start start))).
Proof.
  apply (list_pages_terminates (scim_headers "tok") (Some "https://apple/Users") 1 1); [right|]; reflexivity || (intros H; discriminate H).
Defined.

Definition listed : Indexes :=
  {| seen_ids := ["a1"]; by_ext_id := []; by_username := [("ann@example.com", 0%nat)] |}.

Lemma listing_complete_witness :
  distinct listed /\ exists t resp data,
    env_http t (get_request (scim_headers "tok") (APPLE_SCIM_BASE +:+ "/Users?count=" +:+ str_of_int _USER_LIST_COUNT)) = Ok resp /\
    rs_json resp = Ok (JObj data) /\ dget "totalResults" data = JInt (Z.of_nat (length (seen_ids listed))).
Proof.
  apply (listing_complete (scim_headers "tok") (sync_start start) listed
    (snd (_get_existing_users (scim_headers "tok") (sync_start start)))).
  vm_compute. reflexivity.
Defined.

Lemma sync_users_counts_everyone_witness :
  exists res, fst (sync_users recovery_settings "tok" source_users (sync_start start)) = Ok res /\
    (2 <= total_counted res <= 4)%Z.
Proof.
  eexists. split; [vm_compute; reflexivity|].
  apply (sync_users_counts_everyone recovery_settings "tok" source_users start _
    (snd (sync_users recovery_settings "tok" source_users (sync_start start)))).
  vm_compute. reflexivity.
Defined.

(** The same directory once Ann's account is linked and up to date. *)
Definition in_step : Env := {|
  env_now t := 1700000000%Z; env_monotonic t := 0%Z; env_uuid t := "u"; env_entropy t := "iv";
  env_http t rq := answer 200 (JObj [("totalResults", JInt 1); ("startIndex", JInt 1); ("itemsPerPage", JInt 1);
                                     ("Resources", JArr [JObj (ann "42")])]);
  env_getaddrinfo t host := Ok []; env_deadline t := None;
|}.

Definition ann_source : dict :=
  [("externalId", JStr "42"); ("userName", JStr "ann@example.com");
   ("name", JObj [("givenName", JStr "Ann"); ("familyName", JStr "Lee")]); ("active", JBool true);
   ("emails", JArr [JObj [("value", JStr "Ann@Example.com"); ("primary", JBool true)]])].

Definition in_step_listing := @sync_listing in_step (scim_headers "tok") [ann_source] (sync_start start).

Lemma settled_directory_untouched_witness :
  exists res s', @sync_users in_step recovery_settings "tok" [ann_source] (sync_start start) = (Ok res, s') /\
    unchanged res = 1%Z /\ updated res = 0%Z.
Proof.
  destruct (@settled_directory_untouched in_step recovery_settings "tok" [ann_source] start
    {| seen_ids := ["a1"]; by_ext_id := [("42", 0%nat)]; by_username := [("ann@example.com", 0%nat)] |} false
    (snd in_step_listing)) as (res & s' & E & (Hu & _ & Hup & _) & _).
  - constructor; [|constructor]. exists "42", "ann@example.com". split; [reflexivity|]. split; [discriminate|reflexivity].
  - vm_compute. reflexivity.
  - constructor; [|constructor]. exists 0%nat. eexists. split; [reflexivity|]. split; [|split; [vm_compute; reflexivity|reflexivity]].
    intros b Hb. vm_compute in Hb. injection Hb as <-. exists (JStr "a1"), (JStr "a1").
    split; [vm_compute; reflexivity|]. split; vm_compute; reflexivity.
  - exists res, s'. split; [exact E|]. split; [exact Hu|exact Hup].
Defined.
End Example.
