(* ===== verification/AppleUpdate.v ===== *)
(** * Updates converge ([app/scim/apple.py])

    What an update request changes, and that it is enough: when Apple's
    directory applies the request the client built, as SCIM says a directory
    applies it (RFC 7644, 3.5.1 and 3.5.2.3), the account differs from the
    source user in nothing the configured mode covers, and the next
    synchronisation leaves it alone. *)
From Stdlib Require Import ZArith Lia Ascii String.
From stdpp Require Import base option list strings sets.
From S2P Require Import Prelude PyStr PyVal Config World AppleScim AppleScimLogic AppleScimSpec.

Open Scope string_scope.

(** ** What an update says *)

(** The SCIM path a difference is sent under, and the user's value for it. *)
Definition path_of (key : string) : string :=
  if String.eqb key "givenName" then "name.givenName"
  else if String.eqb key "familyName" then "name.familyName"
  else if String.eqb key "email" then "emails" else key.

Definition new_value (user : dict) (key : string) : result json :=
  if String.eqb key "externalId" then Ok (JStr (external_id_of user))
  else if String.eqb key "userName" then Ok (dget "userName" user)
  else if String.eqb key "email" then Ok (dget_default "emails" (JArr []) user)
  else if String.eqb key "active" then Ok (dget_default "active" (JBool true) user)
  else match dget_default "name" (JObj []) user with
       | JObj n => Ok (dget_default key (JStr "") n)
       | _ => Err AttributeError
       end.

(** The operations that bring the user's changed keys up to date. *)
Definition changed_operations (user : dict) (keys : list string) : result (list (string * json)) :=
  mapR (fun key => v ← new_value user key; Ok (path_of key, v)) keys.

Definition changed_keys (mode : string) (d : diffs) : list string :=
  List.filter (fun key => diff_get key d) (allowed_keys mode).

Lemma mapR_app {A B} (f : A -> result B) l1 l2 :
  mapR f (l1 ++ l2)%list = (x ← mapR f l1; y ← mapR f l2; Ok (x ++ y)%list).
Proof.
  induction l1 as [|a l1 IH]; simpl.
  - by destruct (mapR f l2).
  - destruct (f a); simpl; [|done]. rewrite IH. destruct (mapR f l1); simpl; [|done]. by destruct (mapR f l2).
Qed.

(** One configured field contributes the operations of its changed keys. *)
Lemma field_operations_spec user d field : field ∈ ["externalId"; "userName"; "name"; "emails"; "active"] ->
  existsb (fun key => diff_get key d) (_MODE_FIELD_TO_DIFF_KEYS field) = true ->
  field_operations user d field =
  changed_operations user (List.filter (fun key => diff_get key d) (_MODE_FIELD_TO_DIFF_KEYS field)).
Proof.
  intros Hf. repeat (apply elem_of_cons in Hf as [->|Hf]); [..|by apply elem_of_nil in Hf].
  all: cbn -[diff_get]; try (rewrite orb_false_r; intros ->; done).
  destruct (diff_get "givenName" d), (diff_get "familyName" d); intros H; try discriminate H;
    unfold field_operations, _changed_name_operations, changed_operations, new_value, path_of; simpl;
    destruct (dget_default "name" (JObj []) user); done.
Qed.

Lemma fields_operations_spec user d fields : fields ⊆ ["externalId"; "userName"; "name"; "emails"; "active"] ->
  (ops ← mapR (field_operations user d)
     (List.filter (fun name => existsb (fun key => diff_get key d) (_MODE_FIELD_TO_DIFF_KEYS name)) fields);
   Ok (concat ops)) =
  changed_operations user (List.filter (fun key => diff_get key d) (flat_map _MODE_FIELD_TO_DIFF_KEYS fields)).
Proof.
  induction fields as [|f fields IH]; intros Hin; [done|]. cbn [flat_map List.filter].
  rewrite List.filter_app. unfold changed_operations. rewrite mapR_app. fold (changed_operations user).
  assert (f ∈ ["externalId"; "userName"; "name"; "emails"; "active"]) as Hf by (apply Hin; by left).
  assert (fields ⊆ ["externalId"; "userName"; "name"; "emails"; "active"]) as Hfs by (intros x Hx; apply Hin; by right).
  specialize (IH Hfs). destruct (existsb _ _) eqn:E.
  - pose proof (field_operations_spec user d f Hf E) as Hop. unfold changed_operations in *. cbn [mapR].
    rewrite Hop, <- IH.
    destruct (mapR _ (List.filter _ (_MODE_FIELD_TO_DIFF_KEYS f))); [|done].
    by destruct (mapR (field_operations user d) _).
  - assert (List.filter (fun key => diff_get key d) (_MODE_FIELD_TO_DIFF_KEYS f) = []) as ->.
    { clear -E. induction (_MODE_FIELD_TO_DIFF_KEYS f) as [|k ks IH]; [done|]. simpl in *.
      apply orb_false_elim in E as [-> E]. by apply IH. }
    unfold changed_operations in *. rewrite IH. change (mapR ?g []) with (@Ok (list (string * json)) []).
    cbn. by destruct (mapR _ (List.filter _ (flat_map _ _))).
Qed.

Lemma mode_fields mode : _update_fields_for_mode mode ⊆ ["externalId"; "userName"; "name"; "emails"; "active"].
Proof.
  unfold _update_fields_for_mode. intros f.
  repeat (case_match; [intros ->%list_elem_of_singleton; repeat constructor|]). done.
Qed.

Lemma no_changed_keys mode d :
  List.filter (fun name => existsb (fun key => diff_get key d) (_MODE_FIELD_TO_DIFF_KEYS name))
    (_update_fields_for_mode mode) = [] <-> changed_keys mode d = [].
Proof.
  unfold changed_keys, allowed_keys. induction (_update_fields_for_mode mode) as [|f fs IH]; [done|].
  cbn [List.filter flat_map]. rewrite List.filter_app.
  assert (existsb (fun key => diff_get key d) (_MODE_FIELD_TO_DIFF_KEYS f) = false <->
          List.filter (fun key => diff_get key d) (_MODE_FIELD_TO_DIFF_KEYS f) = []) as Hf.
  { induction (_MODE_FIELD_TO_DIFF_KEYS f) as [|k ks IHk]; [done|]. simpl. by destruct (diff_get k d). }
  destruct (existsb _ _).
  - split; [done|]. intros [H1 _]%app_eq_nil. by apply Hf in H1.
  - rewrite (proj1 Hf eq_refl). exact IH.
Qed.

Lemma build_update_cases user mode id d :
  _build_update_request user mode id d =
  if String.eqb mode "replace_all" then
    Ok ("PUT", JObj (dset "id" (JStr id) (dremove "externalId" user)), ["userName"; "name"; "emails"; "active"])
  else match changed_keys mode d with
       | [] => Err (ValueError "Cannot build a PATCH without changed attributes")
       | keys => ops ← changed_operations user keys; Ok ("PATCH", patch_op_body ops, map fst ops)
       end.
Proof.
  unfold _build_update_request. destruct (String.eqb_spec mode "replace_all") as [->|Hne]; [done|].
  pose proof (fields_operations_spec user d (_update_fields_for_mode mode) (mode_fields mode)) as Hops.
  fold (allowed_keys mode) (changed_keys mode d) in Hops. pose proof (no_changed_keys mode d) as Hnone.
  destruct (List.filter _ (_update_fields_for_mode mode)) as [|f fs].
  - by rewrite (proj1 Hnone eq_refl).
  - destruct (changed_keys mode d); [by discriminate (proj2 Hnone eq_refl)|].
    rewrite <- Hops. cbn [raise_when]. by destruct (mapR _ _).
Qed.

(** C20: an update carries exactly what changed, within the configured scope.
    In a PATCH mode the operations are one per changed attribute of the scope,
    in order, each with the source user's value, and a request without changed
    attributes is refused; [replace_all] sends the source user as it is, with
    the id Apple gave it and without the immutable externalId. *)
Theorem update_request_scope user mode id d :
  _build_update_request user mode id d =
  if String.eqb mode "replace_all" then
    Ok ("PUT", JObj (dset "id" (JStr id) (dremove "externalId" user)), ["userName"; "name"; "emails"; "active"])
  else match changed_keys mode d with
       | [] => Err (ValueError "Cannot build a PATCH without changed attributes")
       | keys => ops ← changed_operations user keys; Ok ("PATCH", patch_op_body ops, map fst ops)
       end.
Proof. apply build_update_cases. Qed.

(** ** How a directory applies it *)

Definition name_of (r : dict) : dict := match dget_default "name" (JObj []) r with JObj n => n | _ => [] end.

(** [Replace] of an attribute, or of a sub-attribute of the name. *)
Definition replace_at (r : dict) (path : string) (value : json) : dict :=
  if startswith "name." path
  then dset "name" (JObj (dset (removeprefix "name." path) value (name_of r))) r
  else dset path value r.

Definition apply_operation (r : dict) (op : json) : dict :=
  match op with
  | JObj o => match dget "path" o with JStr path => replace_at r path (dget "value" o) | _ => r end
  | _ => r
  end.

(** PUT replaces the attributes a client may write; the externalId stays. *)
Definition apply_request (r : dict) (method : string) (body : json) : dict :=
  match body with
  | JObj b =>
      if String.eqb method "PUT" then dset "externalId" (dget "externalId" r) (dremove "externalId" b)
      else match dget "Operations" b with JArr ops => foldl apply_operation r ops | _ => r end
  | _ => r
  end.

(** ** The attributes that are compared *)

Definition view (key : string) (r : dict) : json :=
  if String.eqb key "email" then dget_default "emails" (JArr []) r
  else if String.eqb key "active" then dget_default "active" (JBool true) r
  else if String.eqb key "givenName" || String.eqb key "familyName" then dget key (name_of r)
  else dget key r.

Definition differs (key : string) (a b : json) : bool :=
  negb (if String.eqb key "email"
        then String.eqb (_normalize_email (opt_json (_primary_email [("emails", a)])))
                        (_normalize_email (opt_json (_primary_email [("emails", b)])))
        else if String.eqb key "active" then Bool.eqb (truthy a) (truthy b)
        else if String.eqb key "userName" then String.eqb (_normalize_identifier a) (_normalize_identifier b)
        else String.eqb (strip (str_or_empty a)) (strip (str_or_empty b))).

Definition diff_keys (include_external_id : bool) : list string :=
  (["userName"; "givenName"; "familyName"; "active"; "email"] ++ if include_external_id then ["externalId"] else [])%list.

Definition named (r : dict) : Prop := is_dict (dget_default "name" (JObj []) r) = true.

Lemma field_diffs_spec e n incl d : _field_diffs e n incl = Ok d <->
  named e /\ named n /\ d = map (fun key => (key, differs key (view key e) (view key n))) (diff_keys incl).
Proof.
  unfold _field_diffs, name_part, named, view, name_of, differs, _primary_email.
  destruct (dget_default "name" (JObj []) e); cbn -[dget dget_default]; try by (split; [done|intros (? & _)]).
  destruct (dget_default "name" (JObj []) n); cbn -[dget dget_default]; try by (split; [done|intros (_ & ? & _)]).
  change (dget_default "emails" (JArr []) [("emails", ?v)]) with v.
  split; [intros [= <-]|intros (_ & _ & ->)]; destruct incl; done.
Qed.

(** ** Applying the operations *)

Definition synced_keys : list string := diff_keys true.

Lemma str_or_empty_str s : str_or_empty (JStr s) = s.
Proof. unfold str_or_empty, py_or. simpl. unfold str_true. by destruct (String.eqb_spec s "") as [->|]. Qed.

Lemma synced_keys_cases (P : string -> Prop) :
  P "userName" -> P "givenName" -> P "familyName" -> P "active" -> P "email" -> P "externalId" ->
  forall key, key ∈ synced_keys -> P key.
Proof.
  intros ?????? key Hk. unfold synced_keys in Hk. simpl in Hk.
  repeat (apply elem_of_cons in Hk as [->|Hk]; [done|]). by apply elem_of_nil in Hk.
Qed.

Lemma replace_named r path value : named r -> path <> "name" -> named (replace_at r path value).
Proof.
  unfold named, replace_at, dget_default. intros Hr Hp. destruct (startswith _ _).
  - by rewrite dlookup_dset_eq.
  - by rewrite dlookup_dset_ne.
Qed.

Lemma replace_id r key value : key ∈ synced_keys -> dlookup "id" (replace_at r (path_of key) value) = dlookup "id" r.
Proof. revert key. apply synced_keys_cases; unfold replace_at; cbn -[dlookup dset]; by rewrite dlookup_dset_ne. Qed.

Ltac view_cases :=
  unfold view, replace_at, name_of, dget, dget_default; cbn -[dlookup dset];
  rewrite ?dlookup_dset_eq; cbn -[dlookup dset];
  rewrite ?dlookup_dset_eq, ?dlookup_dset_ne by done; try done.

Lemma replace_view r key k value : key ∈ synced_keys -> k ∈ synced_keys ->
  view k (replace_at r (path_of key) value) = if decide (k = key) then value else view k r.
Proof.
  intros Hkey Hk. revert key Hkey k Hk. apply (synced_keys_cases (fun key => forall k, k ∈ synced_keys -> _));
    apply synced_keys_cases; view_cases.
Qed.

Lemma apply_operations user keys ops r : keys ⊆ synced_keys -> named r ->
  changed_operations user keys = Ok ops ->
  let r' := foldl apply_operation r (map (fun op => operation (fst op) (snd op)) ops) in
  named r' /\ dlookup "id" r' = dlookup "id" r /\ forall k, k ∈ synced_keys ->
    (k ∈ keys -> new_value user k = Ok (view k r')) /\ (k ∉ keys -> view k r' = view k r).
Proof.
  revert r ops. induction keys as [|key keys IH]; intros r ops Hin Hr; unfold changed_operations; cbn [mapR].
  { intros [= <-]. split; [done|]. split; [done|]. intros k _. split; [by intros ?%elem_of_nil|done]. }
  intros (x & (v & Hv & [= <-])%bind_ok & (ops' & Hops & [= <-])%bind_ok)%bind_ok.
  assert (key ∈ synced_keys) as Hkey by (apply Hin; by left).
  assert (named (replace_at r (path_of key) v)) as Hr1.
  { apply replace_named; [done|]. clear -Hkey. revert key Hkey. by apply synced_keys_cases. }
  destruct (IH (replace_at r (path_of key) v) ops') as (Hn & Hid & Hview); [by intros k Hk; apply Hin; right|done|done|].
  cbn [map foldl fst snd]. split; [exact Hn|]. split; [by rewrite <- (replace_id r key v Hkey)|]. intros k Hk. destruct (Hview k Hk) as [Hyes Hno].
  assert (forall k', k' ∈ keys \/ k' ∉ keys) as Hdec by (intros k'; destruct (decide (k' ∈ keys)); auto).
  split.
  - intros [->|Hink]%elem_of_cons; [|by apply Hyes]. destruct (Hdec key) as [Hink|Hnk]; [by apply Hyes|].
    change (apply_operation r (operation (path_of key) v)) with (replace_at r (path_of key) v).
    rewrite (Hno Hnk), replace_view by done. by rewrite decide_True.
  - intros [Hne Hnk]%not_elem_of_cons. change (apply_operation r (operation (path_of key) v)) with (replace_at r (path_of key) v).
    rewrite (Hno Hnk), replace_view by done. by rewrite decide_False.
Qed.

(** The value sent is the user's as far as the comparison sees. *)
Lemma new_value_view user key : named user -> key ∈ synced_keys ->
  exists v, new_value user key = Ok v /\ differs key v (view key user) = false.
Proof.
  unfold named. intros Hu. revert key. apply synced_keys_cases; unfold new_value, differs, view, name_of;
    cbn -[dget dget_default strip _primary_email str_or_empty];
    try (destruct (dget_default "name" (JObj []) user) as [| | | | | |n]; try done); eexists; (split; [reflexivity|]).
  1,4,5: by rewrite ?String.eqb_refl, ?eqb_reflx.
  - unfold dget, dget_default. destruct (dlookup _ n); by rewrite String.eqb_refl.
  - unfold dget, dget_default. destruct (dlookup _ n); by rewrite String.eqb_refl.
  - unfold external_id_of. by rewrite str_or_empty_str, strip_idem, String.eqb_refl.
Qed.

Lemma differs_refl key v : differs key v v = false.
Proof. unfold differs. by destruct (String.eqb key "email"), (String.eqb key "active"), (String.eqb key "userName"); rewrite ?String.eqb_refl, ?eqb_reflx. Qed.

(** ** Differences as tables *)

Definition table (f : string -> bool) (keys : list string) : diffs := map (fun key => (key, f key)) keys.

Lemma diff_get_table f keys key : diff_get key (table f keys) = str_mem key keys && f key.
Proof.
  unfold diff_get, table. induction keys as [|k keys IH]; [done|]. cbn [map List.find fst].
  unfold str_mem in *. cbn [existsb]. destruct (String.eqb_spec key k) as [->|]; [done|exact IH].
Qed.

Lemma actionable_table f keys mode :
  _actionable_diffs (table f keys) mode = table f (List.filter (fun key => str_mem key (allowed_keys mode)) keys).
Proof.
  unfold _actionable_diffs, table. induction keys as [|k keys IH]; [done|]. cbn [map List.filter fst].
  destruct (str_mem k (allowed_keys mode)); [|exact IH]. cbn [map]. by f_equal.
Qed.

Lemma any_diff_table f keys : any_diff (table f keys) = existsb f keys.
Proof. unfold any_diff, table. induction keys as [|k keys IH]; [done|]. cbn. by rewrite IH. Qed.

Lemma elem_filter {A} (p : A -> bool) x l : x ∈ List.filter p l <-> x ∈ l /\ p x = true.
Proof. rewrite !list_elem_of_In. apply filter_In. Qed.

(** No difference is left in the scope of the mode. *)
Lemma actionable_none f incl mode :
  any_diff (_actionable_diffs (table f (diff_keys incl)) mode) = false <->
  forall key, key ∈ diff_keys incl -> key ∈ allowed_keys mode -> f key = false.
Proof.
  rewrite actionable_table, any_diff_table, <- not_true_iff_false, existsb_exists. split.
  - intros Hn key Hk Ha. destruct (f key) eqn:E; [|done]. destruct Hn. exists key.
    by rewrite <- list_elem_of_In, elem_filter, str_mem_elem.
  - intros Hn (key & Hin & E). rewrite <- list_elem_of_In, elem_filter, str_mem_elem in Hin.
    destruct Hin as [Hk Ha]. by rewrite (Hn key Hk Ha) in E.
Qed.

Lemma changed_keys_elem f incl mode key : key ∈ changed_keys mode (_actionable_diffs (table f (diff_keys incl)) mode) <->
  key ∈ allowed_keys mode /\ key ∈ diff_keys incl /\ f key = true.
Proof.
  unfold changed_keys. rewrite elem_filter, actionable_table, diff_get_table, andb_true_iff, str_mem_elem, elem_filter, str_mem_elem.
  tauto.
Qed.

Lemma diff_keys_synced incl : diff_keys incl ⊆ synced_keys.
Proof. destruct incl; intros k Hk; [done|]. unfold synced_keys, diff_keys in *. apply elem_of_app. left. simpl in *. done. Qed.

(** ** Convergence *)

(** What is compared of two users. *)
Definition unequal (e n : dict) (key : string) : bool := differs key (view key e) (view key n).

Lemma put_views existing user id : named user ->
  let updated := apply_request existing "PUT" (JObj (dset "id" (JStr id) (dremove "externalId" user))) in
  named updated /\ dlookup "id" updated = Some (JStr id) /\ forall key, key ∈ synced_keys ->
    view key updated = if String.eqb key "externalId" then view key existing else view key user.
Proof.
  intros Hu updated. unfold named, updated, apply_request in *. cbn [String.eqb Ascii.eqb Bool.eqb].
  assert (forall key, key <> "externalId" -> key <> "id" ->
    dlookup key (dset "externalId" (dget "externalId" existing) (dremove "externalId" (dset "id" (JStr id) (dremove "externalId" user))))
    = dlookup key user) as Hl.
  { intros key H1 H2. by rewrite dlookup_dset_ne, dlookup_dremove_ne, dlookup_dset_ne, dlookup_dremove_ne. }
  split; [unfold dget_default in *; by rewrite Hl|].
  split; [by rewrite dlookup_dset_ne, dlookup_dremove_ne, dlookup_dset_eq|].
  apply synced_keys_cases; unfold view, name_of, dget, dget_default; cbn -[dlookup dset dremove]; rewrite ?Hl by done; try done.
  by rewrite dlookup_dset_eq.
Qed.

Lemma any_diff_elem f incl mode : any_diff (_actionable_diffs (table f (diff_keys incl)) mode) = true ->
  changed_keys mode (_actionable_diffs (table f (diff_keys incl)) mode) <> [].
Proof.
  intros Ha E. rewrite (proj2 (actionable_none f incl mode)) in Ha; [done|]. intros key Hk Hal.
  destruct (f key) eqn:Ef; [|done]. assert (key ∈ changed_keys mode (_actionable_diffs (table f (diff_keys incl)) mode)) as Hin
    by (by rewrite changed_keys_elem). rewrite E in Hin. by apply elem_of_nil in Hin.
Qed.

(** What an update may leave: differences outside the scope that were there. *)
Record settles (existing user : dict) (mode : string) (incl : bool) (updated : dict) : Prop := {
  st_named : named updated;
  st_id id : dlookup "id" existing = Some (JStr id) -> dlookup "id" updated = Some (JStr id);
  st_view key : key ∈ synced_keys -> unequal updated user key = false \/ view key updated = view key existing;
  st_username : view "userName" updated = view "userName" user \/ view "userName" updated = view "userName" existing;
  st_left key : key ∈ diff_keys incl -> unequal updated user key = true ->
    unequal existing user key = true /\ key ∉ allowed_keys mode;
  st_kept : mode <> "replace_all" -> forall key, key ∈ synced_keys -> key ∉ allowed_keys mode ->
    view key updated = view key existing;
}.

Lemma put_settles existing user id incl : named user -> dlookup "id" existing = Some (JStr id) ->
  ("externalId" ∈ diff_keys incl -> unequal existing user "externalId" = false) ->
  settles existing user "replace_all" incl
    (apply_request existing "PUT" (JObj (dset "id" (JStr id) (dremove "externalId" user)))).
Proof.
  intros Hu Hids Hext. destruct (put_views existing user id Hu) as (Hn & Hid & Hview).
  split; [exact Hn|congruence| |left; by apply (Hview "userName"); left| |done].
  { intros key Hk. unfold unequal at 1. rewrite (Hview key Hk). destruct (String.eqb key "externalId"); [by right|].
    left. apply differs_refl. }
  intros key Hk. unfold unequal at 1. rewrite (Hview key) by by apply (diff_keys_synced incl).
  destruct (String.eqb_spec key "externalId") as [->|]; [|by rewrite differs_refl].
  specialize (Hext Hk). unfold unequal in Hext. by rewrite Hext.
Qed.

Lemma patch_settles existing user mode incl : named existing -> named user -> mode <> "replace_all" ->
  let keys := changed_keys mode (_actionable_diffs (table (unequal existing user) (diff_keys incl)) mode) in
  exists ops, changed_operations user keys = Ok ops /\
    settles existing user mode incl (apply_request existing "PATCH" (patch_op_body ops)).
Proof.
  intros He Hu Hmode keys.
  assert (forall key, key ∈ keys <-> key ∈ allowed_keys mode /\ key ∈ diff_keys incl /\ unequal existing user key = true)
    as Hkeys by (intros key; apply changed_keys_elem).
  assert (keys ⊆ synced_keys) as Hin by (intros key (_ & Hk & _)%Hkeys; by apply (diff_keys_synced incl)).
  destruct (mapR_total (fun key => v ← new_value user key; Ok (path_of key, v)) keys) as [ops Hops].
  { intros key Hk%Hin. destruct (new_value_view user key Hu Hk) as (v & -> & _). by eexists. }
  exists ops. split; [exact Hops|]. destruct (apply_operations user keys ops existing Hin He Hops) as (Hn & Hid & Hview).
  split; [exact Hn|by intros id <-| | | |].
  - intros key Hs. destruct (Hview key Hs) as [Hyes Hno]. destruct (decide (key ∈ keys)) as [Hin'|Hnot]; [left|by right; apply Hno].
    destruct (new_value_view user key Hu Hs) as (v & Hv & Hd). rewrite (Hyes Hin') in Hv. injection Hv as <-. exact Hd.
  - destruct (Hview "userName") as [Hyes Hno]; [by left|].
    destruct (decide ("userName" ∈ keys)) as [Hin'|Hnot]; [left|by right; apply Hno]. specialize (Hyes Hin'). injection Hyes as E. exact (eq_sym E).
  - intros key Hk. assert (key ∈ synced_keys) as Hs by (by apply (diff_keys_synced incl)).
    destruct (Hview key Hs) as [Hyes Hno]. destruct (decide (key ∈ keys)) as [Hin'|Hnot]; unfold unequal at 1.
    + destruct (new_value_view user key Hu Hs) as (v & Hv & Hd). rewrite (Hyes Hin') in Hv. injection Hv as <-.
      intros Hd'. discriminate (eq_trans (eq_sym Hd') Hd).
    + intros Hd'. assert (unequal existing user key = true) as Hun.
      { unfold unequal. rewrite <- (Hno Hnot). exact Hd'. }
      split; [exact Hun|]. intros Hal. apply Hnot, Hkeys. done.
  - intros _ key Hk Hal. apply (Hview key Hk). intros [Ha _]%Hkeys. done.
Qed.

(** The request the client builds for a difference in scope settles it. *)
Lemma update_settles existing user mode id incl : named existing -> named user ->
  dlookup "id" existing = Some (JStr id) ->
  any_diff (_actionable_diffs (table (unequal existing user) (diff_keys incl)) mode) = true ->
  (mode = "replace_all" -> "externalId" ∈ diff_keys incl -> unequal existing user "externalId" = false) ->
  exists method body paths,
    _build_update_request user mode id (_actionable_diffs (table (unequal existing user) (diff_keys incl)) mode) = Ok (method, body, paths) /\
    (method = "PATCH" \/ method = "PUT") /\ settles existing user mode incl (apply_request existing method body).
Proof.
  intros He Hu Hid Hany Hext. rewrite build_update_cases. destruct (String.eqb_spec mode "replace_all") as [->|Hmode].
  - eexists _, _, _. split; [reflexivity|]. split; [by right|]. apply put_settles; [done..|by apply Hext].
  - destruct (patch_settles existing user mode incl He Hu Hmode) as (ops & Hops & Hset).
    pose proof (any_diff_elem _ _ _ Hany) as Hne. destruct (changed_keys mode _); [done|].
    rewrite Hops. eexists _, _, _. split; [reflexivity|]. split; [by left|exact Hset].
Qed.

(** An update settles the account: whenever the client finds a difference
    within the configured scope, the request it builds, applied by the
    directory, leaves no difference in that scope - whatever still differs is
    outside of it and differed before, and a PATCH leaves the attributes
    outside the scope as they were. *)
Theorem update_converges existing user mode id incl d :
  dlookup "id" existing = Some (JStr id) ->
  _field_diffs existing user incl = Ok d -> any_diff (_actionable_diffs d mode) = true ->
  (mode = "replace_all" -> diff_get "externalId" d = false) ->
  exists method body paths d',
    _build_update_request user mode id (_actionable_diffs d mode) = Ok (method, body, paths) /\
    _field_diffs (apply_request existing method body) user incl = Ok d' /\
    any_diff (_actionable_diffs d' mode) = false /\
    (forall key, diff_get key d' = true -> diff_get key d = true /\ key ∉ allowed_keys mode) /\
    (mode <> "replace_all" -> forall key, key ∈ synced_keys -> key ∉ allowed_keys mode ->
       view key (apply_request existing method body) = view key existing).
Proof.
  intros Hid (He & Hu & Hd)%field_diffs_spec Hany Hext.
  change (map _ _) with (table (unequal existing user) (diff_keys incl)) in Hd. subst d.
  destruct (update_settles existing user mode id incl He Hu Hid Hany) as (method & body & paths & Hb & _ & [Hn _ _ _ Hleft Hkeep]).
  { intros Hm Hk. specialize (Hext Hm). rewrite diff_get_table in Hext. apply str_mem_elem in Hk. by rewrite Hk in Hext. }
  exists method, body, paths, (table (unequal (apply_request existing method body) user) (diff_keys incl)).
  split; [exact Hb|]. split; [by apply field_diffs_spec|]. split; [|split; [|exact Hkeep]].
  - apply actionable_none. intros key Hk Ha. destruct (unequal _ _ key) eqn:E; [|done]. by destruct (Hleft key Hk E).
  - intros key. rewrite !diff_get_table, !andb_true_iff, str_mem_elem. intros [Hk E]. by destruct (Hleft key Hk E).
Qed.

(** A created account is the user that was posted, under an id of Apple's. *)
Lemma created_in_step user id : named user ->
  exists d, _field_diffs (dset "id" (JStr id) user) user true = Ok d /\ any_diff d = false.
Proof.
  intros Hu. assert (forall key, key <> "id" -> dlookup key (dset "id" (JStr id) user) = dlookup key user) as Hl
    by (intros key Hk; by rewrite dlookup_dset_ne).
  exists (table (unequal (dset "id" (JStr id) user) user) (diff_keys true)). split.
  - apply field_diffs_spec. split; [|done]. unfold named, dget_default in *. by rewrite Hl.
  - rewrite any_diff_table. apply not_true_iff_false. rewrite existsb_exists. intros (key & Hk%list_elem_of_In & E).
    revert key Hk E. apply (synced_keys_cases (fun key => unequal (dset "id" (JStr id) user) user key = true -> False));
      unfold unequal, view, name_of, dget, dget_default; cbn -[dlookup dset differs]; rewrite Hl by done; by rewrite differs_refl.
Qed.

(** The account of Ann has another first name and another case of her address
    than her source user. *)
Module Example.
Import AppleScimSpec.Example.

Definition anne : dict :=
  [("externalId", JStr "42"); ("userName", JStr "ann@example.com");
   ("name", JObj [("givenName", JStr "Anne"); ("familyName", JStr "Lee")]); ("active", JBool false);
   ("emails", JArr [JObj [("value", JStr "ann@example.com"); ("primary", JBool true)]])].

Definition ann_differs : diffs := match _field_diffs (ann "42") anne true with Ok d => d | Err _ => [] end.

Lemma update_converges_witness : exists method body paths d',
  _build_update_request anne "patch_all" "a1" (_actionable_diffs ann_differs "patch_all") = Ok (method, body, paths) /\
  _field_diffs (apply_request (ann "42") method body) anne true = Ok d' /\ any_diff (_actionable_diffs d' "patch_all") = false.
Proof.
  destruct (update_converges (ann "42") anne "patch_all" "a1" true ann_differs)
    as (method & body & paths & d' & Hb & Hd & Hn & _).
  - reflexivity.
  - vm_compute. reflexivity.
  - vm_compute. reflexivity.
  - discriminate.
  - by exists method, body, paths, d'.
Defined.
End Example.
