(* ===== verification/AppleDirectory.v ===== *)
(** * A directory behind the SCIM client ([app/scim/apple.py])

    What Apple's side has to do for a synchronisation to work, as SCIM
    describes it (RFC 7644): it lists its accounts page by page, applies valid
    updates and creations, and changes for nobody else meanwhile.  The client's
    listing is shown to read such a directory exactly. *)
From Stdlib Require Import ZArith Lia Ascii String.
From stdpp Require Import base option list strings sets.
From S2P Require Import Prelude PyStr PyVal Config World AppleScim AppleWalk AppleScimLogic AppleScimSpec AppleUpdate.

Open Scope string_scope.

(** ** Accounts *)

Abbreviation directory := (list dict).

Definition account_id (d : dict) : string := match dget "id" d with JStr i => i | _ => "" end.

Record account_ok (d : dict) : Prop := {
  ac_id : _is_safe_user_id (dget "id" d) = true;
  ac_username : nonblank (dget "userName" d) = true;
  ac_named : named d;
}.

(** Ids, userNames and the externalIds there are identify an account. *)
Record directory_ok (D : directory) : Prop := {
  dk_accounts d : d ∈ D -> account_ok d;
  dk_ids : NoDup (map account_id D);
  dk_names a b : a ∈ D -> b ∈ D -> username_of a = username_of b -> account_id a = account_id b;
  dk_exts a b : a ∈ D -> b ∈ D -> external_id_of a = external_id_of b -> external_id_of a <> "" ->
    account_id a = account_id b;
}.

Lemma account_id_eq d : account_ok d -> dget "id" d = JStr (account_id d).
Proof. intros [Hid _ _]. unfold account_id. by destruct (dget "id" d). Qed.

Lemma account_lookup d : account_ok d -> dlookup "id" d = Some (JStr (account_id d)).
Proof. intros Hok. pose proof (account_id_eq d Hok) as E. unfold dget, dget_default in E. by destruct (dlookup "id" d); simpl in E; subst. Qed.

Lemma same_account D a b : directory_ok D -> a ∈ D -> b ∈ D -> account_id a = account_id b -> a = b.
Proof.
  intros Hok Ha Hb E. destruct (list_elem_of_lookup_1 _ _ Ha) as [i Hi]. destruct (list_elem_of_lookup_1 _ _ Hb) as [j Hj].
  assert (i = j) as ->; [|congruence].
  apply (NoDup_lookup (account_id <$> D) _ _ (account_id a)); [apply Hok|..];
    rewrite list_lookup_fmap, ?Hi, ?Hj; simpl; congruence.
Qed.

(** Replace the account with the id of [X]. *)
Definition store (X : dict) (D : directory) : directory :=
  map (fun a => if String.eqb (account_id a) (account_id X) then X else a) D.

(** ** What the directory answers *)

Definition page_url (i : Z) : string :=
  if (i =? 1)%Z then APPLE_SCIM_BASE +:+ "/Users?count=" +:+ str_of_int _USER_LIST_COUNT
  else APPLE_SCIM_BASE +:+ "/Users?count=" +:+ str_of_int _USER_LIST_COUNT +:+ "&startIndex=" +:+ str_of_int i.

(** A page of the listing from the [i]-th account on; how many it holds is
    the directory's choice. *)
Definition is_page (D : directory) (i : Z) (data : dict) : Prop :=
  exists us rest, drop (Z.to_nat (i - 1)) D = (us ++ rest)%list /\ (us = [] -> rest = []) /\
    dlookup "totalResults" data = Some (JInt (Z.of_nat (length D))) /\
    dlookup "startIndex" data = Some (JInt i) /\
    dlookup "itemsPerPage" data = Some (JInt (Z.of_nat (length us))) /\
    dlookup "Resources" data = Some (JArr (map JObj us)).

Definition json_answer (resp : Response) (d : dict) : Prop := rs_status resp = 200%Z /\ rs_json resp = Ok (JObj d).

(** [serves hd D rq resp D']: to a request of a client with headers [hd], the
    directory [D] answers [resp] and is [D'] afterwards. *)
Record serves (hd : list (string * string)) (D : directory) (rq : Request) (resp : Response) (D' : directory) : Prop := {
  sv_page i : rq = get_request hd (page_url i) -> (1 <= i <= Z.max 1 (Z.of_nat (length D)))%Z ->
    D' = D /\ exists data, json_answer resp data /\ is_page D i data;
  sv_user d : d ∈ D -> rq = get_request hd (_user_url (account_id d)) -> D' = D /\ json_answer resp d;
  sv_update d method body : d ∈ D -> method = "PATCH" \/ method = "PUT" ->
    rq = write_request method hd (_user_url (account_id d)) body ->
    directory_ok (store (apply_request d method body) D) ->
    D' = store (apply_request d method body) D /\ ok_write (rs_status resp) = true;
  sv_create user : rq = write_request "POST" hd (APPLE_SCIM_BASE +:+ "/Users") (JObj user) ->
    nonblank (dget "userName" user) = true -> named user ->
    (forall d, d ∈ D -> username_of d <> username_of user /\ external_id_of d <> external_id_of user) ->
    rs_status resp = 201%Z /\ exists id, D' = (D ++ [dset "id" (JStr id) user])%list /\
      _is_safe_user_id (JStr id) = true /\ id ∉ map account_id D;
}.

(** The answers to the requests of a trace that starts at tick [t]. *)
Inductive answers `{Env} (hd : list (string * string)) : directory -> nat -> list event -> directory -> Prop :=
| answers_nil D t : answers hd D t [] D
| answers_cons D t rq resp D1 tr D2 :
    env_http t rq = Ok resp -> serves hd D rq resp D1 -> answers hd D1 (S t) tr D2 ->
    answers hd D t (Sent rq :: tr) D2.

(** ** Following a run

    [final] is the trace of the whole run.  A run that starts [on_course] stays
    so as long as it is a prefix of it; [course] is the judgement that a
    computation then returns a value, with its precondition and
    postcondition. *)
Section course.
Context `{Env} (hd : list (string * string)) (final : list event) (last : directory).

Definition on_course (D : directory) (w : World) : Prop :=
  exists tr, final = (w_trace w ++ tr)%list /\ answers hd D (w_tick w) tr last.

(** The directory, the records the client holds, and its counters. *)
Definition holds (D : directory) (h : list dict) (c : SyncResult) (s : Scim) : Prop :=
  on_course D (sc_world s) /\ sc_heap s = h /\ sc_result s = c.

Definition course {A} (pre : Scim -> Prop) (m : M Scim A) (post : A -> Scim -> Prop) : Prop :=
  forall s r s', pre s -> m s = (r, s') -> w_trace (sc_world s') `prefix_of` final ->
    exists a, r = Ok a /\ post a s'.

Lemma course_bind {A B} pre mid (post : B -> Scim -> Prop) (m : M Scim A) (k : A -> M Scim B) :
  course pre m mid -> (forall a, walks grows (k a)) -> (forall a, course (mid a) (k a) post) ->
  course pre (m ≫= k) post.
Proof.
  intros Hm Hw Hk s r s' Hpre. unfold mbind, M_bind. destruct (m s) as [[a|e] s1] eqn:E; intros Hrun Hfin.
  - assert (w_trace (sc_world s1) `prefix_of` final) as Hs1 by (etransitivity; [exact (Hw a _ _ _ Hrun)|done]).
    destruct (Hm _ _ _ Hpre E Hs1) as (a' & [= <-] & Hmid). by eapply Hk.
  - injection Hrun as <- <-. by destruct (Hm _ _ _ Hpre E Hfin) as (a & [=] & _).
Qed.

Lemma course_catch {A} pre (post : A -> Scim -> Prop) m h :
  course pre m post -> (forall e k, h e = Some k -> walks grows k) -> course pre (catchM m h) post.
Proof.
  intros Hm Hw s r s' Hpre. unfold catchM. destruct (m s) as [[a|e] s1] eqn:E.
  - intros [= <- <-]. by eapply Hm.
  - destruct (h e) as [k|] eqn:Hh; [|intros [= <- <-]; by eapply Hm]. intros Hrun Hfin.
    assert (w_trace (sc_world s1) `prefix_of` final) as Hs1 by (etransitivity; [exact (Hw _ _ Hh _ _ _ Hrun)|done]).
    by destruct (Hm _ _ _ Hpre E Hs1) as (a & [=] & _).
Qed.

Lemma course_conseq {A} (pre pre' : Scim -> Prop) (post post' : A -> Scim -> Prop) m :
  course pre' m post' -> (forall s, pre s -> pre' s) -> (forall a s, post' a s -> post a s) -> course pre m post.
Proof. intros Hm Hpre Hpost s r s' Hs E Hf. destruct (Hm _ _ _ (Hpre _ Hs) E Hf) as (a & -> & Ha). eauto. Qed.

Lemma course_pull {A} (Q : Prop) pre (m : M Scim A) post :
  (Q -> course pre m post) -> course (fun s => pre s /\ Q) m post.
Proof. intros Hm s r s' [Hs HQ]. by apply (Hm HQ). Qed.

Lemma course_ret {A} (pre : Scim -> Prop) (a : A) post : (forall s, pre s -> post a s) -> course pre (mret a) post.
Proof. intros Hp s r s' Hs [= <- <-] _. eauto. Qed.

Lemma course_lift {A B} (pre : Scim -> Prop) (r : result A) a (k : A -> M Scim B) post :
  r = Ok a -> course pre (k a) post -> course pre (liftR r ≫= k) post.
Proof. intros -> Hk. exact Hk. Qed.

Lemma course_deref D h c a : course (holds D h c) (deref a) (fun d s => holds D h c s /\ d = heap_get a h).
Proof. intros s r s' (? & <- & ?) [= <- <-] _. eexists. done. Qed.

Lemma course_alloc D h c d :
  course (holds D h c) (alloc d) (fun a s => holds D (h ++ [d])%list c s /\ a = length h).
Proof. intros s r s' (? & <- & <-) [= <- <-] _. eexists. done. Qed.

Lemma course_overwrite D h c a d : course (holds D h c) (overwrite a d) (fun _ => holds D (<[a := d]> h) c).
Proof. intros s r s' (? & <- & <-) [= <- <-] _. eexists. done. Qed.

Lemma course_record D h c f : course (holds D h c) (record_result f) (fun _ => holds D h (f c)).
Proof. intros s r s' (? & <- & <-) [= <- <-] _. eexists. done. Qed.

(** The request that is sent is the next one of the run. *)
Lemma course_http D h c rq : course (holds D h c) (netM (http rq))
  (fun resp s => exists D', serves hd D rq resp D' /\ holds D' h c s).
Proof.
  intros s r s' ((tr & Hfin & Han) & Hh & Hc). unfold netM, zoom, http, emit, ask, liftR, mbind, M_bind. simpl.
  intros [= <- <-] [tr' Hpre]. simpl in Hpre. rewrite Hfin, <- app_assoc in Hpre.
  apply app_inv_head in Hpre as ->. inversion Han as [|D0 t rq' resp D1 tr0 D2 Hres Hserves Hrest]; subst; clear Han.
  exists resp. split; [done|]. exists D1. split; [done|]. split; [|done]. exists tr'. split; [|exact Hrest]. cbn. by rewrite <- app_assoc.
Qed.
End course.

(** ** Reading a page *)

Lemma mapR_JObj e us : mapR (fun u => match u with JObj d => Ok d | _ => Err e end) (map JObj us) = Ok us.
Proof. induction us as [|u us IH]; [done|]. simpl. by rewrite IH. Qed.

Lemma dget_lookup k d v : dlookup k d = Some v -> dget k d = v.
Proof. unfold dget, dget_default. by intros ->. Qed.
Lemma dget_default_lookup k d v v' : dlookup k d = Some v -> dget_default k v' d = v.
Proof. unfold dget_default. by intros ->. Qed.

Lemma page_read D i data et :
  is_page D i data -> (1 <= i <= Z.max 1 (Z.of_nat (length D)))%Z -> et = None \/ et = Some (Z.of_nat (length D)) ->
  exists us rest, drop (Z.to_nat (i - 1)) D = (us ++ rest)%list /\ (us = [] -> rest = []) /\
    _validate_users_page data i et = Ok (us, Z.of_nat (length D)) /\
    _next_users_page_url data i =
      Ok (match rest with [] => None | _ => Some (page_url (i + Z.of_nat (length us))) end) /\
    _apple_single_page data _USER_LIST_COUNT = Ok None.
Proof.
  intros (us & rest & Hdrop & Hmore & Ht & Hs & Hp & Hr) Hi Het.
  assert (Z.of_nat (length us) + Z.of_nat (length rest) = Z.of_nat (length D) - (i - 1))%Z as Hlen.
  { apply (f_equal length) in Hdrop. rewrite length_drop, length_app in Hdrop. lia. }
  exists us, rest. split; [exact Hdrop|]. split; [exact Hmore|]. split; [|split].
  - unfold _validate_users_page. rewrite (dget_lookup _ _ _ Ht), (dget_default_lookup _ _ _ _ Hs), (dget_default_lookup _ _ _ _ Hr), mapR_JObj.
    cbn. rewrite (dget_default_lookup _ _ _ _ Hp).
    assert (match et with Some t => negb (Z.of_nat (length D) =? t)%Z | None => false end = false) as ->
      by (destruct Het as [->| ->]; [done|by rewrite Z.eqb_refl]).
    rewrite !Z.eqb_refl. cbn.
    rewrite (proj2 (Z.ltb_ge (Z.of_nat (length D)) 0)), (proj2 (Z.ltb_ge (Z.of_nat (length D)) _)) by lia. cbn.
    assert (((Z.of_nat (length us) =? 0) && (i <=? Z.of_nat (length D)))%Z = false) as ->; [|done].
    apply andb_false_iff. destruct us; [right; apply Z.leb_gt|left; apply Z.eqb_neq; simpl; lia].
    rewrite (Hmore eq_refl) in Hlen. simpl in Hlen. lia.
  - unfold _next_users_page_url. rewrite (dget_lookup _ _ _ Ht), (dget_default_lookup _ _ _ _ Hs),
      (dget_default_lookup _ _ _ _ Hp).
    destruct (Z.eqb_spec (Z.of_nat (length us)) 0) as [E|E].
    + assert (us = []) as -> by (destruct us; [done|simpl in E; lia]). rewrite (Hmore eq_refl) in *. simpl in *.
      rewrite (proj2 (Z.leb_gt i _)) by lia. done.
    + destruct rest as [|r rest]; simpl in Hlen.
      * by rewrite (proj2 (Z.ltb_ge _ _)) by lia.
      * rewrite (proj2 (Z.ltb_lt _ _)) by lia. unfold page_url. by rewrite (proj2 (Z.eqb_neq _ 1)) by lia.
  - unfold _apple_single_page. rewrite (dget_lookup _ _ _ Hr), (dget_lookup _ _ _ Ht), (dget_lookup _ _ _ Hs), (dget_lookup _ _ _ Hp).
    rewrite length_map. destruct (Z.eqb_spec (Z.of_nat (length us)) _USER_LIST_COUNT) as [E|E].
    + assert ((i =? Z.of_nat (length us) + 1)%Z && (Z.of_nat (length D) =? Z.of_nat (length us))%Z = false) as Hne.
      { apply andb_false_iff. destruct (Z.eqb_spec i (Z.of_nat (length us) + 1)); [right|by left].
        apply Z.eqb_neq. unfold _USER_LIST_COUNT in E. lia. }
      apply andb_false_iff in Hne as [->| ->]; [by rewrite orb_true_r|done].
    + by rewrite orb_true_r.
Qed.

(** ** Indexing *)

Record indexed (P : directory) (ix : Indexes) : Prop := {
  in_ids i : i ∈ seen_ids ix <-> i ∈ map account_id P;
  in_names k a : ilookup k (by_username ix) = Some a <-> exists d, P !! a = Some d /\ username_of d = k;
  in_exts k a : k <> "" -> ilookup k (by_ext_id ix) = Some a <-> exists d, P !! a = Some d /\ external_id_of d = k;
}.

Lemma indexed_nil : indexed [] no_indexes.
Proof. split; intros *; [done|..]; split; try done; intros (d & Hd & _); by rewrite lookup_nil in Hd. Qed.

Lemma directory_ok_app P u d : directory_ok (P ++ u :: d)%list ->
  account_ok u /\ account_id u ∉ map account_id P /\
  (forall a, a ∈ P -> username_of a <> username_of u) /\
  (forall a, a ∈ P -> external_id_of u <> "" -> external_id_of a <> external_id_of u).
Proof.
  intros [Hac Hids Hn He]. rewrite map_app in Hids. apply NoDup_app in Hids as (_ & Hids & _).
  assert (u ∈ (P ++ u :: d)%list) as Hu by set_solver.
  assert (account_id u ∉ map account_id P) as Hfresh by (intros Hin; apply (Hids _ Hin); by left).
  assert (forall a, a ∈ P -> account_id a = account_id u -> False) as Hne.
  { intros a Ha E. apply Hfresh. rewrite <- E. by apply list_elem_of_In, in_map, list_elem_of_In. }
  split; [by apply Hac|]. split; [exact Hfresh|]. split; intros a Ha.
  - intros E. apply (Hne a Ha), Hn; [set_solver|done..].
  - intros Hnone E. apply (Hne a Ha), He; [set_solver|done..|congruence].
Qed.

Lemma ilookup_iset_iff k k' a b d : ilookup k (iset k' a d) = Some b <->
  (k' = k /\ b = a) \/ (k' <> k /\ ilookup k d = Some b).
Proof.
  destruct (decide (k' = k)) as [->|Hne].
  - rewrite ilookup_iset_eq. naive_solver.
  - rewrite ilookup_iset_ne by done. naive_solver.
Qed.

Lemma index_user P u d ix : directory_ok (P ++ u :: d)%list -> indexed P ix ->
  exists ix', _index_unique_user (length P) u ix = Ok ix' /\ indexed (P ++ [u])%list ix'.
Proof.
  intros Hok [Hi Hn He]. destruct (directory_ok_app P u d Hok) as (Hu & Hfresh & Hname & Hext).
  pose proof (account_id_eq u Hu) as Eid. destruct Hu as [Hid Hnb Hnamed]. unfold _index_unique_user.
  rewrite Eid in *. rewrite Hid, Hnb. cbn [negb raise_when mbind result_bind].
  change (_normalize_identifier (dget "userName" u)) with (username_of u).
  assert (str_mem (account_id u) (seen_ids ix) = false) as ->.
  { apply not_true_iff_false. rewrite str_mem_elem, Hi. exact Hfresh. }
  assert (has_key (username_of u) (by_username ix) = false) as ->.
  { unfold has_key. destruct (ilookup _ _) as [a|] eqn:E; [|done]. apply Hn in E as (x & Hx & E).
    by apply list_elem_of_lookup_2, Hname in Hx. }
  assert (str_true (external_id_of u) && has_key (external_id_of u) (by_ext_id ix) = false) as ->.
  { unfold str_true. destruct (String.eqb_spec (external_id_of u) "") as [|Hne]; [done|]. cbn. unfold has_key.
    destruct (ilookup _ _) as [a|] eqn:E; [|done]. apply He in E as (x & Hx & E); [|done].
    by apply list_elem_of_lookup_2, Hext in Hx. }
  eexists. split; [reflexivity|]. pose proof (nonblank_truthy _ Hnb) as Htn.
  assert (dget_default "userName" (JStr "") u = dget "userName" u) as Hd.
  { unfold dget, dget_default in *. by destruct (dlookup "userName" u). }
  split; cbn [seen_ids by_username by_ext_id _index_users_page].
  - intros i. rewrite elem_of_cons, Hi, map_app, elem_of_app. cbn [map]. rewrite list_elem_of_singleton. tauto.
  - intros k a. rewrite Hd, Htn. change (_normalize_identifier (dget "userName" u)) with (username_of u).
    rewrite ilookup_iset_iff, Hn. setoid_rewrite lookup_snoc_Some. split.
    + intros [[<- ->]|(Hne & x & Hx & <-)]; [exists u; split; [by right|done]|].
      exists x. split; [left; split; [by eapply lookup_lt_Some|done]|done].
    + intros (x & [[_ Hx]|[-> <-]] & <-); [right|by left]. split; [|by exists x].
      intros E. by apply (Hname x); [by eapply list_elem_of_lookup_2|].
  - intros k a Hk. setoid_rewrite lookup_snoc_Some. destruct (truthy (dget "externalId" u)) eqn:Et.
    + rewrite <- truthy_external_id by done. rewrite ilookup_iset_iff, (He k a Hk). split.
      * intros [[<- ->]|(Hne & x & Hx & <-)]; [exists u; split; [by right|done]|].
        exists x. split; [left; split; [by eapply lookup_lt_Some|done]|done].
      * intros (x & [[_ Hx]|[-> <-]] & <-); [right|by left]. split; [|by exists x].
        intros E. by apply (Hext x); [by eapply list_elem_of_lookup_2|congruence|].
    + rewrite (He k a Hk). split.
      * intros (x & Hx & <-). exists x. split; [left; split; [by eapply lookup_lt_Some|done]|done].
      * intros (x & [[_ Hx]|[-> <-]] & E); [by exists x|]. destruct Hk. rewrite <- E.
        unfold external_id_of, str_or_empty, py_or. by rewrite Et.
Qed.

(** ** The listing *)

Section listing.
Context `{Env} (hd : list (string * string)) (final : list event) (last : directory).
Notation holds := (holds hd final last).
Notation course := (course final).

Lemma course_fetch D h c url d (P : dict -> Prop) :
  (forall resp D', serves hd D (get_request hd url) resp D' -> D' = D /\ exists data, json_answer resp data /\ P data) ->
  d = D -> course (holds D h c) (_fetch_users_page hd url) (fun data s => holds d h c s /\ P data).
Proof.
  intros Hs ->. unfold _fetch_users_page. eapply course_bind.
  - apply course_catch; [apply course_http|]. intros e k Hk. destruct e; try done. injection Hk as <-. walk.
  - intros resp. walk.
  - intros resp s r s' (D' & [-> (data & [Hst Hj] & Hp)]%Hs & Hh). rewrite Hst, Hj. intros [= <- <-] _. by exists data.
Qed.

Lemma course_index_users D P us rest ix c : directory_ok (P ++ us ++ rest)%list -> indexed P ix ->
  course (holds D P c) (index_users us ix) (fun ix' s => holds D (P ++ us)%list c s /\ indexed (P ++ us)%list ix').
Proof.
  revert P ix. induction us as [|u us IH]; intros P ix Hok Hix; cbn [index_users].
  - apply course_ret. intros s Hs. by rewrite app_nil_r.
  - eapply course_bind; [apply course_alloc|intros; walk|]. intros a.
    intros s r s' [Hs ->] Hrun Hfin. cbn [app] in Hok.
    destruct (index_user P u (us ++ rest)%list ix Hok Hix) as (ix' & E & Hix').
    rewrite liftR_bind, E in Hrun. rewrite (app_assoc P [u] us : (P ++ u :: us)%list = _).
    by apply (IH (P ++ [u])%list ix' ltac:(by rewrite <- app_assoc) Hix' s r s').
Qed.

Lemma course_list_page D P rest ix c :
  directory_ok D -> D = (P ++ rest)%list -> rest <> [] -> indexed P ix ->
  let i := (1 + Z.of_nat (length P))%Z in
  course (holds D P c) (list_page hd (page_url i) i (Z.of_nat (length D)) ix) (fun p s =>
    exists us rest', D = (P ++ us ++ rest')%list /\ us <> [] /\ holds D (P ++ us)%list c s /\ indexed (P ++ us)%list p.1.1 /\
      p.1.2 = match rest' with [] => None | _ => Some (page_url (1 + Z.of_nat (length (P ++ us)%list))) end /\
      p.2 = Z.of_nat (length us)).
Proof.
  intros Hok HD Hrest Hix i. unfold list_page.
  assert (1 <= i <= Z.max 1 (Z.of_nat (length D)))%Z as Hi.
  { unfold i. rewrite HD, length_app. destruct rest; [done|]. simpl. lia. }
  eapply course_bind; [apply (course_fetch D P c (page_url i) D (is_page D i)); [|done]|intros; walk|].
  { intros resp D' Hs. by apply (sv_page _ _ _ _ _ Hs i). }
  intros data. apply course_pull. intros Hpage.
  destruct (page_read D i data (Some (Z.of_nat (length D))) Hpage Hi) as (us & rest' & Hdrop & Hmore & Hv & Hnext & _); [by right|].
  assert (rest = (us ++ rest')%list) as ->.
  { rewrite <- Hdrop, HD. replace (Z.to_nat (i - 1)) with (length P) by lia. by rewrite drop_app_length. }
  eapply course_lift; [exact Hv|].
  eapply course_bind; [apply (course_index_users D P us rest'); [by rewrite <- HD|exact Hix]|intros; walk|].
  intros ix'. apply course_pull. intros Hix'.
  eapply course_lift; [exact Hnext|]. apply course_ret. intros s Hs. exists us, rest'. cbn.
  split_and!; [done|by intros ->; rewrite (Hmore eq_refl) in Hrest|done|done| |done].
  rewrite length_app. unfold i. by replace (1 + Z.of_nat (length P) + Z.of_nat (length us))%Z
    with (1 + Z.of_nat (length P + length us))%Z by lia.
Qed.

Lemma course_list_pages fuel D P rest ix c :
  directory_ok D -> D = (P ++ rest)%list -> indexed P ix -> (length rest <= fuel)%nat ->
  let i := (1 + Z.of_nat (length P))%Z in
  course (holds D P c)
    (list_pages fuel hd (match rest with [] => None | _ => Some (page_url i) end) i (Z.of_nat (length D)) ix)
    (fun ix' s => holds D D c s /\ indexed D ix').
Proof.
  revert P rest ix. induction fuel as [|fuel IH]; intros P rest ix Hok HD Hix Hf i.
  all: destruct (decide (rest = [])) as [->|Hne]; [rewrite app_nil_r in HD; subst P; by apply course_ret|].
  - destruct rest; [done|simpl in Hf; lia].
  - replace (match rest with [] => None | _ => Some (page_url i) end) with (Some (page_url i)) by (by destruct rest).
    cbn [list_pages]. eapply course_bind; [by apply (course_list_page D P rest)|intros [[? ?] ?]; walk|].
    intros [[ix' next] n] s r s' (us & rest' & HD' & Hus & Hs & Hix' & Hn & Hn') Hrun Hfin. cbn [fst snd] in *. subst next n.
    assert (length rest = length us + length rest')%nat as Hlen.
    { rewrite HD in HD' at 1. apply app_inv_head in HD' as ->. apply length_app. }
    replace (i + Z.of_nat (length us))%Z with (1 + Z.of_nat (length (P ++ us)%list))%Z in Hrun by (rewrite length_app; lia).
    apply (IH (P ++ us)%list rest' ix' Hok) with (s := s); [by rewrite <- app_assoc|done| |done..].
    destruct us; [done|simpl in Hlen; lia].
Qed.

(** The listing is the directory. *)
Lemma course_get_existing D c : directory_ok D ->
  course (holds D [] c) (_get_existing_users hd) (fun ix s => holds D D c s /\ indexed D ix).
Proof.
  intros Hok. unfold _get_existing_users.
  eapply course_bind; [apply (course_fetch D [] c (page_url 1) D (is_page D 1)); [|done]|intros; walk|].
  { intros resp D' Hs. apply (sv_page _ _ _ _ _ Hs 1); [done|lia]. }
  intros data. apply course_pull. intros Hpage.
  destruct (page_read D 1 data None Hpage) as (us & rest & HD & _ & Hv & Hnext & Hsingle); [lia|by left|].
  cbn [Z.to_nat Z.sub] in HD. rewrite drop_0 in HD.
  eapply course_lift; [exact Hsingle|]. eapply course_lift; [exact Hv|].
  eapply course_bind; [apply (course_index_users D [] us rest no_indexes c); [by rewrite <- HD|apply indexed_nil]|intros; walk|].
  intros ix. apply course_pull. intros Hix. cbn [app] in *.
  eapply course_lift; [exact Hnext|].
  apply (course_list_pages (Z.to_nat (Z.of_nat (length D))) D us rest ix c Hok HD Hix).
  rewrite HD, length_app. lia.
Qed.

Lemma course_listing D c us : directory_ok D ->
  course (holds D [] c) (sync_listing hd us) (fun p s => holds D D c s /\ indexed D p.1 /\ p.2 = false).
Proof.
  intros Hok. unfold sync_listing. apply course_catch; [|intros e k Hk; destruct e; try done; injection Hk as <-; walk].
  eapply course_bind; [by apply course_get_existing|intros; walk|]. intros ix. by apply course_ret; intros s [? ?].
Qed.
End listing.
