(* ===== verification/AppleConverge.v ===== *)
(** * Synchronisations converge ([app/scim/apple.py])

    A whole synchronisation against a directory that does its part
    ([AppleDirectory]): it succeeds for every user, afterwards the directory
    agrees with the source in everything the configured mode covers, other
    accounts are as they were, and the next synchronisation only reads. *)
From Stdlib Require Import ZArith Lia Ascii String.
From stdpp Require Import base option list strings sets.
From S2P Require Import Prelude PyStr PyVal Config World AppleScim AppleWalk AppleScimLogic AppleScimSpec AppleUpdate AppleDirectory.

Open Scope string_scope.

(** A source user fit to become an account. *)
Record source_user (u : dict) : Prop := {
  su_source : source_ok u;
  su_username : nonblank (dget "userName" u) = true;
  su_named : named u;
}.

Section converge.
Variable settings : Settings.

(** The account with the user's userName, if any, is the user's to take: it
    carries the user's externalId, or none does, it has none itself, and
    recovery by userName is enabled. *)
Definition claimable (D : directory) (u : dict) : Prop :=
  forall b, b ∈ D -> username_of b = username_of u ->
    external_id_of b = external_id_of u \/
    (external_id_of b = "" /\ apple_scim_allow_username_recovery settings = true /\
     forall a, a ∈ D -> external_id_of a <> external_id_of u).

(** The user's account is in step, and nobody else has its userName. *)
Definition in_step (D : directory) (u : dict) : Prop :=
  exists X d, X ∈ D /\ external_id_of X = external_id_of u /\ _field_diffs X u true = Ok d /\
    any_diff (_actionable_diffs d (apple_scim_update_mode settings)) = false /\
    forall b, b ∈ D -> username_of b = username_of u -> account_id b = account_id X.

(** What the indexes say of a user still holds for the directory. *)
Record sees (ix : Indexes) (h : list dict) (D : directory) (u : dict) : Prop := {
  se_ext a : ilookup (external_id_of u) (by_ext_id ix) = Some a ->
    (a < length h)%nat /\ heap_get a h ∈ D /\ external_id_of (heap_get a h) = external_id_of u;
  se_no_ext : ilookup (external_id_of u) (by_ext_id ix) = None ->
    forall a, a ∈ D -> external_id_of a <> external_id_of u;
  se_name a : ilookup (username_of u) (by_username ix) = Some a ->
    (a < length h)%nat /\ heap_get a h ∈ D /\ username_of (heap_get a h) = username_of u;
  se_no_name : ilookup (username_of u) (by_username ix) = None ->
    forall a, a ∈ D -> username_of a <> username_of u;
}.

(** ** One user's turn

    [touches u D D' X]: the directory changed for [u] only, whose account is
    now [X]. *)
Record touches (u : dict) (D D' : directory) (X : dict) : Prop := {
  tc_mem b : b ∈ D' <-> (b ∈ D /\ account_id b <> account_id X) \/ b = X;
  tc_ids : NoDup (map account_id D');
  tc_ok : account_ok X;
  tc_ext : external_id_of X = external_id_of u;
  tc_name : username_of X = username_of u \/ exists b, b ∈ D /\ account_id b = account_id X /\ username_of b = username_of X;
  tc_old b : b ∈ D -> account_id b = account_id X ->
    external_id_of b = external_id_of u \/ (external_id_of b = "" /\ username_of b = username_of u);
  tc_mine b : b ∈ D -> external_id_of b = external_id_of u \/ username_of b = username_of u -> account_id b = account_id X;
}.

(** Only the record of the account is rewritten. *)
Definition rewrites (X : dict) (h h' : list dict) : Prop :=
  length h' = length h /\ forall a, heap_get a h' <> heap_get a h -> account_id (heap_get a h) = account_id X.

Lemma source_ext_nonempty u : source_user u -> external_id_of u <> "".
Proof. intros [Hu _ _]. by apply source_external in Hu as [_ ?]. Qed.

Section turn.
Context (u X : dict) (D D' : directory).
Hypothesis HD : directory_ok D.
Hypothesis Ht : touches u D D' X.
Hypothesis Hu : source_user u.

Lemma touches_directory_ok : directory_ok D'.
Proof.
  pose proof (source_ext_nonempty u Hu) as Hne. destruct Ht as [Hmem Hids Hok Hext Hname Hold Hmine].
  assert (forall b, b ∈ D -> username_of b = username_of X -> account_id b = account_id X) as Hn.
  { intros b Hb E. destruct Hname as [E'|(c & Hc & Hid & E')]; [apply Hmine; [done|right; congruence]|].
    rewrite <- Hid. apply (dk_names D HD); [done..|congruence]. }
  assert (forall b, b ∈ D -> external_id_of b = external_id_of X -> account_id b = account_id X) as He
    by (intros b Hb E; apply Hmine; [done|left; congruence]).
  split.
  - intros d [[Hd _]| ->]%Hmem; [by apply (dk_accounts D HD)|done].
  - exact Hids.
  - intros a b [[Ha _]| ->]%Hmem [[Hb _]| ->]%Hmem E; [by apply (dk_names D HD)|by apply Hn|symmetry; by apply Hn|done].
  - intros a b [[Ha _]| ->]%Hmem [[Hb _]| ->]%Hmem E Hx; [by apply (dk_exts D HD)|by apply He|symmetry; by apply He|done].
Qed.

Section other.
Context (v : dict).
Hypothesis Hv : source_user v.
Hypothesis Hext_ne : external_id_of v <> external_id_of u.
Hypothesis Hname_ne : username_of v <> username_of u.

(** An account of another user is not the one that was touched. *)
Lemma other_by_ext b : b ∈ D -> external_id_of b = external_id_of v -> account_id b <> account_id X.
Proof.
  intros Hb E Hid. pose proof (source_ext_nonempty v Hv). destruct (tc_old _ _ _ _ Ht b Hb Hid) as [?|[? _]]; congruence.
Qed.

Lemma other_by_name b : claimable D v -> b ∈ D -> username_of b = username_of v -> account_id b <> account_id X.
Proof.
  intros Hc Hb E Hid. pose proof (source_ext_nonempty u Hu). destruct (Hc b Hb E) as [E'|(E' & _)].
  - by eapply other_by_ext.
  - destruct (tc_old _ _ _ _ Ht b Hb Hid) as [?|[_ ?]]; congruence.
Qed.

Lemma touched_name_ne : claimable D v -> username_of X <> username_of v.
Proof.
  intros Hc E. destruct (tc_name _ _ _ _ Ht) as [E'|(b & Hb & Hid & E')]; [congruence|].
  apply (other_by_name b Hc Hb); congruence.
Qed.

Lemma claimable_after : claimable D v -> claimable D' v.
Proof.
  intros Hc b [[Hb _]| ->]%(tc_mem _ _ _ _ Ht) E; [|by destruct (touched_name_ne Hc)].
  destruct (Hc b Hb E) as [|(Hn & Hr & Hnone)]; [by left|]. right. split_and!; [done..|].
  intros a [[Ha _]| ->]%(tc_mem _ _ _ _ Ht); [by apply Hnone|]. rewrite (tc_ext _ _ _ _ Ht). congruence.
Qed.

Lemma in_step_after : in_step D v -> in_step D' v.
Proof.
  intros (Y & d & HY & Hext & Hd & Hnone & Hname). pose proof (other_by_ext Y HY Hext) as HYX.
  exists Y, d. split; [apply (tc_mem _ _ _ _ Ht); by left|]. split_and!; [done..|].
  intros b [[Hb _]| ->]%(tc_mem _ _ _ _ Ht) E; [by apply Hname|].
  destruct (tc_name _ _ _ _ Ht) as [E'|(c & Hc & Hid & E')]; [congruence|].
  destruct HYX. rewrite <- Hid. symmetry. apply Hname; [done|congruence].
Qed.

Lemma sees_after ix h h' : claimable D v -> rewrites X h h' -> sees ix h D v -> sees ix h' D' v.
Proof.
  intros Hc [Hlen Hh] [S1 S2 S3 S4].
  assert (forall a, heap_get a h ∈ D -> account_id (heap_get a h) <> account_id X ->
    heap_get a h' = heap_get a h /\ heap_get a h' ∈ D') as Hkept.
  { intros a Ha Hid. destruct (decide (heap_get a h' = heap_get a h)) as [->|Hne]; [|by destruct Hid; apply Hh].
    split; [done|]. apply (tc_mem _ _ _ _ Ht). by left. }
  split.
  - intros a (Hl & Ha & E)%S1. destruct (Hkept a Ha (other_by_ext _ Ha E)) as [-> ?]. by rewrite Hlen.
  - intros Hn a [[Ha _]| ->]%(tc_mem _ _ _ _ Ht); [by apply S2|]. rewrite (tc_ext _ _ _ _ Ht). congruence.
  - intros a (Hl & Ha & E)%S3. destruct (Hkept a Ha (other_by_name _ Hc Ha E)) as [-> ?]. by rewrite Hlen.
  - intros Hn a [[Ha _]| ->]%(tc_mem _ _ _ _ Ht); [by apply S4|]. by apply touched_name_ne.
Qed.
End other.

(** The user's own account, once it is in step. *)
Lemma in_step_own d : _field_diffs X u true = Ok d ->
  any_diff (_actionable_diffs d (apple_scim_update_mode settings)) = false -> in_step D' u.
Proof.
  intros Hd Hn. exists X, d. split; [apply (tc_mem _ _ _ _ Ht); by right|]. split; [apply Ht|]. split_and!; [done..|].
  intros b [[Hb _]| ->]%(tc_mem _ _ _ _ Ht) E; [|done]. apply (tc_mine _ _ _ _ Ht); [done|by right].
Qed.
End turn.

(** The user may now be told from its account alone. *)
Lemma claimable_own u X D D' : touches u D D' X -> claimable D' u.
Proof.
  intros Ht b [[Hb Hid]| ->]%(tc_mem _ _ _ _ Ht) E; left; [|apply Ht].
  by destruct Hid; apply (tc_mine _ _ _ _ Ht); [|right].
Qed.

(** A repair and then an update. *)
Lemma touches_trans u X X' D D1 D2 :
  touches u D D1 X -> touches u D1 D2 X' -> account_id X' = account_id X -> touches u D D2 X'.
Proof.
  intros [M1 _ _ _ N1 O1 I1] [M2 Hids Hok He N2 _ _] Eid. split; try done.
  - intros b. rewrite M2, M1, Eid. split; [|tauto].
    intros [[[?| ->] Hne]|?]; [by left|by destruct Hne|by right].
  - destruct N2 as [|(b & [[Hb Hid]| ->]%M1 & Hb' & En)]; [by left|by destruct Hid; congruence|].
    rewrite <- En, Eid. destruct N1 as [|(c & ? & ? & ?)]; [by left|right; by exists c].
  - intros b. rewrite Eid. apply O1.
  - intros b. rewrite Eid. apply I1.
Qed.

Lemma elem_store X D b : b ∈ store X D <->
  (b ∈ D /\ account_id b <> account_id X) \/ (b = X /\ exists a, a ∈ D /\ account_id a = account_id X).
Proof.
  unfold store. rewrite list_elem_of_In, in_map_iff. setoid_rewrite <- list_elem_of_In. split.
  - intros (a & <- & Ha). destruct (String.eqb_spec (account_id a) (account_id X)); [right; eauto|by left].
  - intros [[Hb Hid]|(-> & a & Ha & E)].
    + exists b. by destruct (String.eqb_spec (account_id b) (account_id X)).
    + exists a. rewrite E, String.eqb_refl. done.
Qed.

Lemma store_ids X D : map account_id (store X D) = map account_id D.
Proof.
  unfold store. rewrite map_map. apply map_ext. intros a. by destruct (String.eqb_spec (account_id a) (account_id X)).
Qed.

(** The user's account is the one with its externalId, or one it may take. *)
Definition account_for (D : directory) (u X : dict) : Prop :=
  external_id_of X = external_id_of u \/
  (external_id_of X = "" /\ username_of X = username_of u /\ forall a, a ∈ D -> external_id_of a <> external_id_of u).

Lemma account_for_only D u X b : directory_ok D -> source_user u -> claimable D u -> X ∈ D -> account_for D u X ->
  b ∈ D -> external_id_of b = external_id_of u \/ username_of b = username_of u -> account_id b = account_id X.
Proof.
  intros HD Hu Hc HX HXu Hb Hor. pose proof (source_ext_nonempty u Hu) as Hne.
  assert (external_id_of b = external_id_of u -> account_id b = account_id X) as He.
  { intros E. destruct HXu as [E'|(_ & _ & Hnone)]; [|by destruct (Hnone b Hb)]. apply (dk_exts D HD); congruence. }
  destruct Hor as [|E]; [by apply He|]. destruct (Hc b Hb E) as [|(_ & _ & Hnone)]; [by apply He|].
  destruct HXu as [E'|(_ & E' & _)]; [by destruct (Hnone X HX)|]. apply (dk_names D HD); congruence.
Qed.

Lemma touches_store D u X X' : directory_ok D -> source_user u -> claimable D u -> X ∈ D -> account_for D u X ->
  account_id X' = account_id X -> account_ok X' -> external_id_of X' = external_id_of u ->
  username_of X' = username_of u \/ username_of X' = username_of X -> touches u D (store X' D) X'.
Proof.
  intros HD Hu Hc HX HXu Eid Hok Hext Hname. split; try done.
  - intros b. rewrite elem_store. split; [tauto|]. intros [|E]; [by left|right; split; [done|by exists X]].
  - rewrite store_ids. apply HD.
  - destruct Hname as [|E]; [by left|right; by exists X].
  - intros b Hb E. assert (b = X) as -> by (apply (same_account D); congruence).
    destruct HXu as [|(? & ? & _)]; [by left|by right].
  - intros b Hb Hor. rewrite Eid. by apply (account_for_only D u X).
Qed.

Lemma touches_same D u X : directory_ok D -> source_user u -> claimable D u -> X ∈ D ->
  external_id_of X = external_id_of u -> touches u D D X.
Proof.
  intros HD Hu Hc HX Hext. assert (store X D = D) as E.
  { unfold store. rewrite <- (map_id D) at 2. apply map_ext_in. intros a Ha%list_elem_of_In.
    destruct (String.eqb_spec (account_id a) (account_id X)); [|done]. by apply (same_account D). }
  rewrite <- E at 2. apply touches_store with X; try done; [by left|by apply (dk_accounts D HD)|by right].
Qed.

Lemma touches_create D u id : directory_ok D -> source_user u ->
  (forall d, d ∈ D -> username_of d <> username_of u /\ external_id_of d <> external_id_of u) ->
  _is_safe_user_id (JStr id) = true -> id ∉ map account_id D ->
  touches u D (D ++ [dset "id" (JStr id) u])%list (dset "id" (JStr id) u).
Proof.
  intros HD Hu Hnone Hsafe Hfresh. set (X := dset "id" (JStr id) u).
  assert (forall k, k <> "id" -> dlookup k X = dlookup k u) as Hk by (intros k Hne; unfold X; by rewrite dlookup_dset_ne).
  assert (dget "id" X = JStr id) as Eid by (unfold dget, dget_default, X; by rewrite dlookup_dset_eq).
  assert (account_id X = id) as Hid by (unfold account_id; by rewrite Eid).
  assert (forall b, b ∈ D -> account_id b <> account_id X) as Hne.
  { intros b Hb E. apply Hfresh. rewrite <- Hid, <- E. by apply list_elem_of_In, in_map, list_elem_of_In. }
  split.
  - intros b. rewrite elem_of_app, list_elem_of_singleton. naive_solver.
  - rewrite map_app. apply NoDup_app. split; [apply HD|]. split; [|apply NoDup_singleton].
    intros x Hx Hin. cbn [map] in Hin. apply list_elem_of_singleton in Hin. congruence.
  - destruct Hu as [_ Hnb Hn]. split; [by rewrite Eid|..]; unfold named, dget, dget_default in *; by rewrite Hk.
  - unfold external_id_of, dget, dget_default. by rewrite Hk.
  - left. unfold username_of, dget, dget_default. by rewrite Hk.
  - intros b Hb E. by destruct (Hne b Hb).
  - intros b Hb [E|E]; by destruct (Hnone b Hb).
Qed.

(** ** Updates *)

Definition mode : string := apple_scim_update_mode settings.

Lemma unequal_ext a b : unequal a b "externalId" = negb (String.eqb (external_id_of a) (external_id_of b)).
Proof. done. Qed.
Lemma unequal_name a b : unequal a b "userName" = negb (String.eqb (username_of a) (username_of b)).
Proof. done. Qed.

Lemma view_ext a b : view "externalId" a = view "externalId" b -> external_id_of a = external_id_of b.
Proof. unfold view, external_id_of. cbn -[dget]. by intros ->. Qed.
Lemma view_username a b : view "userName" a = view "userName" b -> dget "userName" a = dget "userName" b.
Proof. done. Qed.

Lemma settles_ext u X X' incl : settles X u mode incl X' -> external_id_of X = external_id_of u ->
  external_id_of X' = external_id_of u.
Proof.
  intros Hs Hext. destruct (st_view _ _ _ _ _ Hs "externalId") as [E|E].
  - unfold synced_keys. simpl. repeat constructor.
  - rewrite unequal_ext in E. by bool_hyps.
  - rewrite <- Hext. by apply view_ext.
Qed.

Lemma settles_touches D u X X' incl : directory_ok D -> source_user u -> claimable D u -> X ∈ D ->
  external_id_of X = external_id_of u -> settles X u mode incl X' ->
  touches u D (store X' D) X' /\ account_id X' = account_id X.
Proof.
  intros HD Hu Hc HX Hext Hs. pose proof (dk_accounts D HD X HX) as HXok.
  pose proof (st_id _ _ _ _ _ Hs _ (account_lookup X HXok)) as Eid. apply dget_lookup in Eid.
  assert (account_id X' = account_id X) as Hid by (unfold account_id at 1; by rewrite Eid). split; [|done].
  apply touches_store with X; try done; [by left| |by eapply settles_ext|].
  - split; [|destruct (st_username _ _ _ _ _ Hs) as [->%view_username| ->%view_username]; [apply Hu|apply HXok]|apply Hs].
    rewrite Eid, <- (account_id_eq X HXok). apply HXok.
  - unfold username_of. destruct (st_username _ _ _ _ _ Hs) as [->%view_username| ->%view_username]; [by left|by right].
Qed.

(** Nothing in scope is left. *)
Definition quiet (X u : dict) : Prop :=
  exists d, _field_diffs X u true = Ok d /\ any_diff (_actionable_diffs d mode) = false.

Lemma quiet_table X u : named X -> named u ->
  (forall key, key ∈ diff_keys true -> key ∈ allowed_keys mode -> unequal X u key = false) -> quiet X u.
Proof.
  intros HX Hu Hall. exists (table (unequal X u) (diff_keys true)). split; [by apply field_diffs_spec|].
  by apply actionable_none.
Qed.

Lemma diff_keys_cases incl key : key ∈ diff_keys true -> key ∈ diff_keys incl \/ key = "externalId".
Proof. destruct incl; [by left|]. unfold diff_keys. rewrite app_nil_r, elem_of_app, list_elem_of_singleton. tauto. Qed.

(** No difference in scope, of those that are compared. *)
Lemma quiet_unchanged X u incl : named X -> named u -> external_id_of X = external_id_of u ->
  any_diff (_actionable_diffs (table (unequal X u) (diff_keys incl)) mode) = false -> quiet X u.
Proof.
  intros HX Hu Hext Hn. apply quiet_table; [done..|]. intros key [Hk| ->]%(diff_keys_cases incl) Ha.
  - by apply (proj1 (actionable_none (unequal X u) incl mode) Hn).
  - by rewrite unequal_ext, Hext, String.eqb_refl.
Qed.

Lemma quiet_settled X X' u incl : settles X u mode incl X' -> named u -> external_id_of X = external_id_of u -> quiet X' u.
Proof.
  intros Hs Hu Hext. apply quiet_table; [apply Hs|done|]. intros key [Hk| ->]%(diff_keys_cases incl) Ha.
  - destruct (unequal X' u key) eqn:E; [|done]. by destruct (st_left _ _ _ _ _ Hs key Hk E).
  - by rewrite unequal_ext, (settles_ext u X X' incl), String.eqb_refl.
Qed.

(** ** Running *)

Section run.
Context `{Env} (hd : list (string * string)) (final : list event) (last : directory).
Notation holds := (holds hd final last).
Notation course := (course final).

(** A turn that goes well. *)
Definition same_trouble (c c' : SyncResult) : Prop := errors c' = errors c /\ conflicts c' = conflicts c.

Record turn (u : dict) (D : directory) (h : list dict) (c : SyncResult) (X : dict) (s : Scim) : Prop := {
  tn_touches : exists D' c', touches u D D' X /\ holds D' h c' s /\ same_trouble c c';
  tn_quiet : quiet X u;
}.

Lemma course_patch u D h c a X incl : directory_ok D -> source_user u -> claimable D u ->
  heap_get a h = X -> X ∈ D -> external_id_of X = external_id_of u ->
  any_diff (_actionable_diffs (table (unequal X u) (diff_keys incl)) mode) = true ->
  course (holds D h c) (_patch_user settings hd a u (_actionable_diffs (table (unequal X u) (diff_keys incl)) mode))
    (fun _ s => exists X', account_id X' = account_id X /\ turn u D h c X' s).
Proof.
  intros HD Hu Hc Ha HX Hext Hany. pose proof (dk_accounts D HD X HX) as HXok. unfold _patch_user.
  eapply course_bind; [apply course_deref|intros; walk|]. intros current. apply course_pull. rewrite Ha. intros ->.
  eapply course_lift; [unfold id_of; by rewrite (account_lookup X HXok)|].
  destruct (update_settles X u mode (account_id X) incl) as (method & body & paths & Hb & Hmethod & Hs);
    [apply HXok|apply Hu|by apply account_lookup|done|by rewrite unequal_ext, Hext, String.eqb_refl|].
  eapply course_lift; [exact Hb|]. set (X' := apply_request X method body) in *.
  destruct (settles_touches D u X X' incl HD Hu Hc HX Hext Hs) as [Ht Hid].
  eapply course_bind; [apply course_http|intros; walk|]. intros resp s r s' (D' & Hserves & Hh).
  destruct (sv_update _ _ _ _ _ Hserves X method body HX Hmethod eq_refl) as [-> ->].
  { by apply (touches_directory_ok u X' D). }
  intros Hrun Hfin. destruct (course_record hd final last _ _ _ inc_updated s r s' Hh Hrun Hfin) as ([] & -> & Hs').
  exists tt. split; [done|]. exists X'. split; [done|]. split; [|by apply (quiet_settled X X' u incl); [|apply Hu|]].
  exists (store X' D), (inc_updated c). done.
Qed.

Lemma course_apply u D h c a X incl tried : directory_ok D -> source_user u -> claimable D u ->
  heap_get a h = X -> X ∈ D -> external_id_of X = external_id_of u ->
  course (holds D h c) (apply_diffs settings hd a u (table (unequal X u) (diff_keys incl)) tried)
    (fun _ s => exists X', account_id X' = account_id X /\ turn u D h c X' s).
Proof.
  intros HD Hu Hc Ha HX Hext. pose proof (dk_accounts D HD X HX) as HXok. unfold apply_diffs. cbv zeta.
  eapply course_bind with (mid := fun _ s => exists c', holds D h c' s /\ same_trouble c c');
    [|intros; walk|].
  { destruct (existsb _ _).
    - eapply course_conseq; [apply course_record|done|]. intros [] s Hs. by eexists.
    - apply course_ret. intros s Hs. by eexists. }
  intros [] s r s' (c1 & Hh & Htr) Hrun Hfin. fold mode in Hrun.
  assert (forall c2, holds D h c2 s' -> same_trouble c c2 -> r = Ok tt ->
    any_diff (_actionable_diffs (table (unequal X u) (diff_keys incl)) mode) = false ->
    exists a0, r = Ok a0 /\ exists X', account_id X' = account_id X /\ turn u D h c X' s') as Hsame.
  { intros c2 Hh2 Htr2 -> Hn. exists tt. split; [done|]. exists X. split; [done|].
    split; [|by apply (quiet_unchanged X u incl); [apply HXok|apply Hu|..]].
    exists D, c2. split; [by apply touches_same|done]. }
  destruct (any_diff _) eqn:Hany.
  - destruct (course_patch u D h c1 a X incl HD Hu Hc Ha HX Hext Hany s r s' Hh Hrun Hfin)
      as ([] & -> & X' & Hid & [(D' & c' & Ht & Hh' & Htr') Hq]).
    exists tt. split; [done|]. exists X'. split; [done|]. split; [|done]. exists D', c'. split_and!; [done..|].
    unfold same_trouble in *. intuition congruence.
  - destruct tried; cbn [negb] in Hrun.
    + injection Hrun as <- <-. by apply (Hsame c1).
    + destruct (course_record hd final last _ _ _ inc_unchanged s r s' Hh Hrun Hfin) as ([] & -> & Hs').
      by apply (Hsame _ Hs').
Qed.

(** *** The externalId repair *)

Definition repaired (u X : dict) : dict := apply_request X "PATCH" (repair_body (external_id_of u)).

Lemma repaired_lookup u X k : k <> "externalId" -> dlookup k (repaired u X) = dlookup k X.
Proof. intros Hk. exact (dlookup_dset_ne "externalId" k _ X (not_eq_sym Hk)). Qed.

Lemma repaired_ext u X : external_id_of (repaired u X) = external_id_of u.
Proof.
  unfold external_id_of at 1, dget, dget_default. change (repaired u X) with (dset "externalId" (JStr (external_id_of u)) X).
  rewrite dlookup_dset_eq. change (strip (str_or_empty (JStr (external_id_of u))) = external_id_of u).
  rewrite str_or_empty_str. apply strip_idem.
Qed.

Lemma repaired_id u X : account_id (repaired u X) = account_id X.
Proof. unfold account_id, dget, dget_default. by rewrite repaired_lookup. Qed.

Lemma repaired_name u X : username_of (repaired u X) = username_of X.
Proof. unfold username_of, dget, dget_default. by rewrite repaired_lookup. Qed.

Lemma repaired_ok u X : account_ok X -> account_ok (repaired u X).
Proof. intros [Hi Hn Hd]. split; unfold named, dget, dget_default in *; by rewrite repaired_lookup. Qed.

Lemma repaired_touches u X D : directory_ok D -> source_user u -> claimable D u -> X ∈ D -> account_for D u X ->
  touches u D (store (repaired u X) D) (repaired u X).
Proof.
  intros HD Hu Hc HX HXu. apply touches_store with X; try done;
    [apply repaired_id|by apply repaired_ok, (dk_accounts D HD)|apply repaired_ext|right; apply repaired_name].
Qed.

Lemma course_repair u D h c a X : directory_ok D -> source_user u -> claimable D u ->
  heap_get a h = X -> X ∈ D -> account_for D u X -> username_of X = username_of u ->
  course (holds D h c) (_patch_external_id hd a u) (fun ok s =>
    ok = true /\ holds (store (repaired u X) D) (<[a := repaired u X]> h) (inc_updated c) s).
Proof.
  intros HD Hu Hc Ha HX HXu Hname. pose proof (dk_accounts D HD X HX) as HXok.
  pose proof (repaired_touches u X D HD Hu Hc HX HXu) as Ht. unfold _patch_external_id.
  eapply course_bind; [apply course_deref|intros; walk|]. intros current. apply course_pull. rewrite Ha. intros ->.
  eapply course_lift; [unfold id_of; by rewrite (account_lookup X HXok)|]. cbv zeta.
  eapply course_bind; [apply course_http|intros; walk|]. intros resp s r s' (D1 & Hserves & Hh).
  destruct (sv_update _ _ _ _ _ Hserves X "PATCH" _ HX (or_introl eq_refl) eq_refl) as [-> ->];
    [by apply (touches_directory_ok u (repaired u X) D)|].
  clear Hserves. revert s r s' Hh. cbn [negb].
  eapply course_bind with (mid := fun v s => (exists resp', v = Some resp' /\ json_answer resp' (repaired u X)) /\
    holds (store (repaired u X) D) h c s); [|intros; walk|].
  { apply course_catch; [|intros e k Hk; destruct e; try done; injection Hk as <-; walk].
    eapply course_bind; [apply course_http|intros; walk|]. intros resp'. apply course_ret. intros s (D2 & Hserves & Hh).
    destruct (sv_user _ _ _ _ _ Hserves (repaired u X)) as [-> Hans]; [by apply (tc_mem _ _ _ _ Ht); right|by rewrite repaired_id|].
    split; [by exists resp'|done]. }
  intros v s r s' [(resp' & -> & Hst & Hj) Hh]. rewrite Hst, Hj. cbn [Z.eqb negb catch Pos.eqb]. rewrite liftR_bind. cbv iota.
  rewrite (account_id_eq _ (repaired_ok u X HXok)), repaired_id, repaired_ext, repaired_name, Hname.
  pose proof (ac_named _ (repaired_ok u X HXok)) as Hn. unfold named in Hn. rewrite Hn. cbn [py_eq]. rewrite !String.eqb_refl. cbn [negb orb].
  revert s r s' Hh. eapply course_bind; [apply course_overwrite|intros; walk|]. intros [].
  eapply course_bind; [apply course_record|intros; walk|]. intros []. by apply course_ret.
Qed.

(** *** Matched accounts *)

Definition turned (u : dict) (D : directory) (h : list dict) (c : SyncResult) (s : Scim) : Prop :=
  exists D' X h' c', holds D' h' c' s /\ touches u D D' X /\ rewrites X h h' /\ quiet X u /\ same_trouble c c'.

Lemma rewrites_refl X h : rewrites X h h.
Proof. split; [done|]. intros a Ha. by destruct Ha. Qed.

Lemma turn_turned u D h c X s : turn u D h c X s -> turned u D h c s.
Proof. intros [(D' & c' & Ht & Hh & Htr) Hq]. exists D', X, h, c'. split_and!; [done..|apply rewrites_refl|done|apply Htr]. Qed.

Lemma field_diffs_table X u incl : account_ok X -> source_user u ->
  _field_diffs X u incl = Ok (table (unequal X u) (diff_keys incl)).
Proof. intros HX Hu. apply field_diffs_spec. split; [apply HX|]. split; [apply Hu|done]. Qed.

(** Found by its externalId. *)
Lemma course_reconcile_linked u D h c a X : directory_ok D -> source_user u -> claimable D u ->
  heap_get a h = X -> X ∈ D -> external_id_of X = external_id_of u ->
  course (holds D h c) (_reconcile_diffs settings hd a u false) (fun _ => turned u D h c).
Proof.
  intros HD Hu Hc Ha HX Hext. unfold _reconcile_diffs.
  eapply course_bind; [apply course_deref|intros; walk|]. intros current. apply course_pull. rewrite Ha. intros ->.
  intros s r s' Hh. cbn [negb]. rewrite M_ret_bind. cbn [negb].
  rewrite liftR_bind, (field_diffs_table X u true) by (done || by apply (dk_accounts D HD)). cbn [andb]. intros Hrun Hfin.
  destruct (course_apply u D h c a X true false HD Hu Hc Ha HX Hext s r s' Hh Hrun Hfin) as (? & -> & X' & _ & Ht).
  eexists. split; [done|]. by eapply turn_turned.
Qed.

(** Found by its userName only. *)
Lemma course_reconcile_recovered u D h c a X : directory_ok D -> source_user u -> claimable D u ->
  apple_scim_allow_username_recovery settings = true -> (a < length h)%nat -> heap_get a h = X -> X ∈ D ->
  external_id_of X = "" -> username_of X = username_of u -> (forall b, b ∈ D -> external_id_of b <> external_id_of u) ->
  course (holds D h c) (_reconcile_diffs settings hd a u true) (fun _ => turned u D h c).
Proof.
  intros HD Hu Hc Hrec Hl Ha HX Hext Hname Hnone. pose proof (dk_accounts D HD X HX) as HXok.
  pose proof (source_ext_nonempty u Hu) as Hne. set (X1 := repaired u X).
  assert (account_for D u X) as HXu by (right; done).
  pose proof (repaired_touches u X D HD Hu Hc HX HXu) as Ht1. fold X1 in Ht1. unfold _reconcile_diffs.
  eapply course_bind; [apply course_deref|intros; walk|]. intros current. apply course_pull. rewrite Ha. intros ->.
  intros s r s' Hh. unfold _username_recovery_allowed, _can_recover_by_username. fold (external_id_of u).
  assert (str_true (external_id_of u) = true) as -> by (unfold str_true; by destruct (String.eqb_spec (external_id_of u) "")).
  rewrite Hext, Hrec. cbn [negb str_true String.eqb]. rewrite M_ret_bind. cbn [negb].
  rewrite liftR_bind, (field_diffs_table X u true) by done. rewrite diff_get_table, unequal_ext, Hext.
  replace (negb (String.eqb "" (external_id_of u))) with true by (by destruct (String.eqb_spec "" (external_id_of u)); [congruence|]).
  cbn [andb str_mem]. change (str_mem "externalId" (diff_keys true)) with true. cbn [andb]. revert s r s' Hh.
  eapply course_bind; [by apply (course_repair u D h c a X)|intros; walk|]. fold X1.
  intros ok s r s' [-> Hh]. cbn [negb]. revert s r s' Hh.
  eapply course_bind; [apply course_deref|intros; walk|]. intros current. apply course_pull.
  rewrite heap_get_insert_eq by done. intros ->. intros s r s' Hh.
  pose proof (touches_directory_ok u X1 D _ HD Ht1 Hu) as HD1.
  assert (X1 ∈ store X1 D) as HX1 by (apply (tc_mem _ _ _ _ Ht1); by right).
  rewrite liftR_bind, (field_diffs_table X1 u false) by (done || by apply repaired_ok). intros Hrun Hfin.
  destruct (course_apply u (store X1 D) _ _ a X1 false true HD1 Hu (claimable_own u X1 D _ Ht1)
      (heap_get_insert_eq a X1 h Hl) HX1 (repaired_ext u X) s r s' Hh Hrun Hfin)
    as (? & -> & X' & Hid & [(D' & c' & Ht & Hh' & Htr) Hq]).
  eexists. split; [done|]. exists D', X', (<[a:=X1]> h), c'. split; [done|].
  split; [by eapply touches_trans|]. split; [|done]. split; [by rewrite length_insert|].
  intros b Hb. destruct (decide (a = b)) as [<-|Hab]; [|by rewrite heap_get_insert_ne in Hb].
  rewrite Ha, Hid. symmetry. apply repaired_id.
Qed.

(** *** New accounts *)

Lemma course_create u D h c : directory_ok D -> source_user u ->
  (forall d, d ∈ D -> username_of d <> username_of u /\ external_id_of d <> external_id_of u) ->
  course (holds D h c) (_create_user settings hd u false) (fun _ => turned u D h c).
Proof.
  intros HD Hu Hnone. unfold _create_user. eapply course_bind; [apply course_http|intros; walk|].
  intros resp s r s' (D' & Hserves & Hh).
  destruct (sv_create _ _ _ _ _ Hserves u eq_refl) as (-> & id & -> & Hsafe & Hfresh); [apply Hu|apply Hu|done|].
  cbn -[record_result]. rewrite M_ret_bind. intros Hrun Hfin.
  destruct (course_record hd final last _ _ _ inc_created s r s' Hh Hrun Hfin) as ([] & -> & Hs').
  exists tt. split; [done|]. exists (D ++ [dset "id" (JStr id) u])%list, (dset "id" (JStr id) u), h, (inc_created c).
  split; [done|]. split; [by apply touches_create|]. split; [apply rewrites_refl|]. split; [|done].
  destruct (created_in_step u id (su_named u Hu)) as (d & Hd & Hn). exists d. split; [done|].
  unfold any_diff in *. apply not_true_iff_false. intros (kv & Hin & Hkv)%existsb_exists. unfold _actionable_diffs in Hin.
  apply filter_In in Hin as [Hin _]. apply not_true_iff_false in Hn. apply Hn, existsb_exists. eauto.
Qed.

(** *** One user *)

Lemma course_sync_user u D h c ix : directory_ok D -> source_user u -> claimable D u -> sees ix h D u ->
  course (holds D h c) (sync_user settings hd ix false u) (fun _ => turned u D h c).
Proof.
  intros HD Hu Hc [S1 S2 S3 S4]. pose proof (source_ext_nonempty u Hu) as Hne.
  destruct (source_external u (su_source u Hu)) as [Eext _]. intros s r s' Hh. unfold sync_user, _match_apple_user.
  assert (forall m : M Scim unit, course (holds D h c) m (fun _ => turned u D h c) ->
    catchM m (fun e => match e with HTTPError => Some (record_result inc_errors) | _ => None end) s = (r, s') ->
    w_trace (sc_world s') `prefix_of` final -> exists a, r = Ok a /\ turned u D h c s') as Hcatch.
  { intros m Hm. apply (course_catch final _ _ _ _ Hm); [|exact Hh].
    intros e k Hk. destruct e; try done. injection Hk as <-. walk. }
  unfold mbind at 1, M_bind at 1. rewrite liftR_bind, Eext. cbv zeta.
  destruct (ilookup (external_id_of u) (by_ext_id ix)) as [a|] eqn:Ea.
  - destruct (S1 a eq_refl) as (Hl & HX & Hext).
    assert (course (holds D h c) (_reconcile_diffs settings hd a u false) (fun _ => turned u D h c)) as Hrec
      by by apply (course_reconcile_linked u D h c a (heap_get a h)).
    destruct (ilookup (username_of u) (by_username ix)) as [b|] eqn:Eb; [|by apply Hcatch].
    destruct (S3 b eq_refl) as (_ & HY & Hname). pose proof Hh as (_ & Eh & _).
    unfold mbind, M_bind, deref, liftR. rewrite Eh.
    rewrite !account_lookup by by apply (dk_accounts D HD).
    assert (account_id (heap_get b h) = account_id (heap_get a h)) as ->.
    { apply (account_for_only D u); try done; [by left|by right]. }
    cbn [py_eq]. rewrite String.eqb_refl. cbn [negb]. by apply Hcatch.
  - destruct (ilookup (username_of u) (by_username ix)) as [b|] eqn:Eb.
    + destruct (S3 b eq_refl) as (Hl & HY & Hname). pose proof Hh as (_ & Eh & _).
      destruct (Hc _ HY Hname) as [E|(Hempty & Hrec & Hnone)]; [by destruct (S2 eq_refl _ HY)|].
      unfold mbind, M_bind, deref. rewrite Eh.
      assert (truthy (JObj (heap_get b h)) = true) as ->.
      { pose proof (account_lookup _ (dk_accounts D HD _ HY)) as E. by destruct (heap_get b h). }
      apply Hcatch. by apply (course_reconcile_recovered u D h c b (heap_get b h)).
    + apply Hcatch, course_create; [done..|]. intros d Hd. split; [by apply S4|by apply S2].
Qed.
End run.
End converge.

(** ** Everyone's turn *)

Section all.
Context `{Env} (settings : Settings) (hd : list (string * string)) (final : list event) (last : directory).
Notation holds := (holds hd final last).

Definition apart (u v : dict) : Prop := external_id_of u <> external_id_of v /\ username_of u <> username_of v.

Definition all_apart (us : list dict) : Prop := NoDup (map external_id_of us) /\ NoDup (map username_of us).

Lemma nodup_other {A B} (f : A -> B) l1 x l2 y : NoDup (map f (l1 ++ x :: l2)%list) -> y ∈ (l1 ++ l2)%list -> f y <> f x.
Proof.
  rewrite map_app. cbn [map]. intros Hnd%NoDup_app Hy E. destruct Hnd as (_ & Hdisj & [Hx _]%NoDup_cons).
  apply elem_of_app in Hy as [Hy|Hy]; apply list_elem_of_In, (in_map f), list_elem_of_In in Hy.
  - apply (Hdisj _ Hy). rewrite E. by left.
  - by rewrite E in Hy.
Qed.

Lemma apart_other l1 u l2 v : all_apart (l1 ++ u :: l2)%list -> v ∈ (l1 ++ l2)%list -> apart v u.
Proof. intros [He Hn] Hv. split; by eapply nodup_other. Qed.

Lemma turn_others u X D D' h h' ix finished todo :
  directory_ok D -> touches u D D' X -> rewrites X h h' -> Forall source_user (finished ++ u :: todo)%list ->
  all_apart (finished ++ u :: todo)%list -> Forall (claimable settings D) todo -> Forall (sees ix h D) todo ->
  Forall (in_step settings D) finished ->
  Forall (claimable settings D') todo /\ Forall (sees ix h' D') todo /\ Forall (in_step settings D') finished.
Proof.
  intros HD Ht Hr Hus Hap Hc Hs Hi. rewrite !Forall_forall in *.
  assert (source_user u) as Hu by (apply Hus; set_solver).
  split_and!; intros v Hv; (destruct (apart_other finished u todo v Hap) as [He Hn]; [set_solver|]);
    (assert (source_user v) as Hsv by (apply Hus; set_solver)).
  - by apply (claimable_after settings u X D D'); [..|apply Hc].
  - by apply (sees_after settings u X D D' Ht Hu v Hsv He Hn ix h h'); [apply Hc| |apply Hs].
  - by apply (in_step_after settings u X D D'); [..|apply Hi].
Qed.

Lemma course_sync_all ix finished todo D h c :
  directory_ok D -> Forall source_user (finished ++ todo)%list -> all_apart (finished ++ todo)%list ->
  Forall (claimable settings D) todo -> Forall (sees ix h D) todo -> Forall (in_step settings D) finished ->
  course final (holds D h c) (forM (sync_user settings hd ix false) todo) (fun _ s =>
    exists D' h' c', holds D' h' c' s /\ directory_ok D' /\ Forall (in_step settings D') (finished ++ todo)%list /\
      same_trouble c c' /\ forall b, b ∈ D -> Forall (apart b) todo -> b ∈ D').
Proof.
  revert finished D h c. induction todo as [|u todo IH]; intros finished D h c HD Hus Hap Hc Hs Hi; cbn [forM].
  { apply course_ret. intros s Hh. exists D, h, c. rewrite app_nil_r. by split_and!. }
  apply Forall_cons in Hc as [Hcu Hc]. apply Forall_cons in Hs as [Hsu Hs].
  assert (source_user u) as Hu by (rewrite Forall_forall in Hus; apply Hus; set_solver).
  eapply course_bind; [by apply course_sync_user|intros; walk|].
  intros [] s r s' (D1 & X & h1 & c1 & Hh & Ht & Hr & Hq & Htr) Hrun Hfin.
  destruct (turn_others u X D D1 h h1 ix finished todo HD Ht Hr Hus Hap Hc Hs Hi) as (Hc1 & Hs1 & Hi1).
  replace (finished ++ u :: todo)%list with ((finished ++ [u]) ++ todo)%list in * by (by rewrite <- app_assoc).
  assert (Forall (in_step settings D1) (finished ++ [u])%list) as Hi2.
  { apply Forall_app. split; [done|]. apply Forall_singleton. destruct Hq as (d & Hd & Hn).
    by apply (in_step_own settings u X D D1 Ht d). }
  destruct (IH (finished ++ [u])%list D1 h1 c1 (touches_directory_ok u X D D1 HD Ht Hu) Hus Hap Hc1 Hs1 Hi2
    s r s' Hh Hrun Hfin) as ([] & -> & D' & h' & c' & Hh' & HD' & Hi' & Htr' & Hkeep).
  exists tt. split; [done|]. exists D', h', c'. split; [done|]. split; [done|]. split; [done|].
  split; [unfold same_trouble in *; intuition congruence|].
  intros b Hb [[He Hn] Hrest]%Forall_cons. apply Hkeep; [|done]. apply (tc_mem _ _ _ _ Ht). left. split; [done|].
  intros E. destruct (tc_old _ _ _ _ Ht b Hb E) as [|[_ ?]]; done.
Qed.

Lemma indexed_sees D ix u : indexed D ix -> external_id_of u <> "" -> sees ix D D u.
Proof.
  intros [_ Hn He] Hne.
  assert (forall a d, D !! a = Some d -> (a < length D)%nat /\ heap_get a D ∈ D /\ heap_get a D = d) as Hget.
  { intros a d E. assert (heap_get a D = d) as -> by (unfold heap_get; by rewrite E).
    split; [by eapply lookup_lt_Some|]. split; [by eapply list_elem_of_lookup_2|done]. }
  split.
  - intros a (d & Hd & E)%He; [|done]. destruct (Hget a d Hd) as (? & ? & E2). split_and!; [done..|congruence].
  - intros Hnone a (i & Hi)%list_elem_of_lookup_1 E.
    rewrite (proj2 (He (external_id_of u) i Hne)) in Hnone; [done|by exists a].
  - intros a (d & Hd & E)%Hn. destruct (Hget a d Hd) as (? & ? & E2). split_and!; [done..|congruence].
  - intros Hnone a (i & Hi)%list_elem_of_lookup_1 E.
    rewrite (proj2 (Hn (username_of u) i)) in Hnone; [done|by exists a].
Qed.

Lemma indexed_settled D ix u : directory_ok D -> indexed D ix -> external_id_of u <> "" -> in_step settings D u ->
  settled settings ix D u.
Proof.
  intros HD [_ Hn He] Hne (X & d & HX & Hext & Hd & Hq & Hname).
  destruct (list_elem_of_lookup_1 _ _ HX) as [a Ha].
  assert (heap_get a D = X) as Hget by (unfold heap_get; by rewrite Ha).
  exists a, d. rewrite Hget. split; [apply He; [done|by exists X]|]. split; [|done].
  intros b (Y & Hb & E)%Hn. assert (heap_get b D = Y) as -> by (unfold heap_get; by rewrite Hb).
  apply list_elem_of_lookup_2 in Hb. exists (JStr (account_id Y)), (JStr (account_id X)).
  rewrite !account_lookup by by apply (dk_accounts D HD). split_and!; [done..|]. rewrite (Hname Y Hb E). apply String.eqb_refl.
Qed.
End all.

(** ** Whole synchronisations *)

Lemma holds_start `{Env} hd w D tr D1 : answers hd D (w_tick w) tr D1 ->
  holds hd (w_trace w ++ tr)%list D1 D [] no_result (sync_start w).
Proof. intros Han. split; [by exists tr|done]. Qed.

Lemma holds_end `{Env} hd final last D h c s : holds hd final last D h c s -> w_trace (sc_world s) = final -> D = last.
Proof.
  intros ((tr & E & Han) & _) <-. rewrite <- (app_nil_r (w_trace _)) in E at 1. apply app_inv_head in E as <-. by inversion Han.
Qed.

Lemma first_sync `{Env} settings token users w D tr D1 r s1 :
  directory_ok D -> Forall source_user users -> all_apart users -> Forall (claimable settings D) users ->
  sync_users settings token users (sync_start w) = (r, s1) ->
  w_trace (sc_world s1) = (w_trace w ++ tr)%list -> answers (scim_headers token) D (w_tick w) tr D1 ->
  (exists res, r = Ok res /\ errors res = 0%Z /\ conflicts res = 0%Z) /\
  directory_ok D1 /\ Forall (in_step settings D1) users /\ (forall b, b ∈ D -> Forall (apart b) users -> b ∈ D1).
Proof.
  intros HD Hus Hap Hc Hrun Htr Han. set (final := (w_trace w ++ tr)%list) in *. set (hd := scim_headers token) in *.
  assert (course final (holds hd final D1 D [] no_result) (sync_users settings token users) (fun res s =>
    exists D' h', holds hd final D1 D' h' res s /\ directory_ok D' /\ Forall (in_step settings D') users /\
      same_trouble no_result res /\ forall b, b ∈ D -> Forall (apart b) users -> b ∈ D')) as Hcourse.
  { unfold sync_users. cbv zeta. fold hd. eapply course_bind; [apply course_record|intros; walk|]. intros [].
    eapply course_bind; [by apply course_listing|intros [? ?]; walk|].
    intros [ix filtered]. cbn [fst snd]. intros s r0 s' (Hh & Hix & ->). revert s r0 s' Hh.
    assert (Forall source_ok users) as Hok by (eapply Forall_impl; [exact Hus|]; by intros ? []).
    eapply course_lift; [by apply log_sync_start_ok|].
    eapply course_bind; [apply (course_sync_all settings hd final D1 ix [] users); try done|intros; walk|].
    { rewrite Forall_forall in *. intros u Hu. apply indexed_sees; [done|]. by apply source_ext_nonempty, Hus. }
    intros [] s r0 s' (D' & h' & c' & Hh & HD' & Hi & Htr' & Hkeep) [= <- <-] _.
    exists (sc_result s). split; [done|]. pose proof Hh as (_ & _ & ->). by exists D', h'. }
  destruct (Hcourse _ r s1 (holds_start hd w D tr D1 Han) Hrun) as (res & -> & D' & h' & Hh & HD' & Hi & Htr' & Hkeep);
    [by rewrite Htr|].
  rewrite (holds_end _ _ _ _ _ _ _ Hh Htr) in *. split_and!; try done. exists res. split; [done|apply Htr'].
Qed.

Lemma second_sync `{Env} settings token users D w tr D2 r s :
  directory_ok D -> Forall source_user users -> Forall (in_step settings D) users ->
  sync_users settings token users (sync_start w) = (r, s) ->
  w_trace (sc_world s) = (w_trace w ++ tr)%list -> answers (scim_headers token) D (w_tick w) tr D2 ->
  D2 = D /\ Forall (read_only (scim_headers token)) tr /\
  exists res, r = Ok res /\ only_unchanged (Z.of_nat (length users)) res.
Proof.
  intros HD Hus Hi Hrun Htr Han. set (hd := scim_headers token) in *.
  destruct (sync_listing hd users (sync_start w)) as [rl s0] eqn:Hl.
  assert (Forall source_ok users) as Hok by (eapply Forall_impl; [exact Hus|]; by intros ? []).
  assert (w_trace (sc_world s0) `prefix_of` (w_trace w ++ tr)%list) as Hpre.
  { rewrite <- Htr. unfold sync_users in Hrun. cbv zeta in Hrun. fold hd in Hrun.
    unfold mbind at 1, M_bind at 1 in Hrun. cbn [record_result] in Hrun.
    change {| sc_world := sc_world (sync_start w); sc_heap := sc_heap (sync_start w); sc_result := no_result |}
      with (sync_start w) in Hrun.
    rewrite (M_bind_run _ _ _ _ _ Hl) in Hrun. destruct rl as [[ix filtered]|e]; [|by injection Hrun as _ <-].
    assert (walks grows (_ ← liftR (_log_sync_start users); _ ← forM (sync_user settings hd ix filtered) users;
      s ← getM; mret (sc_result s))) as Hw by walk. exact (Hw _ _ _ Hrun). }
  destruct (course_listing hd (w_trace w ++ tr)%list D2 D no_result users HD _ _ _ (holds_start hd w D tr D2 Han) Hl Hpre)
    as ([ix filtered] & -> & Hh & Hix & Hf). cbn [fst snd] in *. subst filtered. pose proof Hh as (_ & Eh & _).
  destruct (sync_users_settled settings token users w ix false s0 Hok Hl) as (f & E & Hf).
  { rewrite Eh. rewrite !Forall_forall in *. intros u Hu. apply indexed_settled; [done|done|by apply source_ext_nonempty, Hus|by apply Hi]. }
  rewrite E in Hrun. injection Hrun as <- <-. split; [|split; [|by eexists]].
  - symmetry. exact (holds_end _ _ _ _ _ _ _ Hh Htr).
  - destruct (t_sync_listing hd users (sync_start w) (Ok (ix, false)) s0) as ([_ (tr' & E' & Hro)] & _);
      [by constructor|done|done|]. cbn [sc_world with_result] in Htr. rewrite E' in Htr.
    by apply app_inv_head in Htr as <-.
Qed.

(** C15: synchronising converges: against a directory that serves its accounts
    and applies valid requests, with source users whose claims on accounts are
    unambiguous, a synchronisation succeeds without errors or conflicts;
    afterwards the directory is sound, every source user has an account that
    differs in nothing the configured mode covers, and every account that is no
    source user's is still there as it was.  A further synchronisation only
    reads, changes nothing and reports everyone as unchanged. *)
Theorem synchronisation_converges `{Env} settings token users w D tr D1 r s1 :
  directory_ok D -> Forall source_user users -> all_apart users -> Forall (claimable settings D) users ->
  sync_users settings token users (sync_start w) = (r, s1) ->
  w_trace (sc_world s1) = (w_trace w ++ tr)%list -> answers (scim_headers token) D (w_tick w) tr D1 ->
  (exists res, r = Ok res /\ errors res = 0%Z /\ conflicts res = 0%Z) /\
  directory_ok D1 /\ Forall (in_step settings D1) users /\
  (forall b, b ∈ D -> Forall (apart b) users -> b ∈ D1) /\
  forall w2 tr2 D2 r2 s2,
    sync_users settings token users (sync_start w2) = (r2, s2) ->
    w_trace (sc_world s2) = (w_trace w2 ++ tr2)%list -> answers (scim_headers token) D1 (w_tick w2) tr2 D2 ->
    D2 = D1 /\ Forall (read_only (scim_headers token)) tr2 /\
    exists res, r2 = Ok res /\ only_unchanged (Z.of_nat (length users)) res.
Proof.
  intros HD Hus Hap Hc Hrun Htr Han.
  destruct (first_sync settings token users w D tr D1 r s1 HD Hus Hap Hc Hrun Htr Han) as (Hres & HD1 & Hi & Hkeep).
  split_and!; [done..|]. intros w2 tr2 D2 r2 s2. by apply second_sync.
Qed.

(** Ann's account is found by her userName only, gets her externalId and her
    new first name; Bob's is created; Zoe's stays as it is. *)
Module Example.
Import AppleScimSpec.Example(ann, answer, recovery_settings).
Import AppleUpdate.Example(anne).

Definition zoe : dict :=
  [("id", JStr "z9"); ("userName", JStr "zoe@example.com"); ("externalId", JStr "7");
   ("emails", JArr [JObj [("value", JStr "zoe@example.com")]])].
Definition bob : dict := [("externalId", JStr "43"); ("userName", JStr "bob@example.com")].
Definition people : list dict := [anne; bob].
Definition before : directory := [ann ""; zoe].

Definition linked_ann : dict := repaired anne (ann "").
Definition name_update : json := patch_op_body [("name.givenName", JStr "Anne"); ("active", JBool false)].
Definition updated_ann : dict := apply_request linked_ann "PATCH" name_update.
Definition after : directory := [updated_ann; zoe; dset "id" (JStr "b1") bob].

Definition page (D : directory) : json :=
  JObj [("totalResults", JInt (Z.of_nat (length D))); ("startIndex", JInt 1);
        ("itemsPerPage", JInt (Z.of_nat (length D))); ("Resources", JArr (map JObj D))].

#[export] Instance apple : Env := {|
  env_now t := 1700000000%Z; env_monotonic t := 0%Z; env_uuid t := "u"; env_entropy t := "iv";
  env_http t rq :=
    match t with
    | 0 => answer 200 (page before)
    | 1 => answer 204 JNull
    | 2 => answer 200 (JObj linked_ann)
    | 3 => answer 200 (JObj updated_ann)
    | 4 => answer 201 (JObj (dset "id" (JStr "b1") bob))
    | _ => answer 200 (page after)
    end%nat;
  env_getaddrinfo t host := Ok []; env_deadline t := None;
|}.

Definition first_run := @sync_users apple recovery_settings "tok" people (sync_start start).
Definition requests : list event := w_trace (sc_world (snd first_run)).

Ltac cases H := cbn in H; repeat (apply elem_of_cons in H as [->|H]; [|]); try (by apply elem_of_nil in H).

Lemma before_ok : directory_ok before.
Proof.
  split.
  - intros d Hd. cases Hd; by split.
  - apply (bool_decide_unpack _). vm_compute. exact I.
  - intros a b Ha Hb. cases Ha; cases Hb; try done; intros E; vm_compute in E; discriminate E.
  - intros a b Ha Hb. cases Ha; cases Hb; try done; intros E; vm_compute in E; discriminate E.
Qed.

Lemma people_ok : Forall source_user people.
Proof.
  repeat constructor; cbn; try done; [exists "42", "ann@example.com"|exists "43", "bob@example.com"]; by split_and!.
Qed.

Lemma people_apart : all_apart people.
Proof. split; apply (bool_decide_unpack _); vm_compute; exact I. Qed.

Lemma people_claims : Forall (claimable recovery_settings before) people.
Proof.
  apply Forall_forall. intros u Hu. cases Hu; intros b Hb; cases Hb; intros E; try (vm_compute in E; discriminate E).
  right. split; [done|]. split; [done|]. intros a Ha. cases Ha; intros E'; vm_compute in E'; discriminate E'.
Qed.

Definition of_listing (rq : Request) : bool := startswith "https://federation.apple.com/feeds/business/scim/Users?" (rq_url rq).

(** A directory that lists everyone on one page. *)
Lemma page_serves D : serves (scim_headers "tok") D (get_request (scim_headers "tok") (page_url 1))
  {| rs_status := 200; rs_content := ""; rs_text := ""; rs_json := Ok (page D); rs_headers := [] |} D.
Proof.
  split.
  - intros i E Hi. apply (f_equal (fun rq => String.eqb (rq_url rq) (page_url 1))) in E.
    unfold page_url in E. destruct (Z.eqb_spec i 1) as [Ei|Ei]; [clear E; subst i|discriminate E].
    split; [done|]. eexists. split; [done|]. exists D, []. rewrite app_nil_r. by split_and!.
  - intros d Hd E. apply (f_equal of_listing) in E. discriminate E.
  - intros d method body Hd [-> | ->] E; discriminate E.
  - intros user E. discriminate E.
Qed.

Definition relinked : directory := store linked_ann before.
Definition renamed : directory := store updated_ann relinked.

(** An update of Ann's account. *)
Lemma update_serves X body resp rest : account_id X = "a1" -> ok_write (rs_status resp) = true -> rest = [X; zoe] ->
  serves (scim_headers "tok") rest (write_request "PATCH" (scim_headers "tok") (_user_url "a1") body) resp
    (store (apply_request X "PATCH" body) rest).
Proof.
  intros HX Hresp ->. assert (_user_url (account_id zoe) <> _user_url "a1") as Hz by (intros E; vm_compute in E; discriminate E). split.
  - intros i E. discriminate E.
  - intros d Hd E. discriminate E.
  - intros d method body' Hd _ E _. injection E as <- E <-. cases Hd; [done|]. by destruct Hz.
  - intros user E. discriminate E.
Qed.

Lemma user_serves : serves (scim_headers "tok") relinked (get_request (scim_headers "tok") (_user_url "a1"))
  {| rs_status := 200; rs_content := ""; rs_text := ""; rs_json := Ok (JObj linked_ann); rs_headers := [] |} relinked.
Proof.
  split.
  - intros i E _. exfalso. apply (f_equal of_listing) in E.
    unfold page_url in E. destruct (i =? 1)%Z; discriminate E.
  - intros d Hd E. change relinked with [linked_ann; zoe] in Hd. cases Hd; [done|vm_compute in E; discriminate E].
  - intros d method body Hd _ E. discriminate E.
  - intros user E. discriminate E.
Qed.

Lemma create_serves : serves (scim_headers "tok") renamed
  (write_request "POST" (scim_headers "tok") (APPLE_SCIM_BASE +:+ "/Users") (JObj bob))
  {| rs_status := 201; rs_content := ""; rs_text := ""; rs_json := Ok (JObj (dset "id" (JStr "b1") bob)); rs_headers := [] |} after.
Proof.
  split.
  - intros i E. discriminate E.
  - intros d Hd E. discriminate E.
  - intros d method body Hd [-> | ->] E; discriminate E.
  - intros user E _ _ _. injection E as <-. split; [done|]. exists "b1". split; [by vm_compute|]. split; [done|].
    apply (bool_decide_unpack _). vm_compute. exact I.
Qed.

Lemma first_run_answers : @answers apple (scim_headers "tok") before 0 requests after.
Proof.
  assert (requests = [Sent (get_request (scim_headers "tok") (page_url 1));
    Sent (write_request "PATCH" (scim_headers "tok") (_user_url "a1") (repair_body "42"));
    Sent (get_request (scim_headers "tok") (_user_url "a1"));
    Sent (write_request "PATCH" (scim_headers "tok") (_user_url "a1") name_update);
    Sent (write_request "POST" (scim_headers "tok") (APPLE_SCIM_BASE +:+ "/Users") (JObj bob))]) as ->
    by (vm_compute; reflexivity).
  eapply answers_cons; [reflexivity|exact (page_serves before)|].
  eapply answers_cons; [reflexivity|apply (update_serves (ann "")); reflexivity|].
  eapply answers_cons; [reflexivity|exact user_serves|].
  eapply answers_cons; [reflexivity|apply (update_serves linked_ann); reflexivity|].
  eapply answers_cons; [reflexivity|exact create_serves|constructor].
Qed.

(** The next synchronisation, at the tick the first one ended. *)
Definition second_start : World := sc_world (snd first_run).
Definition second_run := @sync_users apple recovery_settings "tok" people (sync_start second_start).

Lemma second_run_answers : @answers apple (scim_headers "tok") after (w_tick second_start)
  [Sent (get_request (scim_headers "tok") (page_url 1))] after.
Proof.
  replace (w_tick second_start) with 5%nat by (vm_compute; reflexivity).
  eapply answers_cons; [reflexivity|exact (page_serves after)|constructor].
Qed.

Lemma synchronisation_converges_witness :
  (exists res, fst first_run = Ok res /\ errors res = 0%Z /\ conflicts res = 0%Z) /\
  Forall (in_step recovery_settings after) people /\ zoe ∈ after /\
  exists res, fst second_run = Ok res /\ only_unchanged 2 res.
Proof.
  destruct (@synchronisation_converges apple recovery_settings "tok" people start before requests after (fst first_run) (snd first_run))
    as (Hres & _ & Hi & Hkeep & Hsecond).
  - exact before_ok.
  - exact people_ok.
  - exact people_apart.
  - exact people_claims.
  - apply surjective_pairing.
  - reflexivity.
  - exact first_run_answers.
  - split; [exact Hres|]. split; [exact Hi|]. split.
    + apply Hkeep; [by right; left|].
      apply Forall_forall. intros u Hu. cases Hu; split; vm_compute; intros E; discriminate E.
    + apply (Hsecond second_start [Sent (get_request (scim_headers "tok") (page_url 1))] after (fst second_run) (snd second_run));
        [apply surjective_pairing|vm_compute; reflexivity|exact second_run_answers].
Defined.
End Example.
