(* ===== verification/AppleLog.v ===== *)
(** * What the SCIM client logs ([app/scim/apple.py])

    The log helpers of the client, as the records they pass to [logging]
    (level, format, arguments): how a source user is referred to, what is said
    of differences and failed writes, and the summaries of a run. *)
From Stdlib Require Import ZArith Lia Ascii String.
From stdpp Require Import base option list strings sets.
From S2P Require Import Prelude PyStr PyVal JsonText Config Crypto World LogSafe Preflight AppleScim AppleUpdate.

Open Scope string_scope.

Definition ABM_ACTIVITY_URL : string := "https://business.apple.com/main/activity".

Section log.
Context `{CryptoLib}.
Variable settings : Settings.

(** [settings.pii_pepper or settings.ssf_management_token] *)
Definition pii_key : string :=
  if str_true (pii_pepper settings) then pii_pepper settings else ssf_management_token settings.

(** What is not a string can only be shown, not encoded. *)
Definition _scim_log_username (username : json) : result string :=
  match (if truthy username then username else JStr "") with
  | JStr s => Ok (mask_email (Some s) (log_pii settings) pii_key)
  | v => if log_pii settings then Ok (py_str v) else Err AttributeError
  end.

Definition _format_changed_fields (d : diffs) : string :=
  let text := String.concat ", " (map fst (List.filter snd d)) in
  if str_true text then text else "none".

Definition _log_user_ref (user : dict) : result string :=
  name ← _scim_log_username (dget "userName" user);
  Ok ("pk=" +:+ py_str (dget "externalId" user) +:+ " user=" +:+ name).

Definition _users_differ (existing new : dict) : result (bool * list line) :=
  d ← _field_diffs existing new true;
  if any_diff d then
    ref ← _log_user_ref new;
    Ok (true, [{| lv := DEBUG; fmt := "Apple SCIM: diff %s — changed: %s";
                  args := [AStr ref; AStr (_format_changed_fields d)] |}])
  else Ok (false, []).

(** [response_metadata(response)] as the dictionary it is. *)
Definition metadata_json (m : metadata) : json :=
  JObj [("status_code", JInt (md_status_code m));
        ("content_type", match md_content_type m with Some t => JStr t | None => JNull end);
        ("body_len", JInt (Z.of_nat (md_body_len m))); ("body_sha256_8", JStr (md_body_sha256_8 m))].

Definition _log_update_failure (op http_method : string) (response : Response) (user : dict)
    (changed_fields : list string) (apple_id : json) : result line :=
  body ← (if apple_scim_log_error_body settings
          then text ← safe_response_body_text response (log_pii settings) pii_key 512; Ok (JStr text)
          else Ok JNull);
  name ← _scim_log_username (dget "userName" user);
  Ok {| lv := WARNING;
        fmt := "Apple SCIM: %s failed operation=%s externalId=%s appleId=%s userName=%s "
          +:+ "fields=%s endpoint=/Users/%s method=%s status=%s response=%s redacted_body=%s";
        args := [AStr op; AStr op; AJson (dget "externalId" user); AJson apple_id; AStr name;
                 AJson (JArr (map JStr changed_fields));
                 AJson (if truthy apple_id then apple_id else JStr ""); AStr http_method;
                 AInt (rs_status response); AJson (metadata_json (response_metadata response)); AJson body] |}.

(** The users that [sync_users] will match by userName. *)
Definition recovered (ix : Indexes) (h : list dict) (user : dict) : bool :=
  match ilookup (strip (py_str (dget "externalId" user))) (by_ext_id ix) with
  | Some a => negb (truthy (JObj (heap_get a h)))
  | None => true
  end
  && match ilookup (username_of user) (by_username ix) with
     | Some b => _can_recover_by_username settings (heap_get b h) (dget "externalId" user)
     | None => false
     end.

Definition sync_start_line (scim_users : list dict) (ix : Indexes) (h : list dict) (filtered : bool) : line :=
  {| lv := INFO;
     fmt := "Apple SCIM: sync start — %s=%d linked_by_external_id=%d email_recovery=%d authentik=%d update_mode=%s";
     args := [AStr (if filtered then "apple_matched" else "apple"); AInt (Z.of_nat (length (by_username ix)));
              AInt (Z.of_nat (length (by_ext_id ix)));
              AInt (Z.of_nat (length (List.filter (recovered ix h) scim_users)));
              AInt (Z.of_nat (length scim_users)); AStr (apple_scim_update_mode settings)] |}.

Definition _log_sync_summary (r : SyncResult) : list line :=
  {| lv := INFO;
     fmt := "Apple SCIM: sync done — created=%d updated=%d unchanged=%d conflicts=%d "
       +:+ "errors=%d update_400_invalid_request=%d out_of_scope_diffs=%d";
     args := map AInt [created r; updated r; unchanged r; conflicts r; errors r; update_400_invalid_request r;
                       out_of_scope_diffs r] |}
  :: ((if (0 <? conflicts r)%Z then
        [{| lv := WARNING;
            fmt := "Apple SCIM: ⚠️  %d account(s) require identity or creation-conflict review — go to %s";
            args := [AInt (conflicts r); AStr ABM_ACTIVITY_URL] |}] else [])
   ++ (if (0 <? out_of_scope_diffs r)%Z then
        [{| lv := WARNING;
            fmt := "Apple SCIM: ⚠️  %d user(s) have a field diff outside update_mode=%s scope and will stay "
              +:+ "stale — widen APPLE_SCIM_UPDATE_MODE or fix manually in Apple Business Manager";
            args := [AInt (out_of_scope_diffs r); AStr (apple_scim_update_mode settings)] |}] else []))%list.

(** ** What the lines say *)

(** [_users_differ] compares what [_field_diffs] compares, and says so only
    when it found something. *)
Lemma users_differ_spec existing new b lines : _users_differ existing new = Ok (b, lines) ->
  (b = true <-> exists key, key ∈ synced_keys /\ unequal existing new key = true) /\ (lines = [] <-> b = false).
Proof.
  unfold _users_differ. rewrite bind_ok. intros (d & (He & Hn & ->)%field_diffs_spec & Hrun).
  change (map _ _) with (table (unequal existing new) (diff_keys true)) in Hrun.
  assert (any_diff (table (unequal existing new) (diff_keys true)) = true <->
    exists key, key ∈ synced_keys /\ unequal existing new key = true) as Hany.
  { rewrite any_diff_table, existsb_exists. by setoid_rewrite <- list_elem_of_In. }
  destruct (any_diff _).
  - apply bind_ok in Hrun as (ref & _ & [= <- <-]). by split.
  - injection Hrun as <- <-. split; [|done]. rewrite <- Hany. by split.
Qed.

(** With [SSF_LOG_PII] off a reference to a user shows no address, as long as
    its externalId holds none. *)
Lemma log_username_no_at username name : log_pii settings = false -> _scim_log_username username = Ok name -> not_in "@" name.
Proof.
  unfold _scim_log_username. intros ->. destruct (if truthy username then username else JStr "") as [| | | |s| |]; try done.
  destruct (mask_shape s pii_key) as (h & E & Hh & _). intros Hok.
  assert (name = String "[" ("pii" +:+ String ":" (h +:+ String "]" ""))) as -> by congruence.
  change (not_in "@" ("[pii:" +:+ (h +:+ "]"))). unfold not_in in *. by rewrite !str_forallb_app, Hh.
Qed.

Lemma log_user_ref_hides user ref w : log_pii settings = false -> _log_user_ref user = Ok ref ->
  not_in "@" (py_str (dget "externalId" user)) -> is_email w -> ~ occurs w ref.
Proof.
  intros Hpii Href Hpk Hw Ho. apply (email_at_sign w ref Hw Ho). unfold _log_user_ref in Href.
  apply bind_ok in Href as (name & Hname%log_username_no_at & [= <-]); [|done].
  unfold not_in in *. rewrite !str_forallb_app, Hpk, Hname. done.
Qed.
End log.
