(* ===== verification/Coordination.v ===== *)
(** * Coordination of Apple SCIM operations ([app/scim/coordination.py])

    [_Coordinator] as a transition system: the tasks of the event loop run one
    at a time between two awaits, so a schedule is a list of atomic moves.  A
    waiting task sleeps on the [asyncio.Event] and re-tests the flag when its
    turn comes after [set()]. *)
From Stdlib Require Import ZArith Lia.
From stdpp Require Import base option list gmap.
From S2P Require Import Prelude.

(** Where a task is in [operation]. *)
Inductive place :=
| Asleep        (* in [await self._idle.wait()], the event not set yet *)
| Woken         (* the event was set; the task has not run since *)
| Inside        (* after [yield]'s entry, before the [finally] block *)
| Rejected.     (* [AppleScimBusy] was raised *)

#[export] Instance place_eq_dec : EqDecision place.
Proof. solve_decision. Defined.

Abbreviation task := nat.

Record _Coordinator := { _busy : bool; _idle : bool; tasks : gmap task place }.

(** [__init__] *)
Definition new_coordinator : _Coordinator := {| _busy := false; _idle := true; tasks := ∅ |}.

Definition put (t : task) (p : place) (c : _Coordinator) : _Coordinator :=
  {| _busy := _busy c; _idle := _idle c; tasks := <[t := p]> (tasks c) |}.

(** [self._idle.set()]: every sleeper becomes runnable. *)
Definition wake (p : place) : place := match p with Asleep => Woken | _ => p end.

(** One pass of [operation] up to its next suspension: the [while self._busy]
    test and what follows it.  A set event does not suspend, but a set event
    with the flag still up cannot occur, see [reachable_ok]. *)
Definition enter (t : task) (wait : bool) (c : _Coordinator) : _Coordinator :=
  if _busy c then
    if wait then (if _idle c then put t Woken c else put t Asleep c) else put t Rejected c
  else {| _busy := true; _idle := false; tasks := <[t := Inside]> (tasks c) |}.

(** The [finally] block, on a normal exit, an exception or a cancellation. *)
Definition leave (t : task) (c : _Coordinator) : _Coordinator :=
  {| _busy := false; _idle := true; tasks := wake <$> delete t (tasks c) |}.

Inductive move :=
| Call (t : task) (wait : bool)   (* a new task enters [operation] *)
| Run (t : task)                  (* a woken task gets its turn *)
| Leave (t : task)                (* the task inside ends its operation *)
| Cancel (t : task).              (* a waiting task is cancelled *)

(** A move of the event loop; [None] when the task is not in a state to do it. *)
Definition step (m : move) (c : _Coordinator) : option _Coordinator :=
  match m with
  | Call t wait =>
      match tasks c !! t with
      | Some Asleep | Some Woken | Some Inside => None
      | _ => Some (enter t wait c)
      end
  | Run t => if decide (tasks c !! t = Some Woken) then Some (enter t true c) else None
  | Leave t => if decide (tasks c !! t = Some Inside) then Some (leave t c) else None
  | Cancel t =>
      match tasks c !! t with
      | Some Asleep | Some Woken => Some {| _busy := _busy c; _idle := _idle c; tasks := delete t (tasks c) |}
      | _ => None
      end
  end.

Fixpoint run (ms : list move) (c : _Coordinator) : option _Coordinator :=
  match ms with [] => Some c | m :: t => c' ← step m c; run t c' end.

(** ** The invariant *)

(** The flag is up exactly while a task is inside, the event is its negation,
    and nobody sleeps while the connection is free. *)
Record coordinated (c : _Coordinator) : Prop := {
  co_busy : _busy c = true <-> exists t, tasks c !! t = Some Inside;
  co_idle : _idle c = negb (_busy c);
  co_exclusive : forall t t', tasks c !! t = Some Inside -> tasks c !! t' = Some Inside -> t = t';
  co_no_lost_wakeup : forall t, tasks c !! t = Some Asleep -> _busy c = true;
}.

Lemma new_coordinated : coordinated new_coordinator.
Proof. split; try done. simpl. split; [done|]. intros [t Ht]. done. Qed.

(** A task that was not inside and moves elsewhere. *)
Lemma put_coordinated t p c : coordinated c -> tasks c !! t <> Some Inside -> p <> Inside ->
  (p = Asleep -> _busy c = true) -> coordinated (put t p c).
Proof.
  intros [Hb Hi He Hs] Ht Hp Ha.
  assert (forall u, tasks (put t p c) !! u = Some Inside <-> tasks c !! u = Some Inside) as Hin.
  { intros u. simpl. destruct (decide (t = u)) as [<-|Hne].
    - rewrite lookup_insert_eq. naive_solver.
    - by rewrite lookup_insert_ne. }
  split; cbn [_busy _idle put]; [|done|..].
  - rewrite Hb. by setoid_rewrite Hin.
  - intros u u' Hu Hu'. apply Hin in Hu, Hu'. eauto.
  - intros u Hu. simpl in Hu. destruct (decide (t = u)) as [<-|Hne].
    + rewrite lookup_insert_eq in Hu. injection Hu as Hu. auto.
    + rewrite lookup_insert_ne in Hu by done. eauto.
Qed.

Lemma enter_coordinated t wait c : coordinated c -> tasks c !! t <> Some Inside -> coordinated (enter t wait c).
Proof.
  intros Hc Ht. pose proof Hc as [Hb Hi He Hs]. unfold enter. destruct (_busy c) eqn:E.
  - rewrite Hi. cbn [negb]. destruct wait; by apply put_coordinated.
  - assert (forall u, tasks c !! u <> Some Inside) as Hnone.
    { intros u Hu. assert (false = true) by (apply Hb; eauto). done. }
    split; cbn [_busy _idle tasks]; try done.
    + split; [|done]. intros _. exists t. by rewrite lookup_insert_eq.
    + intros u u'. destruct (decide (t = u)) as [<-|Hu]; [|rewrite (lookup_insert_ne _ t u) by done; by intros ?%Hnone].
      destruct (decide (t = u')) as [<-|Hu']; [done|]. rewrite (lookup_insert_ne _ t u') by done. by intros _ ?%Hnone.
Qed.

Lemma wake_inside c t u : (wake <$> delete t (tasks c)) !! u = Some Inside -> u <> t /\ tasks c !! u = Some Inside.
Proof.
  rewrite lookup_fmap, fmap_Some. intros (p & Hp & Hw). apply lookup_delete_Some in Hp as [? Hp].
  by destruct p.
Qed.

Lemma leave_coordinated t c : coordinated c -> tasks c !! t = Some Inside -> coordinated (leave t c).
Proof.
  intros [Hb Hi He Hs] Ht. split; cbn [_busy _idle tasks leave]; try done.
  - split; [done|]. intros [u Hu]. apply wake_inside in Hu as [Hne Hu]. by destruct Hne; apply He.
  - intros u u' Hu Hu'. apply wake_inside in Hu as [_ Hu], Hu' as [_ Hu']. by apply He.
  - intros u. rewrite lookup_fmap, fmap_Some. intros (p & _ & Hw). by destruct p.
Qed.

Lemma delete_coordinated t c : coordinated c -> tasks c !! t <> Some Inside ->
  coordinated {| _busy := _busy c; _idle := _idle c; tasks := delete t (tasks c) |}.
Proof.
  intros [Hb Hi He Hs] Ht.
  assert (forall u, delete t (tasks c) !! u = Some Inside <-> tasks c !! u = Some Inside) as Hin.
  { intros u. rewrite lookup_delete_Some. split; [by intros []|]. intros Hu. split; [congruence|done]. }
  split; cbn [_busy _idle tasks]; [|done|..].
  - rewrite Hb. by setoid_rewrite Hin.
  - intros u u' Hu Hu'. apply Hin in Hu, Hu'. eauto.
  - intros u [_ Hu]%lookup_delete_Some. eauto.
Qed.

Lemma step_coordinated m c c' : coordinated c -> step m c = Some c' -> coordinated c'.
Proof.
  intros Hc. destruct m as [t wait|t|t|t]; simpl.
  - destruct (tasks c !! t) as [[]|] eqn:E; intros [= <-]; apply enter_coordinated; congruence.
  - destruct (decide _) as [E|]; intros [= <-]. apply enter_coordinated; congruence.
  - destruct (decide _) as [E|]; intros [= <-]. by apply leave_coordinated.
  - destruct (tasks c !! t) as [[]|] eqn:E; intros [= <-]; apply delete_coordinated; congruence.
Qed.

Lemma run_coordinated ms c c' : coordinated c -> run ms c = Some c' -> coordinated c'.
Proof.
  revert c; induction ms as [|m ms IH]; intros c Hc; simpl; [by intros [= <-]|].
  destruct (step m c) as [c1|] eqn:E; [|done]. simpl. apply IH. by eapply step_coordinated.
Qed.

(** ** The registry *)

Abbreviation loop := nat.

(** The module variables [_coordinator] and [_coordinator_loop], over the
    objects made so far: an operation that is under way keeps its own. *)
Record Registry := { objects : list _Coordinator; _coordinator : option (loop * nat) }.
Definition no_coordinator : Registry := {| objects := []; _coordinator := None |}.

(** The answer is the object's place in [objects]. *)
Definition _get_coordinator (l : loop) (r : Registry) : nat * Registry :=
  let fresh := (length (objects r),
                {| objects := objects r ++ [new_coordinator]; _coordinator := Some (l, length (objects r)) |}) in
  match _coordinator r with
  | Some (l', i) => if Nat.eqb l' l then (i, r) else fresh
  | None => fresh
  end.

Inductive service_move :=
| Operation (l : loop) (t : task) (wait : bool)   (* [scim_operation(wait=wait)] in loop [l] *)
| Proceed (i : nat) (m : move).                   (* a later move of a task of object [i] *)

Definition on_object (i : nat) (m : move) (r : Registry) : option Registry :=
  c ← objects r !! i; c' ← step m c;
  Some {| objects := <[i := c']> (objects r); _coordinator := _coordinator r |}.

Definition service_step (m : service_move) (r : Registry) : option Registry :=
  match m with
  | Operation l t wait => let '(i, r) := _get_coordinator l r in on_object i (Call t wait) r
  | Proceed _ (Call _ _) => None
  | Proceed i m => on_object i m r
  end.

Fixpoint service_run (ms : list service_move) (r : Registry) : option Registry :=
  match ms with [] => Some r | m :: t => r' ← service_step m r; service_run t r' end.

(** One loop, one coordinator. *)
Definition one_coordinator (l : loop) (r : Registry) : Prop :=
  r = no_coordinator \/ exists c, objects r = [c] /\ _coordinator r = Some (l, 0) /\ coordinated c.

Definition in_loop (l : loop) (m : service_move) : Prop := match m with Operation l' _ _ => l' = l | _ => True end.

Lemma on_object_one l i m r r' c : objects r = [c] -> _coordinator r = Some (l, 0) -> coordinated c ->
  on_object i m r = Some r' -> one_coordinator l r'.
Proof.
  intros Ho Hr Hc. unfold on_object. rewrite Ho. destruct i as [|i]; [|done]. simpl.
  destruct (step m c) as [c'|] eqn:E; [|done]. intros [= <-]. right. exists c'.
  split; [done|]. split; [done|]. by eapply step_coordinated.
Qed.

Lemma service_step_one l m r r' : one_coordinator l r -> in_loop l m -> service_step m r = Some r' -> one_coordinator l r'.
Proof.
  intros Hr Hm. destruct m as [l' t wait|i m]; simpl in *.
  - subst l'. destruct Hr as [->|(c & Ho & Hc & Hok)].
    + intros E. eapply (on_object_one l 0 (Call t wait)) in E; [exact E|done|done|apply new_coordinated].
    + unfold _get_coordinator. rewrite Hc, Nat.eqb_refl. intros E. by eapply on_object_one.
  - destruct Hr as [->|(c & Ho & Hc & Hok)].
    + by destruct m, i.
    + intros E. assert (on_object i m r = Some r') by (by destruct m). by eapply on_object_one.
Qed.

Lemma service_run_one l ms r r' : one_coordinator l r -> Forall (in_loop l) ms -> service_run ms r = Some r' ->
  one_coordinator l r'.
Proof.
  intros Hr Hms. revert r Hr. induction Hms as [|m ms Hm _ IH]; intros r Hr; simpl; [by intros [= <-]|].
  destruct (service_step m r) as [r1|] eqn:E; [|done]. simpl. apply IH. by eapply service_step_one.
Qed.

(** C26: at any time, however calls, exits, failures and cancellations of the
    tasks of the event loop interleave, at most one task of the process holds
    the Apple connection; the busy flag tells exactly whether one does; and no
    wake-up is lost - while the connection is free, no waiting task is left
    asleep. *)
Theorem operation_exclusive l ms r : Forall (in_loop l) ms -> service_run ms no_coordinator = Some r ->
  (forall i c, objects r !! i = Some c -> coordinated c) /\
  (forall i c t i' c' t', objects r !! i = Some c -> tasks c !! t = Some Inside ->
     objects r !! i' = Some c' -> tasks c' !! t' = Some Inside -> i = i' /\ t = t').
Proof.
  intros Hms Hrun. destruct (service_run_one l ms _ _ (or_introl eq_refl) Hms Hrun) as [->|(c & Ho & _ & Hc)]; [done|].
  rewrite Ho. split.
  - intros [|i] c'; [by intros [= <-]|done].
  - intros [|i] c1 t [|i'] c2 t'; try done. intros [= <-] Ht [= <-] Ht'. split; [done|]. by eapply co_exclusive.
Qed.

(** ** Progress *)

(** The tasks that wait or hold the connection, and those due to run. *)
Definition live (c : _Coordinator) : gmap task place := filter (fun tp => tp.2 <> Rejected) (tasks c).
Definition awake (c : _Coordinator) : gmap task place := filter (fun tp => tp.2 = Woken) (tasks c).

Definition is_call (m : move) : bool := match m with Call _ _ => true | _ => false end.

(** Moves left without new calls: each end of an operation can wake everybody. *)
Definition moves_left (c : _Coordinator) : nat := size (live c) * size (live c) + size (awake c).

Lemma live_elem c t p : live c !! t = Some p <-> tasks c !! t = Some p /\ p <> Rejected.
Proof. apply (map_lookup_filter_Some (fun tp : task * place => tp.2 <> Rejected)). Qed.

Lemma awake_elem c t p : awake c !! t = Some p <-> tasks c !! t = Some p /\ p = Woken.
Proof. apply (map_lookup_filter_Some (fun tp : task * place => tp.2 = Woken)). Qed.

Lemma awake_live c : size (awake c) <= size (live c).
Proof.
  apply map_subseteq_size, map_subseteq_spec. intros t p. rewrite live_elem, awake_elem.
  by intros [Ht ->].
Qed.

(** A task that waits runs and waits on, or holds the connection. *)
Lemma live_insert c t p b i :
  is_Some (live c !! t) -> p <> Rejected ->
  size (live {| _busy := b; _idle := i; tasks := <[t := p]> (tasks c) |}) = size (live c).
Proof. intros Ht Hp. unfold live. cbn [tasks]. by rewrite map_filter_insert_True, map_size_insert_Some. Qed.

Lemma awake_insert c t p b i :
  tasks c !! t = Some Woken -> p <> Woken ->
  size (awake {| _busy := b; _idle := i; tasks := <[t := p]> (tasks c) |}) < size (awake c).
Proof.
  intros Ht Hp. unfold awake. cbn [tasks]. rewrite map_filter_insert_False, map_filter_delete by done.
  assert (is_Some (filter (fun tp => tp.2 = Woken) (tasks c) !! t)) as Hs.
  { exists Woken. by apply (awake_elem c). }
  rewrite map_size_delete_Some by done. apply map_size_ne_0_lookup_2 in Hs. lia.
Qed.

(** A task that is done is gone. *)
Lemma live_delete c t b i :
  is_Some (live c !! t) ->
  size (live c) = S (size (live {| _busy := b; _idle := i; tasks := delete t (tasks c) |})).
Proof.
  intros Ht. unfold live. cbn [tasks]. rewrite map_filter_delete, map_size_delete_Some by done.
  apply map_size_ne_0_lookup_2 in Ht. unfold live in Ht. lia.
Qed.

Lemma awake_delete c t b i :
  size (awake {| _busy := b; _idle := i; tasks := delete t (tasks c) |}) <= size (awake c).
Proof. unfold awake. cbn [tasks]. rewrite map_filter_delete. apply map_subseteq_size, delete_subseteq. Qed.

Lemma live_wake b i b' i' ts :
  size (live {| _busy := b; _idle := i; tasks := wake <$> ts |}) = size (live {| _busy := b'; _idle := i'; tasks := ts |}).
Proof.
  unfold live. cbn [tasks]. rewrite map_filter_fmap, map_size_fmap. f_equal. apply map_filter_ext.
  intros t [] _; simpl; split; congruence.
Qed.

(** Every move but a call uses up one of them. *)
Lemma step_moves_left m c c' :
  coordinated c -> is_call m = false -> step m c = Some c' -> moves_left c' < moves_left c.
Proof.
  intros Hc Hm. unfold moves_left. destruct m as [|t|t|t]; simpl in *; [done|..].
  - destruct (decide _) as [Ht|]; intros [= <-].
    assert (is_Some (live c !! t)) as Hl by (exists Woken; by rewrite live_elem).
    unfold enter. rewrite (co_idle c Hc). destruct (_busy c); cbn [negb].
    all: unfold put; rewrite live_insert by done; by apply Nat.add_lt_mono_l, awake_insert.
  - destruct (decide _) as [Ht|]; intros [= <-].
    pose proof (awake_live (leave t c)) as Ha. unfold leave in *.
    rewrite (live_wake _ _ false true) in *.
    rewrite (live_delete c t false true) by (exists Inside; by rewrite live_elem). nia.
  - intros Hs. assert (is_Some (live c !! t) /\
      c' = {| _busy := _busy c; _idle := _idle c; tasks := delete t (tasks c) |}) as [Hl ->].
    { destruct (tasks c !! t) as [[]|] eqn:E; simplify_eq; (split; [|done]); eexists; rewrite live_elem; done. }
    pose proof (awake_delete c t (_busy c) (_idle c)).
    rewrite (live_delete c t (_busy c) (_idle c)) by done. nia.
Qed.

(** While a task is live, somebody can move. *)
Lemma progress c t p : coordinated c -> live c !! t = Some p ->
  exists m c', is_call m = false /\ step m c = Some c' /\ (forall u, m <> Cancel u).
Proof.
  intros Hc [Ht Hp]%live_elem. destruct (_busy c) eqn:E.
  - apply (co_busy c Hc) in E as [u Hu]. exists (Leave u), (leave u c). simpl. by destruct (decide _).
  - assert (p = Woken) as ->.
    { destruct p; try done.
      - by rewrite (co_no_lost_wakeup c Hc t) in E.
      - assert (_busy c = true) by (apply (co_busy c Hc); eauto). congruence. }
    exists (Run t), (enter t true c). simpl. by destruct (decide _).
Qed.

(** A live task stays until it ends its operation or is cancelled. *)
Lemma step_live m c c' t : step m c = Some c' -> is_Some (live c !! t) ->
  is_Some (live c' !! t) \/ m = Leave t \/ m = Cancel t.
Proof.
  intros Hstep [p [Ht Hp]%live_elem].
  assert (forall u q b i, (t = u -> q <> Rejected) ->
    is_Some (live {| _busy := b; _idle := i; tasks := <[u := q]> (tasks c) |} !! t)) as Hins.
  { intros u q b i Hq. destruct (decide (t = u)) as [->|Hne].
    - exists q. rewrite live_elem. cbn [tasks]. rewrite lookup_insert_eq. auto.
    - exists p. rewrite live_elem. cbn [tasks]. by rewrite lookup_insert_ne. }
  assert (forall u wait, (t = u -> wait = true) -> is_Some (live (enter u wait c) !! t)) as Henter.
  { intros u wait Hw. unfold enter, put. destruct (_busy c); [|by apply Hins].
    destruct wait; [destruct (_idle c); by apply Hins|]. apply Hins. intros ->. by specialize (Hw eq_refl). }
  destruct m as [u wait|u|u|u]; simpl in Hstep.
  - left. destruct (decide (t = u)) as [->|Hne].
    + rewrite Ht in Hstep. by destruct p.
    + destruct (tasks c !! u) as [[]|]; simplify_eq; by apply Henter.
  - left. destruct (decide _) as [Hu|]; simplify_eq. by apply Henter.
  - destruct (decide (t = u)) as [->|Hne]; [by auto|left].
    destruct (decide _) as [Hu|]; simplify_eq. exists (wake p). rewrite live_elem. unfold leave. cbn [tasks].
    rewrite lookup_fmap, lookup_delete_ne, Ht by done. split; [done|by destruct p].
  - destruct (decide (t = u)) as [->|Hne]; [by auto|left].
    destruct (tasks c !! u) as [[]|]; simplify_eq; exists p; rewrite live_elem; cbn [tasks]; by rewrite lookup_delete_ne.
Qed.

Lemma run_moves_left ms c c' :
  coordinated c -> Forall (fun m => is_call m = false) ms -> run ms c = Some c' -> length ms + moves_left c' <= moves_left c.
Proof.
  revert c; induction ms as [|m ms IH]; intros c Hc Hms; simpl; [intros [= <-]; lia|].
  apply Forall_cons in Hms as [Hm Hms]. destruct (step m c) as [c1|] eqn:E; [|done]. simpl. intros Hrun.
  pose proof (step_moves_left _ _ _ Hc Hm E). apply IH in Hrun; [lia|by eapply step_coordinated|done].
Qed.

Lemma run_live ms c c' t : run ms c = Some c' -> is_Some (live c !! t) ->
  is_Some (live c' !! t) \/ Leave t ∈ ms \/ Cancel t ∈ ms.
Proof.
  revert c; induction ms as [|m ms IH]; intros c; simpl; [intros [= <-]; auto|].
  destruct (step m c) as [c1|] eqn:E; [|done]. simpl. intros Hrun Ht.
  destruct (step_live _ _ _ _ E Ht) as [Hl|[->| ->]]; [|right; left; left|right; right; left].
  destruct (IH _ Hrun Hl) as [|[]]; [by auto|right; left; by right|right; right; by right].
Qed.

(** C27: nobody waits for the Apple connection for ever.  Once no new operation
    arrives, the tasks that wait or hold the connection make only finitely many
    moves - at most [moves_left], whatever the order - and when no further move
    is possible every one of them has held the connection and ended its
    operation, or was cancelled. *)
Theorem waiting_is_finite ms c ms' c' :
  run ms new_coordinator = Some c -> run ms' c = Some c' -> Forall (fun m => is_call m = false) ms' ->
  length ms' <= moves_left c /\
  ((forall m, is_call m = false -> step m c' = None) ->
   forall t, is_Some (live c !! t) -> Leave t ∈ ms' \/ Cancel t ∈ ms').
Proof.
  intros Hc Hrun Hms. apply (run_coordinated _ _ _ new_coordinated) in Hc.
  split; [pose proof (run_moves_left _ _ _ Hc Hms Hrun); lia|].
  intros Hstuck t Ht. destruct (run_live _ _ _ _ Hrun Ht) as [[p Hp]|]; [|done].
  destruct (progress c' t p) as (m & c2 & Hm & Hs & _); [by eapply run_coordinated|done|].
  by rewrite Hstuck in Hs.
Qed.

(** A sync is running when a callback and the scheduled sync arrive: the first
    is turned away, the second runs after it. *)
Definition schedule : list service_move :=
  [Operation 0 1 false; Operation 0 2 false; Operation 0 3 true; Proceed 0 (Leave 1); Proceed 0 (Run 3)].

Lemma operation_exclusive_witness :
  exists r c, service_run schedule no_coordinator = Some r /\ objects r = [c] /\ coordinated c /\
    tasks c !! 2 = Some Rejected /\ tasks c !! 3 = Some Inside.
Proof.
  eexists _, _. split; [reflexivity|]. split; [reflexivity|]. split; [|done].
  eapply (proj1 (operation_exclusive 0 schedule _ ltac:(by repeat constructor) eq_refl) 0). reflexivity.
Defined.

(** Two loops do not exclude each other, and a loop that comes back after
    another one gets a new coordinator while its operation is under way. *)
Example loops_are_apart :
  match service_run [Operation 0 1 false; Operation 1 2 false; Operation 0 3 false] no_coordinator with
  | Some r => map (fun c => _busy c) (objects r) = [true; true; true]
  | None => False
  end.
Proof. reflexivity. Qed.

(** From the middle of the same schedule: task 1 inside, task 3 asleep. *)
Lemma waiting_is_finite_witness :
  exists c c', run [Call 1 false; Call 3 true] new_coordinator = Some c /\
    run [Leave 1; Run 3; Leave 3] c = Some c' /\ 3 <= moves_left c /\
    (Leave 3 ∈ [Leave 1; Run 3; Leave 3] \/ Cancel 3 ∈ [Leave 1; Run 3; Leave 3]).
Proof.
  eexists _, _. split; [reflexivity|]. split; [reflexivity|].
  pose proof (waiting_is_finite [Call 1 false; Call 3 true] _ [Leave 1; Run 3; Leave 3] _ eq_refl eq_refl) as H.
  destruct H as [Hlen Hserved]; [by repeat constructor|]. split; [exact Hlen|].
  apply Hserved.
  - intros [|t|t|t] Hm; [discriminate Hm|..]; simpl.
    + destruct (decide _) as [E|]; [|done]. discriminate E.
    + destruct (decide _) as [E|]; [|done]. discriminate E.
    + done.
  - exists Asleep. reflexivity.
Defined.
