(* ===== verification/StreamLock.v ===== *)
(** * The stream operation lock ([stream_operation_lock] of [app/database.py])

    Stream changes and queue deliveries run under one [asyncio.Lock], which
    the module makes again when the event loop is another one.  The lock is a
    transition system: the tasks of a loop run one at a time between two
    awaits.  A waiter sleeps on a future; a cancellation reaches it when it
    runs again.  What [Outbox.lockedM] assumes of the other tasks rests on the
    exclusion shown here. *)
From Stdlib Require Import ZArith Lia.
From stdpp Require Import base option list.
From S2P Require Import Prelude.

Open Scope nat_scope.

Abbreviation task := nat.
Abbreviation loop := nat.

(** ** [asyncio.Lock] *)

Inductive future := Pending | Done | Cancelled.

#[export] Instance future_eq_dec : EqDecision future.
Proof. solve_decision. Defined.

(** [w_killed]: a [CancelledError] will be raised in the task when it runs. *)
Record waiter := { w_task : task; w_future : future; w_killed : bool }.

(** [inside] are the tasks between the entry and the exit of [async with]. *)
Record Lock := { _locked : bool; _waiters : list waiter; inside : list task }.

Definition new_lock : Lock := {| _locked := false; _waiters := []; inside := [] |}.

(** [_wake_up_first] *)
Definition _wake_up_first (ws : list waiter) : list waiter :=
  match ws with
  | w :: rest =>
      match w_future w with
      | Pending => {| w_task := w_task w; w_future := Done; w_killed := w_killed w |} :: rest
      | _ => ws
      end
  | [] => []
  end.

Definition cancelled (w : waiter) : bool := match w_future w with Cancelled => true | _ => false end.

(** [acquire], up to its first suspension. *)
Definition acquire (t : task) (k : Lock) : Lock :=
  if negb (_locked k) && forallb cancelled (_waiters k)
  then {| _locked := true; _waiters := _waiters k; inside := t :: inside k |}
  else {| _locked := _locked k;
          _waiters := _waiters k ++ [{| w_task := t; w_future := Pending; w_killed := false |}];
          inside := inside k |}.

Definition is_task (t : task) (w : waiter) : bool := Nat.eqb (w_task w) t.

(** [acquire], after its suspension. *)
Definition resume (t : task) (killed : bool) (k : Lock) : Lock :=
  let ws := List.filter (fun w => negb (is_task t w)) (_waiters k) in
  if killed
  then {| _locked := _locked k; _waiters := if _locked k then ws else _wake_up_first ws; inside := inside k |}
  else {| _locked := true; _waiters := ws; inside := t :: inside k |}.

Definition release (t : task) (k : Lock) : Lock :=
  {| _locked := false; _waiters := _wake_up_first (_waiters k);
     inside := List.filter (fun u => negb (Nat.eqb u t)) (inside k) |}.

(** [task.cancel()] on a waiting task. *)
Definition kill (t : task) (w : waiter) : waiter :=
  if is_task t w
  then {| w_task := t; w_future := match w_future w with Pending => Cancelled | f => f end; w_killed := true |}
  else w.

Inductive lock_move :=
| Acquire (t : task)   (* a task reaches [async with stream_operation_lock()] *)
| Resume (t : task)    (* a waiter whose future is done gets its turn *)
| Cancel (t : task)    (* a waiter is cancelled *)
| Release (t : task).  (* the task inside leaves the block *)

Definition lock_step (m : lock_move) (k : Lock) : option Lock :=
  match m with
  | Acquire t =>
      if existsb (is_task t) (_waiters k) || existsb (Nat.eqb t) (inside k) then None else Some (acquire t k)
  | Resume t =>
      match List.find (is_task t) (_waiters k) with
      | Some w => match w_future w with Pending => None | _ => Some (resume t (w_killed w) k) end
      | None => None
      end
  | Cancel t =>
      if existsb (is_task t) (_waiters k)
      then Some {| _locked := _locked k; _waiters := map (kill t) (_waiters k); inside := inside k |} else None
  | Release t => if existsb (Nat.eqb t) (inside k) then Some (release t k) else None
  end.

(** ** The registry *)

(** The module variables, over the locks made so far. *)
Record LockRegistry := { locks : list Lock; _stream_write_lock : option (loop * nat) }.
Definition no_lock : LockRegistry := {| locks := []; _stream_write_lock := None |}.

(** The answer is the lock's place in [locks]. *)
Definition stream_operation_lock (l : loop) (r : LockRegistry) : nat * LockRegistry :=
  let fresh := (length (locks r),
                {| locks := locks r ++ [new_lock]; _stream_write_lock := Some (l, length (locks r)) |}) in
  match _stream_write_lock r with
  | Some (l', i) => if Nat.eqb l' l then (i, r) else fresh
  | None => fresh
  end.

Inductive lock_service_move :=
| Operation (l : loop) (t : task)   (* [async with stream_operation_lock()] in loop [l] *)
| Proceed (i : nat) (m : lock_move).     (* a later move of a task of lock [i] *)

Definition on_lock (i : nat) (m : lock_move) (r : LockRegistry) : option LockRegistry :=
  k ← locks r !! i; k' ← lock_step m k;
  Some {| locks := <[i := k']> (locks r); _stream_write_lock := _stream_write_lock r |}.

Definition lock_service_step (m : lock_service_move) (r : LockRegistry) : option LockRegistry :=
  match m with
  | Operation l t => let '(i, r) := stream_operation_lock l r in on_lock i (Acquire t) r
  | Proceed _ (Acquire _) => None
  | Proceed i m => on_lock i m r
  end.

Fixpoint lock_service_run (ms : list lock_service_move) (r : LockRegistry) : option LockRegistry :=
  match ms with [] => Some r | m :: t => r' ← lock_service_step m r; lock_service_run t r' end.

(** ** The invariant of a lock *)

Definition head_ready (ws : list waiter) : Prop :=
  match ws with w :: _ => w_future w <> Pending | [] => True end.
Definition done_only_first (ws : list waiter) : Prop :=
  Forall (fun w => w_future w <> Done) (tail ws).

(** The flag is up exactly while a task is inside; only the first waiter can
    have been woken, and only while the lock is free; while it is free the
    first waiter is on its way; a cancelled future belongs to a task that
    leaves. *)
Record lock_ok (k : Lock) : Prop := {
  ok_inside : if _locked k then exists t, inside k = [t] else inside k = [];
  ok_first : done_only_first (_waiters k);
  ok_locked : _locked k = true -> Forall (fun w => w_future w <> Done) (_waiters k);
  ok_ready : _locked k = false -> head_ready (_waiters k);
  ok_killed : Forall (fun w => w_future w = Cancelled -> w_killed w = true) (_waiters k);
  ok_nodup : NoDup (map w_task (_waiters k));
}.

Lemma new_lock_ok : lock_ok new_lock.
Proof. split; simpl; try done; constructor. Qed.

Section waiters.
Implicit Types ws : list waiter.
Notation not_done := (fun w : waiter => w_future w <> Done).

Lemma not_done_first ws : Forall not_done ws -> done_only_first ws.
Proof. unfold done_only_first. intros H. by destruct H. Qed.

Lemma first_filter f ws : done_only_first ws -> done_only_first (List.filter f ws).
Proof.
  unfold done_only_first. destruct ws as [|w ws]; simpl; [done|]. intros H.
  assert (Hf : Forall not_done (List.filter f ws)).
  { rewrite Forall_forall in H |- *. intros x Hx. apply H.
    by apply list_elem_of_In, (incl_filter f), list_elem_of_In. }
  destruct (f w); [done|]. by apply not_done_first.
Qed.

Lemma Forall_filter (P : waiter -> Prop) f ws : Forall P ws -> Forall P (List.filter f ws).
Proof.
  rewrite !Forall_forall. intros H x Hx. apply H.
  by apply list_elem_of_In, (incl_filter f), list_elem_of_In.
Qed.

Lemma wake_first ws : done_only_first ws -> done_only_first (_wake_up_first ws).
Proof. destruct ws as [|w ws]; simpl; [done|]. by destruct (w_future w). Qed.

Lemma wake_ready ws : head_ready (_wake_up_first ws).
Proof. destruct ws as [|w ws]; simpl; [done|]. destruct (w_future w) eqn:E; simpl; congruence. Qed.

Lemma wake_tasks ws : map w_task (_wake_up_first ws) = map w_task ws.
Proof. destruct ws as [|w ws]; simpl; [done|]. by destruct (w_future w). Qed.

Lemma wake_killed ws :
  Forall (fun w => w_future w = Cancelled -> w_killed w = true) ws ->
  Forall (fun w => w_future w = Cancelled -> w_killed w = true) (_wake_up_first ws).
Proof.
  destruct ws as [|w ws]; simpl; [done|]. destruct (w_future w); try done.
  intros [_ H]%Forall_cons. by constructor.
Qed.

Lemma filter_tasks f ws : NoDup (map w_task ws) -> NoDup (map w_task (List.filter f ws)).
Proof.
  induction ws as [|w ws IH]; simpl; [done|]. rewrite NoDup_cons. intros [Hw Hn].
  destruct (f w); simpl; [|by apply IH]. rewrite NoDup_cons. split; [|by apply IH].
  intros (x & E & Hx)%list_elem_of_fmap. apply Hw, list_elem_of_fmap. exists x. split; [done|].
  by apply list_elem_of_In, (incl_filter f), list_elem_of_In.
Qed.
End waiters.

Lemma acquire_ok t k : lock_ok k -> t ∉ map w_task (_waiters k) -> lock_ok (acquire t k).
Proof.
  intros [Hi Hf Hl Hr Hk Hn] Ht. unfold acquire.
  destruct (negb (_locked k) && forallb cancelled (_waiters k)) eqn:E.
  - apply andb_prop in E as [El%negb_true_iff Ec]. rewrite El in Hi.
    split; cbn [_locked _waiters inside]; try done; [rewrite Hi; by exists t|].
    intros _. rewrite forallb_forall in Ec. apply Forall_forall. intros w Hw.
    apply list_elem_of_In, Ec in Hw. unfold cancelled in Hw. by destruct (w_future w).
  - split; cbn [_locked _waiters inside]; [done| | | | |].
    + unfold done_only_first in *. destruct (_waiters k) as [|w ws]; simpl in *; [done|].
      apply Forall_app. split; [done|by repeat constructor].
    + intros El. apply Forall_app. split; [by apply Hl|by repeat constructor].
    + intros El. specialize (Hr El). rewrite El in E. by destruct (_waiters k).
    + apply Forall_app. split; [done|by repeat constructor].
    + rewrite map_app. apply NoDup_app. split; [done|]. split; [|apply NoDup_singleton].
      intros x Hx ->%list_elem_of_singleton. done.
Qed.

Lemma resume_ok t w k :
  lock_ok k -> List.find (is_task t) (_waiters k) = Some w -> w_future w <> Pending ->
  lock_ok (resume t (w_killed w) k).
Proof.
  intros [Hi Hf Hl Hr Hk Hn] Hw Hp.
  apply find_some in Hw as [Hin Hwt]. unfold is_task in Hwt. apply Nat.eqb_eq in Hwt.
  apply list_elem_of_In in Hin. unfold resume. destruct (w_killed w) eqn:Ek.
  - destruct (_locked k) eqn:El; split; cbn [_locked _waiters inside]; try done.
    + by apply first_filter.
    + intros _. by apply Forall_filter, Hl.
    + by apply Forall_filter.
    + by apply filter_tasks.
    + by apply wake_first, first_filter.
    + intros _. apply wake_ready.
    + by apply wake_killed, Forall_filter.
    + rewrite wake_tasks. by apply filter_tasks.
  - (* the future is done, so the lock is free and the waiter is the first *)
    assert (Hd : w_future w = Done).
    { rewrite Forall_forall in Hk. specialize (Hk w Hin). destruct (w_future w); [done|done|]. by rewrite Hk in Ek. }
    assert (El : _locked k = false).
    { destruct (_locked k); [|done]. specialize (Hl eq_refl). rewrite Forall_forall in Hl. by destruct (Hl w Hin). }
    rewrite El in Hi.
    assert (Hfree : Forall (fun x => w_future x <> Done)
                      (List.filter (fun x => negb (is_task t x)) (_waiters k))).
    { destruct (_waiters k) as [|h ws]; [by constructor|]. unfold done_only_first in Hf. simpl in Hf.
      apply elem_of_cons in Hin as [->|Hin].
      - simpl. unfold is_task at 1. rewrite Hwt, Nat.eqb_refl. simpl. by apply Forall_filter.
      - rewrite Forall_forall in Hf. by destruct (Hf w Hin). }
    split; cbn [_locked _waiters inside]; try done; [rewrite Hi; by exists t| | |].
    + by apply not_done_first.
    + by apply Forall_filter.
    + by apply filter_tasks.
Qed.

Lemma release_ok t k : lock_ok k -> t ∈ inside k -> lock_ok (release t k).
Proof.
  intros [Hi Hf Hl Hr Hk Hn] Ht.
  assert (Hin : inside k = [t]).
  { destruct (_locked k); [destruct Hi as [u Hu]|]; rewrite ?Hu, ?Hi in *; [|by apply elem_of_nil in Ht].
    by apply list_elem_of_singleton in Ht as ->. }
  split; cbn [release _locked _waiters inside]; try done.
  - rewrite Hin. simpl. by rewrite Nat.eqb_refl.
  - by apply wake_first.
  - intros _. apply wake_ready.
  - by apply wake_killed.
  - by rewrite wake_tasks.
Qed.

Lemma kill_future t w : (w_future (kill t w) = Done <-> w_future w = Done)
  /\ (w_future w <> Pending -> w_future (kill t w) <> Pending).
Proof. unfold kill. destruct (is_task t w); [|done]. simpl. destruct (w_future w); naive_solver. Qed.

Lemma kill_task t w : w_task (kill t w) = w_task w.
Proof. unfold kill, is_task. destruct (Nat.eqb_spec (w_task w) t); [by subst|done]. Qed.

Lemma cancel_ok t k : lock_ok k ->
  lock_ok {| _locked := _locked k; _waiters := map (kill t) (_waiters k); inside := inside k |}.
Proof.
  intros [Hi Hf Hl Hr Hk Hn].
  assert (Hdone : forall ws, Forall (fun w => w_future w <> Done) ws ->
    Forall (fun w => w_future w <> Done) (map (kill t) ws)).
  { intros ws H. apply Forall_fmap. eapply Forall_impl; [exact H|]. intros w Hw E. by apply Hw, (kill_future t w). }
  split; cbn [_locked _waiters inside]; [done| | | | |].
  - unfold done_only_first in *. destruct (_waiters k); [done|]. by apply Hdone.
  - intros El. by apply Hdone, Hl.
  - intros El. specialize (Hr El). destruct (_waiters k) as [|w ws]; [done|]. by apply (kill_future t w).
  - apply Forall_fmap. eapply Forall_impl; [exact Hk|]. intros w Hw. cbn. unfold kill.
    by destruct (is_task t w).
  - rewrite map_map. by rewrite (map_ext _ w_task (kill_task t)).
Qed.

Lemma step_ok m k k' : lock_ok k -> lock_step m k = Some k' -> lock_ok k'.
Proof.
  intros Hk. destruct m as [t|t|t|t]; simpl.
  - destruct (existsb (is_task t) _) eqn:E; [done|]. destruct (existsb _ (inside k)); [done|]. intros [= <-].
    apply acquire_ok; [done|]. intros (w & -> & Hw)%list_elem_of_fmap.
    rewrite <- not_true_iff_false in E. apply E, existsb_exists. exists w.
    split; [by apply list_elem_of_In|apply Nat.eqb_refl].
  - destruct (List.find _ _) as [w|] eqn:E; [|done].
    destruct (w_future w) eqn:Ef; [done|..]; intros [= <-]; eapply resume_ok; congruence.
  - destruct (existsb _ _); [|done]. intros [= <-]. by apply cancel_ok.
  - destruct (existsb _ _) eqn:E; [|done]. intros [= <-]. apply release_ok; [done|].
    apply existsb_exists in E as (u & Hu & ->%Nat.eqb_eq). by apply list_elem_of_In.
Qed.

(** ** The lock of the process *)

(** One loop, one lock. *)
Definition one_lock (l : loop) (r : LockRegistry) : Prop :=
  r = no_lock \/ exists k, locks r = [k] /\ _stream_write_lock r = Some (l, 0) /\ lock_ok k.

Definition in_loop (l : loop) (m : lock_service_move) : Prop :=
  match m with Operation l' _ => l' = l | _ => True end.

Lemma on_lock_one l i m r r' k :
  locks r = [k] -> _stream_write_lock r = Some (l, 0) -> lock_ok k -> on_lock i m r = Some r' -> one_lock l r'.
Proof.
  intros Ho Hr Hk. unfold on_lock. rewrite Ho. destruct i as [|i]; [|done]. simpl.
  destruct (lock_step m k) as [k'|] eqn:E; [|done]. intros [= <-]. right. exists k'.
  split; [done|]. split; [done|]. by eapply step_ok.
Qed.

Lemma lock_service_step_one l m r r' : one_lock l r -> in_loop l m -> lock_service_step m r = Some r' -> one_lock l r'.
Proof.
  intros Hr Hm. destruct m as [l' t|i m]; simpl in *.
  - subst l'. destruct Hr as [->|(k & Ho & Hc & Hok)].
    + intros E. eapply (on_lock_one l 0 (Acquire t)) in E; [exact E|done|done|apply new_lock_ok].
    + unfold stream_operation_lock. rewrite Hc, Nat.eqb_refl. intros E. by eapply on_lock_one.
  - destruct Hr as [->|(k & Ho & Hc & Hok)]; [by destruct m, i|].
    intros E. assert (on_lock i m r = Some r') by (by destruct m). by eapply on_lock_one.
Qed.

(** While one event loop runs, however its tasks enter, leave, fail and are
    cancelled: at most one of them is in a stream operation, and while none
    is, the first of those that wait is on its way in, or out. *)
Theorem stream_operations_exclusive l ms r :
  Forall (in_loop l) ms -> lock_service_run ms no_lock = Some r ->
  (forall i k t i' k' t', locks r !! i = Some k -> t ∈ inside k ->
     locks r !! i' = Some k' -> t' ∈ inside k' -> i = i' /\ t = t')
  /\ (forall i k w ws, locks r !! i = Some k -> inside k = [] -> _waiters k = w :: ws ->
     is_Some (lock_step (Resume (w_task w)) k)).
Proof.
  intros Hms Hrun. assert (H : one_lock l r).
  { revert Hrun. generalize (or_introl eq_refl : one_lock l no_lock). generalize no_lock.
    induction Hms as [|m ms Hm _ IH]; intros r0 Hr; simpl; [by intros [= <-]|].
    destruct (lock_service_step m r0) as [r1|] eqn:E; [|done]. simpl. apply IH. by eapply lock_service_step_one. }
  destruct H as [->|(k & Ho & _ & [Hi Hf Hl Hr Hk Hn])]; [done|]. rewrite Ho. split.
  - intros [|i] k1 t [|i'] k2 t'; try done. intros [= <-] Ht [= <-] Ht'. split; [done|].
    destruct (_locked k); [destruct Hi as [u Hu]|]; rewrite ?Hu, ?Hi in *; [|by apply elem_of_nil in Ht].
    by apply list_elem_of_singleton in Ht as ->, Ht' as ->.
  - intros [|i] k1 w ws; [|done]. intros [= <-] Hin Hw. simpl. rewrite Hw. simpl.
    unfold is_task. rewrite Nat.eqb_refl.
    destruct (_locked k); [destruct Hi as [u Hu]; congruence|].
    specialize (Hr eq_refl). rewrite Hw in Hr. simpl in Hr. destruct (w_future w); [done|by eexists..].
Qed.

(** Three tasks: the second is cancelled while it waits, and the third is
    still let in when the first one leaves. *)
Example stream_lock_schedule :
  (inside <$> (lock_service_run
     [Operation 7 1; Operation 7 2; Operation 7 3; Proceed 0 (Cancel 2); Proceed 0 (Release 1);
      Proceed 0 (Resume 2); Proceed 0 (Resume 3)] no_lock ≫= fun r => locks r !! 0)) = Some [3].
Proof. vm_compute. reflexivity. Qed.
