(* ===== verification/Alerts.v ===== *)
(** * Alerts ([app/alerts.py])

    The state of the Apple connection, and the webhook it reports to: at most
    one alert an hour for every event, which is here a property of the whole
    history of calls and not of the table the code keeps.  A task that sends an
    event is never run twice at a time ([_refresh] under [token_lock()], the
    scheduled sync in its only loop), so the calls form a sequence. *)
From Stdlib Require Import ZArith Lia Ascii String.
From stdpp Require Import base option list strings gmap.
From S2P Require Import Prelude PyStr PyVal Config Database World.

Open Scope string_scope.

(** The process state the Apple connection uses: besides the world and the
    database, the module-level dictionaries and the tasks scheduled so far. *)
Record Conn := {
  cn_world : World;
  cn_db : Db;
  _last_sent : gmap string Z;
  _pending_states : gmap string Z;
  _background_tasks : nat;
}.

#[export] Instance conn_world_lens : Lens Conn World :=
  {| lget := cn_world;
     lset w s := {| cn_world := w; cn_db := cn_db s; _last_sent := _last_sent s;
                    _pending_states := _pending_states s; _background_tasks := _background_tasks s |} |}.
#[export] Instance conn_world_laws : LensLaws Conn World.
Proof. split; [done|by intros []|done]. Qed.

Definition worldC {A} (m : M World A) : M Conn A := zoom m.

Definition getC : M Conn Conn := getM.
Definition set_db (db : Db) (s : Conn) : Conn :=
  {| cn_world := cn_world s; cn_db := db; _last_sent := _last_sent s;
     _pending_states := _pending_states s; _background_tasks := _background_tasks s |}.
Definition set_last_sent (t : gmap string Z) (s : Conn) : Conn :=
  {| cn_world := cn_world s; cn_db := cn_db s; _last_sent := t;
     _pending_states := _pending_states s; _background_tasks := _background_tasks s |}.

Section alerts.
Context `{Env}.
Variable settings : Settings.
(** [datetime.now(UTC).isoformat()] at a tick *)
Variable utc_isoformat : nat -> string.

(** 3600 seconds, in nanoseconds. *)
Definition ALERT_COOLDOWN : Z := 3600 * 10 ^ 9.

Definition post_request (url : string) (body : Body) : Request :=
  {| rq_method := "POST"; rq_url := url; rq_params := []; rq_headers := []; rq_body := body |}.

Definition alert_url : string := default "" (apple_scim_alert_webhook_url settings).

Definition alert_payload (event message severity timestamp : string) : json :=
  JObj [("event", JStr event); ("severity", JStr severity); ("message", JStr message);
        ("authorize_url", JStr (public_url settings "/apple-scim/authorize"));
        ("timestamp", JStr timestamp)].

Definition send_alert (event message severity : string) : M Conn unit :=
  let url := alert_url in
  if negb (str_true url) then mret tt
  else
    now ← worldC monotonicM;
    s ← getC;
    if match _last_sent s !! event with
       | Some last => (now - last <? ALERT_COOLDOWN)%Z
       | None => false
       end then mret tt
    else
      timestamp ← worldC (ask utc_isoformat);
      catchM
        (_ ← worldC (http (post_request url (JsonBody (alert_payload event message severity timestamp))));
         modifyM (fun s => set_last_sent (<[event := now]> (_last_sent s)) s))
        (fun _ => Some (mret tt)).

(** ** What an alert changes *)

(** Only the world and the alert cooldowns differ. *)
Definition same_store (s s' : Conn) : Prop :=
  cn_db s' = cn_db s /\ _pending_states s' = _pending_states s /\ _background_tasks s' = _background_tasks s.

Lemma same_store_refl s : same_store s s.
Proof. by split_and!. Qed.
Lemma same_store_trans s1 s2 s3 : same_store s1 s2 -> same_store s2 s3 -> same_store s1 s3.
Proof. intros (? & ? & ?) (? & ? & ?). split_and!; congruence. Qed.

Lemma worldC_store {A} (m : M World A) s r s' : worldC m s = (r, s') -> same_store s s'.
Proof. unfold worldC, zoom. destruct (m (lget s)). by intros [= <- <-]. Qed.

(** Sending an alert never raises and leaves the store alone. *)
Lemma send_alert_total event message severity s :
  exists s', send_alert event message severity s = (Ok tt, s') /\ same_store s s'.
Proof.
  unfold send_alert. destruct (negb _); [eexists; split; [done|apply same_store_refl]|].
  destruct (worldC monotonicM s) as [r1 s1] eqn:E1. rewrite (M_bind_run _ _ _ _ _ E1).
  apply worldC_store in E1 as H1. injection E1 as <- E1. rewrite (M_bind_run getC _ s1 (Ok s1) s1 eq_refl).
  destruct (match _last_sent s1 !! event with Some _ => _ | None => _ end); [by exists s1|].
  destruct (worldC (ask utc_isoformat) s1) as [r2 s2] eqn:E2. rewrite (M_bind_run _ _ _ _ _ E2).
  apply worldC_store in E2 as H2. injection E2 as <- E2. unfold catchM, mbind, M_bind.
  destruct (worldC (http _) s2) as [[resp|e] s3] eqn:E3; apply worldC_store in E3 as H3;
    (eexists; split; [done|]; repeat (eapply same_store_trans; [eassumption|]); by split_and!).
Qed.

(** ** The history of alerts *)

Definition cooling (event : string) (s : Conn) : bool :=
  match _last_sent s !! event with
  | Some last => (env_monotonic (w_tick (cn_world s)) - last <? ALERT_COOLDOWN)%Z
  | None => false
  end.

(** The request of an alert sent now: the timestamp is read after the clock. *)
Definition alert_request (event message severity : string) (s : Conn) : Request :=
  post_request alert_url (JsonBody (alert_payload event message severity (utc_isoformat (S (w_tick (cn_world s)))))).

Definition moved (n : nat) (tr : list World.event) (s : Conn) : Conn :=
  {| cn_world := {| w_tick := n + w_tick (cn_world s); w_trace := (w_trace (cn_world s) ++ tr)%list |};
     cn_db := cn_db s; _last_sent := _last_sent s; _pending_states := _pending_states s;
     _background_tasks := _background_tasks s |}.

Lemma worldC_http rq s : worldC (http rq) s = (env_http (w_tick (cn_world s)) rq, moved 1 [Sent rq] s).
Proof. done. Qed.

Lemma send_alert_run event message severity s :
  let rq := alert_request event message severity s in
  send_alert event message severity s =
    (Ok tt, if negb (str_true alert_url) then s
            else if cooling event s then moved 1 [] s
            else if is_ok (env_http (2 + w_tick (cn_world s)) rq)
            then set_last_sent (<[event := env_monotonic (w_tick (cn_world s))]> (_last_sent s)) (moved 3 [Sent rq] s)
            else moved 3 [Sent rq] s).
Proof.
  unfold send_alert, cooling, alert_request. destruct (negb _); [done|].
  unfold mbind, M_bind. cbn -[ALERT_COOLDOWN Z.ltb lookup].
  destruct (match _last_sent s !! event with Some _ => _ | None => _ end).
  - unfold moved. by rewrite app_nil_r.
  - unfold catchM. rewrite worldC_http. cbn [w_tick cn_world Nat.add]. by destruct (env_http _ _).
Qed.

(** The webhook answered what the call sent. *)
Definition reached (s s' : Conn) : bool :=
  match drop (length (w_trace (cn_world s))) (w_trace (cn_world s')) with
  | [Sent rq] => is_ok (env_http (pred (w_tick (cn_world s'))) rq)
  | _ => false
  end.

(** The alerts that reached the webhook, and when each was decided, in any run
    of the program: nothing else writes [_last_sent]. *)
Inductive history : Conn -> list (string * Z) -> Prop :=
| H_start s : _last_sent s = ∅ -> history s []
| H_other s s' log : history s log -> _last_sent s' = _last_sent s -> history s' log
| H_alert s s' log event message severity r :
    history s log -> send_alert event message severity s = (r, s') ->
    history s' (if reached s s' then (log ++ [(event, env_monotonic (w_tick (cn_world s)))])%list else log).

(** [log] allows another alert of [event] at [now]. *)
Definition rested (event : string) (now : Z) (log : list (string * Z)) : Prop :=
  Forall (fun a => fst a = event -> (ALERT_COOLDOWN <= now - snd a)%Z) log.

(** The table holds the last alert of every event, an hour after the others. *)
Definition table_ok (t : gmap string Z) (log : list (string * Z)) : Prop :=
  forall event, match t !! event with
    | Some last => exists before after, log = (before ++ (event, last) :: after)%list /\
        rested event last before /\ Forall (fun a => fst a <> event) after
    | None => Forall (fun a => fst a <> event) log
    end.

Lemma rested_other event now log : Forall (fun a => fst a <> event) log -> rested event now log.
Proof. intros Hl. eapply Forall_impl; [exact Hl|]. by intros a Ha Hb. Qed.

Lemma cooling_spec event s log : table_ok (_last_sent s) log ->
  cooling event s = false <-> rested event (env_monotonic (w_tick (cn_world s))) log.
Proof.
  intros Hok. unfold cooling. specialize (Hok event). destruct (_last_sent s !! event) as [last|].
  2:{ split; [|done]. intros _. by apply rested_other. }
  destruct Hok as (before & after & -> & Hb & Ha). unfold rested in *. rewrite Forall_app, Forall_cons. simpl.
  rewrite Z.ltb_ge. split; [|intros (_ & Hl & _); by apply Hl].
  intros Hle. split_and!; [|done|by apply rested_other].
  eapply Forall_impl; [exact Hb|]. intros a Hl E. specialize (Hl E). unfold ALERT_COOLDOWN in *. lia.
Qed.

Lemma table_ok_alert event now t log : table_ok t log -> rested event now log ->
  table_ok (<[event := now]> t) (log ++ [(event, now)]).
Proof.
  intros Hok Hr e. destruct (decide (event = e)) as [<-|Hne].
  - rewrite lookup_insert_eq. exists log, []. by repeat constructor.
  - rewrite lookup_insert_ne by done. specialize (Hok e). destruct (t !! e).
    + destruct Hok as (before & after & -> & Hb & Ha). exists before, (after ++ [(event, now)])%list.
      rewrite <- app_assoc. split_and!; [done|done|]. apply Forall_app. by repeat constructor.
    + apply Forall_app. by repeat constructor.
Qed.

Lemma moved_trace n tr s : drop (length (w_trace (cn_world s))) (w_trace (cn_world (moved n tr s))) = tr.
Proof. apply drop_app_length. Qed.

Lemma alert_keeps_ok event message severity s log r s' : table_ok (_last_sent s) log ->
  send_alert event message severity s = (r, s') ->
  table_ok (_last_sent s') (if reached s s' then log ++ [(event, env_monotonic (w_tick (cn_world s)))] else log)%list.
Proof.
  intros Hok. rewrite send_alert_run. intros [= <- <-]. unfold reached.
  destruct (negb _); [by rewrite drop_all|]. destruct (cooling event s) eqn:Hc; [by rewrite moved_trace|].
  rewrite (cooling_spec _ _ _ Hok) in Hc. destruct (is_ok _) eqn:Hh.
  - change (w_trace (cn_world (set_last_sent ?t ?m))) with (w_trace (cn_world m)).
    rewrite moved_trace. cbn [w_tick cn_world moved set_last_sent Nat.add pred]. rewrite Hh. by apply table_ok_alert.
  - rewrite moved_trace. cbn [w_tick cn_world moved Nat.add pred]. by rewrite Hh.
Qed.

Lemma history_ok s log : history s log -> table_ok (_last_sent s) log.
Proof.
  induction 1 as [s E|s s' log _ IH E|s s' log event message severity r _ IH Hrun].
  - intros event. by rewrite E, lookup_empty.
  - by rewrite E.
  - by eapply alert_keeps_ok.
Qed.

(** C29: the webhook hears of an event at most once an hour, and no alert is
    lost to an older failure: after any history, [send_alert] posts the alert
    exactly when a webhook is configured and every earlier alert of that event
    that got an answer is an hour old; alerts of other events and attempts that
    failed do not count.  Otherwise it sends nothing.  It never raises and
    never touches tokens, OAuth states or tasks. *)
Theorem alert_once_an_hour s log event message severity : history s log ->
  let rq := alert_request event message severity s in
  exists s', send_alert event message severity s = (Ok tt, s') /\ same_store s s' /\
    (alert_url <> "" /\ rested event (env_monotonic (w_tick (cn_world s))) log /\
       w_trace (cn_world s') = (w_trace (cn_world s) ++ [Sent rq])%list \/
     ~ (alert_url <> "" /\ rested event (env_monotonic (w_tick (cn_world s))) log) /\
       w_trace (cn_world s') = w_trace (cn_world s)).
Proof.
  intros Hh%history_ok rq. eexists. rewrite send_alert_run. split; [reflexivity|].
  rewrite <- (cooling_spec _ _ _ Hh). unfold str_true. destruct (String.eqb_spec alert_url "") as [E|Hne]; cbn [negb].
  { split; [apply same_store_refl|]. right. split; [|done]. by intros [? _]. }
  destruct (cooling event s) eqn:Hc; [|destruct (is_ok _)]; (split; [done|]).
  - right. split; [by intros [_ ?]|]. apply app_nil_r.
  - by left.
  - by left.
Qed.
End alerts.

(** A webhook that answers 500, and two alerts of the same event in a row. *)
Module Example.

#[local] Instance alert_env : Env := {|
  env_now t := 1700000000%Z; env_monotonic t := (Z.of_nat t * 10 ^ 9)%Z; env_uuid t := "uuid"; env_entropy t := "iv";
  env_http t rq := Ok {| rs_status := 500; rs_content := ""; rs_text := ""; rs_json := Err JSONDecodeError; rs_headers := [] |};
  env_getaddrinfo t host := Ok []; env_deadline t := None |}.

Definition alerting : Settings :=
  match from_env (fun name => if String.eqb name "APPLE_SCIM_ALERT_WEBHOOK_URL"
                              then Some "https://alerts.example.com/ssf" else example_env name) with
  | Ok settings => settings
  | Err _ => example_settings
  end.

Definition fresh : Conn :=
  {| cn_world := start; cn_db := empty_db; _last_sent := ∅; _pending_states := ∅; _background_tasks := 0 |}.
Definition send : M Conn unit := send_alert alerting (fun _ => "now") "scim_no_valid_token" "message" "error".
Definition once : Conn := snd (send fresh).

(** The first is posted, the second, seconds later, is not. *)
Lemma alert_once_an_hour_witness :
  length (w_trace (cn_world once)) = 1%nat /\ w_trace (cn_world (snd (send once))) = w_trace (cn_world once).
Proof.
  split; [vm_compute; reflexivity|].
  destruct (alert_once_an_hour alerting (fun _ => "now") once [("scim_no_valid_token", 0%Z)]
              "scim_no_valid_token" "message" "error") as (s' & E & _ & Hor).
  - change [("scim_no_valid_token", 0%Z)] with ([] ++ [("scim_no_valid_token", env_monotonic (w_tick (cn_world fresh)))])%list.
    assert (reached fresh once = true) as Hreached by (vm_compute; reflexivity).
    pose proof (H_alert alerting (fun _ => "now") fresh once [] "scim_no_valid_token" "message" "error" (Ok tt)) as Hh.
    rewrite Hreached in Hh. apply Hh; [by apply H_start|]. vm_compute. reflexivity.
  - unfold send. rewrite E. destruct Hor as [(_ & Hr & _)|[_ Htr]]; [|exact Htr].
    exfalso. apply Forall_cons in Hr as [Hr _]. specialize (Hr eq_refl). vm_compute in Hr. by apply Hr.
Defined.
End Example.
