(* ===== verification/ScimToken.v ===== *)
(** * Apple OAuth tokens ([app/scim/token.py])

    The single row of [apple_scim_tokens] and its refresh.
    Every access that writes the row runs under [token_lock()], so the row does
    not change between the steps of a refresh.  Message text outside Latin-1 is
    given by its UTF-8 bytes. *)
From Stdlib Require Import ZArith Lia Ascii String.
From stdpp Require Import base option list strings gmap.
From S2P Require Import Prelude PyStr PyVal JsonText Config Database World Alerts.

Open Scope string_scope.

(** ** Binding a value to a TEXT column

    [None] is NULL, a number is converted to text, a list or a dictionary is
    refused; the text SQLite gives a float is its own business. *)
Class Sqlite := { real_as_text : json -> option string }.

Definition fits_int64 (z : Z) : bool := ((- 2 ^ 63 <=? z) && (z <? 2 ^ 63))%Z.

Definition bind_text `{Sqlite} (v : json) : result (option string) :=
  match v with
  | JNull => Ok None
  | JStr s => Ok (Some s)
  | JBool b => Ok (Some (str_of_int (int_of_bool b)))
  | JInt z => if fits_int64 z then Ok (Some (str_of_int z)) else Err OverflowError
  | JFloat _ _ => Ok (real_as_text v)
  | JArr _ | JObj _ => Err OtherException
  end.

Definition bind_integer (z : Z) : result Z := if fits_int64 z then Ok z else Err OverflowError.

Section tokens.
Context `{Env} `{Sqlite}.
Variable settings : Settings.
(** [datetime.now(UTC).isoformat()] at a tick *)
Variable utc_isoformat : nat -> string.

(** ** The token row *)

(** [COALESCE(excluded.refresh_token, refresh_token)] on conflict *)
Definition upsert_tokens (access_token : string) (refresh_token : option string) (expires_at now : Z) (db : Db) : Db :=
  set_tokens (Some {|
    tk_access_token := access_token;
    tk_refresh_token := match refresh_token with
                        | Some r => Some r
                        | None => apple_scim_tokens db ≫= tk_refresh_token
                        end;
    tk_expires_at := expires_at;
    tk_updated_at := now |}) db.

Definition safety_margin (expires_in : Z) : Z := Z.min 60 (Z.max (expires_in / 2) 0).

Definition save_tokens (access_token refresh_token : json) (expires_in : Z) : M Conn unit :=
  now ← worldC nowM;
  let expires_at := (now + expires_in - safety_margin expires_in)%Z in
  access ← liftR (bind_text access_token);
  refresh ← liftR (bind_text refresh_token);
  expires_at ← liftR (bind_integer expires_at);
  now ← liftR (bind_integer now);
  match access with
  | None => raiseM OtherException                         (* NOT NULL constraint *)
  | Some access => modifyM (fun s => set_db (upsert_tokens access refresh expires_at now (cn_db s)) s)
  end.

Definition load_tokens : M Conn (option TokenRow) := s ← getC; mret (apple_scim_tokens (cn_db s)).

(** The two blocks that read [expires_in]; both default to one hour. *)
Definition parse_expires_in (raw_expires : json) : result Z :=
  catch (expires_in ← py_int raw_expires;
         _ ← raise_when (expires_in <=? 0)%Z (ValueError "expires_in must be > 0");
         Ok expires_in)
    (fun e => match e with
              | TypeError => Some (Ok 3600%Z)
              | _ => if is_ValueError e then Some (Ok 3600%Z) else None
              end).

Definition token_request (fields : list (string * string)) : Request :=
  post_request (apple_scim_token_url settings) (FormBody fields).

Definition client_fields : list (string * string) :=
  [("client_id", default "" (apple_scim_client_id settings));
   ("client_secret", default "" (apple_scim_client_secret settings))].

(** [try: resp = await client.post(...) except httpx.HTTPError: return None] *)
Definition post_or_none (rq : Request) : M Conn (option Response) :=
  catchM (r ← worldC (http rq); mret (Some r))
    (fun e => match e with HTTPError => Some (mret None) | _ => None end).

(** [resp.json().get("error", "")], with any exception giving "" *)
Definition error_code (resp : Response) : json :=
  match rs_json resp with
  | Ok (JObj d) => dget_default "error" (JStr "") d
  | _ => JStr ""
  end.

Definition secret_expired (resp : Response) : bool :=
  existsb (py_eq (error_code resp)) [JStr "invalid_client"; JStr "invalid_grant"; JStr "unauthorized_client"].

Definition _refresh (refresh_token : option string) : M Conn (option string) :=
  let refresh_token := default "" refresh_token in
  if negb (str_true refresh_token) then mret None
  else
    resp ← post_or_none (token_request
             ([("grant_type", "refresh_token"); ("refresh_token", refresh_token)] ++ client_fields)%list);
    match resp with
    | None => mret None
    | Some resp =>
        if negb (rs_status resp =? 200)%Z then
          _ ← (if secret_expired resp
               then send_alert settings utc_isoformat "scim_client_secret_expired"
                      "Apple SCIM client_secret has expired — generate a new secret in Apple Business Manager, update APPLE_SCIM_CLIENT_SECRET and re-authorize"
                      "critical"
               else mret tt);
          mret None
        else
          match rs_json resp with
          | Err _ => mret None
          | Ok data =>
              access_token ← liftR (py_get "access_token" data);
              new_refresh ← liftR (py_get "refresh_token" data);
              raw_expires ← liftR (py_get "expires_in" data);
              match access_token with
              | JStr access =>
                  if negb (str_true access) then mret None
                  else
                    expires_in ← liftR (parse_expires_in raw_expires);
                    _ ← save_tokens access_token new_refresh expires_in;
                    mret (Some access)
              | _ => mret None
              end
          end
    end.

Definition get_valid_access_token : M Conn (option string) :=
  tokens ← load_tokens;
  match tokens with
  | None => mret None
  | Some tokens =>
      now ← worldC nowM;
      if (now <? tk_expires_at tokens)%Z then mret (Some (tk_access_token tokens))
      else _refresh (tk_refresh_token tokens)
  end.

(** ** What they change *)

Lemma save_tokens_db access refresh expires_in s r s' : save_tokens access refresh expires_in s = (r, s') ->
  match r with
  | Ok _ => exists t a rf now, bind_text access = Ok (Some a) /\ bind_text refresh = Ok rf /\ now = env_now t /\
      same_store (set_db (cn_db s') s) s' /\
      cn_db s' = upsert_tokens a rf (now + expires_in - safety_margin expires_in) now (cn_db s)
  | Err _ => same_store s s'
  end.
Proof.
  unfold save_tokens. destruct (worldC nowM s) as [r1 s1] eqn:E1. rewrite (M_bind_run _ _ _ _ _ E1).
  apply worldC_store in E1 as H1. injection E1 as <- E1. cbv zeta.
  liftR_step Ea; [|by intros [= <- <-]]. liftR_step Er; [|by intros [= <- <-]].
  liftR_step Ee; [|by intros [= <- <-]]. liftR_step En; [|by intros [= <- <-]].
  unfold bind_integer in Ee, En. destruct (fits_int64 _) in Ee; [injection Ee as <-|done].
  destruct (fits_int64 _) in En; [injection En as <-|done].
  destruct a as [a|]; intros [= <- <-]; [|done]. destruct H1 as (Hdb & Hp & Hb).
  eexists _, a, a0, _. split_and!; [done|done|reflexivity|..]; simpl; try done. by rewrite Hdb.
Qed.

Lemma post_or_none_store rq s r s' : post_or_none rq s = (r, s') -> same_store s s'.
Proof.
  unfold post_or_none, catchM, mbind, M_bind.
  destruct (worldC (http rq) s) as [[resp|e] s1] eqn:E; apply worldC_store in E.
  - by intros [= <- <-].
  - destruct e; by intros [= <- <-].
Qed.

Lemma parse_expires_in_pos raw n : parse_expires_in raw = Ok n -> (0 < n)%Z.
Proof.
  unfold parse_expires_in. destruct (py_int raw) as [z|e]; simpl.
  - unfold raise_when. destruct (z <=? 0)%Z eqn:E; simpl; [intros [= <-]; lia|]. bool_hyps. intros [= <-]. lia.
  - destruct e; simpl; try done; intros [= <-]; lia.
Qed.

Lemma safety_margin_bounds n : (0 < n)%Z -> (0 <= safety_margin n < n)%Z /\ (safety_margin n <= 60)%Z.
Proof. intros Hn. unfold safety_margin. pose proof (Z.div_lt n 2). pose proof (Z.div_pos n 2). lia. Qed.

(** ** The answer of the token endpoint *)

Definition refresh_request (refresh_token : string) : Request :=
  token_request ([("grant_type", "refresh_token"); ("refresh_token", refresh_token)] ++ client_fields)%list.

(** The seconds the answer gives the token: [expires_in] as a positive
    integer, and one hour when it is none. *)
Definition lifetime (raw : json) : option Z :=
  match py_int raw with
  | Ok n => Some (if (0 <? n)%Z then n else 3600%Z)
  | Err e => if bool_decide (e = TypeError) || is_ValueError e then Some 3600%Z else None
  end.

Lemma parse_expires_in_lifetime raw :
  match parse_expires_in raw with Ok n => lifetime raw = Some n | Err _ => lifetime raw = None end.
Proof.
  unfold parse_expires_in, lifetime. destruct (py_int raw) as [z|e]; simpl.
  - unfold raise_when. destruct (z <=? 0)%Z eqn:E; simpl; bool_hyps;
      [by rewrite (proj2 (Z.ltb_ge 0 z)) by lia|by rewrite (proj2 (Z.ltb_lt 0 z)) by lia].
  - by destruct e.
Qed.

Lemma lifetime_pos raw n : lifetime raw = Some n -> (0 < n)%Z.
Proof.
  unfold lifetime. destruct (py_int raw) as [z|e].
  - intros [= <-]. destruct (0 <? z)%Z eqn:E; bool_hyps; lia.
  - destruct (_ || _); [intros [= <-]; lia|done].
Qed.

(** The answer [resp] to a refresh with the token [rt] gives the access token
    [access], and makes at [now] the row [new]: with the refresh token of the
    answer where it has one, and the margin taken off the lifetime. *)
Definition answered_row (now : Z) (rt : string) (resp : Response) (access : string) (new : TokenRow) : Prop :=
  exists data rf n,
    rs_status resp = 200%Z /\ rs_json resp = Ok (JObj data) /\
    dget "access_token" data = JStr access /\ access <> "" /\
    bind_text (dget "refresh_token" data) = Ok rf /\
    lifetime (dget "expires_in" data) = Some n /\
    fits_int64 now = true /\ fits_int64 (now + n - Z.min 60 (n / 2)) = true /\
    new = {| tk_access_token := access;
             tk_refresh_token := Some (default rt rf);
             tk_expires_at := (now + n - Z.min 60 (n / 2))%Z;
             tk_updated_at := now |}.

(** A refresh of the row [old], sent at tick [t], succeeds. *)
Definition refreshed_row (t : nat) (old : TokenRow) (access : string) (new : TokenRow) : Prop :=
  exists rt resp, tk_refresh_token old = Some rt /\ rt <> "" /\
    env_http t (refresh_request rt) = Ok resp /\ answered_row (env_now (S t)) rt resp access new.

Lemma safety_margin_pos n : (0 < n)%Z -> safety_margin n = Z.min 60 (n / 2).
Proof. intros Hn. unfold safety_margin. pose proof (Z.div_pos n 2). lia. Qed.

Lemma answered_row_expiry now rt resp access new :
  answered_row now rt resp access new -> (tk_updated_at new < tk_expires_at new)%Z.
Proof.
  intros (data & rf & n & _ & _ & _ & _ & _ & Hn & _ & _ & ->). simpl.
  apply lifetime_pos in Hn. pose proof (Z.div_lt n 2). lia.
Qed.

Lemma save_tokens_trace access refresh expires_in s r s' :
  save_tokens access refresh expires_in s = (r, s') -> w_trace (cn_world s') = w_trace (cn_world s).
Proof.
  unfold save_tokens. destruct (worldC nowM s) as [r1 s1] eqn:E1. rewrite (M_bind_run _ _ _ _ _ E1).
  injection E1 as <- <-. cbv zeta. liftR_step Ea; [|by intros [= <- <-]].
  liftR_step Er; [|by intros [= <- <-]]. liftR_step Ee; [|by intros [= <- <-]]. liftR_step En; [|by intros [= <- <-]].
  by destruct a as [a|]; intros [= <- <-].
Qed.

(** What [save_tokens] stores, or that it stores nothing. *)
Lemma save_tokens_run access refresh n s r s' : save_tokens (JStr access) refresh n s = (r, s') ->
  let now := env_now (w_tick (cn_world s)) in
  let expires_at := (now + n - safety_margin n)%Z in
  w_trace (cn_world s') = w_trace (cn_world s) /\
  match r with
  | Ok _ => exists rf, bind_text refresh = Ok rf /\ fits_int64 now = true /\ fits_int64 expires_at = true /\
      same_store (set_db (upsert_tokens access rf expires_at now (cn_db s)) s) s'
  | Err _ => same_store s s' /\
      (forall rf, bind_text refresh = Ok rf -> fits_int64 now = true -> fits_int64 expires_at = true -> False)
  end.
Proof.
  intros E. cbv zeta. split; [by apply save_tokens_trace in E|]. revert E.
  unfold save_tokens. destruct (worldC nowM s) as [r1 s1] eqn:E1. rewrite (M_bind_run _ _ _ _ _ E1).
  apply worldC_store in E1 as H1. injection E1 as <- _. cbv zeta. rewrite liftR_bind. cbn [bind_text].
  liftR_step Er; [|by intros [= <- <-]]. liftR_step Ee; [|intros [= <- <-]].
  2: { split; [done|]. intros rf _ _ Hf. unfold bind_integer in Ee. by rewrite Hf in Ee. }
  liftR_step En; [|intros [= <- <-]].
  2: { split; [done|]. intros rf _ Hf _. unfold bind_integer in En. by rewrite Hf in En. }
  unfold bind_integer in Ee, En. destruct (fits_int64 (_ - _)) eqn:Hf1; [injection Ee as <-|done].
  destruct (fits_int64 (env_now _)) eqn:Hf2; [injection En as <-|done].
  intros [= <- <-]. exists a. split; [done|]. split; [done|]. split; [done|].
  destruct H1 as (Hdb & Hp & Hb). split_and!; simpl; [by rewrite Hdb|done|done].
Qed.

(** A request that is answered, or not. *)
Lemma post_or_none_run rq s r s' : post_or_none rq s = (r, s') ->
  same_store s s' /\ w_tick (cn_world s') = S (w_tick (cn_world s)) /\
  w_trace (cn_world s') = (w_trace (cn_world s) ++ [Sent rq])%list /\
  match r with
  | Ok (Some resp) => env_http (w_tick (cn_world s)) rq = Ok resp
  | _ => is_ok (env_http (w_tick (cn_world s)) rq) = false
  end.
Proof.
  intros E. split; [by eapply post_or_none_store|]. revert E.
  unfold post_or_none, catchM, worldC, zoom, http, emit, ask, liftR, mbind, M_bind. cbn.
  destruct (env_http (w_tick (cn_world s)) rq) as [resp|e]; [by intros [= <- <-]|destruct e; by intros [= <- <-]].
Qed.

(** What [_refresh] does with an answer that is there. *)
Definition use_answer (resp : Response) : M Conn (option string) :=
  match rs_json resp with
  | Err _ => mret None
  | Ok data =>
      access_token ← liftR (py_get "access_token" data);
      new_refresh ← liftR (py_get "refresh_token" data);
      raw_expires ← liftR (py_get "expires_in" data);
      match access_token with
      | JStr access =>
          if negb (str_true access) then mret None
          else
            expires_in ← liftR (parse_expires_in raw_expires);
            _ ← save_tokens access_token new_refresh expires_in;
            mret (Some access)
      | _ => mret None
      end
  end.

Lemma use_answer_run rt resp s r s' row :
  apple_scim_tokens (cn_db s) = Some row -> tk_refresh_token row = Some rt -> rs_status resp = 200%Z ->
  use_answer resp s = (r, s') ->
  w_trace (cn_world s') = w_trace (cn_world s) /\
  match r with
  | Ok (Some access) => exists row', answered_row (env_now (w_tick (cn_world s))) rt resp access row' /\
      same_store (set_db (set_tokens (Some row') (cn_db s)) s) s'
  | _ => same_store s s' /\ forall access row', ~ answered_row (env_now (w_tick (cn_world s))) rt resp access row'
  end.
Proof.
  intros Hrow Hrt H200. unfold use_answer, answered_row. destruct (rs_json resp) as [data|e].
  2: { intros [= <- <-]. split; [done|]. split; [done|]. by intros ?? (? & ? & ? & _ & ? & _). }
  destruct data as [| | | | | |data]; try (intros [= <- <-]; split; [done|]; split; [done|]; by intros ?? (? & ? & ? & _ & ? & _)).
  cbn [py_get]. do 3 (rewrite liftR_bind; cbv beta iota).
  destruct (dget "access_token" data) as [| | | |access| |] eqn:Ha;
    try (intros [= <- <-]; split; [done|]; split; [done|]; intros ?? (? & ? & ? & _ & [= <-] & ? & _); congruence).
  destruct (str_true access) eqn:Hne; cbn [negb]; unfold str_true in Hne; bool_hyps.
  2: { intros [= <- <-]. split; [done|]. split; [done|]. intros ?? (? & ? & ? & _ & [= <-] & ? & ? & _); congruence. }
  pose proof (parse_expires_in_lifetime (dget "expires_in" data)) as Hlife.
  destruct (parse_expires_in _) as [n|e]; rewrite liftR_bind.
  2: { intros [= <- <-]. split; [done|]. split; [done|]. intros ?? (? & ? & ? & _ & [= <-] & ? & ? & ? & ? & _); congruence. }
  destruct (save_tokens (JStr access) (dget "refresh_token" data) n s) as [r2 s2] eqn:E2. rewrite (M_bind_run _ _ _ _ _ E2).
apply save_tokens_run in E2 as [Htr E2]. rewrite safety_margin_pos in E2 by by eapply lifetime_pos.
  destruct r2 as [?|e]; intros [= <- <-]; (split; [done|]).
  - destruct E2 as (rf & Hrf & Hf1 & Hf2 & Hs). eexists. split; [exists data, rf, n; by split_and!|].
    unfold upsert_tokens in Hs. rewrite Hrow in Hs. cbn in Hs. rewrite Hrt in Hs. by destruct rf.
  - destruct E2 as [Hs Hno]. split; [done|].
    intros access' row' (data' & rf & n' & _ & [= <-] & _ & _ & Hrf & Hn' & Hf1 & Hf2 & _).
    rewrite Hlife in Hn'. injection Hn' as <-. by eapply Hno.
Qed.

Lemma refresh_run s r s' row :
  apple_scim_tokens (cn_db s) = Some row -> _refresh (tk_refresh_token row) s = (r, s') ->
  match r with
  | Ok (Some access) => exists rt row', tk_refresh_token row = Some rt /\
      refreshed_row (w_tick (cn_world s)) row access row' /\
      same_store (set_db (set_tokens (Some row') (cn_db s)) s) s' /\
      w_trace (cn_world s') = (w_trace (cn_world s) ++ [Sent (refresh_request rt)])%list
  | _ => same_store s s' /\ forall access row', ~ refreshed_row (w_tick (cn_world s)) row access row'
  end.
Proof.
  intros Hrow. unfold _refresh, refreshed_row. cbv zeta.
  destruct (tk_refresh_token row) as [rt|] eqn:Hrt; [|intros [= <- <-]; split; [done|by intros ?? (? & ? & ? & _)]].
  cbn [from_option id]. destruct (str_true rt) eqn:Ht; cbn [negb]; unfold str_true in Ht; bool_hyps.
  2: { intros [= <- <-]. split; [done|]. by intros ?? (? & ? & [= <-] & ? & _). }
  fold (refresh_request rt). set (t := w_tick (cn_world s)).
  destruct (post_or_none (refresh_request rt) s) as [r1 s1] eqn:E1.
  pose proof (post_or_none_run _ _ _ _ E1) as (H1 & Ht1 & Htr1 & Hans).
  rewrite (M_bind_run _ _ _ _ _ E1).
  assert (is_ok (env_http t (refresh_request rt)) = false -> forall access row', ~ exists rt0 resp, Some rt = Some rt0 /\ rt0 <> "" /\
    env_http t (refresh_request rt0) = Ok resp /\ answered_row (env_now (S t)) rt0 resp access row') as Hbad.
  { intros Hno access row' (? & resp & [= <-] & _ & E & _). rewrite E in Hno. done. }
  destruct r1 as [[resp|]|e]; [|intros [= <- <-]; split; [done|by apply Hbad]..]. clear Hbad.
  assert ((forall access row', ~ answered_row (env_now (S t)) rt resp access row') -> forall access row', ~ exists rt0 resp0, Some rt = Some rt0 /\ rt0 <> "" /\
    env_http t (refresh_request rt0) = Ok resp0 /\ answered_row (env_now (S t)) rt0 resp0 access row') as Hbad.
  { intros Hno access row' (? & resp' & [= <-] & _ & E & Hrow'). unfold t in E. rewrite Hans in E. injection E as <-. by eapply Hno. }
  destruct (rs_status resp =? 200)%Z eqn:Hs; cbn [negb]; bool_hyps.
  - fold (use_answer resp). intros E. assert (apple_scim_tokens (cn_db s1) = Some row) as Hrow1 by (by destruct H1 as (-> & _)).
    apply (use_answer_run rt resp _ _ _ row Hrow1 Hrt Hs) in E as [Htr E]. rewrite Ht1 in E.
    destruct r as [[access|]|e]; [|destruct E as [H2 Hno]; split; [by eapply same_store_trans|by apply Hbad]..].
    destruct E as (row' & Hrow' & H2). exists rt, row'. split; [done|]. split; [by exists rt, resp|].
    split; [|by rewrite Htr]. destruct H1 as (Hdb & Hp & Hb), H2 as (Hdb2 & Hp2 & Hb2). simpl in *.
    split_and!; simpl; congruence.
  - assert (forall access row', ~ answered_row (env_now (S t)) rt resp access row') as Hno.
    { intros ?? (? & ? & ? & ? & _). done. }
    destruct (send_alert_total settings utc_isoformat "scim_client_secret_expired"
      "Apple SCIM client_secret has expired — generate a new secret in Apple Business Manager, update APPLE_SCIM_CLIENT_SECRET and re-authorize"
      "critical" s1) as (s2 & Hs2 & H2).
    destruct (secret_expired resp); [rewrite (M_bind_run _ _ _ _ _ Hs2)|]; intros [= <- <-];
      (split; [try done; by eapply same_store_trans|by apply Hbad]).
Qed.

(** C28: asking for an access token gives the stored one exactly while it is
    valid, without contacting Apple.  Once it has expired, one refresh request
    is sent with the stored refresh token, and the new access token is given,
    and stored, exactly when the answer to it is usable: a status 200 and a
    JSON object with a non-empty [access_token], values the row can hold, and
    a non-empty refresh token to ask with.  The row then holds the access
    token and the refresh token of that answer - the old refresh token when it
    has none - and as expiry the present time plus the answer's [expires_in],
    one hour when that is no positive integer, less a margin of half of it but
    at most a minute; so it is later than now.  In every other case - no
    tokens, no refresh token, a failed or unusable answer, an exception - the
    stored tokens and the rest of the store are as before. *)
Theorem access_token_lifecycle s r s' : get_valid_access_token s = (r, s') ->
  let t := w_tick (cn_world s) in
  match r with
  | Ok (Some token) =>
      exists row, apple_scim_tokens (cn_db s) = Some row /\
        ((env_now t < tk_expires_at row)%Z /\ token = tk_access_token row /\
           same_store s s' /\ w_trace (cn_world s') = w_trace (cn_world s) \/
         (tk_expires_at row <= env_now t)%Z /\
           exists rt row', tk_refresh_token row = Some rt /\ refreshed_row (S t) row token row' /\
             same_store (set_db (set_tokens (Some row') (cn_db s)) s) s' /\
             w_trace (cn_world s') = (w_trace (cn_world s) ++ [Sent (refresh_request rt)])%list /\
             (tk_updated_at row' < tk_expires_at row')%Z)
  | _ => same_store s s' /\
      forall row, apple_scim_tokens (cn_db s) = Some row ->
        (tk_expires_at row <= env_now t)%Z /\ forall token row', ~ refreshed_row (S t) row token row'
  end.
Proof.
  unfold get_valid_access_token, load_tokens. cbv zeta.
  unfold mbind at 1, M_bind at 1. unfold mbind at 1, M_bind at 1. cbn [getC getM mret M_ret].
  destruct (apple_scim_tokens (cn_db s)) as [row|] eqn:Hrow; [|by intros [= <- <-]].
  destruct (worldC nowM s) as [r1 s1] eqn:E1. rewrite (M_bind_run _ _ _ _ _ E1).
  apply worldC_store in E1 as H1. injection E1 as <- Es1. destruct (_ <? _)%Z eqn:Hlt; bool_hyps.
  { intros [= <- <-]. exists row. split; [done|]. left. split_and!; [done..|by rewrite <- Es1]. }
  assert (w_tick (cn_world s1) = S (w_tick (cn_world s)) /\ w_trace (cn_world s1) = w_trace (cn_world s)) as [Ht Htr]
    by (by rewrite <- Es1).
  intros E. apply (refresh_run _ _ _ row) in E; [|by destruct H1 as (-> & _)]. rewrite Ht, Htr in E.
  destruct r as [[token|]|e].
  - destruct E as (rt & row' & Hrt & Hrow' & H2 & Htr'). exists row. split; [done|]. right. split; [done|].
    exists rt, row'. split_and!; [done..| |done|].
    + destruct H1 as (Hdb & Hp & Hb), H2 as (Hdb2 & Hp2 & Hb2). simpl in *. split_and!; simpl; congruence.
    + destruct Hrow' as (rt' & resp & _ & _ & _ & Hans). by eapply answered_row_expiry.
  - destruct E as [H2 Hno]. split; [by eapply same_store_trans|]. intros row' [= <-]. by split.
  - destruct E as [H2 Hno]. split; [by eapply same_store_trans|]. intros row' [= <-]. by split.
Qed.
End tokens.

Module Example.

(** A token endpoint that answers every request with new tokens. *)
#[export] Instance token_endpoint : Env := {|
  env_now t := (1700000000 + Z.of_nat t)%Z;
  env_monotonic t := (Z.of_nat t * 10 ^ 9)%Z;
  env_uuid t := "uuid";
  env_entropy t := "state" +:+ str_of_int (Z.of_nat t);
  env_http t rq := Ok {| rs_status := 200; rs_content := ""; rs_text := "";
    rs_json := Ok (JObj [("access_token", JStr "fresh"); ("expires_in", JInt 3600)]); rs_headers := [] |};
  env_getaddrinfo t host := Ok [];
  env_deadline t := None;
|}.

#[export] Instance no_reals : Sqlite := {| real_as_text v := None |}.

Definition expired_row : TokenRow :=
  {| tk_access_token := "old"; tk_refresh_token := Some "refresh"; tk_expires_at := 1600000000; tk_updated_at := 1599990000 |}.

Definition connected : Conn :=
  {| cn_world := start; cn_db := set_tokens (Some expired_row) empty_db; _last_sent := ∅;
     _pending_states := {["csrf" := 0%Z]}; _background_tasks := 0 |}.

Definition refreshed : result (option string) * Conn :=
  get_valid_access_token example_settings (fun _ => "now") connected.

(** The refresh token survives, as Apple did not send another. *)
Definition fresh_row : TokenRow :=
  {| tk_access_token := "fresh"; tk_refresh_token := Some "refresh";
     tk_expires_at := 1700003542; tk_updated_at := 1700000002 |}.

Lemma access_token_lifecycle_witness :
  refreshed_row example_settings 1 expired_row "fresh" fresh_row /\
  same_store (set_db (set_tokens (Some fresh_row) (cn_db connected)) connected) (snd refreshed).
Proof.
  assert (refreshed = (Ok (Some "fresh"), snd refreshed)) as E by (vm_compute; reflexivity).
  destruct (access_token_lifecycle example_settings (fun _ => "now") connected _ _ E)
    as (row & Hrow & [[Hlt _]|[_ (rt & row' & _ & Hr & Hs & _)]]); injection Hrow as <-; [discriminate Hlt|].
  assert (row' = fresh_row) as <-; [|split; [exact Hr|exact Hs]].
  destruct Hr as (rt' & resp & [= <-] & _ & [= <-] & data & rf & n & _ & [= <-] & _ & _ & [= <-] & [= <-] & _ & _ & ->).
  reflexivity.
Defined.
End Example.
