(* ===== verification/Authentik.v ===== *)
(** * Source users from Authentik ([app/scim/authentik.py])

    Paging through the users API, dropping what cannot be represented in SCIM
    and mapping the rest. *)
From Stdlib Require Import ZArith Lia Ascii String.
From stdpp Require Import base option list strings gmap.
From S2P Require Import Prelude PyStr PyVal JsonText Config Database World AppleScim AppleScimLogic Alerts ScimToken.

Open Scope string_scope.

(** [x.strip()], [x.split(" ", 1)] on a value that may not be a string *)
Definition strip_of (v : json) : result string :=
  match v with JStr s => Ok (strip s) | _ => Err AttributeError end.

(** [user.get("name") or ""], used as a string *)
Definition full_name_of (user : dict) : result string :=
  match py_or (dget "name" user) (JStr "") with JStr s => Ok s | _ => Err AttributeError end.

Definition _map_to_scim (user : dict) : result dict :=
  full_name ← full_name_of user;
  let '(given_name, rest) := split_once " " full_name in
  let family_name := default "" rest in
  pk ← match dlookup "pk" user with Some v => Ok v | None => Err KeyError end;
  user_name ← strip_of (py_or (dget "email" user) (dget_default "username" (JStr "") user));
  email ← strip_of (py_or (dget "email" user) (JStr ""));
  Ok [("schemas", JArr [JStr "urn:ietf:params:scim:schemas:core:2.0:User"]);
      ("externalId", JStr (py_str pk));
      ("userName", JStr user_name);
      ("name", JObj [("givenName", JStr given_name); ("familyName", JStr family_name); ("formatted", JStr full_name)]);
      ("emails", JArr [JObj [("value", JStr email); ("primary", JBool true); ("type", JStr "work")]]);
      ("active", dget_default "is_active" (JBool true) user)].

(** The loop of [_filter_and_map_users]; the list holds what the API gave. *)
Fixpoint _filter_and_map_users (all_users : list json) : result (list dict) :=
  match all_users with
  | [] => Ok []
  | JObj u :: rest =>
      if negb (truthy (dget "pk" u)) then _filter_and_map_users rest
      else
        email ← strip_of (py_or (dget "email" u) (JStr ""));
        name ← full_name_of u;
        if negb (str_true email) then _filter_and_map_users rest
        else
          user ← _map_to_scim u;
          mapped ← _filter_and_map_users rest;
          Ok (user :: mapped)
  | _ :: _ => Err AttributeError
  end.

Definition _build_initial_users_url (base group_id : string) : string :=
  if str_true group_id
  then base +:+ "/api/v3/core/users/?groups_by_pk=" +:+ group_id +:+ "&type=internal&page_size=500"
  else base +:+ "/api/v3/core/users/?type=internal&page_size=500".

(** [list.extend(v)] *)
Definition iterate (v : json) : result (list json) :=
  match v with
  | JArr l => Ok l
  | JObj d => Ok (map (fun kv => JStr (fst kv)) d)
  | JStr s => Ok (map (fun c => JStr (String c "")) (list_ascii_of_string s))
  | _ => Err TypeError
  end.

Section authentik.
Context `{Env}.
Variable settings : Settings.

Definition users_request (headers : list (string * string)) (url : string) : Request :=
  {| rq_method := "GET"; rq_url := url; rq_params := []; rq_headers := headers; rq_body := NoBody |}.

(** One turn of the [while url] loop: [None] when the listing is given up,
    otherwise the users of the page and the next URL. *)
Definition fetch_page (headers : list (string * string)) (url : string) : M World (option (list json * json)) :=
  resp ← http (users_request headers url);
  if negb (rs_status resp =? 200)%Z then mret None
  else
    match rs_json resp with
    | Err _ => mret None
    | Ok (JObj data) =>
        users ← liftR (iterate (dget_default "results" (JArr []) data));
        mret (Some (users, dget "next" data))
    | Ok _ => raiseM AttributeError
    end.

(** The loop follows the server's [next] links for as long as it gives them;
    [fuel] bounds the pages, and running out of it shows as the outer [None]. *)
Fixpoint fetch_pages (fuel : nat) (headers : list (string * string)) (url : json) (all_users : list json)
    : M World (option (option (list json))) :=
  if negb (truthy url) then mret (Some (Some all_users))
  else
    match fuel, url with
    | O, _ => mret None
    | S fuel', JStr url =>
        page ← fetch_page headers url;
        match page with
        | None => mret (Some None)
        | Some (users, next) => fetch_pages fuel' headers next (all_users ++ users)%list
        end
    | S _, _ => raiseM TypeError
    end.

Definition _fetch_all_users (fuel : nat) (url : string) (headers : list (string * string))
    : M World (option (option (list json))) :=
  catchM (fetch_pages fuel headers (JStr url) [])
    (fun e => match e with HTTPError => Some (mret (Some None)) | _ => None end).

(** [Some None] is the code's [None]; the outer [None] only means that the
    fuel was too small for the number of pages. *)
Definition get_users (fuel : nat) : M World (option (option (list dict))) :=
  if negb (str_true (default "" (authentik_url settings))) || negb (str_true (default "" (authentik_token settings)))
  then mret (Some None)
  else
    let headers := [("Authorization", "Bearer " +:+ default "" (authentik_token settings))] in
    let base := rstrip_slash (default "" (authentik_url settings)) in
    let group_id := strip (default "" (apple_scim_group_id settings)) in
    let url := _build_initial_users_url base group_id in
    all_users ← _fetch_all_users fuel url headers;
    match all_users with
    | None => mret None
    | Some None => mret (Some None)
    | Some (Some all_users) =>
        users ← liftR (_filter_and_map_users all_users);
        mret (Some (Some users))
    end.

(** ** What is synchronised *)

(** Authentik identifies users by integers. *)
Definition integer_pk (v : json) : Prop :=
  match v with JObj u => match dget "pk" u with JInt _ | JNull => True | _ => False end | _ => True end.

End authentik.

Lemma strip_nonspace_head c t : is_space c = false -> strip (String c t) <> "".
Proof.
  intros Hc. unfold strip. cbn [lstrip_p]. rewrite Hc. cbn [rstrip_p]. rewrite Hc.
  by destruct (rstrip_p is_space t).
Qed.

Lemma py_str_int_nonblank z : strip (py_str (JInt z)) <> "".
Proof.
  change (py_str (JInt z)) with (str_of_int z).
  assert (forall n, strip (dec_of_N n) <> "") as Hd.
  { intros n. destruct (dec_of_N_head n) as (c & t & -> & Hc). apply strip_nonspace_head.
    by destruct c as [[] [] [] [] [] [] [] []]. }
  destruct z as [|p|p]; [apply Hd..|]. apply (strip_nonspace_head "-"). done.
Qed.

(** Kept by the filter: a primary key and a nonblank email. *)
Definition eligible (u : dict) : bool :=
  truthy (dget "pk" u) && match dget "email" u with JStr e => str_true (strip e) | _ => false end.

Lemma map_to_scim_source_ok u s : integer_pk (JObj u) -> truthy (dget "pk" u) = true ->
  _map_to_scim u = Ok s -> source_ok s.
Proof.
  unfold _map_to_scim, integer_pk. rewrite bind_ok. intros Hint Ht (fn & _ & H').
  destruct (split_once " " fn) as [given rest]. apply bind_ok in H' as (pk & Hpk & H').
  apply bind_ok in H' as (name & _ & H'). apply bind_ok in H' as (email & _ & [= <-]).
  unfold dget, dget_default in *. destruct (dlookup "pk" u) as [v|]; [|done]. injection Hpk as ->.
  simpl in *. destruct pk as [| |z| | | |]; try done.
  exists (py_str (JInt z)), name. split_and!; [done|apply py_str_int_nonblank|done].
Qed.

(** What is synchronised: the users with a primary key and a nonblank
    email, in the order of the API and each mapped; when Authentik gives
    integer primary keys, each has a nonblank externalId and a userName - what
    the Apple client relies on. *)
Theorem filter_and_map_users_spec ds us :
  _filter_and_map_users (map JObj ds) = Ok us ->
  mapR _map_to_scim (List.filter eligible ds) = Ok us /\
  (Forall integer_pk (map JObj ds) -> Forall source_ok us).
Proof.
  revert us. induction ds as [|u ds IH]; intros us; simpl; [intros [= <-]; by split|].
  destruct (truthy (dget "pk" u)) eqn:Hpk; cbn [negb].
  2:{ intros H'. apply IH in H' as [H1 H2]. unfold eligible at 1. rewrite Hpk. split; [done|].
      intros Hint. apply Forall_cons in Hint as [_ Hint]. by apply H2. }
  rewrite bind_ok. intros (email & He & H'). apply bind_ok in H' as (fn & _ & H').
  assert (eligible u = str_true email) as ->.
  { unfold eligible. rewrite Hpk. unfold py_or in He. simpl in *.
    destruct (dget "email" u) as [| | | |e| |]; simpl in *; try done.
    all: repeat case_match; simplify_eq/=; try done; try (by injection He as <-).
    match goal with Hs : str_true e = false |- _ => unfold str_true in Hs; bool_hyps; by subst e end. }
  destruct (str_true email); cbn [negb] in H'.
  - apply bind_ok in H' as (m & Hm & H'). apply bind_ok in H' as (ms & Hms & [= <-]).
    apply IH in Hms as [H1 H2]. cbn [mapR]. rewrite Hm. simpl. rewrite H1. split; [done|].
    intros Hint. apply Forall_cons in Hint as [Hu Hint]. constructor; [by eapply map_to_scim_source_ok|by apply H2].
  - apply IH in H' as [H1 H2]. split; [done|].
    intros Hint. apply Forall_cons in Hint as [_ Hint]. by apply H2.
Qed.

(** One user to synchronise, one without an email. *)
Definition api_users : list dict :=
  [[("pk", JInt 42); ("email", JStr " ann@example.com "); ("name", JStr "Ann Lee"); ("is_active", JBool true)];
   [("pk", JInt 43); ("username", JStr "bob")]].

Definition mapped_users : list dict :=
  match _filter_and_map_users (map JObj api_users) with Ok us => us | Err _ => [] end.

Lemma filter_and_map_users_spec_witness :
  length mapped_users = 1%nat /\ Forall source_ok mapped_users.
Proof.
  split; [vm_compute; reflexivity|].
  refine (proj2 (filter_and_map_users_spec api_users mapped_users _) _); [vm_compute; reflexivity|].
  repeat constructor.
Defined.
