(* ===== verification/AppleOAuth.v ===== *)
(** * Apple SCIM routes and the scheduled sync ([app/routes/apple_scim.py],
    [app/main.py])

    The OAuth state table, the authorization callback, the manual sync and
    the background syncs.  Whether another task holds the connection when one
    of these asks for it, and what other tasks do while a waiting one sleeps,
    is an oracle; [Coordination] shows that nobody else holds it afterwards. *)
From Stdlib Require Import ZArith Lia Ascii String Sorting.Sorted.
From stdpp Require Import base option list strings gmap.
From S2P Require Import Prelude PyStr PyVal JsonText Config Database World AppleScim AppleScimLogic AppleScimSpec Alerts ScimToken Authentik.

Open Scope string_scope.

(** ** The OAuth states *)

(** 600 seconds, in nanoseconds. *)
Definition _STATE_TTL_SECONDS : Z := 600 * 10 ^ 9.

Abbreviation states := (gmap string Z).

Definition stale (now ts : Z) : Prop := (_STATE_TTL_SECONDS < now - ts)%Z.
#[export] Instance stale_dec now ts : Decision (stale now ts).
Proof. unfold stale. apply _. Defined.

Definition _cleanup_expired_states (now : Z) (table : states) : states :=
  filter (fun kv => ~ stale now (snd kv)) table.

Definition _add_state (now now' : Z) (state : string) (table : states) : states :=
  <[state := now']> (_cleanup_expired_states now table).

Definition _consume_state (now : Z) (state : string) (table : states) : bool * states :=
  let table := _cleanup_expired_states now table in
  match table !! state with
  | None => (false, table)
  | Some _ => (true, delete state table)
  end.

Definition _is_valid_state (now : Z) (state : string) (table : states) : bool * states :=
  let table := _cleanup_expired_states now table in
  (match table !! state with Some _ => true | None => false end, table).

(** ** Routes *)

Class Schedule := {
  busy_at : nat -> bool;             (* another task is inside [operation] *)
  others : nat -> Conn -> Conn;      (* what the other tasks do meanwhile *)
}.

Definition set_states (t : states) (s : Conn) : Conn :=
  {| cn_world := cn_world s; cn_db := cn_db s; _last_sent := _last_sent s;
     _pending_states := t; _background_tasks := _background_tasks s |}.

Definition schedule_task (s : Conn) : Conn :=
  {| cn_world := cn_world s; cn_db := cn_db s; _last_sent := _last_sent s;
     _pending_states := _pending_states s; _background_tasks := S (_background_tasks s) |}.

(** A step on the state table. *)
Definition statesM {A} (f : states -> A * states) : M Conn A := fun s =>
  let '(a, table) := f (_pending_states s) in (Ok a, set_states table s).

(** [urllib.parse.urlencode]: spaces become plus signs *)
Fixpoint quote_plus_bytes (s : string) : string :=
  match s with
  | "" => ""
  | String c t =>
      (if Ascii.eqb c " " then "+" else quote_bytes (String c "")) +:+ quote_plus_bytes t
  end.
Definition urlencode (params : list (string * string)) : string :=
  String.concat "&" (map (fun kv => quote_plus_bytes (utf8_encode (fst kv)) +:+ "=" +:+
                                    quote_plus_bytes (utf8_encode (snd kv))) params).

Section routes.
Context `{Env} `{Sqlite} `{Schedule}.
Variable settings : Settings.
Variable utc_isoformat : nat -> string.

Definition _require_scim_configured : result unit :=
  raise_when (negb (apple_scim_enabled settings))
    (HTTPException 503 "Apple SCIM sync is not configured. Set APPLE_SCIM_CLIENT_ID, APPLE_SCIM_CLIENT_SECRET, AUTHENTIK_URL and AUTHENTIK_TOKEN.").

(** [async with scim_operation(wait=wait): body] *)
Definition scim_operation {A} (wait : bool) (body : M Conn A) : M Conn A := fun s =>
  let t := w_tick (cn_world s) in
  if busy_at t then if wait then body (others t s) else (Err AppleScimBusy, s)
  else body s.

(** The redirection target. *)
Definition authorize : M Conn string :=
  _ ← liftR _require_scim_configured;
  state ← worldC entropyM;
  now ← worldC monotonicM;
  now' ← worldC monotonicM;
  _ ← statesM (fun table => (tt, _add_state now now' state table));
  let callback_url := public_url settings "/apple-scim/callback" in
  mret (apple_scim_authorize_url settings +:+ "?" +:+
        urlencode [("client_id", default "" (apple_scim_client_id settings)); ("redirect_uri", callback_url);
                   ("response_type", "code"); ("state", state)]).

Definition _exchange_authorization_code_locked (code : string) : M Conn (Z * bool) :=
  let callback_url := public_url settings "/apple-scim/callback" in
  resp ← catchM
    (worldC (http (token_request settings
       ([("grant_type", "authorization_code"); ("code", code); ("redirect_uri", callback_url)]
        ++ client_fields settings)%list)))
    (fun e => match e with
     | HTTPError => Some (raiseM (HTTPException 502 "Network error contacting Apple token endpoint"))
     | _ => None
     end);
  if negb (rs_status resp =? 200)%Z
  then raiseM (HTTPException 502 ("Apple token endpoint returned " +:+ str_of_int (rs_status resp)))
  else
    data ← liftR (rs_json resp);
    access_token ← liftR (py_get "access_token" data);
    refresh_token ← liftR (py_get "refresh_token" data);
    raw_expires ← liftR (py_get "expires_in" data);
    expires_in ← liftR (parse_expires_in raw_expires);
    if negb (truthy access_token)
    then raiseM (HTTPException 502 "Apple did not return an access_token")
    else
      _ ← save_tokens access_token refresh_token expires_in;
      mret (expires_in, truthy refresh_token).

Definition invalid_state : exn := HTTPException 400 "Invalid or expired OAuth state parameter".

(** [if not state or not _is_valid_state(state): raise ...] *)
Definition check_state (state : string) : M Conn unit :=
  if negb (str_true state) then raiseM invalid_state
  else
    now ← worldC monotonicM;
    valid ← statesM (_is_valid_state now state);
    if valid : bool then mret tt else raiseM invalid_state.

(** The body of the [async with scim_operation()] block. *)
Definition consume_and_exchange (state code : string) : M Conn (Z * bool) :=
  now ← worldC monotonicM;
  consumed ← statesM (_consume_state now state);
  if negb (consumed : bool) then raiseM invalid_state
  else _exchange_authorization_code_locked code.

Definition callback (code state error : option string) : M Conn json :=
  _ ← liftR _require_scim_configured;
  if str_true (default "" error)
  then raiseM (HTTPException 400 ("Apple returned an OAuth error: " +:+ default "" error))
  else if negb (str_true (default "" code))
  then raiseM (HTTPException 400 "Missing 'code' parameter in callback")
  else
    let state := default "" state in
    _ ← check_state state;
    '(expires_in, has_refresh_token) ← catchM
      (scim_operation false (consume_and_exchange state (default "" code)))
      (fun e => match e with
       | AppleScimBusy => Some (raiseM (HTTPException 409
           "Another Apple SCIM operation is in progress. Retry this callback or start authorization again."))
       | _ => None
       end);
    _ ← modifyM schedule_task;
    mret (JObj [("status", JStr "authorized"); ("expires_in", JInt expires_in);
                ("has_refresh_token", JBool has_refresh_token);
                ("message", JStr "Authorization successful. Initial sync scheduled automatically.")]).

(** [sync_users(token, users)] *)
Definition syncM (token : string) (users : list dict) : M Conn SyncResult := fun s =>
  let '(r, sc) := sync_users settings token users (sync_start (cn_world s)) in
  (r, @lset _ _ conn_world_lens (sc_world sc) s).

(** The body both background syncs share, after a token was obtained; [fuel]
    bounds the pages of Authentik, and an answer of [None] means it ran out. *)
Definition sync_fetched (fuel : nat) (token : string) : M Conn (option unit) :=
  users ← worldC (get_users settings fuel);
  match users with
  | None => mret None
  | Some None => mret (Some tt)
  | Some (Some users) => _ ← syncM token users; mret (Some tt)
  end.

(** [except AppleUserListError] and [except Exception]: nothing escapes. *)
Definition log_errors (m : M Conn (option unit)) : M Conn (option unit) :=
  catchM m (fun _ => Some (mret (Some tt))).

Definition _background_sync (fuel : nat) : M Conn (option unit) :=
  log_errors (scim_operation true
    (access_token ← get_valid_access_token settings utc_isoformat;
     match access_token with
     | Some token => if str_true token then sync_fetched fuel token else mret (Some tt)
     | None => mret (Some tt)
     end)).

Definition _run_scheduled_apple_scim_sync (fuel : nat) : M Conn (option unit) :=
  log_errors (scim_operation true
    (token ← get_valid_access_token settings utc_isoformat;
     if negb (str_true (default "" token)) then
       _ ← send_alert settings utc_isoformat "scim_no_valid_token"
             "Apple SCIM sync skipped — no valid token. Visit /apple-scim/authorize to re-authorize" "error";
       mret (Some tt)
     else sync_fetched fuel (default "" token))).

(** [asyncio.sleep]: the other tasks run. *)
Definition sleepM : M Conn unit := fun s => (Ok tt, others (w_tick (cn_world s)) s).

(** [rounds] turns of the endless loop. *)
Fixpoint _apple_scim_sync_loop (fuel rounds : nat) : M Conn unit :=
  match rounds with
  | O => mret tt
  | S rounds' => _ ← sleepM; _ ← _run_scheduled_apple_scim_sync fuel; _apple_scim_sync_loop fuel rounds'
  end.

Definition sync_response (result : SyncResult) : json :=
  JObj [("status", JStr "ok"); ("created", JInt (created result)); ("updated", JInt (updated result));
        ("unchanged", JInt (unchanged result)); ("conflicts", JInt (conflicts result));
        ("errors", JInt (errors result));
        ("update_400_invalid_request", JInt (update_400_invalid_request result));
        ("out_of_scope_diffs", JInt (out_of_scope_diffs result));
        ("update_mode", JStr (apple_scim_update_mode settings))].

Definition sync (fuel : nat) : M Conn (option json) :=
  _ ← liftR _require_scim_configured;
  result ← catchM
    (scim_operation false
       (access_token ← get_valid_access_token settings utc_isoformat;
        if negb (str_true (default "" access_token))
        then raiseM (HTTPException 401 "No valid Apple access token. Visit /apple-scim/authorize to connect.")
        else
          users ← worldC (get_users settings fuel);
          match users with
          | None => mret None
          | Some None => raiseM (HTTPException 502 "Could not fetch users from Authentik")
          | Some (Some users) => result ← syncM (default "" access_token) users; mret (Some result)
          end))
    (fun e => match e with
     | AppleScimBusy => Some (raiseM (HTTPException 409 "Another Apple SCIM operation is in progress"))
     | HTTPError => Some (raiseM (HTTPException 502
         "Could not reach Apple Business Manager or obtain a complete user list"))
     | _ => if is_AppleUserListError e
            then Some (raiseM (HTTPException 502
                   "Could not reach Apple Business Manager or obtain a complete user list"))
            else None
     end);
  mret (sync_response <$> result).

Definition status : M Conn json :=
  if negb (apple_scim_enabled settings)
  then mret (JObj [("enabled", JBool false); ("reason", JStr "not_configured")])
  else
    tokens ← load_tokens;
    match tokens with
    | None => mret (JObj [("enabled", JBool true); ("authorized", JBool false);
                          ("reason", JStr "Visit /apple-scim/authorize to connect")])
    | Some tokens =>
        now ← worldC nowM;
        mret (JObj [("enabled", JBool true); ("authorized", JBool true);
                    ("token_valid", JBool (now <? tk_expires_at tokens)%Z);
                    ("token_expires_at", JInt (tk_expires_at tokens));
                    ("token_expires_in_seconds", JInt (Z.max 0 (tk_expires_at tokens - now)));
                    ("has_refresh_token", JBool (str_true (default "" (tk_refresh_token tokens))));
                    ("last_updated", JInt (tk_updated_at tokens));
                    ("alert_webhook_configured", JBool (str_true (default "" (apple_scim_alert_webhook_url settings))))])
    end.

(** No failure of a sync ends the loop. *)
Lemma log_errors_total m s : exists a s', log_errors m s = (Ok a, s').
Proof. unfold log_errors, catchM. destruct (m s) as [[a|e] s']; eauto. Qed.

Lemma sync_loop_survives fuel rounds s : exists s', _apple_scim_sync_loop fuel rounds s = (Ok tt, s').
Proof.
  revert s. induction rounds as [|rounds IH]; intros s; [eauto|]. cbn [_apple_scim_sync_loop].
  unfold mbind at 1, M_bind at 1, sleepM. unfold mbind, M_bind, _run_scheduled_apple_scim_sync.
  match goal with |- context [log_errors ?m ?s0] => destruct (log_errors_total m s0) as (a & s1 & ->) end. apply IH.
Qed.
End routes.

(** ** States are single-use and expire *)

(** The calls made on the table, with the times they read. *)
Inductive state_call :=
| Added (now now' : Z) (state : string)
| Consumed (now : Z) (state : string)
| Checked (now : Z) (state : string).

Definition times_of (c : state_call) : list Z :=
  match c with Added now now' _ => [now; now'] | Consumed now _ => [now] | Checked now _ => [now] end.

Definition call_state (c : state_call) (table : states) : states :=
  match c with
  | Added now now' s => _add_state now now' s table
  | Consumed now s => snd (_consume_state now s table)
  | Checked now s => snd (_is_valid_state now s table)
  end.

Definition run_states (calls : list state_call) : states :=
  fold_left (fun table c => call_state c table) calls ∅.

(** The reference: when the state was last issued, unless it was presented since. *)
Definition last_issued (state : string) (calls : list state_call) : option Z :=
  fold_left (fun issued c => match c with
    | Added _ now' s => if String.eqb s state then Some now' else issued
    | Consumed _ s => if String.eqb s state then None else issued
    | Checked _ _ => issued
    end) calls None.

Lemma cleanup_lookup now table s ts :
  _cleanup_expired_states now table !! s = Some ts <-> table !! s = Some ts /\ ~ stale now ts.
Proof. unfold _cleanup_expired_states. by rewrite map_lookup_filter_Some. Qed.

(** At a time [now] after all calls: what the table holds is what was last
    issued, and what it has lost is stale. *)
Definition tracks (now : Z) (table : states) (calls : list state_call) : Prop := forall s,
  (forall ts, table !! s = Some ts -> last_issued s calls = Some ts) /\
  (forall ts, last_issued s calls = Some ts -> table !! s = Some ts \/ stale now ts).

Lemma last_issued_app s calls c : last_issued s (calls ++ [c]) =
  match c with
  | Added _ now' s' => if String.eqb s' s then Some now' else last_issued s calls
  | Consumed _ s' => if String.eqb s' s then None else last_issued s calls
  | Checked _ _ => last_issued s calls
  end.
Proof. unfold last_issued. rewrite fold_left_app. by destruct c. Qed.

Lemma tracks_later now now' table calls : (now <= now')%Z -> tracks now table calls -> tracks now' table calls.
Proof.
  intros Hle Ht s. destruct (Ht s) as [H1 H2]. split; [done|]. intros ts Hl.
  destruct (H2 ts Hl) as [|Hs]; [by left|right]. unfold stale in *. lia.
Qed.

Lemma cleanup_tracks now table calls : tracks now table calls -> tracks now (_cleanup_expired_states now table) calls.
Proof.
  intros Ht s. destruct (Ht s) as [H1 H2]. split; intros ts; rewrite cleanup_lookup; [by intros [? _]; auto|].
  intros Hl. destruct (decide (stale now ts)) as [|Hn]; [by right|left]. split; [|done].
  by destruct (H2 ts Hl).
Qed.

Lemma call_tracks now table calls c : tracks now table calls -> head (times_of c) = Some now ->
  tracks now (call_state c table) (calls ++ [c]).
Proof.
  intros Ht%cleanup_tracks Hc s. destruct (Ht s) as [H1 H2]. rewrite last_issued_app.
  destruct c as [now0 now' s'|now0 s'|now0 s']; injection Hc as ->; simpl.
  - unfold _add_state. destruct (String.eqb_spec s' s) as [->|Hne].
    + rewrite lookup_insert_eq. split; intros ts [= ->]; [done|by left].
    + by rewrite lookup_insert_ne.
  - unfold _consume_state. destruct (_cleanup_expired_states now table !! s') as [ts'|] eqn:Hs'; simpl.
    + destruct (String.eqb_spec s' s) as [->|Hne]; [by rewrite lookup_delete_eq|by rewrite lookup_delete_ne].
    + destruct (String.eqb_spec s' s) as [->|Hne]; [|done]. by rewrite Hs'.
  - done.
Qed.

Lemma run_tracks calls now : StronglySorted Z.le (flat_map times_of calls ++ [now])%list ->
  tracks now (run_states calls) calls.
Proof.
  revert now. induction calls as [|c calls IH] using rev_ind; intros now Hs; [done|].
  rewrite flat_map_app in Hs. simpl in Hs. rewrite app_nil_r in Hs.
  apply sorted_le_app in Hs as (Hs & _ & Hlast).
  destruct (times_of c) as [|t ts] eqn:Hc; [by destruct c|].
  apply (tracks_later t); [apply Hlast; [apply elem_of_app; right; by left|by left]|].
  unfold run_states. rewrite fold_left_app. simpl. apply call_tracks; [|by rewrite Hc].
  apply IH. change (t :: ts) with ([t] ++ ts)%list in Hs. rewrite app_assoc in Hs.
  by apply sorted_le_app in Hs as [Hs _].
Qed.

(** C25: an OAuth state is accepted exactly when the last thing that happened to
    it is that it was issued, at most ten minutes before: never issued, already
    presented or older states are refused, whatever else happened to the table
    in between. *)
Theorem oauth_state_single_use calls now state :
  StronglySorted Z.le (flat_map times_of calls ++ [now])%list ->
  fst (_consume_state now state (run_states calls)) = true <->
  exists issued, last_issued state calls = Some issued /\ (now - issued <= 600 * 10 ^ 9)%Z.
Proof.
  intros Hs%run_tracks%cleanup_tracks. destruct (Hs state) as [H1 H2].
  assert (forall ts, ~ stale now ts <-> (now - ts <= 600 * 10 ^ 9)%Z) as Hst
    by (intros ts; unfold stale, _STATE_TTL_SECONDS; lia).
  unfold _consume_state. cbv zeta.
  destruct (_cleanup_expired_states now (run_states calls) !! state) as [ts|] eqn:E; cbn [fst].
  - split; [|done]. intros _. exists ts. split; [by apply H1|]. apply Hst. by apply cleanup_lookup in E as [_ ?].
  - split; [done|]. intros (ts & Hl & Hle). apply Hst in Hle. by destruct (H2 ts Hl).
Qed.

(** ** The callback *)

Section callback.
Context `{Env} `{Sqlite} `{Schedule}.
Variable settings : Settings.

Definition exchange_request (code : string) : Request :=
  token_request settings
    ([("grant_type", "authorization_code"); ("code", code);
      ("redirect_uri", public_url settings "/apple-scim/callback")] ++ client_fields settings)%list.

(** The exchange sends one request and stores what it returns. *)
Lemma exchange_effect code s r s' : _exchange_authorization_code_locked settings code s = (r, s') ->
  _pending_states s' = _pending_states s /\ _background_tasks s' = _background_tasks s /\
  w_trace (cn_world s') = (w_trace (cn_world s) ++ [Sent (exchange_request code)])%list /\
  match r with
  | Ok (expires_in, _) => (0 < expires_in)%Z /\ exists row, apple_scim_tokens (cn_db s') = Some row /\
      tk_expires_at row = (tk_updated_at row + expires_in - safety_margin expires_in)%Z
  | Err e => cn_db s' = cn_db s
  end.
Proof.
  unfold _exchange_authorization_code_locked. cbv zeta. fold (exchange_request code).
  destruct (worldC (http (exchange_request code)) s) as [r1 s1] eqn:E1.
  assert (same_store s s1 /\ w_trace (cn_world s1) = (w_trace (cn_world s) ++ [Sent (exchange_request code)])%list)
    as [(Hdb1 & Hp1 & Hb1) Ht1] by (split; [by eapply worldC_store|by injection E1 as _ <-]).
  unfold mbind at 1, M_bind at 1. unfold catchM at 1. rewrite E1. clear E1.
  destruct r1 as [resp|e]; [|by destruct e; intros [= <- <-]].
  destruct (negb _); [by intros [= <- <-]|].
  liftR_step Ej; [|by intros [= <- <-]]. liftR_step Ea; [|by intros [= <- <-]].
  liftR_step Er; [|by intros [= <- <-]]. liftR_step Ex; [|by intros [= <- <-]].
  liftR_step En; [|by intros [= <- <-]]. destruct (negb _); [by intros [= <- <-]|].
  destruct (save_tokens a0 a1 a3 s1) as [r2 s2] eqn:E2. rewrite (M_bind_run _ _ _ _ _ E2).
  pose proof (save_tokens_trace _ _ _ _ _ _ E2) as Ht2. apply save_tokens_db in E2.
  destruct r2 as [[]|e]; intros [= <- <-].
  - destruct E2 as (t & b & rf & now & _ & _ & _ & (_ & Hp2 & Hb2) & Hdb2). simpl in Hp2, Hb2.
    split_and!; [congruence|congruence|congruence|by eapply parse_expires_in_pos|].
    rewrite Hdb2. eexists. split; [done|]. done.
  - destruct E2 as (Hdb2 & Hp2 & Hb2). split_and!; congruence.
Qed.

(** The state is known and fresh when the callback arrives. *)
Definition live (state : string) (s : Conn) : Prop :=
  exists issued, _pending_states s !! state = Some issued /\
    (env_monotonic (w_tick (cn_world s)) - issued <= _STATE_TTL_SECONDS)%Z.

(** Nothing but the tick has changed, and no state was added. *)
Definition quiet_step (s s' : Conn) : Prop :=
  (w_trace (cn_world s') = w_trace (cn_world s) /\ cn_db s' = cn_db s /\ _background_tasks s' = _background_tasks s) /\
  _last_sent s' = _last_sent s /\ _pending_states s' ⊆ _pending_states s.

Lemma cleanup_subseteq now table : _cleanup_expired_states now table ⊆ table.
Proof. apply map_filter_subseteq. Qed.

Lemma quiet_refl s : quiet_step s s.
Proof. done. Qed.

Lemma check_state_effect st s r s' : check_state st s = (r, s') ->
  quiet_step s s' /\ (r = Ok tt -> st <> "" /\ live st s).
Proof.
  unfold check_state. destruct (str_true st) eqn:Hst; cbn [negb]; [|by intros [= <- <-]].
  unfold mbind, M_bind, worldC, zoom, monotonicM, ask, statesM, _is_valid_state. cbn -[_cleanup_expired_states].
  set (now := env_monotonic _).
  destruct (_cleanup_expired_states now (_pending_states s) !! st) as [ts|] eqn:E; intros [= <- <-];
    (split; [split; [done|split; [done|apply cleanup_subseteq]]|]); [|done].
  intros _. split; [by unfold str_true in Hst; bool_hyps|]. exists ts.
  apply cleanup_lookup in E as [Hts Hn]. split; [done|]. fold now. unfold stale in Hn. lia.
Qed.

Lemma consume_and_exchange_effect st code s r s' : consume_and_exchange settings st code s = (r, s') ->
  (quiet_step s s' /\ is_ok r = false) \/
  (_pending_states s' !! st = None /\
   w_trace (cn_world s') = (w_trace (cn_world s) ++ [Sent (exchange_request code)])%list /\
   _background_tasks s' = _background_tasks s /\
   match r with
   | Ok (expires_in, _) => exists row, apple_scim_tokens (cn_db s') = Some row /\
       (tk_updated_at row < tk_expires_at row)%Z
   | Err e => cn_db s' = cn_db s
   end).
Proof.
  unfold consume_and_exchange. unfold mbind, M_bind, worldC, zoom, monotonicM, ask, statesM, _consume_state.
  cbn -[_cleanup_expired_states _exchange_authorization_code_locked].
  set (now := env_monotonic _). destruct (_ !! st) as [ts|] eqn:E; cbn -[_cleanup_expired_states _exchange_authorization_code_locked].
  2:{ intros [= <- <-]. left. split; [split; [done|split; [done|apply cleanup_subseteq]]|done]. }
  intros (Hp & Hb & Ht & Hr)%exchange_effect. right. rewrite Hp. simpl. rewrite lookup_delete_eq.
  split_and!; [done|done|done|]. destruct r as [[n b]|e]; [|done].
  destruct Hr as (Hn & row & Hrow & Hexp). exists row. split; [done|].
  pose proof (safety_margin_bounds n Hn). lia.
Qed.

(** An authorization code is exchanged only for a callback that carries a
    live OAuth state: otherwise nothing is sent and the stored tokens do not
    change.  The state is used up by the exchange, whatever its outcome, and
    the exchange is a single request; on success the new tokens are stored
    with a positive lifetime and one sync is scheduled, on failure the stored
    tokens are as before and nothing is scheduled. *)
Theorem callback_requires_state code state error s r s' :
  callback settings code state error s = (r, s') ->
  (w_trace (cn_world s') = w_trace (cn_world s) /\ cn_db s' = cn_db s /\
   _background_tasks s' = _background_tasks s /\ is_ok r = false) \/
  exists st c, state = Some st /\ code = Some c /\ c <> "" /\ default "" error = "" /\ live st s /\
    apple_scim_enabled settings = true /\ _pending_states s' !! st = None /\
    w_trace (cn_world s') = (w_trace (cn_world s) ++ [Sent (exchange_request c)])%list /\
    match r with
    | Ok _ => _background_tasks s' = S (_background_tasks s) /\
        exists row, apple_scim_tokens (cn_db s') = Some row /\ (tk_updated_at row < tk_expires_at row)%Z
    | Err _ => cn_db s' = cn_db s /\ _background_tasks s' = _background_tasks s
    end.
Proof.
  unfold callback. liftR_step Ec; [|by intros [= <- <-]; left].
  unfold _require_scim_configured in Ec. apply raise_when_ok in Ec. bool_hyps.
  destruct (str_true (default "" error)) eqn:He; [by intros [= <- <-]; left|].
  destruct (str_true (default "" code)) eqn:Hc; cbn [negb]; [|by intros [= <- <-]; left].
  cbv zeta. destruct (check_state (default "" state) s) as [r1 s1] eqn:E1. rewrite (M_bind_run _ _ _ _ _ E1).
  apply check_state_effect in E1 as [[(Ht1 & Hd1 & Hb1) _] Hlive].
  destruct r1 as [[]|e]; [|by intros [= <- <-]; left]. destruct (Hlive eq_refl) as [Hne Hlv].
  unfold mbind at 1, M_bind at 1. unfold catchM, scim_operation.
  destruct (busy_at _); [by intros [= <- <-]; left|].
  destruct (consume_and_exchange settings _ _ s1) as [r2 s2] eqn:E2. apply consume_and_exchange_effect in E2.
  destruct E2 as [[[(Ht2 & Hd2 & Hb2) _] Hr]|(Hp2 & Ht2 & Hb2 & Hr)].
  - destruct r2 as [?|e]; [done|]. destruct e; intros [= <- <-]; left; split_and!; first [done|congruence].
  - assert (exists st c, state = Some st /\ code = Some c) as (st & c & -> & ->).
    { destruct state; [|done]. destruct code; [eauto|done]. }
    change (default "" (Some st)) with st in *. change (default "" (Some c)) with c in *.
    assert (c <> "") by (by unfold str_true in Hc; bool_hyps).
    assert (default "" error = "") by (by unfold str_true in He; bool_hyps).
    destruct r2 as [[n b]|e].
    + intros [= <- <-]. right. exists st, c. split_and!; try done; simpl; congruence.
    + destruct e; intros [= <- <-]; right; exists st, c; split_and!; try done; congruence.
Qed.

(** A callback without a live state is turned away. *)
Lemma callback_refused code state error s r s' :
  (forall st, state = Some st -> ~ live st s) ->
  callback settings code state error s = (r, s') -> quiet_step s s' /\ is_ok r = false.
Proof.
  intros Hn. unfold callback. liftR_step Ec; [|by intros [= <- <-]].
  destruct (str_true (default "" error)); [by intros [= <- <-]|].
  destruct (str_true (default "" code)); cbn [negb]; [|by intros [= <- <-]].
  cbv zeta. destruct (check_state (default "" state) s) as [r1 s1] eqn:E1. rewrite (M_bind_run _ _ _ _ _ E1).
  apply check_state_effect in E1 as [Hq Hlive]. destruct r1 as [[]|e]; [|by intros [= <- <-]].
  destruct (Hlive eq_refl) as [Hne Hl]. destruct state as [st|]; [|done]. by destruct (Hn st eq_refl).
Qed.

(** Starting an authorization adds the state it issues and nothing else. *)
Lemma authorize_effect s r s' : authorize settings s = (r, s') ->
  (w_trace (cn_world s') = w_trace (cn_world s) /\ cn_db s' = cn_db s /\ _background_tasks s' = _background_tasks s) /\
  _last_sent s' = _last_sent s.
Proof. unfold authorize. liftR_step Ec; by intros [= <- <-]. Qed.
End callback.

Module Example.
Import ScimToken.Example.

#[export] Instance alone : Schedule := {| busy_at t := false; others t s := s |}.

(** Issued, checked, presented twice. *)
Definition calls : list state_call :=
  [Added 0 1 "csrf"; Checked 5 "csrf"; Added 6 6 "other"].

Lemma oauth_state_single_use_witness :
  fst (_consume_state 7 "csrf" (run_states calls)) = true <->
  exists issued, last_issued "csrf" calls = Some issued /\ (7 - issued <= 600 * 10 ^ 9)%Z.
Proof. apply oauth_state_single_use. simpl. repeat constructor; lia. Defined.

Example accepted_once :
  fst (_consume_state 7 "csrf" (run_states calls)) = true /\
  fst (_consume_state 8 "csrf" (run_states (calls ++ [Consumed 7 "csrf"]))) = false.
Proof. by vm_compute. Qed.

Definition enabled_settings : Settings :=
  match from_env (fun name =>
      if existsb (String.eqb name) ["APPLE_SCIM_CLIENT_ID"; "APPLE_SCIM_CLIENT_SECRET"; "AUTHENTIK_TOKEN"] then Some "x"
      else if String.eqb name "AUTHENTIK_URL" then Some "https://idp.example.com" else example_env name) with
  | Ok s => s
  | Err _ => example_settings
  end.

Definition called_back : result json * Conn :=
  callback enabled_settings (Some "code") (Some "csrf") None connected.

Lemma callback_requires_state_witness :
  exists st c, Some "csrf" = Some st /\ Some "code" = Some c /\ live st connected /\
    _pending_states (snd called_back) !! st = None /\ _background_tasks (snd called_back) = 1%nat.
Proof.
  assert (called_back = (fst called_back, snd called_back)) as E by apply surjective_pairing.
  destruct (callback_requires_state enabled_settings (Some "code") (Some "csrf") None connected _ _ E)
    as [(_ & _ & _ & Hr)|(st & c & Hst & Hc & _ & _ & Hl & _ & Hp & _ & Hr)].
  - exfalso. vm_compute in Hr. discriminate Hr.
  - exists st, c. split; [exact Hst|]. split; [exact Hc|]. split; [exact Hl|]. split; [exact Hp|].
    vm_compute. reflexivity.
Defined.
End Example.
