(* ===== verification/AppleSync.v ===== *)
(** * A synchronisation end to end

    The token, the source users and the SCIM client composed: what the route
    [sync], the post-authorization sync and the scheduled sync may send, and in
    which order. *)
From Stdlib Require Import ZArith Lia Ascii String.
From stdpp Require Import base option list strings gmap.
From S2P Require Import Prelude PyStr PyVal JsonText Config Database World AppleScim AppleScimLogic Alerts ScimToken Authentik AppleOAuth.

Open Scope string_scope.

Section sync.
Context `{Env} `{Sqlite} `{Schedule}.
Variable settings : Settings.
Variable utc_isoformat : nat -> string.

(** ** The three kinds of requests *)


(** A refresh at Apple's token endpoint, or an alert to the operator. *)
Definition token_event (e : event) : Prop :=
  (exists fields, e = Sent (token_request settings fields)) \/
  (exists payload, e = Sent (post_request (alert_url settings) (JsonBody payload)) /\ alert_url settings <> "").

Definition authentik_headers : list (string * string) :=
  [("Authorization", "Bearer " +:+ default "" (authentik_token settings))].

Definition authentik_event (e : event) : Prop := exists url, e = Sent (users_request authentik_headers url).

(** Authentik's answer to the request for the page at [url], sent at [t]. *)
Definition serves_page (t : nat) (url : string) (users : list json) (next : json) : Prop :=
  exists resp data, env_http t (users_request authentik_headers url) = Ok resp /\ rs_status resp = 200%Z /\
    rs_json resp = Ok (JObj data) /\ iterate (dget_default "results" (JArr []) data) = Ok users /\ dget "next" data = next.

(** The complete listing that starts at [url] at tick [t]: one request per page,
    every one answered, until a page names no next one. *)
Inductive listing : nat -> json -> list json -> list event -> Prop :=
| listing_end t url : truthy url = false -> listing t url [] []
| listing_page t url page next rest tr :
    url <> "" -> serves_page t url page next -> listing (S t) next rest tr ->
    listing t (JStr url) (page ++ rest)%list (Sent (users_request authentik_headers url) :: tr).

Definition first_url : string :=
  _build_initial_users_url (rstrip_slash (default "" (authentik_url settings)))
    (strip (default "" (apple_scim_group_id settings))).

(** Authentik, asked from tick [t] on, has answered completely, and these are
    its users. *)
Definition listed (t : nat) (users : list dict) (tr : list event) : Prop :=
  exists all, listing t (JStr first_url) all tr /\ _filter_and_map_users all = Ok users.

Definition apple_trace (access : string) (users : list dict) : list event -> Prop :=
  Forall (allowed_event settings access users).

(** After the token, obtained at tick [t]: the source users; then Apple, if
    there was a token and the listing is complete. *)
Definition listed_trace (token : option string) (t : nat) (tr : list event) : Prop :=
  exists t1 t2, tr = (t1 ++ t2)%list /\ Forall authentik_event t1 /\
    (t2 = [] \/ exists access users, token = Some access /\ access <> "" /\ listed t users t1 /\ apple_trace access users t2).

(** First the token, [got] in the state that comes with it, then the rest. *)
Definition sync_trace (got : result (option string) * Conn) (tr : list event) : Prop :=
  exists t1 t2, tr = (t1 ++ t2)%list /\ Forall token_event t1 /\
    (t2 = [] \/ exists token, fst got = Ok token /\ listed_trace token (w_tick (cn_world (snd got))) t2).

Lemma sync_trace_nil got : sync_trace got [].
Proof. exists [], []. split; [done|]. split; [constructor|by left]. Qed.

(** ** The token phase *)

Definition quiet (e : event) : Prop := False.

Lemma traces_getC P : traces (Forall P) (getC : M Conn Conn) anything.
Proof. apply traces_silent; [constructor|]. by intros s r s' [= <- <-]. Qed.

Lemma traces_load_tokens P : traces (Forall P) load_tokens anything.
Proof. apply traces_silent; [constructor|]. by intros s r s' [= <- <-]. Qed.

Lemma traces_alert event message severity :
  traces (Forall token_event) (send_alert settings utc_isoformat event message severity) anything.
Proof.
  unfold send_alert. cbv zeta. destruct (str_true (alert_url settings)) eqn:Hurl; cbn [negb]; [|traces_quiet].
  eapply traces_all_bind; [apply traces_emits, emits_ask|]. intros now _.
  eapply traces_all_bind; [apply traces_getC|]. intros s _.
  destruct (match _last_sent s !! event with Some _ => _ | None => _ end); [traces_quiet|].
  eapply traces_all_bind; [apply traces_emits, emits_ask|]. intros timestamp _.
  eapply traces_catch; [|intros e k [= <-]; traces_quiet].
  eapply traces_all_bind.
  - apply traces_emits, emits_http. right. eexists. split; [done|]. unfold str_true in Hurl. by bool_hyps.
  - intros _ _. apply traces_silent; [constructor|]. by intros s' r s'' [= <- <-].
Qed.

Lemma traces_save access refresh expires_in P :
  traces (Forall P) (save_tokens access refresh expires_in) anything.
Proof.
  apply traces_silent; [constructor|]. intros s r s' E. apply save_tokens_trace in E. done.
Qed.

Lemma traces_refresh refresh_token :
  traces (Forall token_event) (_refresh settings utc_isoformat refresh_token) anything.
Proof.
  unfold _refresh. cbv zeta. destruct (negb _); [traces_quiet|].
  eapply traces_all_bind with (Q := anything).
  { unfold post_or_none. eapply traces_catch.
    - eapply traces_all_bind; [apply traces_emits, emits_http; left; by eexists|]. intros resp _. traces_quiet.
    - intros e k Hk. destruct e; try done. injection Hk as <-. traces_quiet. }
  intros [resp|] _; [|traces_quiet]. destruct (negb _).
  { eapply traces_all_bind; [|intros ? _; traces_quiet].
    destruct (secret_expired resp); [apply traces_alert|traces_quiet]. }
  destruct (rs_json resp) as [data|]; [|traces_quiet].
  do 3 (eapply traces_all_bind; [apply traces_lift with (Q := anything); [constructor|intros ? ?; exact I]|]; intros ? _).
  destruct a as [| | | |access| |]; try traces_quiet.
  destruct (negb _); [traces_quiet|].
  eapply traces_all_bind; [apply traces_lift with (Q := anything); [constructor|intros ? ?; exact I]|]. intros n _.
  eapply traces_all_bind; [apply traces_save|]. intros ? _. traces_quiet.
Qed.

Lemma traces_token : traces (Forall token_event) (get_valid_access_token settings utc_isoformat) anything.
Proof.
  unfold get_valid_access_token.
  eapply traces_all_bind; [apply traces_load_tokens|]. intros [tokens|] _; [|traces_quiet].
  eapply traces_all_bind; [apply traces_emits, emits_ask|]. intros now _.
  destruct (_ <? _)%Z; [traces_quiet|apply traces_refresh].
Qed.

(** ** The source users *)

(** What a computation adds to the trace, and what it answers. *)
Lemma fetch_page_run url w r w' : fetch_page authentik_headers url w = (r, w') ->
  w_tick w' = S (w_tick w) /\ w_trace w' = (w_trace w ++ [Sent (users_request authentik_headers url)])%list /\
  forall us next, r = Ok (Some (us, next)) -> serves_page (w_tick w) url us next.
Proof.
  unfold fetch_page, http, emit, ask, mbind, M_bind, liftR. simpl.
  destruct (env_http (w_tick w) _) as [resp|e] eqn:E; [|by intros [= <- <-]].
  destruct (rs_status resp =? 200)%Z eqn:Hs; cbn [negb]; [|by intros [= <- <-]].
  destruct (rs_json resp) as [[]|] eqn:Hj; try (by intros [= <- <-]).
  destruct (iterate _) as [us|e] eqn:Hi; intros [= <- <-]; (split; [done|]; split; [done|]); [|done].
  intros us' next [= <- <-]. exists resp, d. bool_hyps. by rewrite Hj.
Qed.

Lemma fetch_pages_run fuel url all w r w' : fetch_pages fuel authentik_headers url all w = (r, w') ->
  exists tr, w_trace w' = (w_trace w ++ tr)%list /\ Forall authentik_event tr /\
    forall us, r = Ok (Some (Some us)) -> exists rest, us = (all ++ rest)%list /\ listing (w_tick w) url rest tr.
Proof.
  assert (forall url all w w', w' = w -> exists tr, w_trace w' = (w_trace w ++ tr)%list /\ Forall authentik_event tr /\
    (truthy url = false -> exists rest, all = (all ++ rest)%list /\ listing (w_tick w) url rest tr)) as Hstop.
  { intros url0 all0 w0 ? ->. exists []. rewrite app_nil_r. split; [done|]. split; [constructor|].
    intros Hu. exists []. rewrite app_nil_r. split; [done|by constructor]. }
  revert url all w. induction fuel as [|fuel IH]; intros url all w; cbn [fetch_pages];
    destruct (truthy url) eqn:Hu; cbn [negb];
    try (intros [= <- <-]; destruct (Hstop url all w w eq_refl) as (tr & Htr & Hall & Hl); exists tr; split; [done|];
         split; [done|]; by intros us [= <-]; apply Hl).
  destruct url as [| | | |url| |];
    try (intros [= <- <-]; destruct (Hstop JNull all w w eq_refl) as (tr & Htr & Hall & _); by exists tr).
  unfold mbind, M_bind. destruct (fetch_page authentik_headers url w) as [r1 w1] eqn:E1.
  apply fetch_page_run in E1 as (Ht & Htr & Hserves).
  assert (Forall authentik_event [Sent (users_request authentik_headers url)]) as Hone by (repeat constructor; by exists url).
  destruct r1 as [[[us next]|]|e]; [|intros [= <- <-]; by eexists|intros [= <- <-]; by eexists].
  intros (tr & Htr' & Hall & Hl)%IH. exists (Sent (users_request authentik_headers url) :: tr). split_and!.
  - by rewrite Htr', Htr, <- app_assoc.
  - constructor; [by exists url|done].
  - intros us' E. destruct (Hl us' E) as (rest & -> & Hlist). exists (us ++ rest)%list. rewrite app_assoc. split; [done|].
    rewrite Ht in Hlist. eapply listing_page; [|by apply Hserves|done].
    intros ->. discriminate Hu.
Qed.

(** Only objects come out of the filter, each the mapping of an eligible one. *)
Lemma filter_and_map_objects l us : _filter_and_map_users l = Ok us -> exists ds, l = map JObj ds.
Proof.
  revert us. induction l as [|v l IH]; intros us; simpl; [by exists []|].
  destruct v as [| | | | | |u]; try done.
  assert (forall us', _filter_and_map_users l = Ok us' -> exists ds, JObj u :: l = map JObj ds) as Hrest.
  { intros us' [ds ->]%IH. by exists (u :: ds). }
  destruct (negb (truthy _)); [apply Hrest|].
  intros (e & _ & (n & _ & E)%bind_ok)%bind_ok. destruct (negb (str_true e)); [by eapply Hrest|].
  apply bind_ok in E as (m & _ & (ms & Hms & _)%bind_ok). by eapply Hrest.
Qed.

Lemma filter_and_map_from l us : _filter_and_map_users l = Ok us ->
  Forall (fun s => exists u, JObj u ∈ l /\ eligible u = true /\ _map_to_scim u = Ok s) us.
Proof.
  intros E. destruct (filter_and_map_objects l us E) as [ds ->].
  apply filter_and_map_users_spec in E as [E _]. apply mapR_ok in E.
  apply Forall_forall. intros s Hs.
  apply list_elem_of_lookup in Hs as [i Hi]. destruct (Forall2_lookup_r _ _ _ _ _ E Hi) as (u & Hu & Hm).
  apply list_elem_of_lookup_2, list_elem_of_In, filter_In in Hu as [Hin Hel].
  exists u. split; [|done]. apply list_elem_of_In, in_map. exact Hin.
Qed.

(** A page Authentik may serve. *)
Definition authentik_page (users : list json) : Prop := exists t url next, serves_page t url users next.

(** Authentik identifies its users by integers. *)
Hypothesis integer_pks : forall l, authentik_page l -> Forall integer_pk l.

Lemma listing_integer_pk t url all tr : listing t url all tr -> Forall integer_pk all.
Proof.
  induction 1 as [|t url page next rest tr _ Hpage _ IH]; [constructor|].
  apply Forall_app. split; [|done]. apply integer_pks. by exists t, url, next.
Qed.

Lemma listed_source_ok t users tr : listed t users tr -> Forall source_ok users.
Proof.
  intros (all & Hall%listing_integer_pk & Hus%filter_and_map_from). rewrite Forall_forall in Hall.
  eapply Forall_impl; [exact Hus|]. intros user (u & Hu & Hel & Hm).
  eapply map_to_scim_source_ok; [by apply Hall| |done]. unfold eligible in Hel. by apply andb_prop in Hel as [? _].
Qed.

(** Users are only answered after the complete listing. *)
Lemma get_users_run fuel w r w' : get_users settings fuel w = (r, w') ->
  exists tr, w_trace w' = (w_trace w ++ tr)%list /\ Forall authentik_event tr /\
    forall users, r = Ok (Some (Some users)) -> listed (w_tick w) users tr.
Proof.
  assert (exists tr, w_trace w = (w_trace w ++ tr)%list /\ Forall authentik_event tr) as Hno.
  { exists []. by rewrite app_nil_r. }
  unfold get_users. destruct (_ || _).
  { intros [= <- <-]. destruct Hno as (tr & Htr & Hall). by exists tr. }
  cbv zeta. fold authentik_headers first_url. unfold mbind, M_bind, _fetch_all_users, catchM.
  destruct (fetch_pages fuel authentik_headers (JStr first_url) [] w) as [r1 w1] eqn:E1.
  apply fetch_pages_run in E1 as (tr & Htr & Hall & Hl).
  destruct r1 as [[[all|]|]|e]; [|by intros [= <- <-]; exists tr..|by destruct e; intros [= <- <-]; exists tr].
  destruct (Hl all eq_refl) as (rest & -> & Hlist). unfold liftR. intros E. exists tr.
  destruct (_filter_and_map_users ([] ++ rest)%list) as [us|e] eqn:Em; injection E as <- <-; (split; [done|]); (split; [done|]).
  - intros users [= <-]. by exists rest.
  - done.
Qed.

(** ** After the token *)

(** What follows the answer [o] of Authentik. *)
Definition after_listing (token : option string) (o : option (option (list dict))) (tr : list event) : Prop :=
  tr = [] \/ exists access users, o = Some (Some users) /\ token = Some access /\ access <> "" /\ apple_trace access users tr.

(** What a run from [s] to [s'] adds to the trace. *)
Definition adds (T : list event -> Prop) (s s' : Conn) : Prop :=
  exists tr, w_trace (cn_world s') = (w_trace (cn_world s) ++ tr)%list /\ T tr.

(** A computation with traces that depend on the tick it starts at. *)
Definition tracing {A} (T : nat -> list event -> Prop) (m : M Conn A) : Prop :=
  forall s r s', m s = (r, s') -> adds (T (w_tick (cn_world s))) s s'.

Lemma tracing_of {A} T (T' : nat -> list event -> Prop) (m : M Conn A) :
  traces T m anything -> (forall t tr, T tr -> T' t tr) -> tracing T' m.
Proof. intros Hm HT s r s' E. apply Hm in E as [(tr & Htr & H') _]. exists tr. split; [exact Htr|by apply HT]. Qed.

Lemma tracing_weaken {A} (T T' : nat -> list event -> Prop) (m : M Conn A) :
  tracing T m -> (forall t tr, T t tr -> T' t tr) -> tracing T' m.
Proof. intros Hm HT s r s' (tr & Htr & H')%Hm. exists tr. split; [exact Htr|by apply HT]. Qed.

Lemma tracing_fetched {A} fuel token (k : option (option (list dict)) -> M Conn A) :
  (forall o, (forall us, o = Some (Some us) -> Forall source_ok us) -> traces (after_listing token o) (k o) anything) ->
  tracing (listed_trace token) (worldC (get_users settings fuel) ≫= k).
Proof.
  intros Hk s r s'. unfold mbind, M_bind, worldC, zoom.
  destruct (get_users settings fuel (lget s)) as [r1 w1] eqn:E1.
  apply get_users_run in E1 as (t1 & Ht1 & Hall & Hl). destruct r1 as [o|e].
  - intros E. apply Hk in E as [(t2 & Ht2 & Hafter) _].
    + exists (t1 ++ t2)%list. split; [rewrite app_assoc; etransitivity; [exact Ht2|f_equal; exact Ht1]|].
      exists t1, t2. split; [done|]. split; [done|].
      destruct Hafter as [->|(access & users & -> & -> & Hne & Htr)]; [by left|right].
      exists access, users. by split_and!; [| |apply Hl|].
    + intros us ->. by eapply listed_source_ok, Hl.
  - intros [= <- <-]. exists t1. split; [exact Ht1|]. exists t1, []. rewrite app_nil_r.
    split; [done|]. split; [done|by left].
Qed.

(** Synchronising is the last thing that happens. *)
Lemma traces_sync_then {A} access users (f : SyncResult -> A) : access <> "" -> Forall source_ok users ->
  traces (after_listing (Some access) (Some (Some users))) (res ← syncM settings access users; mret (f res)) anything.
Proof.
  intros Hne Hus s r s'. unfold mbind, M_bind, syncM. destruct (sync_users settings access users _) as [r0 sc] eqn:E.
  apply sync_users_events in E as (tr & Etr & Htr); [|done].
  destruct r0; intros [= <- <-]; (split; [|done]); (exists tr; split; [exact Etr|right; by exists access, users]).
Qed.

Lemma tracing_sync_fetched fuel access : str_true access = true ->
  tracing (listed_trace (Some access)) (sync_fetched settings fuel access).
Proof.
  intros Hne. apply tracing_fetched. intros [[us|]|] Hus; try (apply traces_ret; [by left|exact I]).
  apply traces_sync_then; [|by apply Hus]. unfold str_true in Hne. by bool_hyps.
Qed.

(** ** The whole of it *)

Definition token_of (s : Conn) : result (option string) * Conn := get_valid_access_token settings utc_isoformat s.

(** What may follow the token: alerts, or the users. *)
Definition after_token (token : option string) (t : nat) (tr : list event) : Prop :=
  Forall token_event tr \/ listed_trace token t tr.

Lemma tracing_nil {A} token (m : M Conn A) : traces (fun tr => tr = []) m anything -> tracing (after_token token) m.
Proof. intros Hm. eapply tracing_of; [exact Hm|]. intros t tr ->. left. constructor. Qed.

Lemma token_then {A} (k : option string -> M Conn A) s r s' :
  (forall token, tracing (after_token token) (k token)) ->
  (get_valid_access_token settings utc_isoformat ≫= k) s = (r, s') -> adds (sync_trace (token_of s)) s s'.
Proof.
  intros Hk. unfold token_of, mbind, M_bind. destruct (get_valid_access_token settings utc_isoformat s) as [r1 s1] eqn:E1.
  apply traces_token in E1 as [(t1 & E1 & Ht1) _]. destruct r1 as [token|e].
  - intros (t2 & E2 & Ht2)%Hk. exists (t1 ++ t2)%list.
    split; [rewrite app_assoc; etransitivity; [exact E2|by f_equal]|].
    destruct Ht2 as [Ht2|Ht2].
    + exists (t1 ++ t2)%list, []. rewrite app_nil_r. split; [done|]. split; [by apply Forall_app|by left].
    + exists t1, t2. split; [done|]. split; [done|]. right. by exists token.
  - intros [= <- <-]. exists t1. split; [exact E1|]. exists t1, []. rewrite app_nil_r.
    split; [done|]. split; [done|by left].
Qed.

(** The body of [sync] after the token. *)
Lemma sync_after_token fuel token :
  tracing (after_token token)
    (if negb (str_true (default "" token))
     then raiseM (HTTPException 401 "No valid Apple access token. Visit /apple-scim/authorize to connect.")
     else
       users ← worldC (get_users settings fuel);
       match users with
       | None => mret None
       | Some None => raiseM (HTTPException 502 "Could not fetch users from Authentik")
       | Some (Some users) => result ← syncM settings (default "" token) users; mret (Some result)
       end : M Conn (option SyncResult)).
Proof.
  destruct (str_true (default "" token)) eqn:Hne; cbn [negb]; [|by apply tracing_nil, traces_raise].
  destruct token as [token|]; [|done]. eapply tracing_weaken with (T := listed_trace (Some token)); [|by right].
  apply tracing_fetched. intros [[us|]|] Hus; [|apply traces_raise; by left|apply traces_ret; [by left|exact I]].
  apply (traces_sync_then token us Some); [|by apply Hus]. unfold str_true in Hne. by bool_hyps.
Qed.

Lemma sync_traced fuel s r s' : sync settings utc_isoformat fuel s = (r, s') -> adds (sync_trace (token_of s)) s s'.
Proof.
  assert (adds (sync_trace (token_of s)) s s) as Hno.
  { exists []. rewrite app_nil_r. split; [done|apply sync_trace_nil]. }
  unfold sync. set (body := get_valid_access_token settings utc_isoformat ≫= _).
  assert (forall r1 s1, body s = (r1, s1) -> adds (sync_trace (token_of s)) s s1) as Hbody.
  { intros r1 s1. apply token_then. intros token. apply sync_after_token. }
  clearbody body. unfold mbind, M_bind, liftR. destruct (_require_scim_configured settings); [|by intros [= <- <-]].
  unfold catchM, scim_operation. destruct (busy_at _); [by intros [= <- <-]|].
  destruct (body s) as [[res|e] s1] eqn:E; pose proof (Hbody _ _ eq_refl) as Hadds; [by intros [= <- <-]|].
  destruct e; by intros [= <- <-].
Qed.

(** ** The background synchronisations *)

(** What a waiting task finds when the connection is its own. *)
Definition after_wait (s : Conn) : Conn :=
  let t := w_tick (cn_world s) in if busy_at t then others t s else s.

Lemma logged_operation (k : option string -> M Conn (option unit)) s r s' :
  (forall token, tracing (after_token token) (k token)) ->
  log_errors (scim_operation true (get_valid_access_token settings utc_isoformat ≫= k)) s = (r, s') ->
  is_ok r = true /\ adds (sync_trace (token_of (after_wait s))) (after_wait s) s'.
Proof.
  intros Hk. unfold log_errors, catchM.
  assert (forall body : M Conn (option unit), scim_operation true body s = body (after_wait s)) as ->.
  { intros body. unfold scim_operation, after_wait. by destruct (busy_at _). }
  destruct ((get_valid_access_token settings utc_isoformat ≫= k) (after_wait s)) as [[a|e] s1] eqn:E;
    apply token_then in E; try done; by intros [= <- <-].
Qed.

Lemma background_after_token fuel token :
  tracing (after_token token)
    (match token with
     | Some token => if str_true token then sync_fetched settings fuel token else mret (Some tt)
     | None => mret (Some tt)
     end).
Proof.
  destruct token as [token|]; [destruct (str_true token) eqn:Hne|]; try by apply tracing_nil, traces_ret.
  eapply tracing_weaken; [by apply tracing_sync_fetched|by right].
Qed.

(** An alert when there is no token is still part of the first phase. *)
Lemma scheduled_after_token fuel token :
  tracing (after_token token)
    (if negb (str_true (default "" token)) then
       _ ← send_alert settings utc_isoformat "scim_no_valid_token"
             "Apple SCIM sync skipped — no valid token. Visit /apple-scim/authorize to re-authorize" "error";
       mret (Some tt)
     else sync_fetched settings fuel (default "" token)).
Proof.
  destruct (str_true (default "" token)) eqn:Hne; cbn [negb].
  - destruct token as [token|]; [|done]. eapply tracing_weaken; [by apply tracing_sync_fetched|by right].
  - eapply tracing_of with (T := Forall token_event); [|by left].
    eapply traces_all_bind; [apply traces_alert|]. intros ? _. traces_quiet.
Qed.

(** C14: whichever way a synchronisation is started - by the route, after an
    authorization, or by the timer - it proceeds in this order, and stops
    where a step fails.  First, requests to Apple's token endpoint and alerts
    to the configured webhook, in obtaining the access token.  Then, reads of
    Authentik.  Then requests to Apple's SCIM service, and these only when the
    token phase answered a non-empty token, which is the one they carry, and
    when the reads of Authentik are a complete listing: one request for each
    page, from the first page and the tick at which the token was there on,
    each answered at its tick with status 200 and a JSON object, until a page
    names no next one.  Every request to the SCIM service is a
    read or a write authorised, as [allowed_event] says, for the users that
    the mapping makes of exactly that listing.  The two background
    synchronisations start from the state they find after waiting and let no
    exception out.  Authentik identifies its users by integers. *)
Theorem synchronisation_end_to_end fuel s :
  (forall r s', sync settings utc_isoformat fuel s = (r, s') ->
     exists tr, w_trace (cn_world s') = (w_trace (cn_world s) ++ tr)%list /\
       sync_trace (get_valid_access_token settings utc_isoformat s) tr) /\
  (forall r s', _background_sync settings utc_isoformat fuel s = (r, s') \/
                _run_scheduled_apple_scim_sync settings utc_isoformat fuel s = (r, s') ->
     is_ok r = true /\
     exists tr, w_trace (cn_world s') = (w_trace (cn_world (after_wait s)) ++ tr)%list /\
       sync_trace (get_valid_access_token settings utc_isoformat (after_wait s)) tr).
Proof.
  split; [apply sync_traced|].
  intros r s' [E|E]; (eapply logged_operation; [|exact E]); [apply background_after_token|apply scheduled_after_token].
Qed.
End sync.

Module Example.
Import ScimToken.Example AppleOAuth.Example.

(** Authentik serves one page; Apple's directory holds Ann, without an
    externalId; the token endpoint gives a token. *)
#[local] Instance deployment : Env := {|
  env_now t := 1700000000%Z;
  env_monotonic t := 0%Z;
  env_uuid t := "u";
  env_entropy t := "iv";
  env_http t rq :=
    if str_in "idp.example.com" (rq_url rq)
    then AppleScimSpec.Example.answer 200 (JObj [("results", JArr (map JObj api_users)); ("next", JNull)])
    else if str_in "federation.apple.com" (rq_url rq)
    then AppleScimSpec.Example.directory.(env_http) t rq
    else AppleScimSpec.Example.answer 200 (JObj [("access_token", JStr "fresh"); ("expires_in", JInt 3600)]);
  env_getaddrinfo t host := Ok [];
  env_deadline t := None;
|}.

Lemma deployment_pks l : authentik_page enabled_settings l -> Forall integer_pk l.
Proof.
  intros (t & url & next & resp & data & Hh & _ & Hj & Hi & _). cbn [env_http deployment users_request rq_url] in Hh.
  destruct (str_in "idp.example.com" url).
  { injection Hh as <-. injection Hj as <-. injection Hi as <-. by repeat constructor. }
  assert (dlookup "results" data = None) as Hd.
  { destruct (str_in "federation.apple.com" url).
    - unfold AppleScimSpec.Example.directory in Hh. cbn [env_http rq_method rq_url] in Hh.
      change (String.eqb _ "GET") with true in Hh. cbv iota in Hh.
      destruct (String.eqb _ (_user_url "a1")); injection Hh as <-; injection Hj as <-; reflexivity.
    - injection Hh as <-. injection Hj as <-. reflexivity. }
  unfold dget_default in Hi. rewrite Hd in Hi. injection Hi as <-. constructor.
Qed.

Definition synced : result (option json) * Conn :=
  sync enabled_settings (fun _ => "now") 3 connected.

(** Ann's account is not linked and recovery is off: a conflict, nothing is
    written. *)
Example synced_requests :
  map (fun e => match e with Sent rq => (rq_method rq, rq_url rq) | Resolved h => ("", h) end)
    (w_trace (cn_world (snd synced))) =
  [("POST", "https://appleid.apple.com/auth/oauth2/v2/token");
   ("GET", "https://idp.example.com/api/v3/core/users/?type=internal&page_size=500");
   ("GET", "https://federation.apple.com/feeds/business/scim/Users?count=200")].
Proof. vm_compute. reflexivity. Qed.

Lemma synchronisation_end_to_end_witness :
  exists tr, w_trace (cn_world (snd synced)) = (w_trace (cn_world connected) ++ tr)%list /\
    sync_trace enabled_settings (get_valid_access_token enabled_settings (fun _ => "now") connected) tr.
Proof.
  refine (proj1 (synchronisation_end_to_end enabled_settings (fun _ => "now") deployment_pks 3 connected) (fst synced) (snd synced) _).
  apply surjective_pairing.
Defined.
End Example.
