(* ===== verification/Service.v ===== *)
(** * The service as one application ([app/main.py], the routers)

    The state of the process, the routers with the dependencies they declare,
    and a request's way through the middlewares, the access control, a handler
    and the exception handler.  How FastAPI picks a route and parses a body is
    not modelled: a request is an endpoint with its parsed arguments. *)
From Stdlib Require Import ZArith Lia Ascii String.
From stdpp Require Import base option list strings gmap.
From S2P Require Import Prelude PyStr PyVal Config Crypto Database World Discovery Auth Outbox Webhook StreamsApi Alerts ScimToken AppleOAuth.

Open Scope string_scope.

(** ** The state of the process *)
Record Service := {
  sv_world : World;
  sv_db : Db;
  sv_failures : failures;             (* [auth._management_auth_failures] *)
  sv_last_sent : gmap string Z;       (* [alerts._last_sent] *)
  sv_states : states;                 (* [apple_scim._pending_states] *)
  sv_background : nat;                (* [apple_scim._background_tasks] *)
}.

#[export] Instance service_world : Lens Service World :=
  {| lget := sv_world;
     lset w s := {| sv_world := w; sv_db := sv_db s; sv_failures := sv_failures s; sv_last_sent := sv_last_sent s;
                    sv_states := sv_states s; sv_background := sv_background s |} |}.
#[export] Instance service_app : Lens Service App :=
  {| lget s := {| app_world := sv_world s; app_db := sv_db s |};
     lset a s := {| sv_world := app_world a; sv_db := app_db a; sv_failures := sv_failures s;
                    sv_last_sent := sv_last_sent s; sv_states := sv_states s; sv_background := sv_background s |} |}.
#[export] Instance service_auth : Lens Service Auth :=
  {| lget s := {| au_world := sv_world s; _management_auth_failures := sv_failures s |};
     lset a s := {| sv_world := au_world a; sv_db := sv_db s; sv_failures := _management_auth_failures a;
                    sv_last_sent := sv_last_sent s; sv_states := sv_states s; sv_background := sv_background s |} |}.
#[export] Instance service_conn : Lens Service Conn :=
  {| lget s := {| cn_world := sv_world s; cn_db := sv_db s; _last_sent := sv_last_sent s;
                  _pending_states := sv_states s; _background_tasks := sv_background s |};
     lset c s := {| sv_world := cn_world c; sv_db := cn_db c; sv_failures := sv_failures s;
                    sv_last_sent := _last_sent c; sv_states := _pending_states c; sv_background := _background_tasks c |} |}.

#[export] Instance service_world_laws : LensLaws Service World.
Proof. split; [done|by intros []|done]. Qed.
#[export] Instance service_app_laws : LensLaws Service App.
Proof. split; [by intros []|by intros []|done]. Qed.
#[export] Instance service_auth_laws : LensLaws Service Auth.
Proof. split; [by intros []|by intros []|done]. Qed.
#[export] Instance service_conn_laws : LensLaws Service Conn.
Proof. split; [by intros []|by intros []|done]. Qed.

(** ** Endpoints *)

Inductive endpoint :=
| EServiceRoot
| EConfiguration
| EJwks
| EManage (c : api_call)
| EAuthorize
| ECallback (code state error : option string)
| EScimStatus
| EScimSync
| EWebhook (request : WebhookRequest).

(** [dependencies=[Depends(require_management_auth)]], on the two [/ssf]
    routers and on two of the [/apple-scim] routes. *)
Definition requires_auth (e : endpoint) : bool :=
  match e with
  | EManage _ | EScimStatus | EScimSync => true
  | _ => false
  end.

(** The headers of a request the application itself looks at, its path and
    the client's address. *)
Record Incoming := {
  in_path : string;
  in_client : option string;
  in_authorization : option string;
  in_accept : option string;
  in_request_id : option string;
  in_endpoint : endpoint;
}.

Section service.
Context `{CryptoLib} `{Env} `{Tasks} `{Sqlite} `{Schedule}.
Variable settings : Settings.
Variable keys : KeyStore.
Variable utc_isoformat : nat -> string.
(** slowapi's [limiter.enabled] and the environment's APP_VERSION *)
Variable limiter_enabled : bool.
Variable version_env : option string.
(** Bound on the pages read from Authentik by [sync]. *)
Variable fuel : nat.

(** [None]: the fuel ran out. *)
Definition handle (accept : option string) (e : endpoint) : M Service (option answer) :=
  let json {T} `{Lens Service T} (m : M T json) : M Service (option answer) :=
    v ← zoom m; mret (Some (json_answer 200 v)) in
  match e with
  | EServiceRoot => mret (Some (Page (service_root accept version_env)))
  | EConfiguration => mret (Some (json_answer 200 (ssf_configuration settings)))
  | EJwks => v ← liftR (jwks keys); mret (Some (json_answer 200 v))
  | EManage c => a ← zoom (run_call settings keys c); mret (Some a)
  | EAuthorize => url ← zoom (authorize settings); mret (Some (Redirect url))
  | ECallback code state error => json (callback settings code state error)
  | EScimStatus => json (status settings)
  | EScimSync => v ← zoom (sync settings utc_isoformat fuel); mret (json_answer 200 <$> v)
  | EWebhook request => json (authentik_webhook settings keys request)
  end.

(** The dependencies of a route run before its handler. *)
Definition dispatch (rq : Incoming) : M Service (option answer) :=
  _ ← (if requires_auth (in_endpoint rq)
       then zoom (require_management_auth settings limiter_enabled (in_client rq) (in_authorization rq))
       else mret tt);
  handle (in_accept rq) (in_endpoint rq).

(** The headers a raised exception carries: only the 401 of the management
    interface has any. *)
Definition raised (code : Z) (detail : string) : StarletteHTTPException :=
  {| exc_status_code := code; exc_detail := JStr detail;
     exc_headers := if (code =? 401)%Z && String.eqb detail "Authorization required"
                    then Some [("WWW-Authenticate", "Bearer")] else None |}.

(** [create_app]: the registered exception handler, inside the middlewares. *)
Context `{Headers}.
(** The response Starlette builds, and what stands for an answer the fuel does
    not suffice to compute. *)
Variable render : answer -> HttpResponse.
Variable unfinished : HttpResponse.

Definition answered (rq : Incoming) : M (Ctx Service) HttpResponse :=
  catchM (a ← zoom (dispatch rq); mret (default unfinished (render <$> a)))
    (fun e => match e with
     | HTTPException code detail =>
         Some (mret (render (Page (http_exception_handler (in_accept rq) (in_path rq) (raised code detail)))))
     | _ => None
     end).

Definition application (rq : Incoming) : M (Ctx Service) HttpResponse :=
  app_stack (in_path rq) (in_request_id rq) (answered rq).

(** ** Lemmas *)

Lemma zoom_run {S T A} `{Lens S T} (m : M T A) s : zoom m s = (fst (m (lget s)), lset (snd (m (lget s))) s).
Proof. unfold zoom. by destruct (m (lget s)). Qed.

(** Everything but the clock, the failures and the OAuth states. *)
Definition same_service (s s' : Service) : Prop :=
  w_trace (sv_world s') = w_trace (sv_world s) /\ sv_db s' = sv_db s /\
  sv_last_sent s' = sv_last_sent s /\ sv_background s' = sv_background s.

Lemma same_service_refl s : same_service s s.
Proof. done. Qed.

Lemma dispatch_admitted rq s : right_header settings (in_authorization rq) ->
  dispatch rq s = handle (in_accept rq) (in_endpoint rq) s.
Proof.
  intros Hr. unfold dispatch. destruct (requires_auth _); [|done].
  destruct (management_auth_decision settings limiter_enabled (in_client rq) (in_authorization rq) (lget s)) as [Hok _].
  unfold mbind, M_bind. rewrite zoom_run, (Hok Hr). by destruct s.
Qed.

Lemma dispatch_refused rq s : requires_auth (in_endpoint rq) = true -> ~ right_header settings (in_authorization rq) ->
  exists e s', dispatch rq s = (Err e, s') /\ e ∈ refusals /\ same_service s s' /\ sv_states s' = sv_states s.
Proof.
  intros Ha Hn. unfold dispatch. rewrite Ha.
  destruct (management_auth_refused settings limiter_enabled (in_client rq) (in_authorization rq) (lget s) Hn)
    as (e & a & E & He & Ht).
  exists e, (lset a s). split; [unfold mbind, M_bind; rewrite zoom_run, E; done|]. done.
Qed.

(** ** Strangers *)

(** A request with none of the three credentials: the management token, the
    webhook's authentication of this very body, a live OAuth state. *)
Definition stranger (rq : Incoming) (s : Service) : Prop :=
  ~ right_header settings (in_authorization rq) /\
  match in_endpoint rq with
  | EWebhook request => ~ authentic settings request (concat_chunks (wr_chunks request))
  | ECallback _ state _ => forall st, state = Some st -> ~ live st (lget s)
  | _ => True
  end.

Lemma webhook_refused request s : ~ authentic settings request (concat_chunks (wr_chunks request)) ->
  exists e, authentik_webhook settings keys request s = (Err e, s).
Proof.
  intros Hn. unfold authentik_webhook. liftR_step Hbody; [|eauto]. apply read_body_ok in Hbody as [-> _].
  liftR_step Hauth; [|eauto]. by destruct Hn; eapply authenticate_ok.
Qed.

(** C23: a stranger changes nothing: a request without the management token,
    without the webhook's credential and without a live OAuth state, to
    whatever endpoint, makes the service contact nobody and leaves database,
    alerts and background tasks as they are; the only state it can add is a
    pending authorization, by starting one. *)
Theorem strangers_change_nothing rq s r s' :
  stranger rq s -> dispatch rq s = (r, s') ->
  same_service s s' /\
  (forall st t, sv_states s' !! st = Some t -> sv_states s !! st = Some t \/ in_endpoint rq = EAuthorize).
Proof.
  intros [Hn Hs]. destruct (requires_auth (in_endpoint rq)) eqn:Ha.
  { destruct (dispatch_refused rq s Ha Hn) as (e & s1 & -> & _ & Hsame & Hst). intros [= <- <-].
    split; [done|]. rewrite Hst. auto. }
  unfold dispatch. rewrite Ha. unfold mbind at 1, M_bind at 1. cbn [mret M_ret]. unfold handle.
  destruct (in_endpoint rq) as [| | |c| |code state error| | |request] eqn:He; try done.
  - intros [= <- <-]. auto using same_service_refl.
  - intros [= <- <-]. auto using same_service_refl.
  - liftR_step Ej; intros [= <- <-]; auto using same_service_refl.
  - unfold mbind, M_bind. rewrite zoom_run. destruct (authorize settings (lget s)) as [r1 c1] eqn:E.
    apply authorize_effect in E as [(Ht & Hd & Hb) Hl]. intros Hr.
    assert (s' = lset c1 s) as -> by (destruct r1; by injection Hr as _ <-). split; [by split_and!|auto].
  - unfold mbind, M_bind. rewrite zoom_run. destruct (callback settings code state error (lget s)) as [r1 c1] eqn:E.
    apply callback_refused in E as [[(Ht & Hd & Hb) [Hl Hsub]] _]; [|exact Hs]. intros Hr.
    assert (s' = lset c1 s) as -> by (destruct r1; by injection Hr as _ <-). split; [by split_and!|].
    intros st t Hst. left. by eapply lookup_weaken.
  - unfold mbind, M_bind. rewrite zoom_run. destruct (webhook_refused request (lget s) Hs) as (e & ->). simpl.
    intros [= _ <-]. destruct s. auto using same_service_refl.
Qed.

(** ** Access to the management interface *)

Context `{!HeadersLaws}.
Hypothesis render_status : forall a, hr_status (render a) = answer_status a.

Lemma entered_same request_id (c : Ctx Service) : same_service (ctx_state c) (ctx_state (entered request_id c)) /\
  sv_states (ctx_state (entered request_id c)) = sv_states (ctx_state c).
Proof. unfold entered. simpl. by destruct (opt_false request_id). Qed.

Lemma answered_refused rq c : requires_auth (in_endpoint rq) = true -> ~ right_header settings (in_authorization rq) ->
  exists r c', answered rq c = (Ok r, c') /\ hr_status r ∈ [401; 403; 429]%Z /\
    same_service (ctx_state c) (ctx_state c') /\ sv_states (ctx_state c') = sv_states (ctx_state c).
Proof.
  intros Ha Hn. destruct (dispatch_refused rq (ctx_state c) Ha Hn) as (e & s' & E & He & Hsame & Hst).
  assert (exists code detail, e = HTTPException code detail /\ code ∈ [401; 403; 429]%Z) as (code & detail & -> & Hcode)
    by (unfold refusals in He; set_solver).
  eexists _, _. split.
  { unfold answered, catchM, mbind, M_bind. rewrite zoom_run. simpl lget. rewrite E. reflexivity. }
  split; [|done]. rewrite render_status. unfold http_exception_handler. simpl.
  assert (is_unmatched_route (raised code detail) = false) as ->; [|done].
  unfold is_unmatched_route. simpl. destruct (Z.eqb_spec code 404) as [->|]; [|done]. set_solver.
Qed.

(** C22: the management interface - every call of the two [/ssf] routers, and
    [/apple-scim/status] and [/apple-scim/sync] - is closed without the token:
    a request to it reaches the handler if it carries the token; otherwise the
    client gets 401, 403 or 429, with the security headers every response has,
    and nothing happened - no host contacted, no data, alert, state or task
    changed. *)
Theorem management_access rq c :
  (exists call, in_endpoint rq = EManage call) \/ in_endpoint rq = EScimStatus \/ in_endpoint rq = EScimSync ->
  (right_header settings (in_authorization rq) ->
   forall s, dispatch rq s = handle (in_accept rq) (in_endpoint rq) s) /\
  (~ right_header settings (in_authorization rq) ->
   exists r c', application rq c = (Ok r, c') /\ hr_status r ∈ [401; 403; 429]%Z /\
     Forall (fun kv => hget kv.1 (hr_headers r) = Some kv.2) security_headers /\
     same_service (ctx_state c) (ctx_state c') /\ sv_states (ctx_state c') = sv_states (ctx_state c) /\
     request_id_var c' = request_id_var c).
Proof.
  intros Hep. assert (requires_auth (in_endpoint rq) = true) as Ha by (by destruct Hep as [[? ->]|[-> | ->]]).
  split; [intros Hr s; by apply dispatch_admitted|]. intros Hn. unfold application.
  rewrite app_stack_run. cbv zeta. destruct (entered_same (in_request_id rq) c) as [Hs1 Hst1].
  destruct (answered_refused rq (entered (in_request_id rq) c) Ha Hn) as (r & c1 & -> & Hcode & Hs2 & Hst2).
  eexists _, _. split; [reflexivity|]. destruct (set_all_same (framed (in_path rq) (request_id_of (in_request_id rq) (ctx_state c)) r) r) as [-> _].
  split; [done|]. split; [by eapply Forall_inv_tail, framed_headers|]. simpl.
  unfold same_service in *. split; [|split; [congruence|done]].
  destruct Hs1 as (? & ? & ? & ?), Hs2 as (? & ? & ? & ?). split_and!; congruence.
Qed.
End service.

(** A service with the Apple integration configured and nobody connected. *)
Module Example.
Import Toy OutboxSpec.Example Webhook.Example ScimToken.Example AppleOAuth.Example Discovery.Example.
#[local] Existing Instance token_endpoint.
#[local] Existing Instance toy_headers.
#[local] Existing Instance toy_headers_laws.

Definition new_service : Service :=
  {| sv_world := start; sv_db := empty_db; sv_failures := ∅; sv_last_sent := ∅; sv_states := ∅; sv_background := 0 |}.

Definition anonymous (e : endpoint) : Incoming :=
  {| in_path := "/"; in_client := Some "203.0.113.7"; in_authorization := None; in_accept := None;
     in_request_id := None; in_endpoint := e |}.

Definition serve (rq : Incoming) (s : Service) : result (option answer) * Service :=
  dispatch enabled_settings example_keys (fun _ => "now") true None 10 rq s.

Lemma anonymous_has_no_token e : ~ right_header enabled_settings (in_authorization (anonymous e)).
Proof. done. Qed.

Lemma strangers_change_nothing_witness :
  sv_db (snd (serve (anonymous (ECallback (Some "code") (Some "guess") None)) new_service)) = empty_db.
Proof.
  destruct (serve (anonymous (ECallback (Some "code") (Some "guess") None)) new_service) as [r s'] eqn:E.
  destruct (strangers_change_nothing enabled_settings example_keys (fun _ => "now") true None 10
    (anonymous (ECallback (Some "code") (Some "guess") None)) new_service r s') as [(_ & Hdb & _) _]; [|exact E|exact Hdb].
  split; [apply anonymous_has_no_token|]. intros st [= <-] (issued & Hi & _). discriminate Hi.
Defined.

Definition render (a : answer) : HttpResponse :=
  {| hr_status := answer_status a; hr_headers := []; hr_body := "" |}.

Definition outside : Ctx Service := {| request_id_var := "-"; ctx_state := new_service |}.

Lemma management_access_witness :
  (exists r c', application enabled_settings example_keys (fun _ => "now") true None 10 render (render (Empty 200))
      (anonymous (EManage ADelete)) outside = (Ok r, c') /\
    hr_status r ∈ [401; 403; 429]%Z /\ hget "Cache-Control" (hr_headers r) = Some "no-store") /\
  (exists r c', application enabled_settings example_keys (fun _ => "now") true None 10 render (render (Empty 200))
      (anonymous EScimSync) outside = (Ok r, c') /\ hr_status r ∈ [401; 403; 429]%Z).
Proof.
  pose proof (management_access enabled_settings example_keys (fun _ => "now") true None 10 render (render (Empty 200))
    (fun a => eq_refl)) as Haccess. split.
  - destruct (Haccess (anonymous (EManage ADelete)) outside (or_introl (ex_intro _ ADelete eq_refl))) as [_ Hrefused].
    destruct (Hrefused (anonymous_has_no_token _)) as (r & c' & E & Hs & Hh & _).
    exists r, c'. split; [exact E|]. split; [exact Hs|]. exact (Forall_inv (Forall_inv_tail (Forall_inv_tail (Forall_inv_tail Hh)))).
  - destruct (Haccess (anonymous EScimSync) outside (or_intror (or_intror eq_refl))) as [_ Hrefused].
    destruct (Hrefused (anonymous_has_no_token _)) as (r & c' & E & Hs & _). exists r, c'. split; [exact E|exact Hs].
Defined.

(** The OAuth state proves that the service issued it, not who asked for it:
    whoever starts an authorization can finish it with a code of their own,
    and the tokens the service then uses are theirs. *)
Definition started : Service := snd (serve (anonymous EAuthorize) new_service).
Definition hijacked : Service :=
  snd (serve (anonymous (ECallback (Some "their code") (Some "state0") None)) started).

Example stranger_connects_own_account :
  tk_access_token <$> apple_scim_tokens (sv_db hijacked) = Some "fresh" /\ sv_background hijacked = 1%nat.
Proof. vm_compute. split; reflexivity. Qed.
End Example.
