(* ===== verification/ServiceSteps.v ===== *)
(** * Every entry point as steps of the database layer

    The refinement between the parts of the process that touch the database -
    the routes, the delivery worker, the background syncs - and the steps of
    [StreamsType.write_step]: whatever a part does, and whatever the outcome,
    the database goes through a sequence of those steps, if the other tasks'
    own accesses do. *)
From Stdlib Require Import ZArith Lia Ascii String.
From stdpp Require Import base option list strings gmap relations.
From S2P Require Import Prelude PyStr PyVal Config Crypto Database DatabaseSpec World Discovery Auth UrlValidation Mapper Outbox OutboxSpec Webhook StreamsApi StreamsType AppleScim Alerts ScimToken Authentik AppleOAuth Service.

Open Scope string_scope.

(** Follow the code: sequence, handler or case distinction. *)
Ltac follow := first
  [ apply preserves_ret | apply preserves_raise | apply preserves_liftR | apply preserves_get
  | apply preserves_bind; [|intros] | case_match ].

(** A handler of [except] clauses that raise or answer. *)
Ltac handled_by := apply preserves_catch; [|intros ? ? ?; simplify_eq; repeat (case_match; simplify_eq); repeat follow].

(** ** An invariant of the steps, kept by the other tasks *)

Section entry_points.
Context `{CryptoLib} `{Env} `{Tasks} `{Sqlite} `{Schedule}.
Variable settings : Settings.
Variable keys : KeyStore.
Variable utc_isoformat : nat -> string.

Abbreviation hosts := (ssf_allowed_receiver_hosts settings).

Variable Inv : Db -> Prop.
Hypothesis Inv_ok : forall db, Inv db -> db_ok db.
Hypothesis Inv_step : forall db db', write_step settings hosts db db' -> Inv db -> Inv db'.
Hypothesis unlocked_keep : forall t db, Inv db -> Inv (tasks_unlocked t db).
Hypothesis locked_keep : forall t db, Inv db -> Inv (tasks_locked t db).
Hypothesis others_keep : forall t s, Inv (cn_db s) -> Inv (cn_db (others t s)).

Abbreviation app_inv := (Inv_app Inv).
Definition conn_inv (s : Conn) : Prop := Inv (cn_db s).
Definition service_inv (s : Service) : Prop := Inv (sv_db s).

(** ** The worker *)

Lemma lockedM_inv {A} (m : M Db A) : preserves Inv m -> preserves app_inv (lockedM m).
Proof.
  intros Hm s r s' E Hs. unfold lockedM, dbM in E. destruct (m _) as [r0 db'] eqn:Em.
  injection E as <- <-. apply Hm in Em. by apply Em, locked_keep.
Qed.

(** One operation under the lock. *)
Lemma locked_write_inv op : (forall db, write_step settings hosts db (op db)) -> preserves app_inv (lockedM (writeD op)).
Proof. intros Hop. apply lockedM_inv. intros db r db' [= <- <-]. by apply Inv_step. Qed.

Lemma read_inv {A} (f : Db -> result A) : preserves app_inv (unlockedM (readD f)).
Proof. by apply unlockedM_keeps, readD_keeps. Qed.

Lemma retry_inv item reason : (0 <= item_attempts item)%Z -> preserves app_inv (_retry item reason).
Proof.
  intros Ha. unfold _retry. cbv zeta. apply preserves_bind; [apply worldM_keeps|]. intros now.
  apply locked_write_inv. constructor. lia.
Qed.

Lemma deliver_item_inv item : (0 <= item_attempts item)%Z -> preserves app_inv (_deliver_item settings item).
Proof.
  intros Ha. unfold _deliver_item. destruct (decrypt_outbox_payload settings item) as [payload|e].
  2:{ destruct e; try apply preserves_raise. apply locked_write_inv. constructor. }
  destruct (negb _); [apply locked_write_inv; constructor|].
  apply preserves_bind; [apply lockedM_inv; by intros db r db' [= <- <-]|]. intros [stream|].
  2:{ apply locked_write_inv. constructor. }
  destruct (negb _); [apply locked_write_inv; constructor|].
  destruct (negb _).
  { apply preserves_bind; [apply worldM_keeps|]. intros now. apply locked_write_inv. by constructor. }
  apply preserves_bind; [apply worldM_keeps|].
  intros [[|]|reason]; [apply locked_write_inv; constructor|by apply retry_inv..].
Qed.

(** The attempts of an item are those of a row. *)
Lemma current_item_attempts now i s it s' :
  app_inv s -> unlockedM (readD (fun db => Ok (get_due_outbox_item now i db))) s = (Ok (Some it), s') ->
  (0 <= item_attempts it)%Z.
Proof.
  intros Hs E. injection E as E _. apply due_item_row in E as (o & Ho & _ & _ & <-).
  eapply Forall_forall in Ho; [|apply ok_attempts, Inv_ok, unlocked_keep, Hs]. done.
Qed.

Lemma stopped_inv stop : preserves app_inv (stoppedM stop).
Proof. destruct stop; [apply worldM_keeps|apply preserves_ret]. Qed.

Lemma deliver_items_inv stop items : preserves app_inv (deliver_items settings stop items).
Proof.
  induction items as [|item items IH]; [apply preserves_ret|]. cbn [deliver_items].
  do 2 (apply preserves_bind; [apply stopped_inv|]; intros []; [apply preserves_ret|]).
  apply preserves_bind; [apply worldM_keeps|]. intros now.
  apply preserves_bind_post with (Q := fun c => forall it, c = Some it -> (0 <= item_attempts it)%Z);
    [apply read_inv|intros s c s' Hs E it ->; by eapply current_item_attempts|].
  intros [it|] Ha; [|exact IH]. apply preserves_bind; [by apply deliver_item_inv, Ha|]. intros _.
  apply preserves_bind; [exact IH|]. intros n. apply preserves_ret.
Qed.

Lemma deliver_pending_inv stop : preserves app_inv (deliver_pending settings stop).
Proof.
  apply preserves_bind; [apply worldM_keeps|]. intros now. apply preserves_bind; [apply read_inv|]. apply deliver_items_inv.
Qed.

Lemma delivery_loop_inv rounds : preserves app_inv (delivery_loop settings rounds).
Proof.
  induction rounds as [|rounds IH]; [apply preserves_ret|]. cbn [delivery_loop].
  apply preserves_bind; [apply stopped_inv|]. intros []; [apply preserves_ret|].
  apply preserves_bind.
  { handled_by. apply preserves_bind; [apply deliver_pending_inv|]. intros _. apply preserves_ret. }
  intros _. apply preserves_bind; [apply stopped_inv|]. intros []; [done|].
  apply preserves_bind; [apply worldM_keeps|]. done.
Qed.

(** ** The webhook *)

Lemma enqueue_events_inv streams events email : preserves app_inv (enqueue_events settings keys streams events email).
Proof.
  do 3 (apply preserves_bind; [apply worldM_keeps|]; intros ?).
  apply unlockedM_keeps; [done|]. apply (write_keeps settings); [done|constructor].
Qed.

Lemma webhook_inv request : preserves app_inv (authentik_webhook settings keys request).
Proof.
  unfold authentik_webhook. do 3 (apply preserves_bind; [apply preserves_liftR|]; intros ?). cbv zeta.
  apply preserves_bind; [apply worldM_keeps|]. intros [|e events]; [apply preserves_ret|].
  destruct (extract_email _) as [email|]; [|apply preserves_ret].
  apply preserves_bind; [apply read_inv|]. intros streams. destruct (List.filter _ _); [apply preserves_ret|].
  apply preserves_bind; [|intros; apply preserves_ret]. apply preserves_catch; [apply enqueue_events_inv|].
  intros err k (e' & _ & ->)%fmap_Some. apply preserves_raise.
Qed.

(** ** The Apple connection *)

Lemma worldC_inv {A} (m : M World A) : preserves conn_inv (worldC m : M Conn A).
Proof. intros s r s' E Hs. apply worldC_store in E as [Hdb _]. unfold conn_inv. by rewrite Hdb. Qed.

Lemma statesM_inv {A} (f : states -> A * states) : preserves conn_inv (statesM f).
Proof. intros s r s'. unfold statesM. destruct (f _). by intros [= <- <-]. Qed.

Lemma syncM_inv token users : preserves conn_inv (syncM settings token users).
Proof. intros s r s'. unfold syncM. destruct (sync_users _ _ _ _). by intros [= <- <-]. Qed.

Lemma send_alert_inv event message severity : preserves conn_inv (send_alert settings utc_isoformat event message severity).
Proof.
  intros s r s' E Hs. destruct (send_alert_total settings utc_isoformat event message severity s) as (s1 & E1 & Hdb & _).
  rewrite E1 in E. injection E as <- <-. unfold conn_inv. by rewrite Hdb.
Qed.

Lemma save_tokens_inv access refresh expires_in : preserves conn_inv (save_tokens access refresh expires_in).
Proof.
  intros s r s' E Hs. apply save_tokens_db in E. unfold conn_inv in *. destruct r as [u|e]; [|by destruct E as [-> _]].
  destruct E as (t & a & rf & now & _ & _ & _ & _ & ->). eapply Inv_step; [apply write_tokens|done].
Qed.

Lemma operation_inv {A} wait (body : M Conn A) : preserves conn_inv body -> preserves conn_inv (scim_operation wait body).
Proof.
  intros Hb s r s'. unfold scim_operation. destruct (busy_at _); [|apply Hb].
  destruct wait; [|by intros [= <- <-]]. intros E Hs. eapply Hb; [exact E|]. by apply others_keep.
Qed.

(** Follow the code, applying the lemma where it fits. *)
Ltac conn_by lemma := repeat first
  [ apply lemma | apply worldC_inv | apply statesM_inv | apply syncM_inv | apply send_alert_inv | apply save_tokens_inv
  | apply operation_inv | handled_by | follow ].
Ltac conn := conn_by save_tokens_inv.

Lemma refresh_inv token : preserves conn_inv (_refresh settings utc_isoformat token).
Proof. unfold _refresh, post_or_none. cbv zeta. conn. Qed.

Lemma get_valid_access_token_inv : preserves conn_inv (get_valid_access_token settings utc_isoformat).
Proof. unfold get_valid_access_token, load_tokens, getC. conn_by refresh_inv. Qed.

Lemma exchange_inv state code : preserves conn_inv (consume_and_exchange settings state code).
Proof. unfold consume_and_exchange, _exchange_authorization_code_locked. cbv zeta. conn. Qed.

Lemma callback_inv code state error : preserves conn_inv (callback settings code state error).
Proof.
  unfold callback, check_state. cbv zeta. conn_by exchange_inv. by apply preserves_modify.
Qed.

Lemma sync_fetched_inv fuel token : preserves conn_inv (sync_fetched settings fuel token).
Proof. unfold sync_fetched. conn. Qed.

Lemma sync_inv fuel : preserves conn_inv (sync settings utc_isoformat fuel).
Proof. unfold sync. conn_by get_valid_access_token_inv. Qed.

Lemma log_errors_inv m : preserves conn_inv m -> preserves conn_inv (log_errors m).
Proof. intros Hm. unfold log_errors. handled_by. done. Qed.

Lemma background_sync_inv fuel : preserves conn_inv (_background_sync settings utc_isoformat fuel).
Proof.
  apply log_errors_inv, operation_inv. apply preserves_bind; [apply get_valid_access_token_inv|]. intros.
  conn_by sync_fetched_inv.
Qed.

Lemma scheduled_sync_inv fuel : preserves conn_inv (_run_scheduled_apple_scim_sync settings utc_isoformat fuel).
Proof.
  apply log_errors_inv, operation_inv. apply preserves_bind; [apply get_valid_access_token_inv|]. intros.
  conn_by sync_fetched_inv.
Qed.

Lemma sync_loop_inv fuel rounds : preserves conn_inv (_apple_scim_sync_loop settings utc_isoformat fuel rounds).
Proof.
  induction rounds as [|rounds IH]; [apply preserves_ret|]. cbn [_apple_scim_sync_loop].
  apply preserves_bind; [by intros s r s' [= <- <-]; apply others_keep|]. intros _.
  apply preserves_bind; [apply scheduled_sync_inv|]. done.
Qed.

(** ** Requests *)

Variable limiter_enabled : bool.
Variable version_env : option string.
Variable fuel : nat.

(** What FastAPI lets through to the handlers. *)
Definition valid_endpoint (e : endpoint) : Prop :=
  match e with EManage c => valid_call c | _ => True end.

Lemma zoom_inv {T A} `{Lens Service T} (P : T -> Prop) (m : M T A) :
  (forall s, service_inv s -> P (lget s)) -> (forall t s, P t -> service_inv (lset t s)) ->
  preserves P m -> preserves service_inv (zoom m : M Service A).
Proof.
  intros Hget Hset Hm s r s' E Hs. rewrite zoom_run in E. injection E as <- <-. apply Hset.
  eapply Hm; [apply surjective_pairing|]. by apply Hget.
Qed.

Lemma zoom_app_inv {A} (m : M App A) : preserves app_inv m -> preserves service_inv (zoom m : M Service A).
Proof. by apply zoom_inv. Qed.
Lemma zoom_conn_inv {A} (m : M Conn A) : preserves conn_inv m -> preserves service_inv (zoom m : M Service A).
Proof. by apply zoom_inv. Qed.

Lemma zoom_auth_inv {A} (m : M Auth A) : preserves service_inv (zoom m : M Service A).
Proof. intros s r s' E. rewrite zoom_run in E. by injection E as <- <-. Qed.

Lemma handle_inv accept e : valid_endpoint e ->
  preserves service_inv (handle settings keys utc_isoformat version_env fuel accept e).
Proof.
  intros Hv. destruct e; cbn [handle]; try apply preserves_ret;
    (apply preserves_bind; [|intros; apply preserves_ret]); [apply preserves_liftR|..].
  - apply zoom_app_inv. by apply run_call_keeps.
  - apply zoom_conn_inv. unfold authorize. cbv zeta. conn.
  - apply zoom_conn_inv, callback_inv.
  - apply zoom_conn_inv. unfold status, load_tokens, getC. conn.
  - apply zoom_conn_inv, sync_inv.
  - apply zoom_app_inv, webhook_inv.
Qed.

Lemma dispatch_inv rq : valid_endpoint (in_endpoint rq) ->
  preserves service_inv (dispatch settings keys utc_isoformat limiter_enabled version_env fuel rq).
Proof.
  intros Hv. apply preserves_bind; [|intros _; by apply handle_inv].
  destruct (requires_auth _); [apply zoom_auth_inv|apply preserves_ret].
Qed.

(** A request through the middlewares and the exception handler. *)
Context `{Headers} `{!HeadersLaws}.
Variable render : answer -> HttpResponse.
Variable unfinished : HttpResponse.

Lemma application_inv rq : valid_endpoint (in_endpoint rq) ->
  preserves (fun c => service_inv (ctx_state c))
    (application settings keys utc_isoformat limiter_enabled version_env fuel render unfinished rq).
Proof.
  intros Hv c r c' E Hc. unfold application in E. rewrite app_stack_run in E. cbv zeta in E.
  destruct (answered _ _ _ _ _ _ _ _ rq (entered (in_request_id rq) c)) as [r1 c1] eqn:E1. injection E as _ <-.
  simpl. assert (service_inv (ctx_state (entered (in_request_id rq) c))) as Hin.
  { destruct (entered_same (in_request_id rq) c) as [(_ & Hdb & _) _]. unfold service_inv. by rewrite Hdb. }
  revert E1 Hin. apply preserves_catch with (P := fun c => service_inv (ctx_state c)).
  - apply preserves_bind; [|intros; apply preserves_ret]. intros c0 r0 c0' E0. rewrite zoom_run in E0.
    injection E0 as _ <-. eapply dispatch_inv; [done|apply surjective_pairing].
  - intros e k He. destruct e; simplify_eq. apply preserves_ret.
Qed.
End entry_points.
