(* ===== verification/Startup.v ===== *)
(** * Startup ([app/startup.py], [lifespan] of [app/main.py])

    The quarantine of streams whose receiver token cannot be decrypted, the
    start of the process, and any sequence of starts and stops. *)
From Stdlib Require Import ZArith Lia Ascii String.
From stdpp Require Import base option list strings.
From S2P Require Import Prelude PyStr PyVal Config Crypto Database DatabaseSpec World UrlValidation Preflight.

Open Scope string_scope.

Section startup.
Context `{CryptoLib}.
Variable settings : Settings.

(** Connecting creates a missing file in an existing directory: the queries of
    [_check_stored_streams_allowlist] and [_check_scim_authorized]. *)
Definition preflight_file (h : Host) (file : option DbFile) : option DbFile :=
  match file with
  | Some _ => file
  | None =>
      if h_db_dir_exists h
         && (negb (bool_decide (ssf_allowed_receiver_hosts settings = [])) || apple_scim_enabled settings)
      then Some {| file_mode := h_new_mode h; file_db := empty_db |} else None
  end.

(** ** Quarantine *)

(** The loop over the stored tokens: the streams that cannot be decrypted. *)
Fixpoint undecryptable (rows : list StreamRow) : result (list string) :=
  match rows with
  | [] => Ok []
  | row :: rest =>
      failed ← (if negb (str_true (r_endpoint_token row)) then Ok false
                else match decrypt_token settings (r_endpoint_token row) with
                     | Ok _ => Ok false
                     | Err TokenDecryptionError => Ok true
                     | Err e => Err e
                     end);
      failures ← undecryptable rest;
      Ok (if failed : bool then r_stream_id row :: failures else failures)
  end.

Definition pause (row : StreamRow) : StreamRow :=
  {| r_stream_id := r_stream_id row; r_aud := r_aud row; r_endpoint_url := r_endpoint_url row;
     r_endpoint_token := r_endpoint_token row; r_events_requested := r_events_requested row;
     r_status := "paused"; r_created_at := r_created_at row |}.

(** Any exception leaves the database as it is. *)
Definition quarantine_undecryptable_receiver_tokens (db : Db) : Db :=
  match undecryptable (streams db) with
  | Err _ => db
  | Ok failures =>
      set_streams (map (fun row => if str_mem (r_stream_id row) failures then pause row else row)) db
  end.

(** ** [lifespan] up to the point where requests are served *)

(** What survives a restart: the keys directory and the database file. *)
Record Node := { n_keys : KeyStore; n_file : option DbFile }.

(** [None]: the process exits. *)
Definition lifespan_startup `{Env} (h : Host) (generated : RsaKey) (chmod_ok : bool) (n : Node) : M World (option Node) :=
  '(lines, preflight) ← run_preflight_checks settings h;
  let file := preflight_file h (n_file n) in
  if preflight : bool then
    let ks := ensure_keys generated (n_keys n) in
    let f := init_db chmod_ok file in
    mret (Some {| n_keys := ks;
                  n_file := Some {| file_mode := file_mode f;
                                    file_db := quarantine_undecryptable_receiver_tokens (file_db f) |} |})
  else mret None.

Lemma undecryptable_single row : undecryptable [row] =
  if negb (str_true (r_endpoint_token row)) then Ok []
  else match decrypt_token settings (r_endpoint_token row) with
       | Ok _ => Ok []
       | Err TokenDecryptionError => Ok [r_stream_id row]
       | Err e => Err e
       end.
Proof.
  unfold undecryptable. destruct (negb _); [done|]. by destruct (decrypt_token _ _) as [|[]].
Qed.

(** A stream survives the quarantine unpaused exactly when its token can be
    used; the queue and everything else about the stream is untouched. *)
Lemma quarantine_single row db : streams db = [row] ->
  quarantine_undecryptable_receiver_tokens db =
  match decrypt_token settings (r_endpoint_token row) with
  | Err TokenDecryptionError => set_streams (fun _ => [pause row]) db
  | _ => db
  end.
Proof.
  intros Hrow. unfold quarantine_undecryptable_receiver_tokens. rewrite Hrow, undecryptable_single.
  assert (forall f : list StreamRow -> list StreamRow, f [row] = [row] -> set_streams f db = db) as Hid.
  { intros f Hf. unfold set_streams. rewrite Hrow, Hf, <- Hrow. by destruct db. }
  assert (set_streams (map (fun r => if str_mem (r_stream_id r) [] then pause r else r)) db = db) as Hnone
    by (by apply Hid).
  destruct (str_true (r_endpoint_token row)) eqn:Ht; cbn [negb].
  - destruct (decrypt_token settings (r_endpoint_token row)) as [|[]]; try done.
    unfold set_streams. rewrite Hrow. simpl. by rewrite String.eqb_refl.
  - unfold decrypt_token. by rewrite Ht.
Qed.

Lemma quarantine_db_ok db : db_ok db -> db_ok (quarantine_undecryptable_receiver_tokens db).
Proof.
  intros Hok. unfold quarantine_undecryptable_receiver_tokens.
  destruct (undecryptable (streams db)); [|done]. destruct Hok. split; simpl; try done. by rewrite length_map.
Qed.

(** Starting up never leaves a stream active that cannot be delivered to:
    a stream whose stored receiver token fails to decrypt is paused, any other
    is kept as it is, and neither the queue nor the stored Apple tokens change. *)
Theorem quarantine_pauses_undecryptable db : db_ok db ->
  let db' := quarantine_undecryptable_receiver_tokens db in
  db_ok db' /\ set_outbox db' = set_outbox db /\ apple_scim_tokens db' = apple_scim_tokens db /\
  Forall2 (fun row row' =>
      (decrypt_token settings (r_endpoint_token row) = Err TokenDecryptionError /\ row' = pause row) \/
      (decrypt_token settings (r_endpoint_token row) <> Err TokenDecryptionError /\ row' = row))
    (streams db) (streams db').
Proof.
  intros Hok. cbv zeta. split; [by apply quarantine_db_ok|].
  destruct (streams db) as [|row [|row2 rows]] eqn:Hs.
  - unfold quarantine_undecryptable_receiver_tokens. rewrite Hs. simpl. rewrite Hs. by split_and!.
  - rewrite (quarantine_single row db Hs).
    destruct (decide (decrypt_token settings (r_endpoint_token row) = Err TokenDecryptionError)) as [Hd|Hd].
    + rewrite Hd. split; [reflexivity|]. split; [reflexivity|]. constructor; [by left|constructor].
    + assert (match decrypt_token settings (r_endpoint_token row) with
              | Err TokenDecryptionError => set_streams (fun _ => [pause row]) db
              | _ => db
              end = db) as -> by (by destruct (decrypt_token settings (r_endpoint_token row)) as [|[]]).
      rewrite Hs. split; [reflexivity|]. split; [reflexivity|]. constructor; [by right|constructor].
  - pose proof (ok_single db Hok) as Hl. rewrite Hs in Hl. simpl in Hl. lia.
Qed.
End startup.

(** ** Restarts *)

Section restarts.
Context `{CryptoLib}.

(** What a start that is refused or killed has written: the query of the
    preflight may have created the file. *)
Inductive cut_short settings h generated chmod_ok n : Node -> Prop :=
| cut_checked : cut_short settings h generated chmod_ok n
    {| n_keys := n_keys n; n_file := preflight_file settings h (n_file n) |}
| cut_keys : cut_short settings h generated chmod_ok n
    {| n_keys := ensure_keys generated (n_keys n); n_file := preflight_file settings h (n_file n) |}
| cut_tables : cut_short settings h generated chmod_ok n
    {| n_keys := ensure_keys generated (n_keys n);
       n_file := Some (init_db chmod_ok (preflight_file settings h (n_file n))) |}.

(** [running settings n]: a process started with [settings] serves requests on
    [n]; [stopped n]: no process does.  A process may be started with other
    settings than the one before, be stopped at any time, during its start as
    well, and die between the two writes of [ensure_keys]. *)
Inductive running : Settings -> Node -> Prop :=
| run_start `{Env} settings h generated chmod_ok n n' w w' :
    stopped n -> lifespan_startup settings h generated chmod_ok n w = (Ok (Some n'), w') -> running settings n'
| run_step settings ks f db' :
    running settings {| n_keys := ks; n_file := Some f |} -> db_step settings (file_db f) db' ->
    running settings {| n_keys := ks; n_file := Some {| file_mode := file_mode f; file_db := db' |} |}
with stopped : Node -> Prop :=
| stop_fresh : stopped {| n_keys := {| ks_private_pem := None; ks_jwks := None |}; n_file := None |}
| stop_exit settings n : running settings n -> stopped n
| stop_cut settings h generated chmod_ok n n' :
    stopped n -> cut_short settings h generated chmod_ok n n' -> stopped n'
| stop_half_written pem n :
    stopped n -> ks_jwks (n_keys n) = None ->
    stopped {| n_keys := {| ks_private_pem := Some pem; ks_jwks := None |}; n_file := n_file n |}.

Scheme running_ind' := Minimality for running Sort Prop
with stopped_ind' := Minimality for stopped Sort Prop.
Combined Scheme running_stopped_ind from running_ind', stopped_ind'.

Definition file_ok (f : option DbFile) : Prop := match f with Some f => db_ok (file_db f) | None => True end.

(** The rows the query of the preflight sees. *)
Definition stream_urls (n : Node) : list (string * string) :=
  match n_file n with
  | Some f => map (fun row => (r_stream_id row, r_endpoint_url row)) (streams (file_db f))
  | None => []
  end.

Lemma init_db_ok chmod_ok f : file_ok f -> db_ok (file_db (init_db chmod_ok f)).
Proof. destruct f; [done|]. intros _. by split; simpl; try constructor; try lia. Qed.

Lemma quarantine_rows settings db : db_ok db ->
  Forall (fun row => r_status row = "paused" \/ decrypt_token settings (r_endpoint_token row) <> Err TokenDecryptionError)
    (streams (quarantine_undecryptable_receiver_tokens settings db)) /\
  map (fun row => (r_stream_id row, r_endpoint_url row, r_endpoint_token row))
    (streams (quarantine_undecryptable_receiver_tokens settings db)) =
  map (fun row => (r_stream_id row, r_endpoint_url row, r_endpoint_token row)) (streams db).
Proof.
  intros Hok. pose proof (ok_single db Hok) as Hl. destruct (streams db) as [|row [|row2 rows]] eqn:Hs; [| |simpl in Hl; lia].
  - unfold quarantine_undecryptable_receiver_tokens. rewrite Hs. simpl. rewrite Hs. by split.
  - rewrite (quarantine_single settings row db Hs).
    destruct (decrypt_token settings (r_endpoint_token row)) as [t|e] eqn:Hd.
    + rewrite Hs. split; [|done]. constructor; [right; by rewrite Hd|constructor].
    + destruct e; try (rewrite Hs; split; [|done]; constructor; [right; by rewrite Hd|constructor]).
      simpl. split; [|done]. constructor; [by left|constructor].
Qed.

(** One start, from the result back. *)
Lemma lifespan_startup_inv `{Env} settings h generated chmod_ok n n' w w' :
  lifespan_startup settings h generated chmod_ok n w = (Ok (Some n'), w') ->
  preflight_ok settings h = true /\
  n' = {| n_keys := ensure_keys generated (n_keys n);
          n_file := let f := init_db chmod_ok (preflight_file settings h (n_file n)) in
            Some {| file_mode := file_mode f;
                    file_db := quarantine_undecryptable_receiver_tokens settings (file_db f) |} |}.
Proof.
  unfold lifespan_startup. intros ([r ok] & w1 & ->%run_preflight_verdict & E)%M_bind_ok.
  destruct (preflight_ok settings h); [|done]. by injection E as <- _.
Qed.

Lemma preflight_file_ok settings h f : file_ok f -> file_ok (preflight_file settings h f).
Proof.
  unfold preflight_file. destruct f; [done|]. intros _. destruct (_ && _); [|done]. apply (init_db_ok true None). done.
Qed.

Lemma running_stopped_ok :
  (forall settings n, running settings n ->
     (exists key, keys_complete (n_keys n) key) /\ exists f, n_file n = Some f /\ db_ok (file_db f)) /\
  (forall n, stopped n -> keys_ok (n_keys n) /\ file_ok (n_file n)).
Proof.
  apply running_stopped_ind.
  - intros E settings h generated chmod_ok n n' w w' _ [Hks Hf] [_ ->]%lifespan_startup_inv. simpl.
    split; [by apply ensure_keys_complete|]. eexists; split; [reflexivity|].
    apply quarantine_db_ok, init_db_ok, preflight_file_ok, Hf.
  - intros settings ks f db' _ [Hks (g & [= <-] & Hok)] Hstep. split; [done|].
    eexists; split; [reflexivity|]. by eapply db_step_ok.
  - split; [by left|done].
  - intros settings n _ [Hks (f & -> & Hok)]. split; [by right|done].
  - intros settings h generated chmod_ok n n' _ [Hks Hf] Hcut.
    assert (keys_ok (ensure_keys generated (n_keys n))) by (right; by apply ensure_keys_complete).
    pose proof (preflight_file_ok settings h _ Hf). destruct Hcut; split; try done. by apply init_db_ok.
  - intros pem n _ [_ Hf] _. split; [by left|done].
Qed.

(** However often the service was started, stopped, reconfigured or killed
    while it wrote its keys: whenever it runs, the published JWKS is the public
    part of the key that signs, with the [kid] of its first entry, and the
    database satisfies the row invariant. *)
Theorem running_invariant settings n :
  (forall key, sha256 (rk_public_pem key) <> "") -> running settings n ->
  (exists key, load_jwks (n_keys n) = Ok (JObj [("keys", JArr [JObj (_public_jwk key)])]) /\
     _load_signing_material (n_keys n) = Ok (rk_private_pem key, dget "kid" (_public_jwk key))) /\
  exists f, n_file n = Some f /\ db_ok (file_db f).
Proof.
  intros Hsha Hrun. destruct (proj1 running_stopped_ok _ _ Hrun) as [[key Hkey] Hf]. split; [|done].
  exists key. by apply keys_complete_signing.
Qed.

(** A start that succeeds has checked its configuration and leaves every
    stored stream fit for delivery: its host is on a configured allowlist (when
    the query could be made), and it is paused unless its receiver token can be
    used; streams, tokens, queue and Apple credentials are otherwise what they
    were, and the file is private to the owner unless its mode could not be
    changed. *)
Theorem startup_verdict `{Env} settings h generated chmod_ok n n' w w' :
  stopped n -> lifespan_startup settings h generated chmod_ok n w = (Ok (Some n'), w') ->
  (h_streams h = None \/ h_streams h = Some (stream_urls n)) ->
  (ssf_issuer settings <> "" /\ ssf_base_url settings <> "" /\ (32 <= str_len (ssf_management_token settings))%Z) /\
  (h_streams h <> None -> Forall (fun u => receiver_host_allowed (snd u) (ssf_allowed_receiver_hosts settings) = true) (stream_urls n')) /\
  exists f', n_file n' = Some f' /\ (chmod_ok = true -> file_mode f' = 384%Z) /\
    Forall (fun row => r_status row = "paused" \/ decrypt_token settings (r_endpoint_token row) <> Err TokenDecryptionError)
      (streams (file_db f')) /\
    stream_urls n' = stream_urls n /\
    (forall f, n_file n = Some f ->
       set_outbox (file_db f') = set_outbox (file_db f) /\
       apple_scim_tokens (file_db f') = apple_scim_tokens (file_db f)).
Proof.
  intros [_ Hf]%(proj2 running_stopped_ok) [Hpre ->]%lifespan_startup_inv Hh.
  destruct (quarantine_rows settings _ (init_db_ok chmod_ok _ (preflight_file_ok settings h _ Hf))) as [Hrows Hsame].
  set (f := init_db chmod_ok (preflight_file settings h (n_file n))) in *.
  assert (file_db f = default empty_db (file_db <$> n_file n)) as Hdb.
  { unfold f, preflight_file. destruct (n_file n); [done|]. by destruct (_ && _). }
  assert (forall d', stream_urls {| n_keys := ensure_keys generated (n_keys n); n_file := Some d' |} =
    map (fun row => (r_stream_id row, r_endpoint_url row)) (streams (file_db d'))) as Hurls by done.
  assert (map (fun row => (r_stream_id row, r_endpoint_url row))
      (streams (quarantine_undecryptable_receiver_tokens settings (file_db f))) = stream_urls n) as Hu.
  { apply (f_equal (map fst)) in Hsame. rewrite !map_map in Hsame. simpl in Hsame. rewrite Hsame, Hdb.
    unfold stream_urls. by destruct (n_file n). }
  rewrite Hurls. simpl. rewrite Hu. unfold preflight_ok in Hpre.
  rewrite check_ssf_issuer_verdict, check_ssf_base_url_verdict, check_management_token_verdict in Hpre.
  apply negb_true_iff in Hpre. bool_hyps.
  split; [|split].
  - split_and!.
    + intros E. by rewrite E in *.
    + intros E. by rewrite E in *.
    + bool_hyps. lia.
  - intros Hsome. destruct Hh as [|Hh]; [done|].
    assert (Hal : snd (_check_receiver_allowlist settings h) = false) by done.
    rewrite check_receiver_allowlist_verdict, check_stored_streams_allowlist_verdict, Hh in Hal.
    destruct (ssf_allowed_receiver_hosts settings); [by apply Forall_true|].
    apply negb_false_iff in Hal. rewrite forallb_forall in Hal. apply Forall_forall. intros u Hin%list_elem_of_In. by apply Hal.
  - eexists; split; [reflexivity|]. split; [|split; [done|split; [done|]]].
    + simpl. unfold f, init_db. intros ->. by destruct (preflight_file _ _ _).
    + intros g Hg. rewrite Hg in Hdb. simpl in Hdb. simpl. rewrite Hdb.
      unfold quarantine_undecryptable_receiver_tokens. by destruct (undecryptable _ _).
Qed.

(** The settings [from_env] accepts never fail the checks of the environment:
    what is left is the state of the machine. *)
Lemma settings_ok_preflight settings h :
  settings_ok settings ->
  preflight_ok settings h = negb (snd (_check_database settings h)) && negb (snd (_check_receiver_allowlist settings h)).
Proof.
  intros [Hi Hb Hm Hmode Hbearer Hhmac _ _ _ _].
  assert (str_true (ssf_issuer settings) = true) as E1.
  { unfold str_true. destruct (String.eqb_spec (ssf_issuer settings) "") as [E|]; [|done]. by rewrite E in Hi. }
  assert (str_true (ssf_base_url settings) = true) as E2.
  { unfold str_true. by destruct (String.eqb_spec (ssf_base_url settings) ""). }
  apply Z.leb_le in Hm.
  assert (snd (_check_webhook_auth settings h) = false) as E4.
  { rewrite check_webhook_auth_verdict. cbv zeta. unfold _WEBHOOK_AUTH_MODES in Hmode.
    repeat (apply elem_of_cons in Hmode as [E|Hmode]; [rewrite E in *|]); [..|by apply elem_of_nil in Hmode].
    all: simpl.
    all: try (destruct (Hbearer eq_refl) as (t & -> & Ht); apply negb_false_iff, Z.leb_le; exact Ht).
    all: try (specialize (Hhmac eq_refl); apply negb_false_iff, Z.ltb_lt; unfold str_len;
              destruct (ssf_webhook_secret settings); [done|simpl; lia]).
    all: done. }
  unfold preflight_ok.
  rewrite check_ssf_issuer_verdict, check_ssf_base_url_verdict, check_management_token_verdict, E1, E2, Hm, E4.
  simpl. by rewrite negb_orb.
Qed.

(** The preflight contacts Authentik at most once, and nothing else. *)
Lemma preflight_emits `{Env} settings h :
  emits (fun e => exists rq, e = Sent rq /\ apple_scim_enabled settings = true /\ rq_method rq = "GET" /\
           rq_url rq = default "None" (authentik_url settings) +:+ "/api/v3/core/users/?page_size=1")
    (run_preflight_checks settings h).
Proof.
  unfold run_preflight_checks.
  destruct (_check_ssf_issuer settings), (_check_ssf_base_url settings), (_check_management_token settings),
    (_check_webhook_auth settings h), (_check_database settings h), (_check_receiver_allowlist settings h).
  apply emits_bind; [|intros; apply emits_ret]. unfold _check_apple_scim.
  destruct (apple_scim_enabled settings) eqn:E; [|apply emits_ret]. unfold _check_apple_scim_enabled.
  apply emits_bind; [apply emits_liftR|intros urls]. apply emits_bind.
  - unfold _check_scim_authorized. destruct (h_expires_at h); [|apply emits_ret].
    apply emits_bind; [apply emits_ask|intros; apply emits_ret].
  - intros authorized. apply emits_bind; [|intros; apply emits_ret]. unfold _check_authentik_connectivity.
    apply emits_bind; [|intros; apply emits_ret].
    apply emits_catch; [|intros e k He; destruct e; simplify_eq; apply emits_ret].
    apply emits_bind; [|intros; apply emits_ret]. apply emits_http. eexists. by split_and!.
Qed.
End restarts.

Module Example.
Import Crypto.Toy Preflight.Example.

(** The stream of [example_db], after its key was changed. *)
Lemma quarantine_pauses_undecryptable_witness :
  db_ok (quarantine_undecryptable_receiver_tokens rotated_settings example_db) /\
  map r_status (streams (quarantine_undecryptable_receiver_tokens rotated_settings example_db)) = ["paused"].
Proof.
  assert (db_ok example_db) as Hok.
  { apply (reachable_db_ok example_settings). eapply reach_step; [apply (reach_init _ true)|].
    apply (step_save example_settings "iv" example_stream). }
  destruct (quarantine_pauses_undecryptable rotated_settings example_db Hok) as [Hok' _].
  split; [exact Hok'|vm_compute; reflexivity].
Defined.

(** First start of a fresh installation. *)
#[local] Existing Instance refused.
Definition example_key : RsaKey :=
  {| rk_private_pem := "pem"; rk_public_pem := "pub"; rk_n := 3233; rk_e := 65537 |}.
Definition fresh : Node := {| n_keys := {| ks_private_pem := None; ks_jwks := None |}; n_file := None |}.
Definition first : Node :=
  {| n_keys := ensure_keys example_key (n_keys fresh);
     n_file := Some {| file_mode := 384; file_db := empty_db |} |}.

Lemma first_start : lifespan_startup example_settings fresh_host example_key true fresh start = (Ok (Some first), start).
Proof. vm_compute. reflexivity. Qed.

Lemma running_invariant_witness :
  exists key, load_jwks (n_keys first) = Ok (JObj [("keys", JArr [JObj (_public_jwk key)])]) /\
    _load_signing_material (n_keys first) = Ok (rk_private_pem key, dget "kid" (_public_jwk key)).
Proof.
  destruct (running_invariant example_settings first) as [Hkey _]; [done| |exact Hkey].
  eapply run_start; [apply stop_fresh|apply first_start].
Defined.

Lemma startup_verdict_witness :
  ssf_issuer example_settings <> "" /\ exists f', n_file first = Some f' /\ file_mode f' = 384%Z.
Proof.
  destruct (startup_verdict example_settings fresh_host example_key true fresh first start start)
    as ((Hi & _ & _) & _ & f' & Hf & Hmode & _); [apply stop_fresh|vm_compute; reflexivity|by left|].
  split; [exact Hi|]. exists f'. split; [exact Hf|]. by apply Hmode.
Defined.
End Example.
