(* ===== verification/Deployment.v ===== *)
(** * The life of a deployment

    The process and what it leaves on disk, over any history of starts,
    requests, deliveries, synchronisations, exits and reconfigurations.  Every
    move runs the code of the program; the environment it meets - clocks,
    hosts, the other tasks - is chosen anew for every move.  The histories
    refine [Startup.running], whose moves are arbitrary steps of the database
    layer, and keep the stored streams well typed. *)
From Stdlib Require Import ZArith Lia Ascii String.
From stdpp Require Import base option list strings gmap relations.
From S2P Require Import Prelude PyStr PyVal Config Crypto Database DatabaseSpec World UrlValidation Discovery Preflight Outbox OutboxSpec StreamsApi StreamsType Alerts ScimToken AppleOAuth Service ServiceSteps Startup.

Open Scope string_scope.

Section deployment.
Context `{CryptoLib}.

(** What a move relies on: between two of its accesses the other tasks of the
    process make steps of their own. *)
Record rely (settings : Settings) `{Tasks, Schedule} : Prop := {
  rely_unlocked : forall t db, rtc (write_step settings (ssf_allowed_receiver_hosts settings)) db (tasks_unlocked t db);
  rely_locked : forall t db, rtc (write_step settings (ssf_allowed_receiver_hosts settings)) db (tasks_locked t db);
  rely_others : forall t s, rtc (write_step settings (ssf_allowed_receiver_hosts settings)) (cn_db s) (cn_db (others t s));
}.

(** The memory of a process that has just started. *)
Definition booted (w : World) (db : Db) : Service :=
  {| sv_world := w; sv_db := db; sv_failures := ∅; sv_last_sent := ∅; sv_states := ∅; sv_background := 0 |}.

(** [alive settings ks mode s]: a process that imported [settings] serves, its
    keys directory is [ks], its database file has [mode] and holds
    [sv_db s]; [down n]: no process runs and [n] is on disk. *)
Inductive alive : Settings -> KeyStore -> Z -> Service -> Prop :=
| alive_start `{Env} getenv settings h generated chmod_ok n n' f w w' :
    module_settings getenv = Ok (Loaded settings) -> down n -> lifespan_startup settings h generated chmod_ok n w = (Ok (Some n'), w') -> n_file n' = Some f ->
    alive settings (n_keys n') (file_mode f) (booted w' (file_db f))
| alive_request `{Env, Tasks, Sqlite, Schedule} `{HH : Headers} `{!HeadersLaws}
    settings ks mode utc limiter version fuel render unfinished rq c r c' :
    alive settings ks mode (ctx_state c) -> rely settings -> valid_endpoint (in_endpoint rq) ->
    application settings ks utc limiter version fuel render unfinished rq c = (r, c') ->
    alive settings ks mode (ctx_state c')
| alive_deliver `{Env, Tasks, Schedule} settings ks mode rounds s r s' :
    alive settings ks mode s -> rely settings ->
    (zoom (delivery_loop settings rounds) : M Service bool) s = (r, s') -> alive settings ks mode s'
| alive_background `{Env, Tasks, Sqlite, Schedule} settings ks mode utc fuel s r s' :
    alive settings ks mode s -> rely settings ->
    (zoom (_background_sync settings utc fuel) : M Service (option unit)) s = (r, s') -> alive settings ks mode s'
| alive_scheduled `{Env, Tasks, Sqlite, Schedule} settings ks mode utc fuel rounds s r s' :
    alive settings ks mode s -> rely settings ->
    (zoom (_apple_scim_sync_loop settings utc fuel rounds) : M Service unit) s = (r, s') -> alive settings ks mode s'
with down : Node -> Prop :=
| down_fresh : down {| n_keys := {| ks_private_pem := None; ks_jwks := None |}; n_file := None |}
| down_exit settings ks mode s :
    alive settings ks mode s ->
    down {| n_keys := ks; n_file := Some {| file_mode := mode; file_db := sv_db s |} |}
| down_cut settings h generated chmod_ok n n' : down n -> cut_short settings h generated chmod_ok n n' -> down n'
| down_half_written pem n :
    down n -> ks_jwks (n_keys n) = None ->
    down {| n_keys := {| ks_private_pem := Some pem; ks_jwks := None |}; n_file := n_file n |}.

Scheme alive_ind' := Minimality for alive Sort Prop
with down_ind' := Minimality for down Sort Prop.
Combined Scheme alive_down_ind from alive_ind', down_ind'.

(** What is on disk while the process runs. *)
Definition on_disk (ks : KeyStore) (mode : Z) (s : Service) : Node :=
  {| n_keys := ks; n_file := Some {| file_mode := mode; file_db := sv_db s |} |}.

(** ** Every move is a sequence of steps *)

Section moves.
Context `{Tasks} `{Schedule}.
Variable settings : Settings.

Definition steps (db db' : Db) : Prop := rtc (write_step settings (ssf_allowed_receiver_hosts settings)) db db'.

Lemma steps_db_steps db db' : steps db db' -> rtc (db_step settings) db db'.
Proof. apply rtc_subrel. intros ??. apply write_is_step. Qed.

Lemma steps_typed db db' : steps db db' -> typed_db [] db -> typed_db [] db'.
Proof.
  induction 1; [done|]. intros. apply IHrtc. eapply (write_step_typed settings []); [by eapply write_step_weaken|done].
Qed.

Lemma steps_running ks mode db db' :
  steps db db' -> running settings {| n_keys := ks; n_file := Some {| file_mode := mode; file_db := db |} |} ->
  running settings {| n_keys := ks; n_file := Some {| file_mode := mode; file_db := db' |} |}.
Proof.
  induction 1 as [|db db1 db2 Hs%write_is_step _ IH]; [done|]. intros Hr. by apply IH, (run_step settings ks _ _ Hr).
Qed.

Hypothesis Hrely : rely settings.
Variable db0 : Db.
Hypothesis Hdb0 : db_ok db0.

(** The states after a sequence of steps, as the invariant of [ServiceSteps]. *)
Definition Stepped (db : Db) : Prop := steps db0 db.

Lemma stepped_ok db : Stepped db -> db_ok db.
Proof. intros Hs. by eapply steps_ok; [apply steps_db_steps|]. Qed.
Lemma stepped_step db db' : write_step settings (ssf_allowed_receiver_hosts settings) db db' -> Stepped db -> Stepped db'.
Proof. intros Hs Hd. by eapply rtc_r. Qed.
Lemma stepped_steps db db' : steps db db' -> Stepped db -> Stepped db'.
Proof. intros Hs Hd. by eapply (transitivity (R := rtc _)). Qed.
Lemma stepped_unlocked t db : Stepped db -> Stepped (tasks_unlocked t db).
Proof. apply stepped_steps, (rely_unlocked settings Hrely). Qed.
Lemma stepped_locked t db : Stepped db -> Stepped (tasks_locked t db).
Proof. apply stepped_steps, (rely_locked settings Hrely). Qed.
Lemma stepped_others t s : Stepped (cn_db s) -> Stepped (cn_db (others t s)).
Proof. apply stepped_steps, (rely_others settings Hrely). Qed.

Lemma delivery_steps `{Env} rounds : preserves (service_inv Stepped) (zoom (delivery_loop settings rounds) : M Service bool).
Proof.
  exact (zoom_app_inv _ _ (delivery_loop_inv settings Stepped stepped_ok stepped_step stepped_unlocked stepped_locked rounds)).
Qed.

Lemma background_steps `{Env, Sqlite} utc fuel :
  preserves (service_inv Stepped) (zoom (_background_sync settings utc fuel) : M Service (option unit)).
Proof. exact (zoom_conn_inv _ _ (background_sync_inv settings utc Stepped stepped_step stepped_others fuel)). Qed.

Lemma scheduled_steps `{Env, Sqlite} utc fuel rounds :
  preserves (service_inv Stepped) (zoom (_apple_scim_sync_loop settings utc fuel rounds) : M Service unit).
Proof. exact (zoom_conn_inv _ _ (sync_loop_inv settings utc Stepped stepped_step stepped_others fuel rounds)). Qed.

Lemma request_steps `{Env, Sqlite} `{HH : Headers} `{!HeadersLaws} ks utc limiter version fuel render unfinished rq :
  valid_endpoint (in_endpoint rq) ->
  preserves (fun c => service_inv Stepped (ctx_state c))
    (application settings ks utc limiter version fuel render unfinished rq).
Proof. exact (application_inv settings ks utc Stepped stepped_step stepped_unlocked stepped_others _ _ _ _ _ rq). Qed.
End moves.

(** ** The refinement and the invariant *)

Definition typed_file (n : Node) : Prop := match n_file n with Some f => typed_db [] (file_db f) | None => True end.

Lemma quarantine_typed settings allowed db :
  typed_db allowed db -> typed_db allowed (quarantine_undecryptable_receiver_tokens settings db).
Proof.
  intros Hdb. unfold quarantine_undecryptable_receiver_tokens. destruct (undecryptable _ _) as [failures|]; [|done].
  apply Forall_map. eapply Forall_impl; [exact Hdb|]. intros row Hrow. simpl.
  destruct (str_mem _ failures); [|done]. destruct Hrow. split; try done. by exists paused.
Qed.

Lemma preflight_typed settings h n : typed_file n ->
  typed_file {| n_keys := n_keys n; n_file := preflight_file settings h (n_file n) |}.
Proof.
  unfold typed_file, preflight_file. simpl. destruct (n_file n); [done|]. intros _.
  destruct (_ && _); [constructor|done].
Qed.

Lemma init_typed chmod_ok ks f : typed_file {| n_keys := ks; n_file := f |} -> typed_db [] (file_db (init_db chmod_ok f)).
Proof. destruct f; [done|constructor]. Qed.

(** One move of the process, from what it does to the database. *)
Lemma move_keeps `{Tasks, Schedule} settings ks mode s s' :
  rely settings -> (forall db0, db_ok db0 -> steps settings db0 (sv_db s) -> steps settings db0 (sv_db s')) ->
  settings_ok settings /\ running settings (on_disk ks mode s) /\ typed_db [] (sv_db s) ->
  settings_ok settings /\ running settings (on_disk ks mode s') /\ typed_db [] (sv_db s').
Proof.
  intros Hrely Hm (Hset & Hr & Ht). split; [done|]. destruct (proj1 running_stopped_ok _ _ Hr) as [_ (f & [= <-] & Hok)].
  assert (steps settings (sv_db s) (sv_db s')) as Hs by (apply Hm; [done|apply rtc_refl]).
  split; [by eapply steps_running|by eapply steps_typed].
Qed.

Lemma deployment_refines :
  (forall settings ks mode s, alive settings ks mode s ->
     settings_ok settings /\ running settings (on_disk ks mode s) /\ typed_db [] (sv_db s)) /\
  (forall n, down n -> stopped n /\ typed_file n).
Proof.
  apply alive_down_ind.
  - intros E getenv settings h generated chmod_ok n n' f w w' Hload _ [Hs Ht] Hstart Hf.
    split; [by eapply module_settings_ok|].
    assert (on_disk (n_keys n') (file_mode f) (booted w' (file_db f)) = n') as Hn.
    { unfold on_disk. simpl. destruct n', f. simpl in *. by subst. }
    rewrite Hn. split; [by eapply run_start|]. simpl.
    apply lifespan_startup_inv in Hstart as [_ ->]. injection Hf as <-. simpl.
    apply quarantine_typed, (init_typed _ (n_keys n)), preflight_typed, Ht.
  - intros E T Q S HH HL settings ks mode utc limiter version fuel render unfinished rq c r c' _ IH Hrely Hv Hrun.
    eapply move_keeps; [exact Hrely| |exact IH]. intros db0 Hok. by eapply request_steps.
  - intros E T S settings ks mode rounds s r s' _ IH Hrely Hrun.
    eapply move_keeps; [exact Hrely| |exact IH]. intros db0 Hok. by eapply delivery_steps.
  - intros E T Q S settings ks mode utc fuel s r s' _ IH Hrely Hrun.
    eapply move_keeps; [exact Hrely| |exact IH]. intros db0 Hok. by eapply background_steps.
  - intros E T Q S settings ks mode utc fuel rounds s r s' _ IH Hrely Hrun.
    eapply move_keeps; [exact Hrely| |exact IH]. intros db0 Hok. by eapply scheduled_steps.
  - split; [apply stop_fresh|done].
  - intros settings ks mode s _ (_ & Hr & Ht). split; [by eapply stop_exit|done].
  - intros settings h generated chmod_ok n n' _ [Hs Ht] Hcut. split; [by eapply stop_cut|].
    apply (preflight_typed settings h) in Ht. destruct Hcut; [exact Ht|exact Ht|].
    unfold typed_file. simpl. by apply (init_typed _ (n_keys n)).
  - intros pem n _ [Hs Ht] Hk. split; [by apply stop_half_written|done].
Qed.

(** C10: however often the service was started, stopped, reconfigured or killed
    during its start, and whatever requests, deliveries and synchronisations it
    ran, successfully or not: whenever it runs, its settings satisfy the rules
    of the configuration; the JWKS it publishes is the public part of the key
    that signs, with the [kid] of its first entry; the database satisfies the row invariant; and every stored stream has a nonblank
    audience, an HTTPS receiver that passed the SSRF validation, supported
    event URIs and a legal status. *)
Theorem deployment_invariant settings ks mode s :
  (forall key, sha256 (rk_public_pem key) <> "") -> alive settings ks mode s ->
  settings_ok settings /\
  (exists key, jwks ks = Ok (JObj [("keys", JArr [JObj (_public_jwk key)])]) /\
     _load_signing_material ks = Ok (rk_private_pem key, dget "kid" (_public_jwk key))) /\
  db_ok (sv_db s) /\ Forall (typed_row []) (streams (sv_db s)).
Proof.
  intros Hsha (Hset & Hrun & Hty)%deployment_refines. split; [done|].
  destruct (proj1 running_stopped_ok _ _ Hrun) as [[key Hkey] (f & [= <-] & Hok)].
  split; [|done]. exists key. by apply keys_complete_signing.
Qed.
End deployment.

(** First start, a registration, a delivery pass, and a restart after the
    encryption key was changed: the stream is still there, paused. *)
Module Example.
Import Toy Preflight.Example OutboxSpec.Example StreamsApi.Example Startup.Example AppleOAuth.Example ScimToken.Example
  Discovery.Example Service.Example.

#[local] Existing Instance toy_headers.
#[local] Existing Instance toy_headers_laws.
#[local] Existing Instance quiet_env.

Definition registration : Incoming :=
  {| in_path := "/ssf/streams"; in_client := Some "203.0.113.7";
     in_authorization := Some ("Bearer " +:+ ssf_management_token example_settings); in_accept := None;
     in_request_id := None; in_endpoint := EManage (ACreate create_body) |}.

Definition registered : Ctx Service :=
  snd (application example_settings (n_keys first) (fun _ => "now") true None 10 render (render (Empty 200)) registration
    {| request_id_var := "-"; ctx_state := booted start empty_db |}).

Definition delivered_service : Service :=
  snd ((zoom (delivery_loop example_settings 2) : M Service bool) (ctx_state registered)).

Definition left_behind : Node := on_disk (n_keys first) 384 delivered_service.

Definition rotated_env (name : string) : option string :=
  if String.eqb name "SSF_TOKEN_ENCRYPTION_KEY" then Some "rotated" else example_env name.

Definition restart : result (option Node) * World :=
  lifespan_startup rotated_settings fresh_host example_key true left_behind start.
Definition restarted_file : DbFile :=
  match fst restart with Ok (Some {| n_file := Some f |}) => f | _ => {| file_mode := 0; file_db := empty_db |} end.
Definition restarted : Node := {| n_keys := n_keys first; n_file := Some restarted_file |}.

Lemma no_tasks_rely settings : rely settings.
Proof. split; intros; apply rtc_refl. Qed.

Lemma registration_valid : valid_endpoint (in_endpoint registration).
Proof.
  split_and!; [|vm_compute; reflexivity..]. exists (JStr (cr_aud create_body)). vm_compute. reflexivity.
Qed.

Lemma restarted_alive : alive rotated_settings (n_keys first) (file_mode restarted_file)
  (booted (snd restart) (file_db restarted_file)).
Proof.
  assert (restart = (Ok (Some restarted), snd restart)) as Hrestart by (vm_compute; reflexivity).
  assert (module_settings rotated_env = Ok (Loaded rotated_settings)) as Hload by (vm_compute; reflexivity).
  refine (alive_start _ _ _ _ _ _ restarted restarted_file _ _ Hload _ Hrestart eq_refl).
  apply down_exit with example_settings.
  eapply (alive_deliver example_settings _ _ 2 (ctx_state registered)); [|apply no_tasks_rely|apply surjective_pairing].
  eapply (alive_request example_settings (n_keys first) 384); [|apply no_tasks_rely|exact registration_valid|apply surjective_pairing].
  refine (alive_start example_env _ _ _ _ _ first _ _ _ _ down_fresh first_start eq_refl). vm_compute. reflexivity.
Qed.

Lemma deployment_invariant_witness :
  map r_status (streams (file_db restarted_file)) = ["paused"] /\
  Forall (typed_row []) (streams (file_db restarted_file)).
Proof.
  split; [vm_compute; reflexivity|].
  destruct (deployment_invariant rotated_settings (n_keys first) (file_mode restarted_file)
    (booted (snd restart) (file_db restarted_file))) as (_ & _ & _ & Hty); [done|exact restarted_alive|exact Hty].
Defined.
End Example.
