(* ===== verification/PyText.v ===== *)
(** * Texts, paths and files of the release scripts

    The scripts under [scripts/] process Markdown with characters outside the
    Latin-1 range and decide by Unicode character classes, so their strings
    are sequences of code points.  Paths are absolute and free of symbolic
    links; the file system is a finite map from paths to directories, texts
    and files that are not valid UTF-8.  Permissions and a full disk are not
    modelled. *)
From Stdlib Require Import NArith Lia Ascii String.
From stdpp Require Import base option list gmap strings.
From S2P Require Import Prelude.

Open Scope string_scope.
Open Scope list_scope.

Definition text : Type := list N.

(** The code points of a literal, which Rocq reads as UTF-8 bytes: [k] bytes
    of the current character are still to come. *)
Fixpoint utf8 (k : nat) (acc : N) (s : string) : text :=
  match s with
  | "" => []
  | String a t =>
      let n := N_of_ascii a in
      let acc' := (acc * 64 + N.land n 63)%N in
      match k with
      | O => if (n <? 192)%N then n :: utf8 0 0 t
             else if (n <? 224)%N then utf8 1 (N.land n 31) t
             else if (n <? 240)%N then utf8 2 (N.land n 15) t
             else utf8 3 (N.land n 7) t
      | 1%nat => acc' :: utf8 0 0 t
      | S k' => utf8 k' acc' t
      end
  end.
Definition u (s : string) : text := utf8 0 0 s.

Example u_em_dash : u "a — é]" = [97; 32; 8212; 32; 233; 93]%N.
Proof. reflexivity. Qed.

(** ** Character classes

    [decimal] is the table of decimal digits (category Nd) outside ASCII,
    which belongs to the interpreter's Unicode database. *)
Class UnicodeData := { decimal : N -> bool }.

Definition newline : N := 10%N.

(** [c.isspace()], which is also [\s] *)
Definition uspace (c : N) : bool :=
  (((9 <=? c) && (c <=? 13)) || ((28 <=? c) && (c <=? 32)) || (c =? 133) || (c =? 160)
  || (c =? 5760) || ((8192 <=? c) && (c <=? 8202)) || (c =? 8232) || (c =? 8233)
  || (c =? 8239) || (c =? 8287) || (c =? 12288))%N.

(** [\d] *)
Definition udigit `{UnicodeData} (c : N) : bool :=
  if (c <? 128)%N then ((48 <=? c) && (c <=? 57))%N else decimal c.

(** ** The [str] operations the scripts use *)

Fixpoint drop_while (p : N -> bool) (s : text) : text :=
  match s with
  | [] => []
  | c :: t => if p c then drop_while p t else s
  end.

(** [s.rstrip()] and [s.strip()] *)
Definition trstrip (s : text) : text := reverse (drop_while uspace (reverse s)).
Definition tstrip (s : text) : text := trstrip (drop_while uspace s).

(** [s] without its prefix [p]: [s.startswith(p)] when it exists. *)
Fixpoint cut_prefix (p s : text) : option text :=
  match p, s with
  | [], _ => Some s
  | _ :: _, [] => None
  | a :: p', c :: s' => if (a =? c)%N then cut_prefix p' s' else None
  end.
Definition tstartswith (p s : text) : bool := bool_decide (is_Some (cut_prefix p s)).
Definition tremoveprefix (p s : text) : text := default s (cut_prefix p s).

(** [s.partition(c)], without the middle. *)
Fixpoint tpartition (c : N) (s : text) : text * text :=
  match s with
  | [] => ([], [])
  | d :: t => if (d =? c)%N then ([], t) else let '(h, r) := tpartition c t in (d :: h, r)
  end.

(** [s.split(c)] *)
Fixpoint tsplit (c : N) (s : text) : list text :=
  match s with
  | [] => [[]]
  | d :: t =>
      if (d =? c)%N then [] :: tsplit c t
      else match tsplit c t with h :: r => (d :: h) :: r | [] => [[d]] end
  end.

(** [sep.join(l)] *)
Fixpoint tjoin (sep : text) (l : list text) : text :=
  match l with
  | [] => []
  | [x] => x
  | x :: r => x ++ sep ++ tjoin sep r
  end.

Lemma cut_prefix_spec p s t : cut_prefix p s = Some t <-> s = p ++ t.
Proof.
  revert s. induction p as [|a p IH]; intros s; simpl; [naive_solver|].
  destruct s as [|c s]; simpl; [naive_solver|].
  destruct (N.eqb_spec a c) as [->|Hne]; [rewrite IH|]; naive_solver.
Qed.

Lemma tstartswith_app p s : tstartswith p (p ++ s) = true.
Proof. apply bool_decide_eq_true. exists s. by apply cut_prefix_spec. Qed.

Lemma tpartition_absent c s : c ∉ s -> tpartition c s = (s, []).
Proof.
  induction s as [|d s IH]; simpl; intros Hc; [done|].
  destruct (N.eqb_spec d c) as [->|]; [set_solver|]. rewrite IH; set_solver.
Qed.

Lemma tpartition_app c a b : c ∉ a -> tpartition c (a ++ c :: b) = (a, b).
Proof.
  induction a as [|d a IH]; simpl; intros Hc; [by rewrite N.eqb_refl|].
  destruct (N.eqb_spec d c) as [->|]; [set_solver|]. rewrite IH; set_solver.
Qed.

Lemma drop_while_id p s : match s with c :: _ => p c = false | [] => True end -> drop_while p s = s.
Proof. destruct s as [|c s]; simpl; [done|]. by intros ->. Qed.

Lemma drop_while_suffix p s : exists w, s = w ++ drop_while p s /\ Forall (fun c => p c = true) w.
Proof.
  induction s as [|c s (w & E & Hw)]; simpl; [by exists []|].
  destruct (p c) eqn:Hc; [|by exists []].
  exists (c :: w). split; [by rewrite E at 1 | by constructor].
Qed.

(** ** Paths

    An absolute path is the list of its parts. *)
Definition path : Type := list text.

(** [Path(s)]: whether it is absolute, and its parts. *)
Definition parse_path (s : text) : bool * list text :=
  (tstartswith (u "/") s,
   List.filter (fun p => negb (bool_decide (p = [] \/ p = u "."))) (tsplit 47%N s)).

(** [base / s] *)
Definition path_div (base : path) (s : text) : path :=
  let '(absolute, parts) := parse_path s in if absolute then parts else base ++ parts.

(** [p.parent] *)
Definition parent (p : path) : path := removelast p.

(** [p.resolve()] where there are no symbolic links: [..] removes the part
    before it; the system call refuses a null character. *)
Definition climb (done : path) (part : text) : path :=
  if bool_decide (part = u "..") then removelast done else done ++ [part].
Definition resolve (p : path) : result path :=
  if existsb (existsb (N.eqb 0%N)) p then Err (ValueError "lstat: embedded null character in path")
  else Ok (fold_left climb p []).

(** [p.relative_to(root).as_posix()]; [None] is the [ValueError]. *)
Fixpoint relative_parts (root p : path) : option path :=
  match root, p with
  | [], _ => Some p
  | _ :: _, [] => None
  | a :: root', b :: p' => if bool_decide (a = b) then relative_parts root' p' else None
  end.
Definition as_posix (p : path) : text := if p is [] then u "." else tjoin (u "/") p.
Definition relative_to (root p : path) : option text := as_posix <$> relative_parts root p.

Lemma relative_parts_spec root p q : relative_parts root p = Some q <-> p = root ++ q.
Proof.
  revert p. induction root as [|a root IH]; intros p; simpl; [naive_solver|].
  destruct p as [|b p]; simpl; [naive_solver|].
  case_bool_decide; [subst; rewrite IH|]; naive_solver.
Qed.

(** ** Files *)

Inductive node := Dir | File (content : text) | Binary.
Definition FS : Type := gmap path node.

#[export] Instance node_eq_dec : EqDecision node.
Proof. solve_decision. Defined.

Definition is_dir (fs : FS) (p : path) : bool :=
  match fs !! p with Some Dir => true | _ => false end.
Definition is_file (fs : FS) (p : path) : bool :=
  match fs !! p with Some (File _) | Some Binary => true | _ => false end.

(** Reading in text mode ends every line with a line feed. *)
Fixpoint newlines (after_cr : bool) (s : text) : text :=
  match s with
  | [] => []
  | c :: t =>
      if (c =? 13)%N then newline :: newlines true t
      else if after_cr && (c =? newline)%N then newlines false t
      else c :: newlines false t
  end.
Definition universal_newlines (s : text) : text := newlines false s.

(** [p.read_text(encoding="utf-8")] *)
Definition read_text (p : path) : M FS text := fun fs =>
  match fs !! p with
  | Some (File t) => (Ok (universal_newlines t), fs)
  | Some Binary => (Err UnicodeDecodeError, fs)
  | Some Dir | None => (Err OSError, fs)
  end.

(** [p.write_text(t, encoding="utf-8")] *)
Definition write_text (p : path) (t : text) : M FS unit := fun fs =>
  if is_dir fs p || negb (is_dir fs (parent p)) then (Err OSError, fs)
  else (Ok tt, <[p := File t]> fs).

(** [p.mkdir(parents=True, exist_ok=True)] *)
Fixpoint mkdir_below (done : path) (parts : list text) : M FS unit :=
  match parts with
  | [] => mret tt
  | part :: rest => fun fs =>
      let q := done ++ [part] in
      match fs !! q with
      | Some Dir => mkdir_below q rest fs
      | None => mkdir_below q rest (<[q := Dir]> fs)
      | Some _ => (Err OSError, fs)
      end
  end.
Definition mkdir_parents (p : path) : M FS unit := mkdir_below [] p.

(** [m] changes no path outside [P]. *)
Definition writes_only {A} (P : path -> Prop) (m : M FS A) : Prop :=
  forall fs p, ~ P p -> (m fs).2 !! p = fs !! p.

Lemma writes_only_ret {A} P (a : A) : writes_only P (mret a).
Proof. done. Qed.
Lemma writes_only_raise {A} P e : writes_only (A := A) P (raiseM e).
Proof. done. Qed.
Lemma writes_only_get P : writes_only P getM.
Proof. done. Qed.
Lemma writes_only_liftR {A} P (r : result A) : writes_only P (liftR r).
Proof. done. Qed.
Lemma writes_only_read P p : writes_only P (read_text p).
Proof. intros fs q _. unfold read_text. by destruct (fs !! p) as [[]|]. Qed.
Lemma writes_only_write (P : path -> Prop) p t : P p -> writes_only P (write_text p t).
Proof.
  intros Hp fs q Hq. unfold write_text. destruct (_ || _); simpl; [done|].
  apply lookup_insert_ne. by intros ->.
Qed.
Lemma writes_only_bind {A B} P (m : M FS A) (k : A -> M FS B) :
  writes_only P m -> (forall a, writes_only P (k a)) -> writes_only P (m ≫= k).
Proof.
  intros Hm Hk fs p Hp. unfold mbind, M_bind. specialize (Hm fs p Hp).
  destruct (m fs) as [[a|e] fs']; simpl in *; [|done]. by rewrite Hk.
Qed.
Lemma writes_only_if {A} P (b : bool) (m n : M FS A) :
  writes_only P m -> writes_only P n -> writes_only P (if b then m else n).
Proof. by destruct b. Qed.
Lemma writes_only_mono {A} (P Q : path -> Prop) (m : M FS A) :
  (forall p, P p -> Q p) -> writes_only P m -> writes_only Q m.
Proof. intros HPQ Hm fs p Hp. apply Hm. naive_solver. Qed.

(** [m] changes nothing. *)
Definition reads {A} (m : M FS A) : Prop := forall fs, (m fs).2 = fs.

Lemma reads_ret {A} (a : A) : reads (mret a).
Proof. done. Qed.
Lemma reads_raise {A} e : reads (A := A) (raiseM e).
Proof. done. Qed.
Lemma reads_get : reads getM.
Proof. done. Qed.
Lemma reads_liftR {A} (r : result A) : reads (liftR r).
Proof. done. Qed.
Lemma reads_read p : reads (read_text p).
Proof. intros fs. unfold read_text. by destruct (fs !! p) as [[]|]. Qed.
Lemma reads_bind {A B} (m : M FS A) (k : A -> M FS B) : reads m -> (forall a, reads (k a)) -> reads (m ≫= k).
Proof.
  intros Hm Hk fs. unfold mbind, M_bind. specialize (Hm fs).
  destruct (m fs) as [[a|e] fs']; simpl in *; [by rewrite Hk|done].
Qed.
Lemma reads_if {A} (b : bool) (m n : M FS A) : reads m -> reads n -> reads (if b then m else n).
Proof. by destruct b. Qed.

(** Splitting a successful run. *)
Lemma run_bind {A B} (m : M FS A) (k : A -> M FS B) fs b fs' :
  (m ≫= k) fs = (Ok b, fs') <-> exists a fs1, m fs = (Ok a, fs1) /\ k a fs1 = (Ok b, fs').
Proof. unfold mbind, M_bind. destruct (m fs) as [[a|e] fs1]; naive_solver. Qed.

Lemma run_read p fs s fs' :
  read_text p fs = (Ok s, fs') <->
  fs' = fs /\ exists c, fs !! p = Some (File c) /\ s = universal_newlines c.
Proof. unfold read_text. destruct (fs !! p) as [[]|]; naive_solver. Qed.

Lemma run_write p t fs fs' : write_text p t fs = (Ok tt, fs') -> fs' = <[p := File t]> fs.
Proof. unfold write_text. destruct (_ || _); naive_solver. Qed.

Lemma mkdir_below_writes p parts : writes_only (fun q => q `prefix_of` p ++ parts) (mkdir_below p parts).
Proof.
  revert p. induction parts as [|part parts IH]; intros p fs q Hq; [done|]. cbn [mkdir_below].
  specialize (IH (p ++ [part])). rewrite <- (assoc_L (++)) in IH. cbn [app] in IH.
  destruct (fs !! (p ++ [part])) as [[]|]; [by apply IH|done|done|].
  rewrite IH by done. apply lookup_insert_ne. intros <-. apply Hq.
  apply prefix_app, prefix_cons, prefix_nil.
Qed.

Lemma mkdir_parents_writes p : writes_only (fun q => q `prefix_of` p) (mkdir_parents p).
Proof. apply (mkdir_below_writes []). Qed.

Create HintDb files.
#[export] Hint Resolve writes_only_ret writes_only_raise writes_only_get writes_only_liftR
  writes_only_read writes_only_write writes_only_bind writes_only_if
  reads_ret reads_raise reads_get reads_liftR reads_read reads_bind reads_if : files.

(** A text that was read has no carriage return, and is read as itself. *)
Lemma newlines_no_cr b s : 13%N ∉ newlines b s.
Proof.
  revert b. induction s as [|c s IH]; intros b; simpl; [set_solver|].
  destruct (N.eqb_spec c 13); [set_solver|]. destruct (b && _); set_solver.
Qed.

Lemma universal_newlines_id s : 13%N ∉ s -> universal_newlines s = s.
Proof.
  unfold universal_newlines. induction s as [|c s IH]; simpl; intros Hs; [done|].
  destruct (N.eqb_spec c 13) as [->|]; [set_solver|]. simpl. rewrite IH; set_solver.
Qed.

(** The characters and parts that [split] and [resolve] produce come from
    their argument. *)
Lemma tsplit_chars c s part d : part ∈ tsplit c s -> d ∈ part -> d ∈ s.
Proof.
  revert part. induction s as [|e s IH]; simpl; intros part Hp Hd.
  { by apply list_elem_of_singleton in Hp as ->. }
  destruct (e =? c)%N.
  { apply elem_of_cons in Hp as [->|Hp]; [by apply elem_of_nil in Hd|].
    apply elem_of_cons. right. eauto. }
  destruct (tsplit c s) as [|h r] eqn:Hs.
  { apply list_elem_of_singleton in Hp as ->. apply list_elem_of_singleton in Hd as ->. left. }
  apply elem_of_cons in Hp as [->|Hp].
  - apply elem_of_cons in Hd as [->|Hd]; [left|]. right. eapply IH; [left|done].
  - right. eapply IH; [by right|done].
Qed.

Lemma parse_path_chars s part d : part ∈ (parse_path s).2 -> d ∈ part -> d ∈ s.
Proof.
  simpl. intros Hp. apply list_elem_of_In, filter_In in Hp as [Hp _]. apply list_elem_of_In in Hp.
  by eapply tsplit_chars.
Qed.

Lemma tpartition_chars c s d : d ∈ (tpartition c s).1 \/ d ∈ (tpartition c s).2 -> d ∈ s.
Proof.
  induction s as [|e s IH]; simpl; [set_solver|].
  destruct (e =? c)%N; simpl; [set_solver|].
  destruct (tpartition c s) as [h r]. simpl in *. set_solver.
Qed.

Lemma tjoin_chars sep l d : d ∈ tjoin sep l -> d ∈ sep \/ exists x, x ∈ l /\ d ∈ x.
Proof.
  induction l as [|x l IH]; simpl; [set_solver|]. destruct l as [|y l]; [set_solver|].
  rewrite !elem_of_app. intros [?|[?|Hd]]; [set_solver|set_solver|].
  destruct (IH Hd) as [?|(z & ? & ?)]; [set_solver|]. right. exists z. set_solver.
Qed.

(** What is below [root] after resolving [root / q] was named by [q]. *)
Definition no_dotdot (p : path) : Prop := u ".." ∉ p.

Lemma climb_plain root done : no_dotdot root -> fold_left climb root done = done ++ root.
Proof.
  revert done. induction root as [|a root IH]; intros done Hr; simpl; [by rewrite (right_id_L [] (++))|].
  unfold no_dotdot in *. unfold climb at 2. rewrite bool_decide_eq_false_2 by set_solver.
  rewrite IH by set_solver. by rewrite <- (assoc_L (++)).
Qed.

Lemma climb_below (root : path) q k w :
  exists k' w', fold_left climb q (take k root ++ w) = take k' root ++ w' /\
    forall x, x ∈ w' -> x ∈ w \/ x ∈ q.
Proof.
  revert k w. induction q as [|a q IH]; intros k w; simpl; [exists k, w; naive_solver|].
  unfold climb at 2. case_bool_decide as Ha.
  - destruct w as [|x w _] using rev_ind.
    + rewrite (right_id_L [] (++)).
      assert (exists k', removelast (take k root) = take k' root ++ []) as [k' ->].
      { exists (min (pred (min k (length root))) k).
        by rewrite (right_id_L [] (++)), removelast_firstn_len, length_take, take_take. }
      destruct (IH k' []) as (k2 & w2 & -> & Hw). exists k2, w2. set_solver.
    + rewrite (assoc_L (++)), removelast_last.
      destruct (IH k w) as (k2 & w2 & -> & Hw). exists k2, w2. set_solver.
  - rewrite <- (assoc_L (++)). destruct (IH k (w ++ [a])) as (k2 & w2 & -> & Hw).
    exists k2, w2. split; [done|]. intros x Hx%Hw. set_solver.
Qed.

Lemma resolve_below root q p r :
  no_dotdot root -> resolve (root ++ q) = Ok p -> relative_parts root p = Some r ->
  forall x, x ∈ r -> x ∈ q.
Proof.
  unfold resolve. intros Hroot Hp. destruct (existsb _ _); [done|]. simplify_eq.
  rewrite fold_left_app, (climb_plain root), app_nil_l by done.
  destruct (climb_below root q (length root) []) as (k & w & E & Hw).
  rewrite take_ge, (right_id_L [] (++)) in E by lia. rewrite E. intros Hr x Hx.
  apply relative_parts_spec in Hr. apply (f_equal (drop (length root))) in Hr.
  rewrite drop_app_length, drop_app in Hr. rewrite drop_ge in Hr by (rewrite length_take; lia).
  simpl in Hr. destruct (Hw x) as [H|H]; [|by apply elem_of_nil in H|done].
  rewrite <- (take_drop (length root - length (take k root)) w), Hr. apply elem_of_app. by right.
Qed.
