(* ===== verification/PyRe.v ===== *)
(** * Regular expressions of the release scripts

    The patterns the scripts compile are sequences of literals, repetitions of
    one character class and anchors.  [match_at] is the backtracking matcher
    of [re] for such sequences; a match is the list of the texts its pieces
    matched, so a group is one of them (or several, joined).  The matcher is
    proved sound and complete for [accepts], the language of a pattern. *)
From Stdlib Require Import NArith Lia String.
From stdpp Require Import base option list.
From S2P Require Import Prelude PyText.

Open Scope list_scope.

Inductive piece :=
| Lit (l : text)
| Rep (greedy : bool) (lo : nat) (hi : option nat) (p : N -> bool)
| Bol   (* [^] under [re.M] *)
| Eol   (* [$] under [re.M] *)
| Eos   (* [$] without it *)
| Fin.  (* the end of the text *)
Definition regex : Type := list piece.

(** Repetitions: [p+], [p*], [p{n}], [p{n,}] and [p+?]. *)
Definition plus (p : N -> bool) : piece := Rep true 1 None p.
Definition star (p : N -> bool) : piece := Rep true 0 None p.
Definition exactly (n : nat) (p : N -> bool) : piece := Rep true n (Some n) p.
Definition at_least (n : nat) (p : N -> bool) : piece := Rep true n None p.
Definition plus_lazy (p : N -> bool) : piece := Rep false 1 None p.

(** Classes: one of, none of, and the dot. *)
Definition one_of (l : text) (c : N) : bool := existsb (N.eqb c) l.
Definition none_of (l : text) (c : N) : bool := negb (one_of l c).
Definition dot : N -> bool := none_of [newline].

(** ** Matching at a position

    [prev] is the character before the position. *)
Definition after (prev : option N) (m : text) : option N :=
  match last m with Some c => Some c | None => prev end.

Definition at_bol (prev : option N) : bool :=
  match prev with Some c => N.eqb c newline | None => true end.
Definition at_eol (s : text) : bool :=
  match s with c :: _ => N.eqb c newline | [] => true end.
Definition at_eos (s : text) : bool :=
  match s with [] => true | [c] => N.eqb c newline | _ => false end.

Definition grow (c : N) (ms : list text) : list text :=
  match ms with m :: r => (c :: m) :: r | [] => [] end.

(** [a or b], where [b] is only evaluated when [a] fails. *)
Definition or_else {A} (a b : unit -> option A) : option A :=
  match a tt with Some x => Some x | None => b tt end.

Section repetition.
Variable p : N -> bool.
Variable k : option N -> text -> option (list text).

Fixpoint rep (greedy : bool) (lo : nat) (hi : option nat) (prev : option N) (s : text)
  : option (list text) :=
  let stop := fun _ : unit =>
    match lo with O => cons [] <$> k prev s | S _ => None end in
  let more := fun _ : unit =>
    match s with
    | c :: t => if p c && negb (bool_decide (hi = Some O))
                then grow c <$> rep greedy (pred lo) (pred <$> hi) (Some c) t else None
    | [] => None
    end in
  if greedy then or_else more stop else or_else stop more.
End repetition.

Definition when_at (b : bool) (m : option (list text)) : option (list text) :=
  if b then cons [] <$> m else None.

Fixpoint match_at (r : regex) (prev : option N) (s : text) : option (list text) :=
  match r with
  | [] => Some []
  | Lit l :: r' =>
      match cut_prefix l s with
      | Some t => cons l <$> match_at r' (after prev l) t
      | None => None
      end
  | Rep greedy lo hi p :: r' => rep p (match_at r') greedy lo hi prev s
  | Bol :: r' => when_at (at_bol prev) (match_at r' prev s)
  | Eol :: r' => when_at (at_eol s) (match_at r' prev s)
  | Eos :: r' => when_at (at_eos s) (match_at r' prev s)
  | Fin :: r' => when_at (bool_decide (s = [])) (match_at r' prev s)
  end.

(** [re.fullmatch(r, s)] *)
Definition fullmatch (r : regex) (s : text) : bool :=
  bool_decide (is_Some (match_at (r ++ [Fin]) None s)).

(** [re.search(r, s)]: the text before the leftmost match, the match, and the
    text after it. *)
Fixpoint search (r : regex) (prev : option N) (s : text) : option (text * list text * text) :=
  match match_at r prev s with
  | Some ms => Some ([], ms, drop (length (concat ms)) s)
  | None =>
      match s with
      | [] => None
      | c :: t => match search r (Some c) t with
                  | Some (b, ms, a) => Some (c :: b, ms, a)
                  | None => None
                  end
      end
  end.

(** [re.finditer(r, s)] for a pattern that matches no empty text: every match
    with the text between it and the match before, and the text that remains.
    [skip] characters belong to the match before. *)
Fixpoint splits (r : regex) (skip : nat) (prev : option N) (s : text)
  : list (text * list text) * text :=
  match s with
  | [] => ([], [])
  | c :: t =>
      match skip with
      | S n => splits r n (Some c) t
      | O =>
          match match_at r prev s with
          | Some ms =>
              let '(l, rest) := splits r (pred (length (concat ms))) (Some c) t in
              (([], ms) :: l, rest)
          | None =>
              match splits r 0 (Some c) t with
              | ([], rest) => ([], c :: rest)
              | ((b, ms) :: l, rest) => ((c :: b, ms) :: l, rest)
              end
          end
      end
  end.

(** [re.sub(r, f, s)], for a replacement that can raise. *)
Definition sub (r : regex) (f : list text -> result text) (s : text) : result text :=
  let '(l, rest) := splits r 0 None s in
  ts ← mapR (fun '(b, ms) => t ← f ms; Ok (b ++ t)) l;
  Ok (concat ts ++ rest).

(** [re.sub(r, "", s)] *)
Definition remove (r : regex) (s : text) : text :=
  let '(l, rest) := splits r 0 None s in concat (map fst l) ++ rest.

(** [re.sub(r, lambda _: t, s, count=1)] *)
Definition sub1 (r : regex) (t : text) (s : text) : text :=
  match search r None s with
  | Some (b, _, a) => b ++ t ++ a
  | None => s
  end.

(** ** The language of a pattern *)

(** [m] is what the piece may match between [prev] and [s]. *)
Definition fits (q : piece) (prev : option N) (m s : text) : Prop :=
  match q with
  | Lit l => m = l
  | Rep _ lo hi p =>
      (lo <= length m)%nat /\ match hi with Some n => (length m <= n)%nat | None => True end
      /\ Forall (fun c => p c = true) m
  | Bol => m = [] /\ at_bol prev = true
  | Eol => m = [] /\ at_eol s = true
  | Eos => m = [] /\ at_eos s = true
  | Fin => m = [] /\ s = []
  end.

Fixpoint accepts (r : regex) (prev : option N) (ms : list text) (rest : text) : Prop :=
  match r, ms with
  | [], [] => True
  | q :: r', m :: ms' =>
      fits q prev m (concat ms' ++ rest) /\ accepts r' (after prev m) ms' rest
  | _, _ => False
  end.

Lemma after_cons c prev m : after prev (c :: m) = after (Some c) m.
Proof.
  unfold after. destruct m as [|d m]; [done|]. rewrite last_cons_cons.
  destruct (last (d :: m)) eqn:E; [done|]. by apply last_None in E.
Qed.

Lemma after_app prev a b : after prev (a ++ b) = after (after prev a) b.
Proof.
  revert prev. induction a as [|c a IH]; intros prev; [done|].
  change ((c :: a) ++ b) with (c :: (a ++ b)). by rewrite !after_cons, IH.
Qed.

(** *** Repetitions *)

Section rep_lemmas.
Variable p : N -> bool.
Variable k : option N -> text -> option (list text).

(** The one unfolding of [rep]: what stopping and going on give. *)
Lemma rep_sound greedy lo hi prev s r :
  rep p k greedy lo hi prev s = Some r ->
  exists m ms t, r = m :: ms /\ s = m ++ t /\ k (after prev m) t = Some ms /\
    (lo <= length m)%nat /\ match hi with Some n => (length m <= n)%nat | None => True end /\
    Forall (fun c => p c = true) m.
Proof.
  revert lo hi prev r. induction s as [|c t IH]; intros lo hi prev r Hr.
  - assert (Hs : lo = 0%nat /\ cons [] <$> k prev [] = Some r).
    { destruct greedy, lo; simpl in Hr; unfold or_else in Hr; simplify_eq/=; try done;
        by destruct (k prev []). }
    destruct Hs as [-> Hs]. apply fmap_Some in Hs as (ms & Hk & ->).
    exists [], ms, []. repeat split; [exact Hk | done | by destruct hi; [simpl; lia|] | constructor].
  - assert (Hs : (lo = 0%nat /\ cons [] <$> k prev (c :: t) = Some r) \/
      (p c = true /\ hi <> Some O /\ grow c <$> rep p k greedy (pred lo) (pred <$> hi) (Some c) t = Some r)).
    { simpl in Hr. unfold or_else in Hr. destruct (p c) eqn:Hp; simpl in Hr;
        [case_bool_decide; simpl in Hr|]; destruct greedy, lo; simpl in *;
        repeat case_match; simplify_eq; eauto. }
    destruct Hs as [[-> Hs]|(Hp & Hhi & Hs)].
    + apply fmap_Some in Hs as (ms & Hk & ->). exists [], ms, (c :: t).
      repeat split; [exact Hk | done | by destruct hi; [simpl; lia|] | constructor].
    + apply fmap_Some in Hs as (r' & Hr' & ->).
      apply IH in Hr' as (m & ms & t' & -> & -> & Hk & Hlo & Hh & Hm).
      exists (c :: m), ms, t'. rewrite after_cons. repeat split; simpl; try done; [lia| |by constructor].
      destruct hi as [[|n]|]; simpl in *; [done|lia|done].
Qed.

Lemma rep_complete greedy lo hi prev m t :
  (lo <= length m)%nat -> match hi with Some n => (length m <= n)%nat | None => True end ->
  Forall (fun c => p c = true) m -> is_Some (k (after prev m) t) ->
  is_Some (rep p k greedy lo hi prev (m ++ t)).
Proof.
  revert lo hi prev. induction m as [|c m IH]; intros lo hi prev Hlo Hhi Hm [ms Hk].
  - simpl in *. assert (lo = 0)%nat as -> by lia. change (after prev []) with prev in Hk.
    destruct t as [|c t]; simpl; rewrite Hk; unfold or_else; destruct greedy; simpl; eauto;
      destruct (p c && _); simpl; eauto.
    by destruct (rep _ _ _ _ _ _ _); eauto.
  - apply Forall_cons in Hm as [Hp Hm]. rewrite after_cons in Hk.
    destruct (IH (pred lo) (pred <$> hi) (Some c)) as [r Hr]; [simpl in *; lia| |done|by exists ms|].
    { destruct hi; simpl in *; [lia|done]. }
    assert (Hb : bool_decide (hi = Some O) = false).
    { apply bool_decide_eq_false. intros ->. simpl in *. lia. }
    simpl. rewrite Hp, Hb, Hr. unfold or_else. simpl.
    destruct greedy; [eauto|]. by destruct lo as [|?]; simpl; [destruct (k prev _); simpl|]; eauto.
Qed.

(** A greedy repetition takes a maximal run, if the rest of the pattern
    matches after it. *)
Lemma rep_greedy_run lo prev m t ms :
  (lo <= length m)%nat -> Forall (fun c => p c = true) m ->
  match t with c :: _ => p c = false | [] => True end ->
  k (after prev m) t = Some ms ->
  rep p k true lo None prev (m ++ t) = Some (m :: ms).
Proof.
  revert lo prev. induction m as [|c m IH]; intros lo prev Hlo Hm Ht Hk.
  - simpl in *. assert (lo = 0)%nat as -> by lia. change (after prev []) with prev in Hk.
    destruct t as [|c t]; simpl; rewrite ?Ht, Hk; done.
  - apply Forall_cons in Hm as [Hp Hm]. rewrite after_cons in Hk. simpl in *.
    rewrite Hp. unfold or_else. simpl. rewrite (IH (pred lo) (Some c)); [done|lia|done|done|done].
Qed.
End rep_lemmas.

(** *** Soundness and completeness of the matcher *)

Lemma when_at_Some b m r : when_at b m = Some r <-> b = true /\ exists ms, m = Some ms /\ r = [] :: ms.
Proof. destruct b, m; simpl; naive_solver. Qed.

Lemma match_at_sound r prev s ms :
  match_at r prev s = Some ms -> exists rest, s = concat ms ++ rest /\ accepts r prev ms rest.
Proof.
  revert prev s ms. induction r as [|q r IH]; intros prev s ms Hm; simpl in Hm.
  { simplify_eq. by exists s. }
  destruct q.
  { destruct (cut_prefix l s) as [t|] eqn:Hc; [|done]. apply cut_prefix_spec in Hc as ->.
    apply fmap_Some in Hm as (ms' & Hm & ->). apply IH in Hm as (rest & -> & Ha).
    exists rest. simpl. by rewrite <- (assoc_L (++)). }
  { apply rep_sound in Hm as (m & ms' & t & -> & -> & Hk & Hfit).
    apply IH in Hk as (rest & -> & Ha). exists rest. simpl. by rewrite <- (assoc_L (++)). }
  all: apply when_at_Some in Hm as (Hb & ms' & Hm & ->); apply IH in Hm as (rest & -> & Ha);
    exists rest; simpl; try apply bool_decide_eq_true in Hb; done.
Qed.

Lemma match_at_complete r prev ms rest :
  accepts r prev ms rest -> is_Some (match_at r prev (concat ms ++ rest)).
Proof.
  revert prev ms. induction r as [|q r IH]; intros prev ms Ha; [by eexists|].
  destruct ms as [|m ms]; [done|]. destruct Ha as [Hq Ha]. apply IH in Ha as Hms.
  simpl concat. rewrite <- (assoc_L (++)). destruct q; simpl in Hq.
  { subst. simpl. rewrite (proj2 (cut_prefix_spec l _ _) eq_refl). destruct Hms as [x ->]. eauto. }
  { simpl. destruct Hq as (? & ? & ?). by apply rep_complete. }
  all: destruct Hq as [-> Hb]; simpl; change (after prev []) with prev in Hms; destruct Hms as [x ->];
    rewrite ?Hb; simpl; eauto.
Qed.

Lemma fullmatch_spec r s :
  fullmatch r s = true <-> exists ms, s = concat ms /\ accepts (r ++ [Fin]) None ms [].
Proof.
  unfold fullmatch. rewrite bool_decide_eq_true. split.
  - intros [ms Hm]. apply match_at_sound in Hm as (rest & -> & Ha).
    assert (rest = []) as ->; [|by exists ms; rewrite (right_id_L [] (++))].
    revert Ha. generalize (None : option N). revert ms.
    induction r as [|q r IH]; intros [|m ms] prev; simpl; try done; [|naive_solver].
    destruct ms; [|naive_solver]. naive_solver.
  - intros (ms & -> & Ha). apply match_at_complete in Ha. by rewrite (right_id_L [] (++)) in Ha.
Qed.

(** ** Searching *)

Lemma match_at_drop r prev s ms :
  match_at r prev s = Some ms -> concat ms ++ drop (length (concat ms)) s = s.
Proof. intros (rest & -> & _)%match_at_sound. by rewrite drop_app_length. Qed.

Lemma search_spec r prev s b ms a :
  search r prev s = Some (b, ms, a) ->
  s = b ++ concat ms ++ a /\ match_at r (after prev b) (concat ms ++ a) = Some ms.
Proof.
  revert prev b. induction s as [|c s IH]; intros prev b Hs; simpl in Hs;
    destruct (match_at r prev _) as [ms'|] eqn:Hm.
  1, 3: simplify_eq; simpl; pose proof (match_at_drop _ _ _ _ Hm) as E; rewrite E; done.
  - done.
  - destruct (search r (Some c) s) as [[[b' ms'] a']|] eqn:Hr; [|done]. simplify_eq.
    apply IH in Hr as [-> ?]. by rewrite after_cons.
Qed.

Lemma search_None r prev s :
  search r prev s = None -> forall b ms a, s = b ++ concat ms ++ a -> ~ accepts r (after prev b) ms a.
Proof.
  revert prev. induction s as [|c s IH]; intros prev Hs b ms a E Ha; simpl in Hs;
    destruct (match_at r prev _) as [ms'|] eqn:Hm; try done;
    (destruct b as [|d b]; [apply match_at_complete in Ha as [x Hx]; simpl in E; rewrite <- E in Hx;
                            change (after prev []) with prev in Hx; congruence|]); [done|].
  destruct (search r (Some c) s) as [[[? ?] ?]|] eqn:Hr; [done|].
  simpl in E. simplify_eq. rewrite after_cons in Ha. by eapply IH.
Qed.

(** A pattern with a piece that consumes a character. *)
Definition consuming (r : regex) : bool :=
  existsb (fun q => match q with Lit (_ :: _) => true | Rep _ (S _) _ _ => true | _ => false end) r.

Lemma consuming_nonempty r prev ms rest : consuming r = true -> accepts r prev ms rest -> concat ms <> [].
Proof.
  revert prev ms. induction r as [|q r IH]; intros prev [|m ms]; simpl; try done.
  intros [Hq|Hr]%orb_prop [Hf Ha] E; apply app_eq_nil in E as [-> E]; [|by eapply IH].
  destruct q as [[|]|? [|]| | | |]; simpl in *; try done. destruct Hf as (Hf & _). simpl in Hf. lia.
Qed.

Definition whole (l : list (text * list text)) (rest : text) : text :=
  concat (map (fun '(b, ms) => b ++ concat ms) l) ++ rest.

(** [finditer] is repeated [search]. *)
Lemma splits_skip r n prev s :
  splits r n prev s = splits r 0 (after prev (take n s)) (drop n s).
Proof.
  revert n prev. induction s as [|c s IH]; intros [|n] prev; try done.
  change (splits r (S n) prev (c :: s)) with (splits r n (Some c) s).
  simpl take. by rewrite after_cons, IH.
Qed.

Lemma splits_search r prev s :
  consuming r = true ->
  splits r 0 prev s =
    match search r prev s with
    | None => ([], s)
    | Some (b, ms, a) =>
        let '(l, rest) := splits r 0 (after prev (b ++ concat ms)) a in ((b, ms) :: l, rest)
    end.
Proof.
  intros Hc. revert prev. induction s as [|c s IH]; intros prev; simpl.
  - destruct (match_at r prev []) as [ms|] eqn:Hm; [|done].
    apply match_at_sound in Hm as (rest & E & Ha). apply consuming_nonempty in Ha; [|done].
    by destruct (concat ms).
  - destruct (match_at r prev (c :: s)) as [ms|] eqn:Hm.
    + pose proof (match_at_sound _ _ _ _ Hm) as (rest & E & Ha).
      apply consuming_nonempty in Ha; [|done]. simpl.
      destruct (concat ms) as [|d w] eqn:Hw; [done|]. simpl in *. simplify_eq.
      rewrite splits_skip, take_app_length, drop_app_length, after_cons. done.
    + rewrite IH. destruct (search r (Some c) s) as [[[b ms] a]|]; [|done].
      change ((c :: b) ++ concat ms) with (c :: (b ++ concat ms)).
      rewrite after_cons. by destruct (splits r 0 _ a).
Qed.

(** Induction along the matches of [finditer]. *)
Lemma search_ind (r : regex) (P : option N -> text -> Prop) :
  consuming r = true ->
  (forall prev s, search r prev s = None -> P prev s) ->
  (forall prev s b ms a, search r prev s = Some (b, ms, a) ->
     P (after prev (b ++ concat ms)) a -> P prev s) ->
  forall prev s, P prev s.
Proof.
  intros Hc Hnone Hsome prev s. remember (length s) as n eqn:Hn.
  revert prev s Hn. induction (lt_wf n) as [n _ IH]. intros prev s ->.
  destruct (search r prev s) as [[[b ms] a]|] eqn:Hs; [|by apply Hnone].
  eapply Hsome; [done|]. eapply IH; [|done].
  apply search_spec in Hs as [E Hm].
  apply match_at_sound in Hm as (rest & _ & Ha). apply consuming_nonempty in Ha; [|done].
  rewrite E, !length_app. destruct (concat ms); [done|simpl; lia].
Qed.

Lemma splits_whole r prev s l rest :
  consuming r = true -> splits r 0 prev s = (l, rest) -> s = whole l rest.
Proof.
  intros Hc. revert prev s l rest.
  apply (search_ind r (fun prev s => forall l rest, splits r 0 prev s = (l, rest) -> s = whole l rest)); [done| |].
  - intros prev s Hs l rest. rewrite splits_search, Hs by done. by intros [= <- <-].
  - intros prev s b ms a Hs IH l rest. rewrite splits_search, Hs by done.
    destruct (splits r 0 _ a) as [l' rest']. intros [= <- <-].
    apply search_spec in Hs as [-> _]. rewrite (IH _ _ eq_refl) at 1.
    unfold whole. simpl. by rewrite <- !(assoc_L (++)).
Qed.

(** No match starts inside [b] when [s] follows. *)
Definition no_match (r : regex) (prev : option N) (b s : text) : Prop :=
  forall b1 c b2, b = b1 ++ c :: b2 -> match_at r (after prev b1) (c :: b2 ++ s) = None.

Lemma no_match_cons r prev c b s :
  no_match r prev (c :: b) s <-> match_at r prev (c :: b ++ s) = None /\ no_match r (Some c) b s.
Proof.
  split.
  - intros H. split; [exact (H [] c b eq_refl)|]. intros b1 d b2 ->.
    rewrite <- (after_cons c prev). by apply (H (c :: b1)).
  - intros [H1 H2] [|d b1] e b2 [= <- ->]; [done|]. rewrite after_cons. by apply H2.
Qed.

Lemma search_leftmost r prev s b ms a :
  search r prev s = Some (b, ms, a) -> no_match r prev b (concat ms ++ a).
Proof.
  revert prev b. induction s as [|c s IH]; intros prev b Hs; simpl in Hs;
    destruct (match_at r prev _) as [ms'|] eqn:Hm; simplify_eq; try by intros [].
  destruct (search r (Some c) s) as [[[b' ms'] a']|] eqn:Hr; [|done]. simplify_eq.
  apply no_match_cons. split; [|by apply IH].
  by apply search_spec in Hr as [<- _].
Qed.

Lemma search_intro r prev b s ms a :
  no_match r prev b s -> match_at r (after prev b) s = Some ms -> s = concat ms ++ a ->
  search r prev (b ++ s) = Some (b, ms, a).
Proof.
  intros Hb Hm E. revert prev Hb Hm. induction b as [|c b IH]; intros prev Hb Hm.
  - change (after prev []) with prev in Hm. simpl. rewrite E in *.
    destruct (concat ms ++ a) eqn:Ea; simpl; rewrite Hm; do 3 f_equal;
      by rewrite <- Ea, drop_app_length.
  - apply no_match_cons in Hb as [Hc Hb]. simpl. rewrite Hc, IH; [done|done|].
    by rewrite <- (after_cons c prev).
Qed.

Lemma no_match_app r prev a b s :
  no_match r prev (a ++ b) s <-> no_match r prev a (b ++ s) /\ no_match r (after prev a) b s.
Proof.
  revert prev. induction a as [|c a IH]; intros prev.
  { change (after prev []) with prev. simpl. split; [|tauto]. intros H. split; [|done]. by intros []. }
  change ((c :: a) ++ b) with (c :: (a ++ b)). rewrite !no_match_cons, IH, after_cons, (assoc_L (++)). tauto.
Qed.

Lemma search_None_intro r prev s :
  no_match r prev s [] -> match_at r (after prev s) [] = None -> search r prev s = None.
Proof.
  revert prev. induction s as [|c s IH]; intros prev Hs He.
  { change (after prev []) with prev in He. simpl. by rewrite He. }
  apply no_match_cons in Hs as [Hc Hs]. rewrite (right_id_L [] (++)) in Hc. simpl. rewrite Hc, IH; [done|done|].
  by rewrite <- (after_cons c prev).
Qed.

(** Two readings of a text as a run of a class and what stops it are one. *)
Lemma run_unique (p : N -> bool) a b s t :
  Forall (fun c => p c = true) a -> Forall (fun c => p c = true) b ->
  match s with c :: _ => p c = false | [] => True end ->
  match t with c :: _ => p c = false | [] => True end ->
  a ++ s = b ++ t -> a = b /\ s = t.
Proof.
  revert b. induction a as [|c a IH]; intros [|d b] Ha Hb Hs Ht E; simpl in E.
  - done.
  - subst s. apply Forall_cons in Hb as [? _]. congruence.
  - subst t. apply Forall_cons in Ha as [? _]. congruence.
  - injection E as -> E. apply Forall_cons in Ha as [_ Ha], Hb as [_ Hb].
    by destruct (IH b Ha Hb Hs Ht E) as [-> ->].
Qed.
