(* ===== verification/SyncWiki.v ===== *)
(** * Publishing the documentation to the wiki ([scripts/sync-wiki.py])

    What the script writes into a checkout of the wiki, and what becomes of
    the links of a page.  What it prints is not modelled. *)
From Stdlib Require Import NArith Lia String.
From stdpp Require Import base option list gmap.
From S2P Require Import Prelude PyText PyRe.

Open Scope list_scope.

Definition REPO_BLOB_BASE : text := u "https://github.com/solarssk/ssf-transmitter/blob/main".

Definition MAPPING : list (text * text) :=
  [(u "docs/API.md", u "API-Reference");
   (u "docs/Apple-SCIM-Sync.md", u "Apple-SCIM-Sync");
   (u "docs/Configuration.md", u "Configuration");
   (u "docs/Deployment.md", u "Deployment");
   (u "docs/Event-Mapping.md", u "Event-Mapping");
   (u "docs/Key-Management.md", u "Key-Management");
   (u "docs/Troubleshooting.md", u "Troubleshooting");
   (u "docs/Upgrading.md", u "Upgrading");
   (u "docs/synology-authentik-compose.md", u "Synology-Authentik-Compose");
   (u "docs/security/DATA-PROTECTION.md", u "Data-Protection");
   (u "docs/security/Security-Notes.md", u "Security-Notes")].

Definition lookup_page (repo_relative : text) : option text :=
  snd <$> List.find (fun '(k, _) => bool_decide (k = repo_relative)) MAPPING.

Definition hash : N := 35%N.
Definition LINK_RE : regex := [Lit (u "]("); plus (none_of (u ")")); Lit (u ")")].

Definition is_external (target : text) : bool :=
  existsb (fun p => tstartswith p target) [u "http://"; u "https://"; u "mailto:"].

(** [f"{new_target}#{fragment}" if fragment else new_target] *)
Definition with_fragment (new_target fragment : text) : text :=
  if bool_decide (fragment = []) then new_target else new_target ++ [hash] ++ fragment.

Section repository.
Variable ROOT : path.

(** The new target of a path without its fragment; [None] leaves the link as
    it is. *)
Definition _rewrite_link (fs : FS) (target : text) (source_repo_path : path) : result text :=
  if is_external target then Ok target
  else
    let '(path_part, fragment) := tpartition hash target in
    if bool_decide (path_part = []) then Ok target
    else
      resolved ← resolve (path_div (ROOT ++ parent source_repo_path) path_part);
      match relative_to ROOT resolved with
      | None => Ok target
      | Some repo_relative =>
          match lookup_page repo_relative with
          | Some page => Ok (with_fragment page fragment)
          | None =>
              if is_file fs resolved
              then Ok (with_fragment (REPO_BLOB_BASE ++ u "/" ++ repo_relative) fragment)
              else Ok target
          end
      end.

Definition replace (fs : FS) (source_repo_path : path) (groups : list text) : result text :=
  match groups with
  | [prefix; target; suffix] =>
      t ← _rewrite_link fs target source_repo_path;
      Ok (prefix ++ t ++ suffix)
  | _ => Ok (concat groups)
  end.

Definition convert (fs : FS) (s : text) (source_repo_path : path) : result text :=
  sub LINK_RE (replace fs source_repo_path) s.

Definition page_path (wiki_dir : path) (page_name : text) : path := wiki_dir ++ [page_name ++ u ".md"].

Fixpoint sync_pages (wiki_dir : path) (mapping : list (text * text)) : M FS Z :=
  match mapping with
  | [] => mret 0%Z
  | (repo_relative, page_name) :: rest =>
      let source := path_div ROOT repo_relative in
      fs ← getM;
      if negb (is_file fs source) then mret 1%Z
      else
        s ← read_text source;
        converted ← liftR (convert fs s (snd (parse_path repo_relative)));
        _ ← write_text (page_path wiki_dir page_name) converted;
        sync_pages wiki_dir rest
  end.

(** The exit status; [cwd] is the working directory, [argv] the arguments. *)
Definition main (cwd : path) (argv : list text) : M FS Z :=
  match argv with
  | [arg] =>
      wiki_dir ← liftR (resolve (path_div cwd arg));
      fs ← getM;
      if negb (is_dir fs wiki_dir) then mret 1%Z
      else sync_pages wiki_dir MAPPING
  | _ => mret 1%Z
  end.
End repository.

(** A small checkout: what the links of a page become. *)
Definition demo_root : path := [u "srv"; u "repo"].
Definition demo_fs : FS :=
  list_to_map
    ([(demo_root, Dir); (demo_root ++ [u "wiki"], Dir);
      (demo_root ++ [u "wiki"; u "Home.md"], File (u "welcome"));
      (demo_root ++ [u "SECURITY.md"], File (u "policy"))]
     ++ map (fun '(k, _) => (path_div demo_root k, File (u "# " ++ k))) MAPPING).

Definition demo_page : text := u "See [keys](Key-Management.md#rotation), [policy](../SECURITY.md) — or
[the site](https://example.org/x.md), [here](#top), [gone](missing.md), a[0](unclosed".

Example convert_demo :
  convert demo_root demo_fs demo_page [u "docs"; u "API.md"]
  = Ok (u "See [keys](Key-Management#rotation), [policy](https://github.com/solarssk/ssf-transmitter/blob/main/SECURITY.md) — or
[the site](https://example.org/x.md), [here](#top), [gone](missing.md), a[0](unclosed").
Proof. vm_compute. reflexivity. Qed.

Example main_demo :
  let '(r, fs) := main demo_root demo_root [u "wiki"] demo_fs in
  r = Ok 0%Z
  /\ fs !! (demo_root ++ [u "wiki"; u "API-Reference.md"]) = Some (File (u "# docs/API.md"))
  /\ fs !! (demo_root ++ [u "wiki"; u "Home.md"]) = Some (File (u "welcome")).
Proof. vm_compute. auto. Qed.

(** ** Links *)

Definition link (target : text) : text := u "](" ++ target ++ u ")".
Arguments link : simpl never.
Definition link_target (t : text) : Prop := t <> [] /\ 41%N ∉ t.

Lemma link_app t s : link t ++ s = 93%N :: 40%N :: t ++ 41%N :: s.
Proof. unfold link. by rewrite <- !(assoc_L (++)). Qed.

Lemma none_of_paren c : none_of (u ")") c = true <-> c <> 41%N.
Proof.
  unfold none_of. change (u ")") with [41%N]. simpl. rewrite orb_false_r.
  destruct (N.eqb_spec c 41); naive_solver.
Qed.

Lemma not_paren t : 41%N ∉ t <-> Forall (fun c => none_of (u ")") c = true) t.
Proof.
  rewrite Forall_forall. setoid_rewrite none_of_paren. split; [intros H c Hc -> | intros H Hc]; naive_solver.
Qed.

Lemma match_link prev t s :
  link_target t -> match_at LINK_RE prev (link t ++ s) = Some [u "]("; t; u ")"].
Proof.
  intros [Ht Hp]. rewrite link_app. simpl.
  rewrite (rep_greedy_run _ _ 1 _ t (41%N :: s) [u ")"]); [done| |by apply not_paren|done|done].
  destruct t; [done|simpl; lia].
Qed.

Lemma match_link_inv prev s ms :
  match_at LINK_RE prev s = Some ms ->
  exists t rest, ms = [u "]("; t; u ")"] /\ link_target t /\ s = link t ++ rest.
Proof.
  intros (rest & -> & Ha)%match_at_sound. destruct ms as [|a [|t [|b [|]]]]; simpl in Ha; try naive_solver.
  destruct Ha as (-> & (Hlen & _ & Hp) & -> & _). exists t, rest.
  split; [done|]. split; [|done].
  split; [intros ->; simpl in *; lia|]. by apply not_paren.
Qed.

(** [b] can stand before a link without hiding it: where it has the start of
    a link, there is no target. *)
Definition quiet (b : text) : Prop :=
  forall x y, b = x ++ u "](" ++ y -> exists z, y = 41%N :: z.

Lemma quiet_no_match prev b t s : quiet b -> no_match LINK_RE prev b (link t ++ s).
Proof.
  intros Hb b1 c b2 ->. destruct (match_at _ _ _) as [ms|] eqn:Hm; [exfalso|done].
  apply match_link_inv in Hm as (t' & rest & _ & [Ht' Hp] & E).
  rewrite !link_app in E. destruct b2 as [|d b2]; simplify_eq/=.
  destruct (Hb b1 b2) as [z ->]; [done|]. destruct t' as [|e t']; simplify_eq/=. set_solver.
Qed.

Lemma no_match_quiet prev b t s : no_match LINK_RE prev b (link t ++ s) -> quiet b.
Proof.
  intros Hb x y ->. specialize (Hb x 93%N (40%N :: y) eq_refl).
  assert (Hin : 41%N ∈ y ++ link t ++ s) by (rewrite link_app; set_solver).
  apply list_elem_of_split_l in Hin as (w & v & E & Hw).
  destruct w as [|c w].
  - destruct y as [|d y]; [by rewrite link_app in E|]. simplify_eq/=. eauto.
  - exfalso. change (93%N :: (40%N :: y) ++ link t ++ s) with (93%N :: 40%N :: (y ++ link t ++ s)) in Hb.
    rewrite E in Hb. pose proof (link_app (c :: w) v) as El. rewrite <- El, match_link in Hb; [done|].
    split; [done|set_solver].
Qed.

(** [search] finds the first link. *)
Lemma search_link prev s b ms a :
  search LINK_RE prev s = Some (b, ms, a) <->
  exists t, ms = [u "]("; t; u ")"] /\ link_target t /\ quiet b /\ s = b ++ link t ++ a.
Proof.
  assert (Hcat : forall t, concat [u "]("; t; u ")"] = link t).
  { done. }
  split.
  - intros Hs. pose proof (search_leftmost _ _ _ _ _ _ Hs) as Hl.
    apply search_spec in Hs as [-> Hm].
    destruct (match_link_inv _ _ _ Hm) as (t & rest & -> & Ht & E).
    rewrite Hcat in *. exists t. split; [done|]. split; [done|]. split; [by eapply no_match_quiet|done].
  - intros (t & -> & Ht & Hb & ->). apply search_intro; [by apply quiet_no_match|by apply match_link|].
    by rewrite Hcat.
Qed.

Lemma search_link_None prev prev' s : search LINK_RE prev s = None -> search LINK_RE prev' s = None.
Proof.
  intros Hs. destruct (search LINK_RE prev' s) as [[[b ms] a]|] eqn:E; [|done].
  apply search_link in E. by rewrite (proj2 (search_link prev s b ms a) E) in Hs.
Qed.

(** ** A text as its links and what is between them *)

Definition render (doc : list (text * text)) (rest : text) : text :=
  concat (map (fun '(b, t) => b ++ link t) doc) ++ rest.

Definition groups_of (doc : list (text * text)) : list (text * list text) :=
  map (fun '(b, t) => (b, [u "]("; t; u ")"])) doc.

Definition well_split (doc : list (text * text)) (rest : text) : Prop :=
  Forall (fun '(b, t) => quiet b /\ link_target t) doc /\ search LINK_RE None rest = None.

(** The targets of the links of a text. *)
Definition links (s : text) : list text :=
  concat (map (fun '(_, ms) => take 1 (drop 1 ms)) (splits LINK_RE 0 None s).1).

Lemma render_cons b t doc rest : render ((b, t) :: doc) rest = b ++ link t ++ render doc rest.
Proof. unfold render. cbn [map concat]. by rewrite <- !app_assoc. Qed.

Lemma splits_render prev doc rest :
  well_split doc rest -> splits LINK_RE 0 prev (render doc rest) = (groups_of doc, rest).
Proof.
  intros [Hd Hr]. revert prev. induction doc as [|[b t] doc IH]; intros prev; rewrite splits_search by done.
  - change (render [] rest) with rest. by rewrite (search_link_None _ prev _ Hr).
  - apply Forall_cons in Hd as [[Hb Ht] Hd].
    rewrite (proj2 (search_link prev _ b [u "]("; t; u ")"] (render doc rest)));
      [by rewrite IH|]. exists t. split_and!; [done..|apply render_cons].
Qed.

Lemma render_surj s : exists doc rest, well_split doc rest /\ s = render doc rest.
Proof.
  revert s. assert (H : forall (prev : option N) s, exists doc rest, well_split doc rest /\ s = render doc rest).
  { apply (search_ind LINK_RE (fun _ s => exists doc rest, well_split doc rest /\ s = render doc rest)); [done| |].
    - intros prev s Hs. exists [], s. split; [split; [constructor|by eapply search_link_None]|done].
    - intros prev s b ms a Hs (doc & rest & [Hd Hr] & ->).
      apply search_link in Hs as (t & -> & Ht & Hb & ->). exists ((b, t) :: doc), rest.
      rewrite render_cons. split; [|done]. split; [by constructor|done]. }
  exact (H None).
Qed.

Lemma links_render doc rest : well_split doc rest -> links (render doc rest) = map snd doc.
Proof.
  intros Hd. unfold links. rewrite splits_render by done. simpl. clear Hd.
  induction doc as [|[b t] doc IH]; simpl; [done|]. by rewrite IH.
Qed.

Section converted.
Variable ROOT : path.
Variable fs : FS.
Variable src : path.
Hypothesis root_resolved : no_dotdot ROOT.
Hypothesis src_plain : forall part, part ∈ parent src -> 41%N ∉ part.

(** The file of the repository a relative link names. *)
Definition reaches (t : text) : option path :=
  let p := (tpartition hash t).1 in
  if is_external t || bool_decide (p = []) then None
  else match resolve (path_div (ROOT ++ parent src) p) with
       | Ok q => if bool_decide (is_Some (relative_to ROOT q)) && is_file fs q then Some q else None
       | Err _ => None
       end.

(** The page of the wiki a link leads to. *)
Definition page_link (t : text) : Prop :=
  exists repo_relative, lookup_page repo_relative = Some (tpartition hash t).1.

Lemma pages_plain k page : lookup_page k = Some page -> page <> [] /\ 41%N ∉ page /\ hash ∉ page.
Proof.
  unfold lookup_page. intros H. apply fmap_Some in H as ([k' p] & H & ->).
  apply find_some in H as [H _].
  assert (Hall : Forall (fun e : text * text => e.2 <> [] /\ 41%N ∉ e.2 /\ hash ∉ e.2) MAPPING).
  { apply (bool_decide_unpack _). vm_compute. exact I. }
  rewrite Forall_forall in Hall. apply (Hall (k', p)). by apply list_elem_of_In.
Qed.

Lemma with_fragment_target new_target fragment :
  link_target new_target -> 41%N ∉ fragment -> link_target (with_fragment new_target fragment).
Proof.
  intros [Hn Hp] Hf. unfold with_fragment. case_bool_decide; [done|].
  split; [by destruct new_target|]. rewrite !elem_of_app, list_elem_of_singleton. naive_solver.
Qed.

Lemma with_fragment_page page fragment :
  hash ∉ page -> (tpartition hash (with_fragment page fragment)).1 = page.
Proof.
  intros Hp. unfold with_fragment. case_bool_decide; [by rewrite tpartition_absent|].
  simpl. by rewrite tpartition_app.
Qed.

Lemma blob_external s : is_external (REPO_BLOB_BASE ++ s) = true.
Proof.
  assert (H : tstartswith (u "https://") (REPO_BLOB_BASE ++ s) = true).
  { apply bool_decide_eq_true. vm_compute. by eexists. }
  unfold is_external. cbn [existsb]. by rewrite H, orb_true_r.
Qed.

Lemma blob_fragment_external s f : is_external (with_fragment (REPO_BLOB_BASE ++ s) f) = true.
Proof.
  unfold with_fragment. destruct (bool_decide _); [apply blob_external|].
  rewrite <- app_assoc. apply blob_external.
Qed.

Lemma blob_target k : 41%N ∉ k -> link_target (REPO_BLOB_BASE ++ u "/" ++ k).
Proof.
  intros Hk. split; [by intros [? _]%app_eq_nil|].
  intros [Hin|[Hin|Hin]%elem_of_app]%elem_of_app; [| |done];
    revert Hin; apply (bool_decide_unpack _); vm_compute; exact I.
Qed.

(** A path below the repository that a link names has no character the link
    does not have. *)
Lemma repo_relative_plain p q k :
  41%N ∉ p -> resolve (path_div (ROOT ++ parent src) p) = Ok q -> relative_to ROOT q = Some k -> 41%N ∉ k.
Proof.
  intros Hp Hq Hk Hin. unfold relative_to in Hk. apply fmap_Some in Hk as (r & Hr & ->).
  assert (Hparts : forall x, x ∈ r -> 41%N ∉ x).
  { intros x Hx. assert (Hx' : x ∈ parent src \/ x ∈ (parse_path p).2).
    { unfold path_div in Hq. destruct (parse_path p) as [[] parts].
      - right. apply (resolve_below [] parts q q); [by apply not_elem_of_nil|done|done|].
        apply relative_parts_spec in Hr as ->. apply elem_of_app. by right.
      - rewrite <- (assoc_L (++)) in Hq. apply elem_of_app.
        by eapply resolve_below. }
    destruct Hx' as [Hx'|Hx']; [by apply src_plain|]. intros Hc. by eapply Hp, parse_path_chars. }
  unfold as_posix in Hin. destruct r as [|a r]; [by vm_compute in Hin; set_solver|].
  apply tjoin_chars in Hin as [Hin|(x & Hx & Hin)]; [by vm_compute in Hin; set_solver|].
  by eapply Hparts.
Qed.

(** A rewritten link still is one, and names no file of the repository
    relatively any more: it leads to a page, or nowhere in the repository. *)
Lemma rewrite_link_spec t t' :
  link_target t -> _rewrite_link ROOT fs t src = Ok t' ->
  link_target t' /\ (page_link t' \/ reaches t' = None).
Proof.
  intros Ht H. unfold _rewrite_link in H.
  destruct (is_external t) eqn:Hx; simplify_eq.
  { split; [done|]. right. unfold reaches. by rewrite Hx. }
  destruct (tpartition hash t) as [p f] eqn:Hpt. case_bool_decide as Hp; simplify_eq.
  { split; [done|]. right. unfold reaches. by rewrite Hpt, Hx. }
  assert (Hpf : 41%N ∉ p /\ 41%N ∉ f).
  { pose proof (tpartition_chars hash t 41) as Hc. rewrite Hpt in Hc. destruct Ht. naive_solver. }
  destruct Hpf as [Hcp Hf].
  apply bind_ok in H as (q & Hq & H).
  assert (Hreach : reaches t = if bool_decide (is_Some (relative_to ROOT q)) && is_file fs q then Some q else None).
  { unfold reaches. rewrite Hpt, Hx. cbn [fst orb]. by rewrite bool_decide_eq_false_2, Hq by done. }
  destruct (relative_to ROOT q) as [k|] eqn:Hk; simplify_eq.
  2: { split; [done|]. right. rewrite Hreach, bool_decide_eq_false_2; [done|by intros []]. }
  destruct (lookup_page k) as [page|] eqn:Hpage; simplify_eq.
  { destruct (pages_plain _ _ Hpage) as (? & ? & ?). split; [by apply with_fragment_target|].
    left. exists k. by rewrite with_fragment_page. }
  destruct (is_file fs q) eqn:Hfile; [|injection H as <-].
  - set (target := with_fragment (REPO_BLOB_BASE ++ _) f) in H. injection H as <-. subst target. split.
    + apply with_fragment_target; [|done]. apply blob_target. by apply (repo_relative_plain p q).
    + right. unfold reaches. by rewrite blob_fragment_external.
  - split; [done|]. right. by rewrite Hreach, andb_false_r.
Qed.

Lemma replace_groups doc chunks :
  mapR (fun '(b, ms) => t ← replace ROOT fs src ms; Ok (b ++ t)) (groups_of doc) = Ok chunks ->
  exists ts, Forall2 (fun t t' => _rewrite_link ROOT fs t src = Ok t') (map snd doc) ts
    /\ forall rest, concat chunks ++ rest = render (zip (map fst doc) ts) rest.
Proof.
  revert chunks. induction doc as [|[b t] doc IH]; cbn [groups_of map]; intros chunks H.
  { injection H as <-. exists []. split; [constructor|done]. }
  apply bind_ok in H as (y & Hy & H). apply bind_ok in H as (ys & Hys & H). injection H as <-.
  apply bind_ok in Hy as (r & Hr & Hy). injection Hy as <-.
  apply bind_ok in Hr as (t' & Ht' & Hr). injection Hr as <-.
  destruct (IH _ Hys) as (ts & Hts & Hc). exists (t' :: ts). split; [by constructor|].
  intros rest. cbn [zip zip_with map fst snd concat]. rewrite render_cons, <- Hc. unfold link.
  rewrite <- !app_assoc. f_equal. simpl. by rewrite <- !app_assoc.
Qed.

Lemma rewritten_split doc ts rest :
  well_split doc rest -> Forall2 (fun t t' => _rewrite_link ROOT fs t src = Ok t') (map snd doc) ts ->
  well_split (zip (map fst doc) ts) rest
  /\ map snd (zip (map fst doc) ts) = ts
  /\ Forall (fun t' => page_link t' \/ reaches t' = None) ts.
Proof.
  intros [Hd Hr] Hts. unfold well_split. revert ts Hts.
  induction doc as [|[b t] doc IH]; cbn [map]; intros ts Hts.
  { apply Forall2_nil_inv_l in Hts as ->. repeat constructor. done. }
  apply Forall2_cons_inv_l in Hts as (t' & ts' & Ht & Hts & ->).
  apply Forall_cons in Hd as [[Hb Hl] Hd]. destruct (rewrite_link_spec _ _ Hl Ht) as [Hl' Hp].
  destruct (IH Hd _ Hts) as ([Hz _] & Hm & Hf). cbn [zip zip_with map fst snd].
  split; [split; [by constructor|done]|]. split; [by f_equal|by constructor].
Qed.

(** C40: the links of a converted page.  Converting a page keeps everything between its links.  The links of the
    converted page are those of the page, each rewritten, and none of them
    names a file of the repository relatively, where the wiki has no such
    file: it leads to a page of the wiki, or reaches no file. *)
Theorem converted_page_links s s' :
  convert ROOT fs s src = Ok s' ->
  exists doc rest ts,
    s = render doc rest /\ map snd doc = links s
    /\ Forall2 (fun t t' => _rewrite_link ROOT fs t src = Ok t') (links s) ts
    /\ s' = render (zip (map fst doc) ts) rest
    /\ links s' = ts
    /\ Forall (fun t' => page_link t' \/ reaches t' = None) ts.
Proof.
  destruct (render_surj s) as (doc & rest & Hd & ->). unfold convert, sub.
  rewrite splits_render, links_render by done. intros H.
  apply bind_ok in H as (chunks & Hc & H). injection H as <-.
  destruct (replace_groups _ _ Hc) as (ts & Hts & Hs).
  destruct (rewritten_split _ _ _ Hd Hts) as (Hd' & Hm & Hf).
  exists doc, rest, ts. split_and!; try done. rewrite Hs, links_render; done.
Qed.
End converted.

(** ** Whole runs *)

(** The pages of a mapping. *)
Definition page_of (mapping : list (text * text)) (wiki_dir p : path) : Prop :=
  exists page, page ∈ map snd mapping /\ p = page_path wiki_dir page.

Definition agree_off (P : path -> Prop) (fs fs' : FS) : Prop := forall p, ~ P p -> fs' !! p = fs !! p.

Lemma page_path_inj wiki_dir a b : page_path wiki_dir a = page_path wiki_dir b -> a = b.
Proof. unfold page_path. intros [= H]%app_inv_head. by apply app_inv_tail in H. Qed.

Lemma agree_off_insert (P : path -> Prop) fs fs' p n : P p -> agree_off P fs fs' -> agree_off P fs (<[p := n]> fs').
Proof.
  intros Hp Ha q Hq. transitivity (fs' !! q); [|by apply Ha].
  apply lookup_insert_ne. by intros ->.
Qed.

Section runs.
Variable ROOT : path.

Lemma sync_pages_writes wiki_dir l : writes_only (page_of l wiki_dir) (sync_pages ROOT wiki_dir l).
Proof.
  induction l as [|[k page] l IH]; [apply writes_only_ret|]. cbn [sync_pages].
  assert (Hpage : page_of ((k, page) :: l) wiki_dir (page_path wiki_dir page)).
  { exists page. split; [left|done]. }
  assert (Hrest : writes_only (page_of ((k, page) :: l) wiki_dir) (sync_pages ROOT wiki_dir l)).
  { eapply writes_only_mono, IH. intros p (x & Hx & ->). exists x. split; [by right|done]. }
  auto 8 with files.
Qed.

(** Page [page] holds the conversion of the source [k]. *)
Definition published (P : path -> Prop) (wiki_dir : path) (fs fs' : FS) (k page : text) : Prop :=
  exists fs1 s c, agree_off P fs fs1
    /\ fs !! path_div ROOT k = Some (File s)
    /\ convert ROOT fs1 (universal_newlines s) (parse_path k).2 = Ok c
    /\ fs' !! page_path wiki_dir page = Some (File c).

(** One page: where the run goes on from. *)
Lemma sync_pages_step wiki_dir k page l fs fs' :
  sync_pages ROOT wiki_dir ((k, page) :: l) fs = (Ok 0%Z, fs') ->
  exists s c, fs !! path_div ROOT k = Some (File s)
    /\ convert ROOT fs (universal_newlines s) (parse_path k).2 = Ok c
    /\ sync_pages ROOT wiki_dir l (<[page_path wiki_dir page := File c]> fs) = (Ok 0%Z, fs').
Proof.
  cbn [sync_pages]. unfold mbind, M_bind, getM, liftR.
  destruct (is_file fs (path_div ROOT k)); [|done]. cbn [negb]. unfold read_text.
  destruct (fs !! path_div ROOT k) as [[|s|]|]; try done.
  destruct (convert _ _ _ _) as [c|] eqn:Hc; [|done].
  unfold write_text at 1. destruct (_ || _); [done|]. intros H. by exists s, c.
Qed.

Lemma sync_pages_published P wiki_dir l fs0 fs fs' :
  NoDup (map snd l) -> (forall p, page_of l wiki_dir p -> P p) ->
  (forall k page, (k, page) ∈ l -> ~ P (path_div ROOT k)) ->
  agree_off P fs0 fs -> sync_pages ROOT wiki_dir l fs = (Ok 0%Z, fs') ->
  Forall (fun '(k, page) => published P wiki_dir fs0 fs' k page) l.
Proof.
  intros Hdup HP Hsrc Hag H. revert fs Hag H.
  induction l as [|[k page] l IH]; intros fs Hag H; [constructor|].
  cbn [map snd] in Hdup. apply NoDup_cons in Hdup as [Hnew Hdup].
  apply sync_pages_step in H as (s & c & Hs & Hc & H). constructor.
  - exists fs, s, c. split; [done|]. split; [by rewrite <- Hag by (eapply Hsrc; left)|]. split; [done|].
    change fs' with (Ok 0%Z, fs').2. rewrite <- H, sync_pages_writes; [by apply lookup_insert_eq|].
    by intros (x & Hx & ->%page_path_inj).
  - eapply IH; [done| | | |exact H].
    + intros p (x & Hx & ->). apply HP. exists x. split; [by right|done].
    + intros k' page' Hin. apply (Hsrc k' page'). by right.
    + apply agree_off_insert; [|done]. apply HP. exists page. split; [left|done].
Qed.

Lemma MAPPING_pages_distinct : NoDup (map snd MAPPING).
Proof. apply (bool_decide_unpack _). vm_compute. exact I. Qed.

Lemma Home_not_page wiki_dir : ~ page_of MAPPING wiki_dir (page_path wiki_dir (u "Home")).
Proof.
  intros (x & Hx & <-%page_path_inj). revert Hx.
  apply (bool_decide_unpack _). vm_compute. exact I.
Qed.

(** A run of the wiki synchronisation.  Whatever its arguments and its
    outcome, it changes nothing but the pages of the mapping in the wiki
    directory, so a page kept by hand, such as [Home.md], stays; and a run
    that reports success has published every page: it holds the conversion
    of its source, links resolved in the repository. *)
Theorem sync_wiki_run cwd argv fs r fs' :
  main ROOT cwd argv fs = (r, fs') ->
  exists wiki_dir, agree_off (page_of MAPPING wiki_dir) fs fs'
    /\ fs' !! page_path wiki_dir (u "Home") = fs !! page_path wiki_dir (u "Home")
    /\ (r = Ok 0%Z ->
        is_dir fs wiki_dir = true
        /\ (exists arg, argv = [arg] /\ resolve (path_div cwd arg) = Ok wiki_dir)
        /\ (Forall (fun '(k, _) => ~ page_of MAPPING wiki_dir (path_div ROOT k)) MAPPING ->
            Forall (fun '(k, page) => published (page_of MAPPING wiki_dir) wiki_dir fs fs' k page) MAPPING)).
Proof.
  assert (Hstop : forall n, (Ok n, fs) = (r, fs') -> n <> 0%Z -> r <> Ok 0%Z /\ fs' = fs).
  { intros n [= <- <-] Hn. split; [congruence|done]. }
  unfold main. destruct argv as [|arg [|]]; intros H.
  1, 3: destruct (Hstop _ H) as [? ->]; [done|]; by exists [].
  unfold mbind, M_bind, liftR, getM in H.
  destruct (resolve (path_div cwd arg)) as [wiki_dir|] eqn:Hr; [|injection H as <- <-; by exists []].
  exists wiki_dir. destruct (is_dir fs wiki_dir) eqn:Hd; cbn [negb] in H;
    [|destruct (Hstop _ H) as [? ->]; done].
  assert (Hw : agree_off (page_of MAPPING wiki_dir) fs fs').
  { intros p Hp. change fs' with (r, fs').2. rewrite <- H. by apply sync_pages_writes. }
  split; [done|]. split; [by apply Hw, Home_not_page|]. intros ->.
  split; [done|]. split; [by exists arg|]. intros Hsrc. rewrite Forall_forall in Hsrc.
  apply (sync_pages_published _ _ _ fs fs fs' MAPPING_pages_distinct); try done.
  intros k page Hk. exact (Hsrc _ Hk).
Qed.
End runs.

(** ** The theorems at the small checkout *)

Lemma demo_root_plain : no_dotdot demo_root.
Proof. apply (bool_decide_unpack _). vm_compute. exact I. Qed.

Lemma demo_src_plain part : part ∈ parent [u "docs"; u "API.md"] -> 41%N ∉ part.
Proof. intros ->%list_elem_of_singleton. apply (bool_decide_unpack _). vm_compute. exact I. Qed.

Definition demo_converted : text :=
  match convert demo_root demo_fs demo_page [u "docs"; u "API.md"] with Ok t => t | Err _ => [] end.

Lemma converted_page_links_witness :
  convert demo_root demo_fs demo_page [u "docs"; u "API.md"] = Ok demo_converted
  /\ exists doc rest ts, demo_page = render doc rest /\ demo_converted = render (zip (map fst doc) ts) rest
     /\ links demo_converted = ts.
Proof.
  assert (H : convert demo_root demo_fs demo_page [u "docs"; u "API.md"] = Ok demo_converted)
    by (vm_compute; reflexivity).
  split; [exact H|].
  destruct (converted_page_links demo_root demo_fs [u "docs"; u "API.md"] demo_root_plain demo_src_plain _ _ H)
    as (doc & rest & ts & H1 & _ & _ & H2 & H3 & _).
  exists doc, rest, ts. auto.
Defined.

Definition demo_out : result Z * FS := main demo_root demo_root [u "wiki"] demo_fs.

Lemma demo_sources_kept :
  Forall (fun '(k, _) => ~ page_of MAPPING (demo_root ++ [u "wiki"]) (path_div demo_root k)) MAPPING.
Proof.
  assert (H : Forall (fun e : text * text => Forall (fun page =>
    path_div demo_root e.1 <> page_path (demo_root ++ [u "wiki"]) page) (map snd MAPPING)) MAPPING).
  { apply (bool_decide_unpack _). vm_compute. exact I. }
  rewrite Forall_forall in H |- *. intros [k p] Hk (page & Hp & E).
  specialize (H _ Hk). rewrite Forall_forall in H. exact (H _ Hp E).
Qed.

Lemma sync_wiki_run_witness :
  demo_out.1 = Ok 0%Z
  /\ Forall (fun '(k, page) => published demo_root (page_of MAPPING (demo_root ++ [u "wiki"]))
       (demo_root ++ [u "wiki"]) demo_fs demo_out.2 k page) MAPPING.
Proof.
  assert (H0 : demo_out.1 = Ok 0%Z) by (vm_compute; reflexivity). split; [exact H0|].
  destruct (sync_wiki_run demo_root demo_root [u "wiki"] demo_fs demo_out.1 demo_out.2 (surjective_pairing demo_out))
    as (w & _ & _ & H). destruct (H H0) as (_ & (arg & Ha & Hw) & Hp).
  injection Ha as <-. assert (w = demo_root ++ [u "wiki"]) as ->.
  { assert (E : resolve (path_div demo_root (u "wiki")) = Ok (demo_root ++ [u "wiki"])) by (vm_compute; reflexivity).
    congruence. }
  apply Hp, demo_sources_kept.
Defined.
