(* ===== verification/ReleaseDocs.v ===== *)
(** * The current version in the documentation ([scripts/sync-release-docs.py])

    The script reads the version from [pyproject.toml] and its title from the
    changelog, and rewrites the places of the documentation that quote the
    current release; with [--check] it only reports whether it would.  The
    TOML parser is the interpreter's, a parameter; printing is not modelled. *)
From Stdlib Require Import NArith Lia String.
From stdpp Require Import base option list gmap.
From S2P Require Import Prelude PyText PyRe.

Open Scope list_scope.

(** ** [tomllib] *)
Inductive toml :=
| TStr (s : text)
| TTable (items : list (text * toml))
| TOther.
Class Toml := { toml_loads : text -> result toml }.

Fixpoint assoc {A} (k : text) (l : list (text * A)) : option A :=
  match l with
  | [] => None
  | (k', v) :: l' => if bool_decide (k = k') then Some v else assoc k l'
  end.

(** [v.get(k, d)], for a table. *)
Definition toml_get (v : toml) (k : text) (d : toml) : result toml :=
  match v with
  | TTable items => Ok (default d (assoc k items))
  | _ => Err AttributeError
  end.

Section scripts.
Context {UD : UnicodeData}.

(** [\d+\.\d+\.\d+] *)
Definition VERSION_RE : regex :=
  [plus udigit; Lit (u "."); plus udigit; Lit (u "."); plus udigit].

(** [^## \[([^\]]+)\] — \d{4}-\d{2}-\d{2} — (.+?)\s*$] under [re.M] *)
Definition HEADER_RE : regex :=
  [Bol; Lit (u "## ["); plus (none_of (u "]")); Lit (u "] — ");
   exactly 4 udigit; Lit (u "-"); exactly 2 udigit; Lit (u "-"); exactly 2 udigit;
   Lit (u " — "); plus_lazy dot; star uspace; Eol].
Definition group (n : nat) (ms : list text) : text := nth n ms [].
Definition header_version : list text -> text := group 2.
Definition header_title : list text -> text := group 10.

(** [[\d.]+] *)
Definition digits_dots : piece := plus (fun c => udigit c || N.eqb c 46).

Definition quote : N := 34%N.
Definition quoted (s : text) : text := [quote] ++ s ++ [quote].

(** The fixed texts of a pattern are its literals. *)
Definition patterns_for (version title : text) : list (text * regex * text) :=
  let release_url := u "https://github.com/solarssk/ssf-transmitter/releases/tag/v" ++ version in
  let synology := u "docs/synology-authentik-compose.md" in
  let deployment := u "docs/Deployment.md" in
  [ (u "docs/README.md",
     [Lit (u "**Current stable release:** `v"); digits_dots; Lit (u "` — ["); plus_lazy dot;
      Lit (u "](https://github.com/solarssk/ssf-transmitter/releases/tag/v"); digits_dots; Lit (u ")")],
     u "**Current stable release:** `v" ++ version ++ u "` — [" ++ title ++ u "](" ++ release_url ++ u ")");
    (synology,
     [Lit (u "**Current release:** `ghcr.io/solarssk/ssf-transmitter:"); digits_dots; Lit (u "`")],
     u "**Current release:** `ghcr.io/solarssk/ssf-transmitter:" ++ version ++ u "`");
    (synology,
     [Lit (u "`docker.io/solarssk/ssf-transmitter:"); digits_dots; Lit (u "` — same image, public")],
     u "`docker.io/solarssk/ssf-transmitter:" ++ version ++ u "` — same image, public");
    (synology,
     [Lit (u "Swap `image:` to `docker.io/solarssk/ssf-transmitter:"); digits_dots; Lit (u "` for the public")],
     u "Swap `image:` to `docker.io/solarssk/ssf-transmitter:" ++ version ++ u "` for the public");
    (synology,
     [Lit (u "image: ghcr.io/solarssk/ssf-transmitter:"); digits_dots],
     u "image: ghcr.io/solarssk/ssf-transmitter:" ++ version);
    (synology,
     [Lit (u "Pin `"); digits_dots; Lit (u "` in production.")],
     u "Pin `" ++ version ++ u "` in production.");
    (synology,
     [Lit (u "Stable release tags (`v"); digits_dots; Lit (u "`) update the `latest` Docker tag")],
     u "Stable release tags (`v" ++ version ++ u "`) update the `latest` Docker tag");
    (deployment,
     [Lit (u "ghcr.io/solarssk/ssf-transmitter:"); digits_dots; plus (one_of (u " ")); Lit (u "# pinned release")],
     u "ghcr.io/solarssk/ssf-transmitter:" ++ version ++ u "     # pinned release");
    (deployment,
     [Lit (u "docker.io/solarssk/ssf-transmitter:"); digits_dots; plus (one_of (u " "));
      Lit (u "# same image, Docker Hub")],
     u "docker.io/solarssk/ssf-transmitter:" ++ version ++ u "   # same image, Docker Hub");
    (deployment,
     [Lit (u "image: ghcr.io/solarssk/ssf-transmitter:"); digits_dots],
     u "image: ghcr.io/solarssk/ssf-transmitter:" ++ version);
    (deployment,
     [Lit (u "docker.io/solarssk/ssf-transmitter:"); digits_dots; Lit (u "` to pull from Docker Hub")],
     u "docker.io/solarssk/ssf-transmitter:" ++ version ++ u "` to pull from Docker Hub");
    (u "docs/API.md",
     [Lit (quoted (u "version") ++ u ": " ++ [quote]); digits_dots; Lit [quote]],
     quoted (u "version") ++ u ": " ++ quoted version) ].

Context {TL : Toml}.
Variable ROOT : path.
Definition PYPROJECT : path := ROOT ++ [u "pyproject.toml"].
Definition CHANGELOG : path := ROOT ++ [u "CHANGELOG.md"].

Definition read_current_version : M FS text :=
  s ← read_text PYPROJECT;
  data ← liftR (toml_loads s);
  project ← liftR (toml_get data (u "project") (TTable []));
  version ← liftR (toml_get project (u "version") (TStr []));
  match version with
  | TStr v => if fullmatch VERSION_RE v then mret v else raiseM SystemExit
  | _ => raiseM TypeError
  end.

Definition read_title_for (version : text) : M FS text :=
  s ← read_text CHANGELOG;
  match List.find (fun '(_, ms) => bool_decide (header_version ms = version)) (splits HEADER_RE 0 None s).1 with
  | Some (_, ms) => mret (header_title ms)
  | None => raiseM SystemExit
  end.

(** [by_path[k] = v], in a dictionary that keeps the order of insertion. *)
Fixpoint assoc_set {A} (k : text) (v : A) (l : list (text * A)) : list (text * A) :=
  match l with
  | [] => [(k, v)]
  | (k', v') :: l' => if bool_decide (k = k') then (k, v) :: l' else (k', v') :: assoc_set k v l'
  end.

(** [ROOT / rel] *)
Definition doc_path (rel : text) : path := path_div ROOT rel.

(** The texts after the replacements, computed from the files. *)
Fixpoint rewrite_all (patterns : list (text * regex * text)) (by_path : list (text * text))
  : M FS (list (text * text)) :=
  match patterns with
  | [] => mret by_path
  | (rel, pattern, replacement) :: rest =>
      s ← match assoc rel by_path with
          | Some ((_ :: _) as s) => mret s
          | _ => read_text (doc_path rel)
          end;
      match search pattern None s with
      | None => raiseM SystemExit
      | Some _ => rewrite_all rest (assoc_set rel (sub1 pattern replacement s) by_path)
      end
  end.

(** The stale files; they are written unless [check]. *)
Fixpoint update_stale (check : bool) (items : list (text * text)) : M FS (list text) :=
  match items with
  | [] => mret []
  | (rel, updated) :: rest =>
      original ← read_text (doc_path rel);
      if bool_decide (updated = original) then update_stale check rest
      else
        _ ← (if check then mret tt else write_text (doc_path rel) updated);
        stale ← update_stale check rest;
        mret (rel :: stale)
  end.

Definition plan : M FS (list (text * text)) :=
  version ← read_current_version;
  title ← read_title_for version;
  rewrite_all (patterns_for version title) [].

(** The exit status; [argv] are the arguments. *)
Definition main (argv : list text) : M FS Z :=
  let check := bool_decide (u "--check" ∈ argv) in
  by_path ← plan;
  stale ← update_stale check by_path;
  mret (if check && negb (bool_decide (stale = [])) then 1%Z else 0%Z).

(** ** Reference: one document at a time

    The replacements of one document, applied one after the other; [None]
    when one of its places is not found. *)
Definition replacements (rel : text) (patterns : list (text * regex * text)) : list (regex * text) :=
  omap (fun '(rel', r, w) => if bool_decide (rel = rel') then Some (r, w) else None) patterns.

Definition apply1 (s : option text) (p : regex * text) : option text :=
  t ← s; search p.1 None t ≫= fun _ => Some (sub1 p.1 p.2 t).
Definition apply_all (ps : list (regex * text)) (s : text) : option text :=
  fold_left apply1 ps (Some s).

Lemma replacements_app rel a b : replacements rel (a ++ b) = replacements rel a ++ replacements rel b.
Proof. apply omap_app. Qed.

Lemma replacements_one rel rel' r w :
  replacements rel [(rel', r, w)] = if bool_decide (rel = rel') then [(r, w)] else [].
Proof. unfold replacements. simpl. by case_bool_decide. Qed.

Lemma apply_all_snoc ps r w s t :
  apply_all ps s = Some t -> is_Some (search r None t) ->
  apply_all (ps ++ [(r, w)]) s = Some (sub1 r w t).
Proof.
  intros Ht [x Hx]. unfold apply_all in *. rewrite fold_left_app, Ht. simpl. by rewrite Hx.
Qed.

Section assoc.
Context {A : Type}.
Implicit Types l : list (text * A).

Lemma assoc_set_eq k v l : assoc k (assoc_set k v l) = Some v.
Proof.
  induction l as [|[k' v'] l IH]; simpl; [by rewrite bool_decide_eq_true_2|].
  case_bool_decide; simpl; [by rewrite bool_decide_eq_true_2|]. by rewrite bool_decide_eq_false_2.
Qed.

Lemma assoc_set_ne k k' v l : k' <> k -> assoc k' (assoc_set k v l) = assoc k' l.
Proof.
  intros Hk. induction l as [|[k2 v2] l IH]; simpl; [by rewrite bool_decide_eq_false_2|].
  case_bool_decide; simpl; [subst; by rewrite !(bool_decide_eq_false_2 (k' = k2))|]. by case_bool_decide.
Qed.

Lemma assoc_set_keys k v l x : x ∈ map fst (assoc_set k v l) <-> x = k \/ x ∈ map fst l.
Proof.
  induction l as [|[k' v'] l IH]; simpl; [rewrite !list_elem_of_singleton, elem_of_nil; tauto|].
  case_bool_decide; simpl; rewrite !elem_of_cons; [subst; tauto|]. rewrite IH. tauto.
Qed.

Lemma assoc_set_nodup k v l : NoDup (map fst l) -> NoDup (map fst (assoc_set k v l)).
Proof.
  induction l as [|[k' v'] l IH]; simpl; [intros _; apply NoDup_singleton|].
  rewrite NoDup_cons. intros [Hk Hl]. case_bool_decide; simpl; rewrite NoDup_cons; [by subst|].
  split; [|by apply IH]. rewrite assoc_set_keys. naive_solver.
Qed.

Lemma elem_assoc k v l : NoDup (map fst l) -> (k, v) ∈ l <-> assoc k l = Some v.
Proof.
  induction l as [|[k' v'] l IH]; simpl; [intros _; rewrite elem_of_nil; naive_solver|].
  rewrite NoDup_cons. intros [Hk Hl]. rewrite elem_of_cons, IH by done.
  case_bool_decide; [subst|naive_solver]. split; [|intros [= ->]; by left].
  intros [[= ->]|Hv]; [done|]. destruct Hk. apply IH in Hv; [|done].
  apply list_elem_of_fmap. by exists (k', v).
Qed.
End assoc.

(** *** The first pass computes the reference, document by document *)

Definition pass_inv (fs : FS) (did : list (text * regex * text)) (by_path : list (text * text)) : Prop :=
  NoDup (map fst by_path) /\
  forall rel, match assoc rel by_path with
              | None => replacements rel did = []
              | Some t => replacements rel did <> [] /\ t <> []
                  /\ exists c, fs !! doc_path rel = Some (File c)
                     /\ apply_all (replacements rel did) (universal_newlines c) = Some t
              end.

Lemma pass_inv_step fs did by_path rel r w s :
  pass_inv fs did by_path -> w <> [] -> is_Some (search r None s) ->
  (exists c, fs !! doc_path rel = Some (File c)
     /\ apply_all (replacements rel did) (universal_newlines c) = Some s) ->
  pass_inv fs (did ++ [(rel, r, w)]) (assoc_set rel (sub1 r w s) by_path).
Proof.
  intros [Hd Hi] Hw Hs (c & Hc & Ha). split; [by apply assoc_set_nodup|]. intros rel'.
  rewrite replacements_app, replacements_one. destruct (decide (rel' = rel)) as [->|Hne].
  - rewrite assoc_set_eq, bool_decide_eq_true_2 by done. split; [by intros [_ ?]%app_eq_nil|].
    split; [|exists c; split; [done|by apply apply_all_snoc]].
    unfold sub1. destruct Hs as [[[b ms] a] ->]. by intros [_ [? _]%app_eq_nil]%app_eq_nil.
  - rewrite assoc_set_ne, bool_decide_eq_false_2, (right_id_L [] (++)) by done. apply Hi.
Qed.

Lemma rewrite_all_spec fs did patterns by_path out fs' :
  pass_inv fs did by_path -> Forall (fun p => p.2 <> []) patterns ->
  rewrite_all patterns by_path fs = (Ok out, fs') -> fs' = fs /\ pass_inv fs (did ++ patterns) out.
Proof.
  revert did by_path. induction patterns as [|[[rel r] w] patterns IH]; intros did by_path Hi Hw H.
  { injection H as -> ->. by rewrite (right_id_L [] (++)). }
  apply Forall_cons in Hw as [Hw Hws]. cbn [rewrite_all] in H.
  apply run_bind in H as (s & fs1 & Hs & H).
  destruct (search r None s) as [x|] eqn:Hx; [|done].
  assert (Hc : fs1 = fs /\ exists c, fs !! doc_path rel = Some (File c)
     /\ apply_all (replacements rel did) (universal_newlines c) = Some s).
  { destruct Hi as [_ Hi]. specialize (Hi rel). destruct (assoc rel by_path) as [[|d t]|]; [naive_solver| |].
    - injection Hs as <- <-. split; [done|]. apply Hi.
    - apply run_read in Hs as (-> & c & Hc & ->). split; [done|]. exists c. by rewrite Hi. }
  destruct Hc as [-> Hc].
  change ((rel, r, w) :: patterns) with ([(rel, r, w)] ++ patterns). rewrite (assoc_L (++)).
  eapply IH; [|done|exact H]. by apply pass_inv_step.
Qed.

(** *** The second pass *)

(** The documents whose text is not what it is to be. *)
Definition stale_of (fs : FS) (items : list (text * text)) : list text :=
  omap (fun '(rel, updated) =>
    match fs !! doc_path rel with
    | Some (File c) => if bool_decide (updated = universal_newlines c) then None else Some rel
    | _ => None
    end) items.

Lemma stale_of_ext fs1 fs2 items :
  (forall k, k ∈ map fst items -> fs1 !! doc_path k = fs2 !! doc_path k) -> stale_of fs1 items = stale_of fs2 items.
Proof.
  induction items as [|[rel up] items IH]; intros H; [done|]. unfold stale_of. cbn [omap list_omap].
  rewrite (H rel) by left. fold (stale_of fs1 items) (stale_of fs2 items).
  rewrite IH; [done|]. intros k Hk. apply H. by right.
Qed.

Lemma stale_of_elem fs items rel :
  rel ∈ stale_of fs items ->
  exists up c, (rel, up) ∈ items /\ fs !! doc_path rel = Some (File c) /\ up <> universal_newlines c.
Proof.
  intros ([k up] & Hin & H)%list_elem_of_omap.
  destruct (fs !! doc_path k) as [[|c|]|] eqn:Hc; try done.
  case_bool_decide; [done|]. injection H as <-. by exists up, c.
Qed.

Definition readable (fs : FS) (items : list (text * text)) : Prop :=
  Forall (fun '(rel, _) => exists c, fs !! doc_path rel = Some (File c)) items.

Lemma update_check fs items :
  readable fs items -> update_stale true items fs = (Ok (stale_of fs items), fs).
Proof.
  induction items as [|[rel up] items IH]; intros Hr; [done|].
  apply Forall_cons in Hr as [(c & Hc) Hr]. cbn [update_stale].
  unfold stale_of. cbn [omap list_omap]. unfold mbind at 1, M_bind, read_text. rewrite Hc.
  case_bool_decide; [by apply IH|]. unfold mbind, M_bind, mret at 1, M_ret. by rewrite IH.
Qed.

Lemma update_reads items : reads (update_stale true items).
Proof.
  induction items as [|[rel up] items IH]; cbn [update_stale]; auto 8 with files.
Qed.

Definition item_path (items : list (text * text)) (p : path) : Prop :=
  exists rel, rel ∈ map fst items /\ p = doc_path rel.

Lemma update_writes check items : writes_only (item_path items) (update_stale check items).
Proof.
  induction items as [|[rel up] items IH]; [apply writes_only_ret|]. cbn [update_stale].
  assert (Hp : item_path ((rel, up) :: items) (doc_path rel)) by (exists rel; split; [left|done]).
  assert (Hrest : writes_only (item_path ((rel, up) :: items)) (update_stale check items)).
  { eapply writes_only_mono, IH. intros p (x & Hx & ->). exists x. split; [by right|done]. }
  auto 9 with files.
Qed.

(** What the file of an item holds afterwards. *)
Definition settled (fs fs' : FS) (item : text * text) : Prop :=
  exists c, fs !! doc_path item.1 = Some (File c)
    /\ fs' !! doc_path item.1 =
       Some (File (if bool_decide (item.2 = universal_newlines c) then c else item.2)).

Lemma update_write fs items stale fs' :
  NoDup (map doc_path (map fst items)) -> readable fs items ->
  update_stale false items fs = (Ok stale, fs') ->
  stale = stale_of fs items /\ (stale = [] -> fs' = fs) /\ Forall (settled fs fs') items.
Proof.
  revert fs stale. induction items as [|[rel up] items IH]; intros fs stale Hd Hr H.
  { injection H as <- <-. by repeat split. }
  cbn [map fst] in Hd. apply NoDup_cons in Hd as [Hnew Hd].
  apply Forall_cons in Hr as [(c & Hc) Hr]. cbn [update_stale] in H.
  assert (Hother : forall m fs0 x, update_stale false items fs0 = (m, x) -> x !! doc_path rel = fs0 !! doc_path rel).
  { intros m fs0 x E. change x with (m, x).2. rewrite <- E. apply update_writes.
    intros (k & Hk & E'). destruct Hnew. rewrite E'. by apply list_elem_of_fmap_2. }
  apply run_bind in H as (s & fs1 & Hs & H). apply run_read in Hs as (-> & c' & Hc' & ->).
  assert (c' = c) as -> by congruence.
  unfold stale_of. cbn [omap list_omap]. rewrite Hc. case_bool_decide as Heq.
  - destruct (IH _ _ Hd Hr H) as (-> & Hnil & Hf). split; [done|]. split; [done|]. constructor; [|done].
    exists c. cbn [fst snd]. rewrite bool_decide_eq_true_2 by done. split; [done|]. by rewrite (Hother _ _ _ H).
  - apply run_bind in H as ([] & fs1 & Hw & H). apply run_write in Hw as ->.
    apply run_bind in H as (stale' & fs2 & H & Hret). injection Hret as <- ->.
    assert (Hsame : forall k, k ∈ map fst items -> (<[doc_path rel := File up]> fs) !! doc_path k = fs !! doc_path k).
    { intros k Hk. apply lookup_insert_ne. intros E. destruct Hnew. rewrite E. by apply list_elem_of_fmap_2. }
    assert (Hkey : forall e, e ∈ items -> e.1 ∈ map fst items) by (intros e He; by apply list_elem_of_fmap_2).
    destruct (IH (<[doc_path rel := File up]> fs) stale' Hd) as (-> & _ & Hf); [|done|].
    { unfold readable in *. rewrite Forall_forall in Hr |- *. intros [k x] Hk. rewrite (Hsame k (Hkey _ Hk)).
      exact (Hr _ Hk). }
    split; [|split; [done|]].
    + f_equal. by apply stale_of_ext.
    + constructor.
      * exists c. cbn [fst snd]. rewrite bool_decide_eq_false_2 by done. split; [done|].
        rewrite (Hother _ _ _ H). apply lookup_insert_eq.
      * rewrite Forall_forall in Hf |- *. intros e He. destruct (Hf e He) as (c2 & H1 & H2).
        exists c2. split; [|done]. by rewrite <- (Hsame _ (Hkey _ He)).
Qed.

(** ** Whole runs *)

Definition documents : list text :=
  [u "docs/README.md"; u "docs/synology-authentik-compose.md"; u "docs/Deployment.md"; u "docs/API.md"].

Lemma patterns_documents v t : Forall (fun p => p.1.1 ∈ documents) (patterns_for v t).
Proof.
  apply (Forall_fmap (fun p : text * regex * text => p.1.1) (fun rel => rel ∈ documents)).
  apply (bool_decide_unpack _). vm_compute. exact I.
Qed.

Lemma patterns_nonempty v t : Forall (fun p => p.2 <> []) (patterns_for v t).
Proof. unfold patterns_for. repeat constructor; cbn [snd]; intros E; vm_compute in E; discriminate E. Qed.

Lemma documents_patterned v t rel : rel ∈ documents -> replacements rel (patterns_for v t) <> [].
Proof.
  intros Hrel. unfold documents in Hrel.
  repeat (apply elem_of_cons in Hrel as [->|Hrel]; [intros E; apply (f_equal length) in E; vm_compute in E; done|]).
  by apply elem_of_nil in Hrel.
Qed.

Lemma replacements_empty rel ps : (forall p, p ∈ ps -> p.1.1 <> rel) -> replacements rel ps = [].
Proof.
  induction ps as [|[[k r] w] ps IH]; intros H; [done|]. unfold replacements. cbn [omap list_omap].
  rewrite bool_decide_eq_false_2 by (intros <-; by eapply (H (rel, r, w)); [left|]).
  apply IH. intros p Hp. apply H. by right.
Qed.

Lemma doc_path_inj a b : a ∈ documents -> b ∈ documents -> doc_path a = doc_path b -> a = b.
Proof.
  assert (Hall : Forall (fun a => (parse_path a).1 = false
    /\ Forall (fun b => (parse_path a).2 = (parse_path b).2 -> a = b) documents) documents).
  { apply (bool_decide_unpack _). vm_compute. exact I. }
  rewrite Forall_forall in Hall. intros Ha Hb. destruct (Hall _ Ha) as [Ea Hab].
  destruct (Hall _ Hb) as [Eb _]. rewrite Forall_forall in Hab. unfold doc_path, path_div.
  destruct (parse_path a) as [? pa] eqn:Pa, (parse_path b) as [? pb] eqn:Pb. cbn [fst snd] in *. subst.
  intros E%app_inv_head. apply (Hab b); [done|]. by rewrite Pb.
Qed.

(** The release the repository is at. *)
Definition current_release (fs : FS) (version title : text) : Prop :=
  read_current_version fs = (Ok version, fs) /\ read_title_for version fs = (Ok title, fs).

Lemma read_current_version_reads : reads read_current_version.
Proof.
  unfold read_current_version. repeat (apply reads_bind; [auto with files|intros ?]).
  match goal with |- reads (match ?v with _ => _ end) => destruct v end; auto with files.
Qed.

Lemma read_title_for_reads v : reads (read_title_for v).
Proof.
  unfold read_title_for. apply reads_bind; [auto with files|intros ?].
  destruct (List.find _ _) as [[]|]; auto with files.
Qed.

Lemma rewrite_all_reads ps by_path : reads (rewrite_all ps by_path).
Proof.
  revert by_path. induction ps as [|[[rel r] w] ps IH]; intros by_path; cbn [rewrite_all]; [auto with files|].
  apply reads_bind; [destruct (assoc _ _) as [[]|]; auto with files|].
  intros s. destruct (search _ _ _); auto with files.
Qed.

Lemma plan_reads : reads plan.
Proof.
  unfold plan. apply reads_bind; [apply read_current_version_reads|]. intros v.
  apply reads_bind; [apply read_title_for_reads|]. intros t. apply rewrite_all_reads.
Qed.

(** What the first pass found and computed. *)
Lemma plan_spec fs by_path fs' :
  plan fs = (Ok by_path, fs') ->
  fs' = fs /\ exists v t, current_release fs v t /\ pass_inv fs (patterns_for v t) by_path.
Proof.
  intros H. pose proof (plan_reads fs) as Hfs. rewrite H in Hfs. cbn [snd] in Hfs. subst fs'.
  split; [done|]. apply run_bind in H as (v & fs1 & Hv & H).
  pose proof (read_current_version_reads fs) as E. rewrite Hv in E. cbn [snd] in E. subst fs1.
  apply run_bind in H as (t & fs1 & Ht & H).
  pose proof (read_title_for_reads v fs) as E. rewrite Ht in E. cbn [snd] in E. subst fs1.
  exists v, t. split; [done|].
  apply (rewrite_all_spec fs [] _ []) in H as [_ Hi]; [done| |apply patterns_nonempty].
  split; [constructor|]. by intros rel.
Qed.

(** The planned texts are those of the documents. *)
Lemma pass_items fs v t by_path :
  pass_inv fs (patterns_for v t) by_path ->
  NoDup (map doc_path (map fst by_path)) /\ readable fs by_path
  /\ (forall rel, rel ∈ map fst by_path <-> rel ∈ documents).
Proof.
  intros [Hd Hi].
  assert (Hdoc : forall rel s, assoc rel by_path = Some s -> rel ∈ documents).
  { intros rel s Hs. specialize (Hi rel). rewrite Hs in Hi. destruct Hi as (Hne & _).
    destruct (decide (rel ∈ documents)) as [|Hn]; [done|]. destruct Hne. apply replacements_empty.
    intros p Hp <-. pose proof (patterns_documents v t) as Hall. rewrite Forall_forall in Hall. by apply Hn, Hall. }
  assert (Hkeys : forall rel, rel ∈ map fst by_path <-> rel ∈ documents).
  { intros rel. split.
    - intros ([k s] & -> & Hk)%list_elem_of_fmap. apply elem_assoc in Hk; [by eapply Hdoc|done].
    - intros Hrel. specialize (Hi rel). destruct (assoc rel by_path) as [s|] eqn:Hs.
      + apply elem_assoc in Hs; [|done]. apply list_elem_of_fmap. by exists (rel, s).
      + by apply (documents_patterned v t) in Hrel. }
  split; [|split; [|done]].
  - apply NoDup_fmap_2_strong; [|done]. intros a b Ha Hb. apply doc_path_inj; by apply Hkeys.
  - apply Forall_forall. intros [rel s] Hin. apply elem_assoc in Hin; [|done].
    specialize (Hi rel). rewrite Hin in Hi. destruct Hi as (_ & _ & c & Hc & _). by exists c.
Qed.

(** C39: the release documentation is synchronised.  [--check] never changes
    a file, whatever happens.  A run without it that ends normally reports
    success; it changes the four documents and no other file, and each of
    them becomes its old text with the replacements for the current release
    applied one after the other, untouched when that changes nothing; and
    [--check] would have reported, before, exactly whether there was
    something to change. *)
Theorem sync_release_docs fs :
  (main [u "--check"] fs).2 = fs
  /\ forall n fs', main [] fs = (Ok n, fs') ->
     n = 0%Z /\ exists v t, current_release fs v t
     /\ (forall p, (forall rel, rel ∈ documents -> p <> doc_path rel) -> fs' !! p = fs !! p)
     /\ Forall (fun rel => exists c s, fs !! doc_path rel = Some (File c)
          /\ apply_all (replacements rel (patterns_for v t)) (universal_newlines c) = Some s
          /\ fs' !! doc_path rel = Some (File (if bool_decide (s = universal_newlines c) then c else s))) documents
     /\ ((main [u "--check"] fs = (Ok 0%Z, fs) /\ fs' = fs)
         \/ (main [u "--check"] fs = (Ok 1%Z, fs)
            /\ Exists (fun rel => exists c s, fs !! doc_path rel = Some (File c)
                 /\ fs' !! doc_path rel = Some (File s) /\ s <> universal_newlines c) documents)).
Proof.
  unfold main. rewrite (bool_decide_eq_true_2 (u "--check" ∈ _)) by left.
  rewrite (bool_decide_eq_false_2 (u "--check" ∈ [])) by apply not_elem_of_nil. split.
  { apply reads_bind; [apply plan_reads|]. intros out. apply reads_bind; [apply update_reads|].
    intros stale. apply reads_ret. }
  intros n fs' H. apply run_bind in H as (out & fs1 & Hplan & H).
  destruct (plan_spec _ _ _ Hplan) as (-> & v & t & Hcur & Hi).
  destruct (pass_items _ _ _ _ Hi) as (Hd & Hr & Hkeys).
  apply run_bind in H as (stale & fs1 & Hup & Hret). injection Hret as <- <-.
  split; [done|]. exists v, t. split; [done|].
  assert (Hcheck : forall s, s = stale_of fs out -> s = stale ->
    (plan ≫= fun by_path => update_stale true by_path ≫= fun st =>
       mret (if true && negb (bool_decide (st = [])) then 1%Z else 0%Z)) fs
    = (Ok (if negb (bool_decide (stale = [])) then 1%Z else 0%Z), fs)).
  { intros s -> <-. unfold mbind, M_bind. by rewrite Hplan, (update_check fs out Hr). }
  destruct (update_write _ _ _ _ Hd Hr Hup) as (Hstale & Hnil & Hset).
  specialize (Hcheck _ eq_refl (eq_sym Hstale)). rewrite Forall_forall in Hset.
  assert (Hdocs : forall rel, rel ∈ documents -> exists c s, (rel, s) ∈ out
     /\ fs !! doc_path rel = Some (File c)
     /\ apply_all (replacements rel (patterns_for v t)) (universal_newlines c) = Some s
     /\ fs1 !! doc_path rel = Some (File (if bool_decide (s = universal_newlines c) then c else s))).
  { intros rel Hrel. apply Hkeys, list_elem_of_fmap in Hrel as ([k s] & -> & Hin). cbn [fst].
    destruct (Hset _ Hin) as (c & Hc & Hc'). cbn [fst snd] in Hc, Hc'. destruct Hi as [Hdd Hi]. specialize (Hi k).
    rewrite (proj1 (elem_assoc _ _ _ Hdd) Hin) in Hi. destruct Hi as (_ & _ & c2 & Hc2 & Ha).
    exists c, s. assert (c2 = c) as -> by congruence. done. }
  split; [|split].
  - intros p Hp. change fs1 with (Ok stale, fs1).2. rewrite <- Hup. apply update_writes.
    intros (rel & Hrel & ->). by apply (Hp rel); [apply Hkeys|].
  - apply Forall_forall. intros rel Hrel. destruct (Hdocs rel Hrel) as (c & s & _ & ?). by exists c, s.
  - case_bool_decide as Hst; [left; by rewrite Hnil|right]. split; [done|].
    destruct stale as [|rel stale]; [done|].
    destruct (stale_of_elem fs out rel) as (up & c & Hin & Hc & Hne); [rewrite <- Hstale; left|].
    destruct (Hset _ Hin) as (c' & Hc1 & Hc2). cbn [fst snd] in *.
    assert (c' = c) as -> by congruence. rewrite bool_decide_eq_false_2 in Hc2 by done.
    apply Exists_exists. exists rel. split; [|by exists c, up].
    apply Hkeys, list_elem_of_fmap. by exists (rel, up).
Qed.
End scripts.

(** ** A repository before a release *)

Definition demo_root : path := [u "repo"].
#[local] Instance demo_unicode : UnicodeData := {| decimal _ := false |}.
#[local] Instance demo_toml : Toml := {|
  toml_loads s := Ok (TTable [(u "project", TTable [(u "version", TStr (tstrip s))])])
|}.

Definition stale_doc (version title : text) : list (text * text) :=
  [(u "pyproject.toml", u "1.2.10
"); (u "CHANGELOG.md", u "# Changelog

## [Unreleased]

## [1.2.10] — 2026-11-05 — Fix `a[0]`: [x](y)   

- text

## [1.2.9] — 2026-10-01 — Older
");
   (u "docs/README.md", u "# Docs

**Current stable release:** `v" ++ version ++ u "` — [" ++ title
   ++ u "](https://github.com/solarssk/ssf-transmitter/releases/tag/v" ++ version ++ u ")
");
   (u "docs/synology-authentik-compose.md",
    u "**Current release:** `ghcr.io/solarssk/ssf-transmitter:" ++ version
    ++ u "`
- `docker.io/solarssk/ssf-transmitter:" ++ version ++ u "` — same image, public
Swap `image:` to `docker.io/solarssk/ssf-transmitter:" ++ version ++ u "` for the public one
image: ghcr.io/solarssk/ssf-transmitter:" ++ version ++ u "
Pin `" ++ version ++ u "` in production.
Stable release tags (`v" ++ version ++ u "`) update the `latest` Docker tag
");
   (u "docs/Deployment.md",
    u "ghcr.io/solarssk/ssf-transmitter:" ++ version ++ u "     # pinned release
docker.io/solarssk/ssf-transmitter:" ++ version ++ u "   # same image, Docker Hub
image: ghcr.io/solarssk/ssf-transmitter:" ++ version ++ u "
`docker.io/solarssk/ssf-transmitter:" ++ version ++ u "` to pull from Docker Hub
");
   (u "docs/API.md", u "{" ++ quoted (u "version") ++ u ": " ++ quoted version ++ u "}
")].

Definition demo_repo (version title : text) : FS :=
  list_to_map (map (fun '(k, s) => (path_div demo_root k, File s)) (stale_doc version title)
               ++ [(demo_root, Dir); (demo_root ++ [u "docs"], Dir)]).

Definition demo_before : FS := demo_repo (u "1.2.9") (u "Older").
Definition demo_after : FS := demo_repo (u "1.2.10") (u "Fix `a[0]`: [x](y)").

Example check_demo : main demo_root [u "--check"] demo_before = (Ok 1%Z, demo_before).
Proof. apply (bool_decide_unpack _). vm_compute. exact I. Qed.
Example update_demo : main demo_root [] demo_before = (Ok 0%Z, demo_after).
Proof. apply (bool_decide_unpack _). vm_compute. exact I. Qed.
Example update_again_demo : main demo_root [u "--check"] demo_after = (Ok 0%Z, demo_after).
Proof. apply (bool_decide_unpack _). vm_compute. exact I. Qed.

Lemma demo_changed : demo_after <> demo_before.
Proof. apply (bool_decide_unpack _). vm_compute. exact I. Qed.

Lemma sync_release_docs_witness :
  main demo_root [] demo_before = (Ok 0%Z, demo_after)
  /\ main demo_root [u "--check"] demo_before = (Ok 1%Z, demo_before)
  /\ exists v t, current_release demo_root demo_before v t.
Proof.
  split; [exact update_demo|].
  destruct (sync_release_docs demo_root demo_before) as [_ H].
  destruct (H _ _ update_demo) as (_ & v & t & Hc & _ & _ & [[_ E]|[H1 _]]).
  - destruct (demo_changed E).
  - split; [exact H1|]. exists v, t. exact Hc.
Defined.
