(* ===== verification/ReleaseNotes.v ===== *)
(** * Release notes ([scripts/generate-release-notes.py])

    The entry of a version in the changelog, and the file of release notes
    made from it.  What the script prints is not modelled. *)
From Stdlib Require Import NArith Lia String.
From stdpp Require Import base option list gmap.
From S2P Require Import Prelude PyText PyRe ReleaseDocs.

Open Scope list_scope.

Section notes.
Context {UD : UnicodeData}.
Variable ROOT : path.

(** [^## \[[^\]]+\].*$] under [re.M] *)
Definition SECTION_RE : regex :=
  [Bol; Lit (u "## ["); plus (none_of (u "]")); Lit (u "]"); star dot; Eol].

(** [^## \[([^\]]+)\] — (\d{4}-\d{2}-\d{2}) — (.+?)\s*$] under [re.M] *)
Definition HEADER_RE : regex :=
  [Bol; Lit (u "## ["); plus (none_of (u "]")); Lit (u "] — ");
   exactly 4 udigit; Lit (u "-"); exactly 2 udigit; Lit (u "-"); exactly 2 udigit;
   Lit (u " — "); plus_lazy dot; star uspace; Eol].
Definition header_date (ms : list text) : text := concat (take 5 (drop 4 ms)).

(** [\n*-{3,}\s*$] *)
Definition DIVIDER_RE : regex :=
  [star (one_of [newline]); at_least 3 (one_of (u "-")); star uspace; Eos].

(** [m.start()], the groups and [m.end()] of every match. *)
Fixpoint positions (i : nat) (l : list (text * list text)) : list (nat * list text * nat) :=
  match l with
  | [] => []
  | (b, ms) :: l' =>
      let start := (i + length b)%nat in
      let stop := (start + length (concat ms))%nat in
      (start, ms, stop) :: positions stop l'
  end.
Definition finditer (r : regex) (s : text) : list (nat * list text * nat) :=
  positions 0 (splits r 0 None s).1.

(** [s[i:j]] *)
Definition slice (i j : nat) (s : text) : text := take (j - i) (drop i s).

(** The body of a section without white space around it and without the
    divider at its end. *)
Definition clean (raw : text) : text := trstrip (remove DIVIDER_RE (tstrip raw)).

Definition section : Type := text * text * text.

Definition add_section (s : text) (boundaries : list nat) (sections : list (text * section))
    (m : nat * list text * nat) : list (text * section) :=
  let '(m_start, ms, m_end) := m in
  let stop := default (length s) (List.find (fun b => m_start <? b)%nat boundaries) in
  assoc_set (header_version ms) (header_date ms, header_title ms, clean (slice m_end stop s)) sections.

Definition parse_sections (s : text) : list (text * section) :=
  let boundaries := map (fun '(m_start, _, _) => m_start) (finditer SECTION_RE s) in
  fold_left (add_section s boundaries) (finditer HEADER_RE s) [].

Definition deploy_footer (version : text) : text :=
  u "---

### Deploy

- `ghcr.io/solarssk/ssf-transmitter:" ++ version ++ u "` / `docker.io/solarssk/ssf-transmitter:" ++ version
  ++ u "` — same image, both registries, `linux/amd64` and `linux/arm64`
- Upgrade notes: [docs/Upgrading.md](https://github.com/solarssk/ssf-transmitter/blob/main/docs/Upgrading.md)
".

Definition OUT_DIR : path := ROOT ++ [u ".github"; u "release-notes"].

(** The exit status; [argv] are the arguments. *)
Definition main (argv : list text) : M FS Z :=
  match argv with
  | [arg] =>
      let version := tremoveprefix (u "v") arg in
      if negb (fullmatch VERSION_RE version) then mret 1%Z
      else
        changelog ← read_text (CHANGELOG ROOT);
        match assoc version (parse_sections changelog) with
        | None => mret 1%Z
        | Some (_, _, body) =>
            if bool_decide (body = []) then mret 1%Z
            else
              _ ← mkdir_parents OUT_DIR;
              _ ← write_text (OUT_DIR ++ [u "v" ++ version ++ u ".md"])
                    (body ++ [newline; newline] ++ deploy_footer version);
              mret 0%Z
        end
  | _ => mret 1%Z
  end.

(** ** Changelogs as lists of entries *)

Inductive heading := Plain | Dated (date : text) | Titled (date title : text).
Record entry := { e_version : text; e_heading : heading; e_block : text }.

Definition dash : text := u " — ".
Definition heading_tail (h : heading) : text :=
  match h with
  | Plain => []
  | Dated d => dash ++ d
  | Titled d t => dash ++ d ++ dash ++ t
  end.
Definition heading_line (e : entry) : text := u "## [" ++ e_version e ++ u "]" ++ heading_tail (e_heading e).
Definition render_entry (e : entry) : text := heading_line e ++ newline :: e_block e.
Definition render (es : list entry) : text := concat (map render_entry es).

Definition is_run (p : N -> bool) (s : text) : Prop := Forall (fun c => p c = true) s.
Definition date_ok (d : text) : Prop :=
  exists y m dd, d = y ++ u "-" ++ m ++ u "-" ++ dd /\ length y = 4%nat /\ length m = 2%nat /\ length dd = 2%nat
    /\ is_run udigit y /\ is_run udigit m /\ is_run udigit dd.
Definition title_ok (t : text) : Prop :=
  exists t' c, t = t' ++ [c] /\ uspace c = false /\ newline ∉ t.
Definition heading_ok (h : heading) : Prop :=
  match h with
  | Plain => True
  | Dated d => date_ok d
  | Titled d t => date_ok d /\ title_ok t
  end.
Definition version_ok (v : text) : Prop := v <> [] /\ 93%N ∉ v /\ newline ∉ v.

(** No line of [b] starts a section, and [b] consists of whole lines. *)
Definition block_ok (b : text) : Prop :=
  at_bol (after (Some newline) b) = true /\
  forall x y, b = x ++ u "## [" ++ y -> at_bol (after (Some newline) x) = false.
Definition entry_ok (e : entry) : Prop :=
  version_ok (e_version e) /\ heading_ok (e_heading e) /\ block_ok (e_block e).

(** *** Where the patterns cannot match *)

Definition calm (prev : option N) (b s : text) : Prop :=
  forall b1 c b2, b = b1 ++ c :: b2 -> at_bol (after prev b1) = true ->
  cut_prefix (u "## [") (c :: b2 ++ s) = None.

Lemma calm_no_match r prev b s : calm prev b s -> no_match (Bol :: Lit (u "## [") :: r) prev b s.
Proof.
  intros Hb b1 c b2 E. cbn [match_at]. destruct (at_bol _) eqn:Hbol; [|done].
  by rewrite (Hb _ _ _ E Hbol).
Qed.

Lemma calm_app prev a b s : calm prev a (b ++ s) -> calm (after prev a) b s -> calm prev (a ++ b) s.
Proof.
  intros Ha Hb b1 c b2 E Hbol. apply app_eq_inv in E as [(k & -> & E)|(k & -> & E)].
  - destruct k as [|d k]; simplify_eq/=.
    + rewrite (right_id_L [] (++)) in *. apply (Hb [] c b2 eq_refl). by change (after _ []) with (after prev b1).
    + pose proof (Ha b1 d k eq_refl Hbol) as H. by rewrite <- (assoc_L (++)).
  - apply (Hb k c b2 E). by rewrite <- after_app.
Qed.

Lemma calm_suffix prev a b s : calm prev (a ++ b) s -> calm (after prev a) b s.
Proof.
  intros H b1 c b2 -> Hbol. apply (H (a ++ b1) c b2); [by rewrite (assoc_L (++))|]. by rewrite after_app.
Qed.

Lemma at_bol_after prev x : at_bol prev = true -> at_bol (after prev x) = at_bol (after (Some newline) x).
Proof. unfold after. by destruct (last x). Qed.

Lemma calm_block prev b s : at_bol prev = true -> block_ok b -> calm prev b s.
Proof.
  intros Hp [Hend Hb] b1 c b2 -> Hbol. rewrite at_bol_after in Hbol by done.
  destruct (cut_prefix _ _) as [y|] eqn:E; [exfalso|done]. apply cut_prefix_spec in E.
  rewrite after_app in Hend.
  destruct b2 as [|c1 [|c2 [|c3 b2]]]; [| | |by rewrite (Hb b1 b2) in Hbol; simplify_eq/=];
    simpl in E; injection E; intros; subst; done.
Qed.

Lemma calm_line c l s : newline ∉ c :: l -> calm (Some c) l s.
Proof.
  intros Hn b1 d b2 -> Hbol. exfalso. unfold after in Hbol.
  destruct (last b1) as [e|] eqn:El; simpl in Hbol; apply N.eqb_eq in Hbol; subst; apply Hn; [|left].
  right. apply elem_of_app. left. by apply last_Some_elem_of.
Qed.

Lemma calm_newline prev s : calm prev [newline] s.
Proof. intros [|? [|]] c b2 [= <- <-] _; done. Qed.

(** *** What a match of a heading is *)

Lemma none_of_bracket v : 93%N ∉ v <-> is_run (none_of (u "]")) v.
Proof.
  unfold is_run. rewrite Forall_forall. unfold none_of. change (u "]") with [93%N]. simpl.
  split.
  - intros H c Hc. rewrite orb_false_r. destruct (N.eqb_spec c 93); [by subst|done].
  - intros H Hc. by specialize (H _ Hc).
Qed.

Lemma dot_run t : newline ∉ t <-> is_run dot t.
Proof.
  unfold is_run, dot. rewrite Forall_forall. unfold none_of. simpl. split.
  - intros H c Hc. rewrite orb_false_r. destruct (N.eqb_spec c newline); [by subst|done].
  - intros H Hc. by specialize (H _ Hc).
Qed.

Lemma header_sound prev s ms :
  match_at HEADER_RE prev s = Some ms ->
  exists v y m dd t w rest,
    ms = [[]; u "## ["; v; u "] — "; y; u "-"; m; u "-"; dd; dash; t; w; []]
    /\ s = u "## [" ++ v ++ u "]" ++ dash ++ y ++ u "-" ++ m ++ u "-" ++ dd ++ dash ++ t ++ w ++ rest
    /\ 93%N ∉ v /\ length y = 4%nat /\ length m = 2%nat /\ length dd = 2%nat
    /\ t <> [] /\ newline ∉ t /\ is_run uspace w /\ at_eol rest = true.
Proof.
  intros (rest & -> & Ha)%match_at_sound.
  do 13 (destruct ms as [|? ms]; [naive_solver|]). destruct ms as [|]; [|naive_solver].
  cbn [accepts HEADER_RE fits plus exactly plus_lazy star] in Ha.
  destruct Ha as ([-> _] & -> & (_ & _ & Hv) & -> & (Hy1 & Hy2 & _) & -> & (Hm1 & Hm2 & _) & -> & (Hd1 & Hd2 & _)
    & -> & (Ht & _ & Htr) & (_ & _ & Hw) & [-> He] & _).
  do 7 eexists. split; [reflexivity|]. split; [|split_and!; try eassumption].
  - cbn [concat]. by rewrite <- !(assoc_L (++)).
  - by apply none_of_bracket.
  - lia.
  - lia.
  - lia.
  - intros ->. simpl in Ht. lia.
  - by apply dot_run.
Qed.

Lemma bracket_unique v v' s t :
  93%N ∉ v -> 93%N ∉ v' -> v ++ u "]" ++ s = v' ++ u "]" ++ t -> v = v' /\ s = t.
Proof.
  intros Hv Hv' E. destruct (run_unique (none_of (u "]")) v v' (u "]" ++ s) (u "]" ++ t)) as [-> E'];
    [by apply none_of_bracket..|done|done|done|]. by injection E' as ->.
Qed.

Lemma line_unique a b s t :
  newline ∉ a -> newline ∉ b -> at_eol s = true -> at_eol t = true -> a ++ s = b ++ t -> a = b /\ s = t.
Proof.
  intros Ha Hb Hs Ht E.
  assert (Heol : forall x : text, at_eol x = true -> match x with c :: _ => dot c = false | [] => True end).
  { intros [|c x] Hx; [done|]. simpl in Hx. apply N.eqb_eq in Hx as ->. done. }
  apply (run_unique dot); [by apply dot_run..|by apply Heol|by apply Heol|done].
Qed.

Lemma date_split d y m dd s t :
  date_ok d -> length y = 4%nat -> length m = 2%nat -> length dd = 2%nat ->
  d ++ s = y ++ u "-" ++ m ++ u "-" ++ dd ++ t -> d = y ++ u "-" ++ m ++ u "-" ++ dd /\ s = t.
Proof.
  intros (y' & m' & dd' & -> & Hy' & Hm' & Hd' & _) Hy Hm Hd E.
  rewrite <- !app_assoc in E. apply app_inj_1 in E as [-> E]; [|by rewrite Hy'].
  apply app_inj_1 in E as [_ E]; [|done]. apply app_inj_1 in E as [-> E]; [|by rewrite Hm'].
  apply app_inj_1 in E as [_ E]; [|done]. by apply app_inj_1 in E as [-> ->]; [|rewrite Hd'].
Qed.

Lemma dash_head s t : newline :: s <> dash ++ t.
Proof. done. Qed.

(** An untitled heading is no release. *)
Lemma untitled_no_match prev e s :
  version_ok (e_version e) -> heading_ok (e_heading e) ->
  match e_heading e with Titled _ _ => False | _ => True end ->
  match_at HEADER_RE prev (heading_line e ++ newline :: s) = None.
Proof.
  intros (_ & Hv & _) Hh Hu. destruct (match_at _ _ _) as [ms|] eqn:Hm; [exfalso|done].
  apply header_sound in Hm as (v & y & m & dd & t & w & rest & _ & E & Hv' & Hy & Hmm & Hdd & _).
  unfold heading_line in E. rewrite <- !app_assoc in E. apply app_inv_head in E.
  apply bracket_unique in E as [_ E]; [|done|done].
  destruct (e_heading e) as [|d|]; cbn [heading_tail] in E; [by destruct (dash_head _ _ E)| |done].
  rewrite <- app_assoc in E. apply app_inv_head in E.
  apply date_split in E as [_ E]; [|done..]. by destruct (dash_head _ _ E).
Qed.

(** White space before the end of a line cannot follow the beginning of a
    title and stop inside it. *)
Lemma title_unique t t' w rest s :
  title_ok t -> newline ∉ t' -> is_run uspace w -> at_eol rest = true ->
  t' ++ w ++ rest = t ++ newline :: s -> t' = t /\ w ++ rest = newline :: s.
Proof.
  intros (t0 & c & -> & Hc & Hn) Hn' Hw Hr E.
  apply app_eq_inv in E as [(k & -> & E)|(k & E1 & E)].
  - destruct k as [|d k]; [by rewrite (right_id_L [] (++))|]. injection E as <- E. set_solver.
  - destruct k as [|d k]; [rewrite (right_id_L [] (++)) in E1; by subst|exfalso].
    assert (Hlast : last (d :: k) = Some c).
    { apply (f_equal last) in E1. rewrite last_snoc, last_app in E1. by destruct (last (d :: k)) eqn:Ek; [congruence|apply last_None in Ek]. }
    apply app_eq_inv in E as [(k' & -> & E)|(k' & E2 & E)].
    + (* the white space goes beyond the title *)
      unfold is_run in Hw. rewrite Forall_forall in Hw.
      rewrite (Hw c) in Hc; [done|]. apply elem_of_app. left. by apply last_Some_elem_of.
    + destruct k' as [|e k'].
      * rewrite (right_id_L [] (++)) in E2. subst w.
        unfold is_run in Hw. rewrite Forall_forall in Hw.
        rewrite (Hw c) in Hc; [done|]. by apply last_Some_elem_of.
      * subst rest. simpl in Hr. apply N.eqb_eq in Hr as ->. apply Hn. rewrite E1, E2. set_solver.
Qed.

Lemma digits_line s : is_run udigit s -> newline ∉ s.
Proof. unfold is_run. rewrite Forall_forall. intros H Hn. by specialize (H _ Hn). Qed.

Lemma not_in_app (c : N) (a b : text) : c ∉ a -> c ∉ b -> c ∉ a ++ b.
Proof. rewrite elem_of_app. tauto. Qed.

Lemma date_line d : date_ok d -> newline ∉ d.
Proof.
  intros (y & m & dd & -> & _ & _ & _ & ?%digits_line & ?%digits_line & ?%digits_line).
  repeat apply not_in_app; try done; apply (bool_decide_unpack _); vm_compute; exact I.
Qed.

Lemma dash_line : newline ∉ dash.
Proof. apply (bool_decide_unpack _). vm_compute. exact I. Qed.

Lemma heading_tail_line h : heading_ok h -> newline ∉ heading_tail h.
Proof.
  destruct h as [|d|d t]; cbn [heading_ok heading_tail]; [by intros _; apply not_elem_of_nil| |].
  - intros Hd. apply not_in_app; [apply dash_line|by apply date_line].
  - intros [Hd (t' & c & -> & _ & Ht)].
    repeat apply not_in_app; try apply dash_line; [by apply date_line|..]; set_solver.
Qed.

Lemma heading_line_line e : entry_ok e -> newline ∉ heading_line e.
Proof.
  intros ((_ & _ & Hv) & Hh & _). unfold heading_line.
  repeat apply not_in_app; [|done| |by apply heading_tail_line];
    apply (bool_decide_unpack _); vm_compute; exact I.
Qed.

(** Every heading matches [SECTION_RE], up to the end of its line. *)
Lemma section_match prev e s :
  at_bol prev = true -> entry_ok e ->
  exists ms, match_at SECTION_RE prev (heading_line e ++ newline :: s) = Some ms /\ concat ms = heading_line e.
Proof.
  intros Hb ((Hne & Hv & _) & Hh & _). pose proof (heading_tail_line _ Hh) as Ht.
  assert (Hc : accepts SECTION_RE prev [[]; u "## ["; e_version e; u "]"; heading_tail (e_heading e); []] (newline :: s)).
  { cbn [accepts SECTION_RE fits plus star concat app]. split_and!; try done.
    - by destruct (e_version e); [|simpl; lia].
    - by apply none_of_bracket.
    - lia.
    - by apply dot_run. }
  pose proof (match_at_complete _ _ _ _ Hc) as [ms Hms].
  assert (E : concat [[]; u "## ["; e_version e; u "]"; heading_tail (e_heading e); []] = heading_line e).
  { unfold heading_line. cbn [concat app]. by rewrite (right_id_L [] (++)). }
  rewrite E in Hms. exists ms. split; [done|].
  apply match_at_sound in Hms as (rest & E' & Ha).
  do 6 (destruct ms as [|? ms]; [naive_solver|]). destruct ms as [|]; [|naive_solver].
  cbn [accepts SECTION_RE fits plus star] in Ha.
  destruct Ha as ([-> _] & -> & (_ & _ & Hv') & -> & (_ & _ & Ht') & [-> He] & _).
  cbn [concat] in E' |- *. unfold heading_line in E'. rewrite <- !app_assoc in E'.
  apply (app_inv_head (u "## [")) in E'.
  apply bracket_unique in E' as [<- E']; [|done|by apply none_of_bracket].
  apply line_unique in E' as [<- _]; [|done|by apply dot_run|done|done].
  unfold heading_line. by rewrite (right_id_L [] (++)).
Qed.

Definition dark_head (s : text) : Prop := match s with c :: _ => uspace c = false | [] => True end.

(** A titled heading matches [HEADER_RE], with some of the white space that
    follows. *)
Lemma titled_match prev e d t R :
  at_bol prev = true -> entry_ok e -> e_heading e = Titled d t -> dark_head R ->
  exists ms w b, match_at HEADER_RE prev (heading_line e ++ newline :: e_block e ++ R) = Some ms
    /\ header_version ms = e_version e /\ header_date ms = d /\ header_title ms = t
    /\ concat ms = heading_line e ++ w /\ newline :: e_block e = w ++ b /\ is_run uspace w.
Proof.
  intros Hb ((Hne & Hv & _) & Hh & _) Ht HR. rewrite Ht in Hh. destruct Hh as [Hd Htok].
  assert (Hm : is_Some (match_at HEADER_RE prev (heading_line e ++ newline :: e_block e ++ R))).
  { destruct Hd as (y & m & dd & -> & Hy & Hm & Hdd & Ry & Rm & Rd). destruct Htok as (t0 & c & -> & Hc & Hn).
    pose (ms := [[]; u "## ["; e_version e; u "] — "; y; u "-"; m; u "-"; dd; dash; t0 ++ [c]; []; []]).
    assert (E : concat ms = heading_line e).
    { unfold heading_line, ms. rewrite Ht. cbn [concat heading_tail].
      change (u "] — ") with (u "]" ++ dash). rewrite !(right_id_L [] (++)). by rewrite <- !app_assoc. }
    rewrite <- E. apply match_at_complete. unfold ms.
    cbn [accepts HEADER_RE fits plus exactly plus_lazy star concat app]. split_and!; try done; try lia.
    - by destruct (e_version e); [|simpl; lia].
    - by apply none_of_bracket.
    - rewrite length_app. simpl. lia.
    - by apply dot_run. }
  destruct Hm as [ms Hms]. exists ms.
  destruct (header_sound _ _ _ Hms) as (v & y & m & dd & t' & w & rest & -> & E & Hv' & Hy & Hm & Hdd & _ & Hn & Hw & He).
  unfold heading_line in E. rewrite Ht in E. cbn [heading_tail] in E. rewrite <- !app_assoc in E.
  apply app_inv_head in E. apply bracket_unique in E as [Hve E]; [|done|done]. subst v. apply app_inv_head in E.
  apply date_split in E as [-> E]; [|done..]. apply app_inv_head in E. symmetry in E.
  apply title_unique in E as [-> E]; [|done..].
  assert (Hwb : exists b, newline :: e_block e = w ++ b).
  { change (newline :: e_block e ++ R) with ((newline :: e_block e) ++ R) in E.
    apply app_eq_inv in E as [(k & -> & E)|(k & E & _)]; [|by exists k].
    destruct k as [|c k]; [by exists []; rewrite !(right_id_L [] (++))|].
    exfalso. subst R. cbn [app dark_head] in HR. unfold is_run in Hw. rewrite Forall_forall in Hw.
    rewrite (Hw c) in HR; [done|]. set_solver. }
  destruct Hwb as [b Hwb]. exists w, b. split_and!; try done.
  - cbn [header_date take drop concat]. by rewrite (right_id_L [] (++)).
  - unfold heading_line. rewrite Ht. cbn [concat heading_tail]. change (u "] — ") with (u "]" ++ dash).
    rewrite !app_nil_r. by rewrite <- !app_assoc.
Qed.

(** *** Where the headings of a changelog are *)

Fixpoint starts (i : nat) (es : list entry) : list nat :=
  match es with
  | [] => []
  | e :: es' => i :: starts (i + length (render_entry e)) es'
  end.

Inductive found : nat -> list entry -> list (nat * list text * nat) -> Prop :=
| found_nil i : found i [] []
| found_untitled i e es l :
    match e_heading e with Titled _ _ => False | _ => True end ->
    found (i + length (render_entry e)) es l -> found i (e :: es) l
| found_titled i e es d t ms w b l :
    e_heading e = Titled d t ->
    header_version ms = e_version e -> header_date ms = d -> header_title ms = t ->
    newline :: e_block e = w ++ b -> is_run uspace w ->
    found (i + length (render_entry e)) es l ->
    found i (e :: es) ((i, ms, (i + length (heading_line e ++ w))%nat) :: l).

Lemma calm_after_heading e prev s : entry_ok e -> calm prev (newline :: e_block e) s.
Proof.
  intros (_ & _ & Hb). apply (calm_app prev [newline]); [apply calm_newline|].
  by apply calm_block.
Qed.

Lemma entry_bol prev e : entry_ok e -> at_bol (after prev (render_entry e)) = true.
Proof.
  intros (_ & _ & Hb & _). unfold render_entry. by rewrite after_app, after_cons.
Qed.

Lemma render_dark es : dark_head (render es).
Proof. by destruct es. Qed.

Lemma no_heading_at_end r prev : match_at (Bol :: Lit (u "## [") :: r) prev [] = None.
Proof. cbn [match_at]. by destruct (at_bol prev). Qed.

Lemma untitled_gap prev e s :
  at_bol prev = true -> entry_ok e -> match e_heading e with Titled _ _ => False | _ => True end ->
  no_match HEADER_RE prev (render_entry e) s.
Proof.
  intros Hb He Hu. pose proof (heading_line_line _ He) as Hl.
  assert (Hm : match_at HEADER_RE prev (render_entry e ++ s) = None).
  { unfold render_entry. rewrite <- (assoc_L (++)). apply untitled_no_match; [apply He|apply He|done]. }
  apply no_match_app. split; [|by apply calm_no_match, calm_after_heading].
  unfold render_entry in Hm. rewrite <- (assoc_L (++)) in Hm.
  destruct (heading_line e) as [|c l]; [by intros []|].
  apply no_match_cons. split; [done|]. by apply calm_no_match, calm_line.
Qed.

Lemma header_found es prev i g :
  Forall entry_ok es -> no_match HEADER_RE prev g (render es) -> at_bol (after prev g) = true ->
  found (i + length g) es (positions i (splits HEADER_RE 0 prev (g ++ render es)).1).
Proof.
  intros Hes. revert prev i g. induction es as [|e es IH]; intros prev i g Hg Hb.
  { cbn [render map concat] in *. rewrite app_nil_r, splits_search by done.
    rewrite search_None_intro; [constructor|done|apply no_heading_at_end]. }
  apply Forall_cons in Hes as [He Hes].
  assert (Hr : render (e :: es) = render_entry e ++ render es) by done. rewrite Hr in *.
  destruct (e_heading e) as [|d|d t] eqn:Hh.
  1, 2: apply found_untitled; [by rewrite Hh|];
    rewrite <- Nat.add_assoc, <- length_app, (assoc_L (++)); apply IH; [done| |];
      [apply no_match_app; split; [done|apply untitled_gap; by rewrite ?Hh]
      |rewrite after_app; by apply entry_bol].
  destruct (titled_match (after prev g) e d t (render es) Hb He Hh (render_dark es))
    as (ms & w & b & Hm & Hv & Hd & Ht & Hms & Hw & Hsp).
  assert (Htext : render_entry e ++ render es = concat ms ++ b ++ render es).
  { unfold render_entry. by rewrite Hms, Hw, <- !(assoc_L (++)). }
  assert (Hm' : match_at HEADER_RE (after prev g) (render_entry e ++ render es) = Some ms).
  { unfold render_entry. by rewrite <- (assoc_L (++)). }
  rewrite splits_search by done. rewrite (search_intro _ _ _ _ ms (b ++ render es)) by done.
  destruct (splits _ _ _ (b ++ render es)) as [l rest] eqn:Hl. cbn [fst positions].
  rewrite Hms. eapply found_titled; [done..|].
  replace l with (splits HEADER_RE 0 (after prev (g ++ concat ms)) (b ++ render es)).1 by (by rewrite Hl).
  replace (i + length g + length (render_entry e))%nat
    with (i + length g + length (heading_line e ++ w) + length b)%nat.
  2: { unfold render_entry. rewrite Hw, !length_app. lia. }
  assert (Hcalm : calm (after prev (g ++ concat ms)) b (render es)).
  { rewrite Hms, (assoc_L (++)), after_app. apply calm_suffix. rewrite <- Hw. by apply calm_after_heading. }
  apply IH; [done|by apply calm_no_match|].
  rewrite <- after_app, <- (assoc_L (++)), after_app, Hms, <- (assoc_L (++)), <- Hw.
  by apply entry_bol.
Qed.

Lemma section_starts es prev i g :
  Forall entry_ok es -> no_match SECTION_RE prev g (render es) -> at_bol (after prev g) = true ->
  map (fun '(m_start, _, _) => m_start) (positions i (splits SECTION_RE 0 prev (g ++ render es)).1)
  = starts (i + length g) es.
Proof.
  intros Hes. revert prev i g. induction es as [|e es IH]; intros prev i g Hg Hb.
  { cbn [render map concat] in *. rewrite app_nil_r, splits_search by done.
    by rewrite search_None_intro by (done || apply no_heading_at_end). }
  apply Forall_cons in Hes as [He Hes].
  assert (Hr : render (e :: es) = heading_line e ++ (newline :: e_block e) ++ render es).
  { cbn [render map concat]. unfold render_entry. by rewrite <- (assoc_L (++)). }
  rewrite Hr in *.
  destruct (section_match (after prev g) e (e_block e ++ render es) Hb He) as (ms & Hm & Hms).
  rewrite splits_search by done. rewrite <- Hms in Hg |- *.
  rewrite (search_intro _ _ _ _ ms ((newline :: e_block e) ++ render es)); [|done| |done].
  2: { by rewrite Hms. }
  destruct (splits _ _ _ ((newline :: e_block e) ++ render es)) as [l rest] eqn:Hl. cbn [fst positions map starts].
  f_equal.
  replace l with (splits SECTION_RE 0 (after prev (g ++ concat ms)) ((newline :: e_block e) ++ render es)).1
    by (by rewrite Hl).
  rewrite IH; [|done|by apply calm_no_match, calm_after_heading|].
  - f_equal. unfold render_entry. rewrite Hms, !length_app. lia.
  - rewrite <- after_app, <- (assoc_L (++)), after_app, Hms. by apply entry_bol.
Qed.

(** *** The sections of a changelog *)

Definition entry_section (e : entry) : option (text * section) :=
  match e_heading e with
  | Titled d t => Some (e_version e, (d, t, clean (e_block e)))
  | _ => None
  end.
Definition sections_of (es : list entry) : list (text * section) :=
  fold_left (fun acc '(version, x) => assoc_set version x acc) (omap entry_section es) [].

Lemma tstrip_spaces w b : is_run uspace w -> tstrip (w ++ b) = tstrip b.
Proof.
  intros Hw. unfold tstrip. f_equal. induction Hw as [|c w Hc _ IH]; [done|]. simpl. by rewrite Hc.
Qed.

Lemma clean_spaces w b : is_run uspace w -> clean (w ++ b) = clean b.
Proof. intros Hw. unfold clean. by rewrite tstrip_spaces. Qed.

Lemma render_app a b : render (a ++ b) = render a ++ render b.
Proof. unfold render. by rewrite map_app, concat_app. Qed.

Lemma render_entry_pos e : (0 < length (render_entry e))%nat.
Proof. unfold render_entry, heading_line. simpl. lia. Qed.

(** The boundary after an entry is the start of the next one. *)
Lemma find_next i0 es1 e es :
  List.find (fun b => i0 + length (render es1) <? b)%nat (starts i0 (es1 ++ e :: es))
  = match es with [] => None | _ => Some (i0 + length (render es1) + length (render_entry e))%nat end.
Proof.
  revert i0. induction es1 as [|e1 es1 IH]; intros i0.
  - cbn [app starts List.find render map concat length]. rewrite Nat.add_0_r, Nat.ltb_irrefl.
    destruct es as [|e2 es]; [done|]. cbn [starts List.find].
    pose proof (render_entry_pos e). by rewrite (proj2 (Nat.ltb_lt _ _)) by lia.
  - cbn [app starts List.find]. rewrite (proj2 (Nat.ltb_ge _ _)) by lia.
    change (render (e1 :: es1)) with (render_entry e1 ++ render es1). rewrite length_app.
    rewrite !Nat.add_assoc. apply IH.
Qed.

Lemma slice_app a b c : slice (length a) (length a + length b) (a ++ b ++ c) = b.
Proof. unfold slice. by rewrite drop_app_length, Nat.add_comm, Nat.add_sub, take_app_length. Qed.

Lemma add_sections pre es1 es2 l acc :
  let s := pre ++ render (es1 ++ es2) in
  found (length pre + length (render es1)) es2 l ->
  fold_left (add_section s (starts (length pre) (es1 ++ es2))) l acc
  = fold_left (fun acc '(version, x) => assoc_set version x acc) (omap entry_section es2) acc.
Proof.
  intros s Hf. subst s. remember (length pre + length (render es1))%nat as i eqn:Hi.
  revert es1 Hi acc. induction Hf as [i|i e es l Hu Hf IH|i e es d t ms w b l Hh Hv Hd Ht Hw Hsp Hf IH];
    intros es1 Hi acc; [done| |];
    (assert (Hstep : (i + length (render_entry e) = length pre + length (render (es1 ++ [e])))%nat);
      [rewrite render_app, length_app; cbn [render map concat]; rewrite app_nil_r; lia|]);
    specialize (IH (es1 ++ [e]) Hstep); rewrite <- (assoc_L (++)) in IH; cbn [app] in IH.
  - assert (Hn : entry_section e = None) by (unfold entry_section; by destruct (e_heading e)).
    cbn [omap list_omap]. rewrite Hn. apply IH.
  - assert (Hs : entry_section e = Some (e_version e, (d, t, clean (e_block e)))).
    { unfold entry_section. by rewrite Hh. }
    cbn [fold_left omap list_omap]. rewrite Hs. cbn [fold_left]. rewrite <- IH. f_equal. unfold add_section. rewrite Hi, find_next.
    assert (Hslice : slice (length pre + length (render es1) + length (heading_line e ++ w))
      (default (length (pre ++ render (es1 ++ e :: es)))
        match es with
        | [] => None
        | _ => Some (length pre + length (render es1) + length (render_entry e))%nat
        end) (pre ++ render (es1 ++ e :: es)) = b).
    { assert (E : pre ++ render (es1 ++ e :: es) = (pre ++ render es1 ++ heading_line e ++ w) ++ b ++ render es).
      { rewrite render_app. change (render (e :: es)) with (render_entry e ++ render es).
        unfold render_entry. rewrite Hw. by rewrite <- !app_assoc. }
      rewrite E at 2. rewrite <- (slice_app (pre ++ render es1 ++ heading_line e ++ w) b (render es)) at 2.
      assert (He : length (render_entry e) = (length (heading_line e) + length w + length b)%nat).
      { unfold render_entry. rewrite Hw, !length_app. lia. }
      f_equal; [rewrite !length_app; lia|].
      destruct es; cbn [default id]; [rewrite E|]; rewrite ?He, !length_app; [cbn [render map concat length]|]; lia. }
    rewrite Hslice, Hv, Hd, Ht. do 2 f_equal.
    rewrite <- (clean_spaces w b), <- Hw by done. by apply (clean_spaces [newline]); constructor.
Qed.

(** *** The divider *)

Definition tidy (body : text) : Prop :=
  (exists c s, body = c :: s /\ uspace c = false) /\ (exists s c, body = s ++ [c] /\ uspace c = false).

Lemma trstrip_snoc s c : uspace c = false -> trstrip (s ++ [c]) = s ++ [c].
Proof.
  intros Hc. unfold trstrip. rewrite reverse_snoc. cbn [drop_while]. rewrite Hc.
  by rewrite reverse_cons, reverse_involutive.
Qed.

Lemma trstrip_spaces s w : is_run uspace w -> trstrip (s ++ w) = trstrip s.
Proof.
  intros Hw. unfold trstrip. rewrite reverse_app. f_equal.
  apply Forall_reverse in Hw. induction Hw as [|c v Hc _ IH]; [done|]. simpl. by rewrite Hc.
Qed.

Definition divider : text := [newline; newline] ++ u "---".

(** No divider starts in a body that text follows up to its end. *)
Lemma divider_quiet body : tidy body -> no_match DIVIDER_RE None body divider.
Proof.
  intros [_ (s0 & z & -> & Hz)] b1 c b2 E. destruct (match_at _ _ _) as [ms|] eqn:Hm; [exfalso|done].
  apply match_at_sound in Hm as (rest & E' & Ha).
  do 4 (destruct ms as [|? ms]; [naive_solver|]). destruct ms as [|]; [|naive_solver].
  cbn [accepts DIVIDER_RE fits star at_least] in Ha.
  destruct Ha as ((_ & _ & Hn) & (_ & _ & Hd) & (_ & _ & Hw) & [-> He] & _).
  rewrite Forall_forall in Hn, Hd, Hw. cbn [concat app] in E', He.
  assert (Hx : exists x, c :: b2 = x ++ [z]).
  { destruct b2 as [|d b2 _] using rev_ind; [exists []; by apply app_inj_tail in E as [_ ->]|].
    exists (c :: b2). rewrite app_comm_cons, (assoc_L (++)) in E. by apply app_inj_tail in E as [_ ->]. }
  destruct Hx as [x Hx]. change (c :: b2 ++ divider) with ((c :: b2) ++ divider) in E'. rewrite Hx in E'.
  assert (Hl : last (t ++ t0 ++ t1 ++ rest) = Some 45%N).
  { rewrite app_nil_r, <- !app_assoc in E'. rewrite <- E', last_app. done. }
  rewrite app_nil_r, <- !app_assoc in E'.
  destruct rest as [|d [|]]; [|by rewrite !last_app in Hl; simplify_eq/=|done].
  rewrite app_nil_r in E', Hl. destruct t1 as [|d t1 _] using rev_ind.
  2: { rewrite !last_app in Hl. simpl in Hl. injection Hl as ->. specialize (Hw 45%N). set_solver. }
  rewrite app_nil_r in E'. apply app_eq_inv in E' as [(k & -> & E')|(k & E1 & E')].
  - specialize (Hd newline). rewrite E' in Hd. discriminate Hd. set_solver.
  - destruct k as [|d k].
    + specialize (Hd newline). simpl in E'. rewrite <- E' in Hd. discriminate Hd. set_solver.
    + injection E' as <- E'. specialize (Hn z). rewrite E1 in Hn.
      assert (Hnz : one_of [newline] z = true) by (apply Hn; set_solver).
      unfold one_of in Hnz. simpl in Hnz. rewrite orb_false_r in Hnz. apply N.eqb_eq in Hnz as ->. done.
Qed.

Lemma tidy_strip body s : tidy body -> drop_while uspace (body ++ s) = body ++ s.
Proof. intros [(c & s0 & -> & Hc) _]. cbn [app drop_while]. by rewrite Hc. Qed.

Lemma tidy_rstrip body : tidy body -> trstrip body = body.
Proof. intros [_ (s & c & -> & Hc)]. by apply trstrip_snoc. Qed.

(** The divider at the end of a body is removed, with the white space around
    it. *)
Lemma clean_divider body w : tidy body -> is_run uspace w -> clean (body ++ divider ++ w) = body.
Proof.
  intros Hb Hw. unfold clean.
  assert (Hs : tstrip (body ++ divider ++ w) = body ++ divider).
  { unfold tstrip. rewrite tidy_strip by done. rewrite (assoc_L (++)), trstrip_spaces by done.
    change divider with ([newline; newline; 45%N; 45%N] ++ [45%N]).
    rewrite (assoc_L (++)). by apply trstrip_snoc. }
  rewrite Hs. unfold remove. rewrite splits_search by done.
  assert (Hm : match_at DIVIDER_RE (after None body) divider = Some [[newline; newline]; u "---"; []; []]).
  { by vm_compute. }
  rewrite (search_intro _ _ _ _ _ [] (divider_quiet _ Hb) Hm) by done.
  cbn [splits map concat fst]. rewrite !app_nil_r. by apply tidy_rstrip.
Qed.

(** C38: a changelog is parsed back to its entries.  In a changelog of
    entries whose text has no line that starts a section, exactly the dated
    and titled entries are sections, each with its version, date and title,
    and with a body that ends where the next heading starts, with a title or
    without; the body of an entry written with blank lines and a divider
    around it is its text. *)
Theorem changelog_sections preamble es :
  block_ok preamble -> Forall entry_ok es ->
  parse_sections (preamble ++ render es) = sections_of es
  /\ forall body w w', tidy body -> is_run uspace w -> is_run uspace w' ->
     clean (w ++ body ++ divider ++ w') = body.
Proof.
  intros Hp Hes. assert (Hb : at_bol (after None preamble) = true).
  { destruct Hp as [Hp _]. by rewrite at_bol_after. }
  split; [|intros body w w' Hbody Hw Hw'; rewrite clean_spaces by done; by apply clean_divider].
  unfold parse_sections, finditer.
  rewrite (section_starts es None 0) by (done || by apply calm_no_match, calm_block).
  pose proof (header_found es None 0 preamble Hes) as Hf.
  rewrite Nat.add_0_l in Hf |- *.
  apply (add_sections preamble []); rewrite Nat.add_0_r. apply Hf; [|done].
  by apply calm_no_match, calm_block.
Qed.

(** ** Whole runs *)

Definition notes_path (version : text) : path := OUT_DIR ++ [u "v" ++ version ++ u ".md"].

(** A run of the release notes generator.  Whatever its outcome, it
    changes nothing but the notes of its version and the directories above
    them; a refusal (status 1) changes nothing at all; and success means that
    the version is one, that the changelog has a section for it, and that the
    notes are the body of that section, which is not empty, and the footer. *)
Theorem release_notes_run arg fs r fs' :
  main [arg] fs = (r, fs') ->
  let version := tremoveprefix (u "v") arg in
  (forall p, ~ p `prefix_of` notes_path version -> fs' !! p = fs !! p)
  /\ (r = Ok 1%Z -> fs' = fs)
  /\ (forall n, r = Ok n -> n = 0%Z \/ n = 1%Z)
  /\ (r = Ok 0%Z ->
      fullmatch VERSION_RE version = true
      /\ exists changelog date title body,
           fs !! CHANGELOG ROOT = Some (File changelog)
           /\ assoc version (parse_sections (universal_newlines changelog)) = Some (date, title, body)
           /\ body <> []
           /\ fs' !! notes_path version
              = Some (File (body ++ [newline; newline] ++ deploy_footer version))).
Proof.
  intros H version. cbn [main] in H. fold version in H.
  destruct (fullmatch VERSION_RE version) eqn:Hv; cbn [negb] in H; [|injection H as <- <-; naive_solver].
  unfold mbind, M_bind in H. unfold read_text in H.
  destruct (fs !! CHANGELOG ROOT) as [[|c|]|] eqn:Hc; try (injection H as <- <-; naive_solver).
  destruct (assoc version _) as [[[d t] body]|] eqn:Hs; [|injection H as <- <-; naive_solver].
  destruct (bool_decide (body = [])) eqn:Hb; [injection H as <- <-; naive_solver|].
  apply bool_decide_eq_false in Hb.
  assert (Hpre : forall p, p `prefix_of` OUT_DIR -> p `prefix_of` notes_path version).
  { intros p Hp. etrans; [done|]. apply prefix_app_r, reflexivity. }
  assert (Hmk : forall p, ~ p `prefix_of` notes_path version -> (mkdir_parents OUT_DIR fs).2 !! p = fs !! p).
  { intros p Hp. apply mkdir_parents_writes. intros Hq. by apply Hp, Hpre. }
  destruct (mkdir_parents OUT_DIR fs) as [[[]|e] fs1] eqn:Hdir; cbn [snd] in Hmk; [|injection H as <- <-; naive_solver].
  fold (notes_path version) in H. unfold write_text in H.
  destruct (_ || _); [injection H as <- <-; naive_solver|]. injection H as <- <-.
  split; [|split; [done|split; [naive_solver|]]].
  - intros p Hp. rewrite <- Hmk by done. apply lookup_insert_ne. intros <-. by apply Hp.
  - intros _. split; [done|]. exists c, d, t, body. split_and!; try done. apply lookup_insert_eq.
Qed.
End notes.

Definition demo_preamble : text := u "# Changelog

---

".
Definition demo_entries : list entry := [
  {| e_version := u "Unreleased"; e_heading := Plain; e_block := u "
- pending

---

" |};
  {| e_version := u "1.2.10"; e_heading := Titled (u "2026-11-05") (u "Fix `a[0]`: [x](y)"); e_block := u "

### Fixed
- one — two

### Changed
- three

---

" |};
  {| e_version := u "1.2.10-b1"; e_heading := Dated (u "2026-11-01"); e_block := u "- beta

" |};
  {| e_version := u "1.2.9"; e_heading := Titled (u "2026-10-01") (u "Older"); e_block := [] |} ].

Definition demo_changelog : text := demo_preamble ++ render demo_entries.

#[local] Instance no_decimal : UnicodeData := {| decimal _ := false |}.

Example parse_demo : parse_sections demo_changelog =
  [(u "1.2.10", (u "2026-11-05", u "Fix `a[0]`: [x](y)", u "### Fixed
- one — two

### Changed
- three"));
   (u "1.2.9", (u "2026-10-01", u "Older", []))].
Proof. vm_compute. reflexivity. Qed.

(** Trailing white space after a title belongs to no group. *)
Example parse_trailing : parse_sections (u "## [1.0.0] — 2026-01-02 — A title  	
x
## [next]
y") = [(u "1.0.0", (u "2026-01-02", u "A title", u "x"))].
Proof. vm_compute. reflexivity. Qed.

(** ** The theorems at this changelog *)

Fixpoint calm_lines (bol : bool) (s : text) : bool :=
  match s with
  | [] => true
  | c :: t => negb (bol && bool_decide (is_Some (cut_prefix (u "## [") s))) && calm_lines (N.eqb c newline) t
  end.

Lemma calm_lines_sound prev s :
  calm_lines (at_bol prev) s = true ->
  forall x y, s = x ++ u "## [" ++ y -> at_bol (after prev x) = false.
Proof.
  intros H x y E. revert prev s E H. induction x as [|c x IH]; intros prev s -> H.
  - change (after prev []) with prev. destruct (at_bol prev); [|done].
    change (u "## [") with [35; 35; 32; 91]%N in H. cbn [app calm_lines] in H.
    rewrite bool_decide_eq_true_2 in H; [done|]. apply (mk_is_Some _ y), cut_prefix_spec. done.
  - cbn [app calm_lines] in H. apply andb_prop in H as [_ H]. rewrite after_cons.
    by apply (IH (Some c) _ eq_refl).
Qed.

Lemma block_ok_check b : at_bol (after (Some newline) b) && calm_lines true b = true -> block_ok b.
Proof. intros [H1 H2]%andb_prop. split; [done|]. by apply (calm_lines_sound (Some newline)). Qed.

Lemma none_of_sound l c : none_of l c = true -> c ∉ l.
Proof.
  intros Hc Hin. unfold none_of, one_of in Hc. apply negb_true_iff in Hc.
  rewrite <- not_true_iff_false in Hc. apply Hc, existsb_exists. exists c.
  split; [by apply list_elem_of_In|apply N.eqb_refl].
Qed.

Lemma version_ok_check v :
  negb (bool_decide (v = [])) && none_of v 93 && none_of v newline = true -> version_ok v.
Proof.
  intros [[H1 H2]%andb_prop H3]%andb_prop. apply negb_true_iff, bool_decide_eq_false in H1.
  split; [done|]. split; by apply none_of_sound.
Qed.

Lemma date_ok_check y m dd :
  (length y =? 4)%nat && (length m =? 2)%nat && (length dd =? 2)%nat
  && forallb udigit (y ++ m ++ dd) = true -> date_ok (y ++ u "-" ++ m ++ u "-" ++ dd).
Proof.
  intros [[[Hy%Nat.eqb_eq Hm%Nat.eqb_eq]%andb_prop Hd%Nat.eqb_eq]%andb_prop H]%andb_prop.
  rewrite !forallb_app in H. apply andb_prop in H as [H1 [H2 H3]%andb_prop].
  assert (Hrun : forall s, forallb udigit s = true -> is_run udigit s).
  { intros s Hs. rewrite forallb_forall in Hs. apply Forall_forall. intros x Hx. apply Hs.
    by apply list_elem_of_In. }
  exists y, m, dd. auto 10.
Qed.

Lemma title_ok_check t c : negb (uspace c) && none_of (t ++ [c]) newline = true -> title_ok (t ++ [c]).
Proof.
  intros [Hc%negb_true_iff Ht]%andb_prop. exists t, c. split; [done|]. split; [done|]. by apply none_of_sound.
Qed.

Lemma demo_preamble_ok : block_ok demo_preamble.
Proof. apply block_ok_check. vm_compute. reflexivity. Qed.

Lemma demo_entries_ok : Forall entry_ok demo_entries.
Proof.
  unfold demo_entries. repeat apply Forall_cons_2; try apply Forall_nil_2;
    (split; [apply version_ok_check; vm_compute; reflexivity|]);
    (split; [|apply block_ok_check; vm_compute; reflexivity]); cbn [e_heading heading_ok].
  - done.
  - split; [apply (date_ok_check (u "2026") (u "11") (u "05"))|apply (title_ok_check (u "Fix `a[0]`: [x](y") 41)];
      vm_compute; reflexivity.
  - apply (date_ok_check (u "2026") (u "11") (u "01")). vm_compute. reflexivity.
  - split; [apply (date_ok_check (u "2026") (u "10") (u "01"))|apply (title_ok_check (u "Olde") 114)];
      vm_compute; reflexivity.
Qed.

Lemma demo_body_tidy : tidy (u "text").
Proof. split; [exists 116%N, (u "ext")|exists (u "tex"), 116%N]; by vm_compute. Qed.

Lemma changelog_sections_witness :
  parse_sections demo_changelog = sections_of demo_entries
  /\ clean ([newline] ++ u "text" ++ divider ++ [newline; newline]) = u "text".
Proof.
  destruct (changelog_sections demo_preamble demo_entries demo_preamble_ok demo_entries_ok) as [H1 H2].
  split; [exact H1|].
  apply (H2 (u "text") [newline] [newline; newline] demo_body_tidy);
    repeat (apply Forall_cons_2; [reflexivity|]); apply Forall_nil_2.
Defined.

Definition demo_repo : FS :=
  list_to_map [(demo_root, Dir); (CHANGELOG demo_root, File demo_changelog)].
Definition demo_run : result Z * FS := main demo_root [u "v1.2.10"] demo_repo.

Lemma release_notes_run_witness :
  demo_run.1 = Ok 0%Z
  /\ demo_run.2 !! CHANGELOG demo_root = demo_repo !! CHANGELOG demo_root
  /\ exists body, body <> []
     /\ demo_run.2 !! notes_path demo_root (u "1.2.10")
        = Some (File (body ++ [newline; newline] ++ deploy_footer (u "1.2.10"))).
Proof.
  assert (H0 : demo_run.1 = Ok 0%Z) by (vm_compute; reflexivity). split; [exact H0|].
  assert (E : main demo_root [u "v1.2.10"] demo_repo = (demo_run.1, demo_run.2)).
  { change (main demo_root [u "v1.2.10"] demo_repo) with demo_run. apply surjective_pairing. }
  destruct (release_notes_run demo_root (u "v1.2.10") demo_repo demo_run.1 demo_run.2 E) as (Hframe & _ & _ & Hok).
  assert (Ev : tremoveprefix (u "v") (u "v1.2.10") = u "1.2.10") by (vm_compute; reflexivity).
  rewrite Ev in Hframe, Hok. split.
  - apply Hframe. intros [k Ek]. apply (f_equal (fun l => l !! 1%nat)) in Ek. vm_compute in Ek. discriminate Ek.
  - destruct (Hok H0) as (_ & c & d & t & body & _ & _ & Hb & Hn). exists body. split; [exact Hb|exact Hn].
Defined.
